(* ===== verification/_CoqProject ===== *)
-Q . S2P
Prelude.v
Text.v
Json.v
Format.v
Regex.v
Extract.v
Data.v
Sorting.v
Scorer.v
Dynamic.v
Store.v
StoreSpec.v
Search.v
Report.v
Pipeline.v
Wire.v
Crew.v
Cli.v
