(* ===== verification/Prelude.v ===== *)
(** * job_seeker: a verification development

    The program (netors/job_seeker) is a pipeline that searches job boards,
    scores the postings against a user profile, stores them in a local
    SQLite database and renders a report.  Its logic lives in
    [src/job_seeker/tools/job_search_tools.py]: the extraction utilities
    (regular expressions and substring tests over titles and snippets), the
    match scorer, the persistence store, the search aggregator and the
    report renderer.  [crew.py] wires these tools to language-model agents
    and runs them as a sequence of tasks; [main.py] is the command line.

    ** The files

    - [Prelude] (this file): the language layer shared by all components.
      Python exceptions are values ([exn]); a computation that may raise is
      [result] with stdpp's monad notations; a key of a decoded JSON object
      is [field] (absent, [null], or a value), read with [get] as
      [dict.get] does and used with [need], which raises what Python raises
      when the value is [None].  Tactics ([bind_inv]), the hint databases
      [py] and [pyrw], and lemmas on [result], [mapM] and lists.
    - [Text]: Python's [str] as [list ascii] with the methods the tools
      call ([lower], [in], [find], [split], [join], [replace], [strip],
      [startswith], [int], [str]) and their laws.
    - [Json]: a decoded JSON value of any shape ([json]) and the Python
      operations the code applies to one ([py_get] for [dict.get],
      [py_lower], [py_iter], [py_set], [number], [json_truthy],
      [set_item]), each with the exception Python raises on a value of
      another type.
    - [Regex]: the regular expressions of the tools.  [re] is the syntax,
      [m] a backtracking matcher in continuation-passing style with the
      priorities of Python's [re] (greedy repetition, alternatives and
      start positions from the left), [matches] the declarative meaning.
      [m_sound] and [m_complete] relate the two; [search] and [findall]
      are built on [m].
    - [Extract]: [_extract_company_from_title],
      [_extract_location_from_snippet], [_extract_date_from_snippet],
      [_extract_salary_from_snippet], [_extract_job_type_from_snippet],
      [_extract_skills], [_extract_experience_requirement] and
      [_extract_salary], each with the source's rules in the source's
      order.
    - [Data]: the decoded JSON objects the tools exchange, [job] and
      [profile], and the reply of a tool ([reply], [guarded]): its payload
      or the message of its [except Exception] handler.
    - [Sorting]: the contract of a stable sort ([sorts]), the proof that it
      determines the result, and an insertion sort that meets it; it stands
      for [list.sort(key=..., reverse=True)] and for [ORDER BY ... DESC].
    - [Scorer]: [_calculate_match_score] ([raw_score] is the sum before
      [min(score, 100)]) and [job_evaluation_tool].
    - [Dynamic]: [_calculate_match_score] and [job_evaluation_tool] once
      more, on values of any shape ([raw_score_dyn],
      [_calculate_match_score_dyn], [job_evaluation_tool_dyn]): the
      statements of the source in their order, each read of a key
      followed by the Python operation the code applies to what it read.
      [job_evaluation_tool_entry] is the tool from its arguments, each
      decoded when it is a string and taken as it is otherwise
      ([decoded]; [json.loads] on a string is a parameter).
      The decoders [job_of_json] and [profile_of_json] say which values
      have the shape that [Scorer] assumes.
    - [Store]: [_init_database], [_store_jobs], [_retrieve_jobs],
      [_update_job], [_delete_job] and [database_tool] over a model of the
      table: the database file is a value of [db] that every operation
      takes and returns, and [step] is one call of the tool.
    - [StoreSpec]: what the store promises, apart from SQL.  The abstract
      store [astore] is a finite map from id to posting (stdpp's [gmap])
      with the counter; [astep] gives each action of the tool its meaning
      on it; [abs] reads a table as an abstract store.
    - [Search]: [job_search_tool], [_parse_serper_results] and
      [_search_site].  The search provider is a parameter ([provider]): for
      the n-th site and its query, the answer or the exception raised.
      The state of the loop is [search_outcome]: the postings so far and
      the seconds slept.  The [for] loop is the fold [search_sites] and,
      one round at a time, the relation [loop_step] on [loop_state] (the
      sites pending and searched, the outcome so far).
    - [Format]: the format specifications [:,] ([fmt_thousands]) and
      [:.1f] ([fmt_1f]) of the report.
    - [Report]: [report_generation_tool] and
      [_generate_markdown_report]; the report is the text the f-strings
      produce, line by line, or the exception of the first expression
      that fails on a [null].
    - [Pipeline]: [crew.py].  The agents with their tools and the tasks
      with their contexts are data ([tools], [context], [tasks]);
      [load_user_profile] takes the outcome of reading the profile file
      as a parameter ([profile_path] is where it looks): the two
      exceptions it catches, the decoded object, or another exception,
      which it lets through;
      [run_job_search] is modelled up to the start of the crew and
      returns the inputs it starts the crew with.
    - [Wire]: the tools at their boundary, as the agents call them: with
      JSON text.  [job_evaluation_tool_json], [report_generation_tool_json]
      and [database_tool_json] decode their arguments where the code
      does, inside the [try], and encode what they return.  The JSON
      library is the interface [Codec] (a printer and a parser for the
      values of one shape); [wire_action] is the decoded action of a
      call.  A codec that computes is built with Ceres (S-expressions
      in the place of JSON), for the examples.
    - [Crew]: a run of the crew.  The tasks are run in the order of their
      declaration ([crew_kickoff], the fold of [run_task]); the agent of a
      task asks the language model what to do next, calls one of its
      tools on the [world] (the database, the seconds paused, the files
      written) or takes the answer ([execute]), which becomes the output
      of the task, is handed to the tasks that have it in their context
      ([brief]) and is written to the output file of the task.  The
      language model is a parameter ([language_model]: a function from
      what an agent has before it to what it does next), and so are the
      assignment of agents to tasks, which is in the configuration of
      the crew and not in its code ([agent_of]; [configured] is the one
      the names suggest), the provider and the clock at each call
      ([surroundings]) and the number of calls an agent may make.
    - [Cli]: [main.py].  [run], [search_custom], [update_profile],
      [view_results], [train], [replay], [test], [help] and the dispatch
      [main] take [sys.argv] as a list and return what they did ([ran]):
      the calls to the crew, the notices of their branches and how they
      ended.  The crew, the JSON decoder and the file system are
      parameters: of the decoder only the first character of a JSON text
      is assumed (the class [Decoder]); of the file system, which [path]
      exists ([exists_]) and the lines of a file ([read_lines]).
      [int_of_text] is [int] on ASCII text.

    ** What is proved

    - Scorer: the score lies in [0, 100] and is the sum of the five
      parts, the cut at 100 never acting ([score_bounds]); it raises
      exactly on the first [null] it reads and is defined otherwise
      ([score_raises]); the tool returns the postings stamped, sorted
      by falling score, stably ([job_evaluation_tool_stable]), or fails
      as a whole ([job_evaluation_tool_Failed]); the score respects the
      equivalence of profiles that list the same skills and locations in
      another order ([score_respects_profile_equiv], by setoid rewriting
      with the [Proper] instances of the parts).
    - Dynamic: on arguments of the expected shape, given as text or as
      values, the scorer and the tool on any values are those of
      [Scorer], up to the equality of rational numbers
      ([job_evaluation_tool_dyn_refines], from
      [raw_score_dyn_refines] and [stable_sort_related]: related lists
      are sorted alike).  On any values the score stays within 0 and 100,
      nothing but [AttributeError] and [TypeError] is raised, the reply
      is sorted, and the shape of [job_data] decides how the tool ends
      before a posting is read; skills given as one string are scored as
      no skills ([job_evaluation_tool_dyn_spec]).
    - Store: every sequence of calls keeps the table well-formed
      ([reachable_ok]: ids increase, stay within the counter, urls are
      unique); an id is never handed out twice
      ([deleted_id_never_returns]); a stored posting is read back
      ([store_retrieve_roundtrip]); a duplicate url replaces the old row
      ([insert_or_replace_replaces]); retrieval filters, sorts and limits
      as its query says ([_retrieve_jobs_spec]); an update that raises
      changes nothing and one that returns has rewritten one row or none
      ([_update_job_spec]); the error paths of each operation.
    - StoreSpec: the table refines the abstract store.  Each call of
      [database_tool] on a well-formed database is a step of the abstract
      store with the same reply ([database_tool_refines], from one lemma
      per operation: [a_insert_abs], [a_delete_abs], [a_update_abs],
      [a_selected_abs]), hence every sequence of calls is a sequence of
      abstract steps ([runs_refine]).  The abstract operations have the
      laws of a map ([a_insert_lookup], [a_delete_lookup],
      [a_update_lookup]).
    - Extract: each function is characterised by what it finds in the
      text (substring occurrences, or the leftmost match of the first
      matching pattern), with concrete snippets where the patterns do not
      do what their comments say; the job type and the company are
      decided by the first rule that applies ([ordered_rules_spec]).  A range of two dollar amounts written
      with thousands separators is parsed to their average
      ([_extract_salary_range]): the matcher is run on the symbolic text,
      group by group ([m_amount], [findall_range]).  The years of
      experience are the value of a whole number of the text, the one
      before the words of the leftmost match
      ([_extract_experience_requirement_spec]): the capture of a pattern
      that begins with its group is what the group matched
      ([search_head_group]).
    - Search: the tool returns, site by site, the parsed answer or the
      mock postings when the provider raised, and sleeps once per answered
      site ([job_search_tool_spec]); every posting it returns has all its
      keys ([job_search_tool_complete]); an answer written in the
      provider's layout is parsed back into the postings of its first
      ten sections ([parse_render_answer]); the loop never stalls: a round is
      possible while a site is pending, whatever the provider does, and
      after one round per site the state holds the result of the tool
      ([job_search_tool_reaches_every_site]).
    - Regex: besides soundness and completeness of the matcher, that its
      fuel is never used up ([matcher_fuel_enough]).
    - Report: the tool fails exactly on the [null]s listed by
      [report_error], and otherwise its text is the header, the first ten
      postings of score 70 or more in input order, and the closing part
      ([report_generation_tool_cases]); the salary shown reads back as the number and a score shown is within
      0.05 of the score ([report_numbers], from [fmt_1f_error]).
    - Wire: a call of the database tool with data that decodes is the
      call of [Store] on the decoded action; with data that does not, it
      answers with the error, after [store] and [retrieve] created the
      table; no failed call changes a row ([database_tool_json_spec]).
      The tools run on each other's text as they run on each other's
      values, for every value the codec reads back
      ([tools_compose_json]).
    - Pipeline: the components fit ([search_results_flow]): what the
      search tool returns is evaluated, stored and reported without a
      failure, for every provider and every profile without [null]s, and
      the report, which does not sort, shows the best postings because
      the evaluation sorted them ([shown_best]); the
      tasks run in an order of their context graph ([context_before]);
      [run_job_search] refuses an empty profile and never starts the crew
      without sites ([run_job_search_spec]).
    - Crew: for every language model, every assignment of agents, every
      provider and clock.  A run keeps the table well-formed, and a task
      whose agent has no database tool leaves the database as it found
      it ([crew_kickoff_database]); a run ends with every task answered,
      in order, after at most [max_iter] calls each, a call being
      answered by a tool exactly when the agent has it, and writes the
      two output files ([crew_kickoff_answers]); the report and the
      strategy depend neither on the database nor on what the storage
      task does: two runs that differ only there give the other tasks
      the same prompts, calls, replies and answers
      ([report_ignores_database], from [execute_agree] and
      [brief_same_view]: no task has the storage task in its context, and
      no tool but the database tool reads the database).  For the
      language model that does what the names of the tasks say
      ([scripted]), the run is the tools applied to each other's output:
      the outputs, the database and the files are those of
      [search_results_flow] ([scripted_run]).
    - Cli: through the dispatch no function sees its arguments, since
      [sys.argv[1]] is the command ([main_ignores_arguments]); the custom
      query of [search_custom] changes no search
      ([search_custom_query_unused]); [run] ends in an exception before
      the search on a profile without expected salary
      ([run_summary_raises]); [view_results] looks for the files the
      tasks and the store write and previews at most 20 lines of the
      report, and [update_profile] looks for the profile in another
      directory than [load_user_profile] ([file_commands_spec]).

    ** Bounds and modelling choices

    - Text is ASCII.  [lower], [\d], [\s] and [re.IGNORECASE] agree with
      Python on ASCII input; other code points are outside the model.
    - The matcher recurses on the pattern; a star runs [star_loop] with
      fuel [length s], enough because an iteration that consumes nothing
      is cut ([matcher_fuel_enough]: more fuel changes nothing).  [split],
      [replace] and [findall] take [length s] (or one more) rounds, each
      round consuming a character; [join_split] and [split_fuel_enough]
      show the fuel is never exhausted.
    - Floats are exact rationals ([Q]).  The bounds of the score hold for
      the floats too, since rounding is monotone and 0 and 100 are floats;
      equalities between scores hold up to rounding.  [:.1f] rounds the
      rational to the nearest tenth, ties to even; Python rounds the
      binary float, so the two differ on a tie written in decimal that no
      float holds (72.35 is shown as 72.3 by Python, 72.4 here).  The
      error bound of [fmt_1f_error] holds for both.
    - [max_results] and [limit] are integers ([Z]); a provider answer is
      kept to ten sections and the mock yields at most five postings,
      whatever [max_results] is.  [time.sleep(1)] is counted in [slept],
      not waited for.
    - SQLite integers are unbounded here (64-bit there).  Rows of equal
      score are returned in id order, which SQLite does not promise.
    - An update names columns by [text_column], [SetScore] and
      [SetApplied] with values of the column's type; assignments to [id]
      and [created_at] and values of another type are outside the model.
    - A decoded object ([JObj]) lists each key once, in the order of its
      first appearance, as a [dict] does; a number is a rational, so the
      [int] and [float] of [json.loads] are one type, which agrees with
      Python wherever the scorer compares or adds them.
    - The clock ([datetime.now()], [CURRENT_TIMESTAMP]) is a parameter.
    - An agent makes at most [max_iter] calls before it has to answer
      ([execute] takes it as fuel): the agent framework bounds the calls
      of an agent, and with any bound a run ends.  The surroundings of a
      call are given by task and by the number of the call within the
      task, so that what one task does cannot move the clock of another.
    - A file name is [FromPackage steps] (steps from the directory of the
      module, as [os.path.join(os.path.dirname(__file__), ...)] builds
      it) or [InWorkingDir name]; [resolve] follows the steps from a
      directory, [..] leading to the parent.  Symbolic links are outside.

    ** Not modelled

    The JSON library itself: [Codec] says what the tools do with a text
    that decodes or does not, never which text decodes.  JSON of another
    shape than a tool expects (a list where an object is read) is
    modelled for the scorer and the evaluation tool ([Dynamic]), and so
    are arguments that are values and no strings; for the store and the
    report the model begins at text that decodes to values of the
    expected shape: what they do with other values depends on how SQLite
    converts a value to the type of its column and on how Python prints
    an [int] or a [float], which a rational number does not tell apart.
    The numbers [NaN] and [Infinity], which [json.loads] accepts, are
    outside.  The construction of the search provider's
    client ([SerperDevTool(n_results=max_results)], which is outside the
    [try] and whose failure ends the tool).  Of the crew: what the
    language model says, which is a parameter of every theorem of [Crew];
    the text of the prompts, which the configuration files hold (a
    prompt is modelled by what it is made from); the other services of
    the agent framework (memory, delegation between agents, training and
    replay, which [main.py] only starts); and its failures, which
    [run_job_search] logs and raises again ([Cli] takes the outcome of a
    call to the crew as a parameter).  Of [main.py], the banners, rules
    and fixed texts it prints (the help text and the profile instructions
    are one notice each); the decorators and the constructor of the crew
    class in [crew.py], which belong to the agent framework. *)

From stdpp Require Import base list.
From Stdlib Require Import ZArith Lia.

(** ** Python exceptions as values *)

(** The exception classes the modelled code can raise.  The tool wrappers catch
    [Exception] and format it into a string, so only the class matters. *)
Inductive exn : Type :=
  | AttributeError      (* an attribute of [None]: [None.lower()] *)
  | TypeError           (* [len(None)], [3 <= None], iterating [None] *)
  | ValueError
  | UnboundLocalError   (* a local read before any assignment *)
  | IntegrityError      (* sqlite3: NOT NULL or UNIQUE constraint failed *)
  | OperationalError    (* sqlite3: no such table, syntax error *)
  | OSError.            (* [open]: no permission, a directory *)

#[export] Instance exn_eq_dec : EqDecision exn.
Proof. solve_decision. Defined.

(** A computation that returns a value or raises. *)
Inductive result (A : Type) : Type :=
  | Ok (a : A)
  | Raise (e : exn).
Arguments Ok {A} a.
Arguments Raise {A} e.

#[export] Instance result_eq_dec `{EqDecision A} : EqDecision (result A).
Proof. solve_decision. Defined.

#[export] Instance result_ret : MRet result := λ A, @Ok A.
#[export] Instance result_bind : MBind result := λ A B k c,
  match c with
  | Ok a => k a
  | Raise e => Raise e
  end.
#[export] Instance result_fmap : FMap result := λ A B f c,
  match c with
  | Ok a => Ok (f a)
  | Raise e => Raise e
  end.

(** [try: c except Exception as e: h(e)]. *)
Definition catch {A} (c : result A) (h : exn → A) : A :=
  match c with
  | Ok a => a
  | Raise e => h e
  end.

Definition is_ok {A} (c : result A) : bool :=
  match c with Ok _ => true | Raise _ => false end.

(** A [for] loop that builds a list and stops at the first exception is
    [mapM] of the monad. *)

(** ** Entries of a JSON object *)

(** A key of a decoded JSON object is absent, bound to [null] (Python's
    [None]) or bound to a value. *)
Inductive field (A : Type) : Type :=
  | Absent
  | Null
  | Val (a : A).
Arguments Absent {A}.
Arguments Null {A}.
Arguments Val {A} a.

#[export] Instance field_eq_dec `{EqDecision A} : EqDecision (field A).
Proof. solve_decision. Defined.

(** [d.get(key, default)]: the default replaces an absent key only; a key
    bound to [None] yields [None]. *)
Definition get {A} (f : field A) (default : A) : option A :=
  match f with
  | Absent => Some default
  | Null => None
  | Val a => Some a
  end.

Definition is_null {A} (f : field A) : bool :=
  match f with
  | Null => true
  | _ => false
  end.

(** Using a value that must not be [None]: [e] is the exception Python
    raises at that use. *)
Definition need {A} (e : exn) (o : option A) : result A :=
  match o with
  | Some a => Ok a
  | None => Raise e
  end.

(** ** Tactics and hints *)

(** Case analysis on the scrutinee of a [bind] in hypothesis [H]. *)
Ltac bind_inv H :=
  match type of H with
  | mbind _ ?c = _ =>
      let E := fresh "E" in
      destruct c eqn:E; simpl in H; [| discriminate H]
  end.

Create HintDb py discriminated.
Create Rewrite HintDb pyrw.

(** ** Lemmas on [result] *)

Lemma bind_Ok_inv {A B} (c : result A) (k : A → result B) b :
  c ≫= k = Ok b → ∃ a, c = Ok a ∧ k a = Ok b.
Proof. destruct c; simpl; [eauto | discriminate]. Qed.

Lemma bind_Raise_inv {A B} (c : result A) (k : A → result B) e :
  c ≫= k = Raise e → c = Raise e ∨ ∃ a, c = Ok a ∧ k a = Raise e.
Proof. destruct c; simpl; [eauto | intros [= ->]; auto]. Qed.

Lemma need_Ok {A} e (o : option A) a : need e o = Ok a ↔ o = Some a.
Proof. destruct o; simpl; split; congruence. Qed.

Lemma need_Raise {A} e e' (o : option A) :
  need e o = Raise e' ↔ o = None ∧ e' = e.
Proof. destruct o; simpl; split; [done | by intros [] | by intros [= ->] | by intros [_ ->]]. Qed.

Lemma get_None {A} (f : field A) d : get f d = None ↔ f = Null.
Proof. destruct f; simpl; split; congruence. Qed.

Lemma get_is_Some {A} (f : field A) d : f ≠ Null → is_Some (get f d).
Proof. destruct f; simpl; eauto; congruence. Qed.

Lemma is_null_true {A} (f : field A) : is_null f = true ↔ f = Null.
Proof. by destruct f. Qed.

Lemma get_is_null {A} (f : field A) d : is_null f = true → get f d = None.
Proof. by destruct f. Qed.

Lemma get_not_null {A} (f : field A) d :
  is_null f = false → ∃ a, get f d = Some a.
Proof. destruct f; simpl; eauto; done. Qed.

Lemma mapM_Ok_length {A B} (f : A → result B) l ys :
  mapM f l = Ok ys → length ys = length l.
Proof.
  revert ys; induction l as [|x l IH]; simpl; intros ys H.
  - by inv H.
  - bind_inv H. bind_inv H. inv H. simpl. f_equal. by apply IH.
Qed.

Lemma mapM_Ok_Forall2 {A B} (f : A → result B) l ys :
  mapM f l = Ok ys ↔ Forall2 (fun x y => f x = Ok y) l ys.
Proof.
  revert ys; induction l as [|x l IH]; simpl; intros ys; split.
  - intros [= <-]. constructor.
  - intros H. by inv H.
  - intros H. bind_inv H. bind_inv H. inv H. constructor; [done|]. by apply IH.
  - intros H. inv H. rewrite H2. simpl.
    match goal with H : Forall2 _ l _ |- _ => apply IH in H; rewrite H end.
    done.
Qed.

Lemma mapM_total {A B} (f : A → result B) l :
  Forall (fun x => is_ok (f x) = true) l → is_ok (mapM f l) = true.
Proof.
  induction 1 as [|x l Hx _ IH]; simpl; [done|].
  destruct (f x); [|done]. simpl. by destruct (mapM f l).
Qed.

(** ** Lemmas on lists *)

Lemma omap_cons_app {A B} (f : A → option B) x l :
  omap f (x :: l) = option_list (f x) ++ omap f l.
Proof. simpl. by destruct (f x). Qed.

Lemma filter_none {A} (P : A → Prop) `{∀ x, Decision (P x)} (l : list A) :
  Forall (fun x => ¬ P x) l → filter P l = [].
Proof. induction 1 as [|x l Hx _ IH]; [done|]. by rewrite filter_cons_False. Qed.

Lemma omap_Forall2 {A B C} (f : A → option C) (g : B → option C) l k :
  Forall2 (fun a b => f a = g b) l k → omap f l = omap g k.
Proof. induction 1 as [|a b l k E _ IH]; [done|]. by rewrite !omap_cons_app, E, IH. Qed.

Lemma omap_length_le {A B} (g : A → option B) (l : list A) : length (omap g l) ≤ length l.
Proof.
  induction l as [|x l IH]; [done|]. rewrite omap_cons_app, length_app.
  destruct (g x); simpl; lia.
Qed.

(** Replacing the middle of a duplicate-free list by elements that occur
    on neither side. *)
Lemma NoDup_replace_middle {X} (A B o o' : list X) :
  NoDup (A ++ o ++ B) → NoDup o' → (∀ x, x ∈ o' → (x ∉ A) ∧ (x ∉ B)) →
  NoDup (A ++ o' ++ B).
Proof.
  rewrite !NoDup_app. intros (HA & HAB & _ & _ & HB) Ho' Hx. split_and!; try done.
  - intros x Hx1 [Hx2|Hx2]%elem_of_app; [by apply Hx in Hx2 as [? _]|].
    apply (HAB x Hx1), elem_of_app. by right.
  - intros x Hx1 Hx2. by apply Hx in Hx1 as [_ ?].
Qed.

(** stdpp's [last] and the Standard Library's [List.last] agree. *)
Lemma last_default {A} (l : list A) (d x : A) : last l = Some x → List.last l d = x.
Proof.
  destruct l as [|y l _] using rev_ind; [done|].
  rewrite last_snoc. intros [= ->]. apply last_last.
Qed.

Lemma filter_all {A} (P : A → Prop) `{∀ x, Decision (P x)} (l : list A) :
  Forall P l → filter P l = l.
Proof.
  induction 1 as [|x l Hx _ IH]; [done|]. by rewrite filter_cons, decide_True, IH.
Qed.

#[export] Hint Resolve mapM_Ok_length mapM_total : py.
#[export] Hint Rewrite @need_Ok @need_Raise @get_None : pyrw.
