(* ===== verification/Text.v ===== *)
(** * Text: the operations of Python's [str] that the tools use

    A [str] is modelled as a list of ASCII characters.  Each operation of
    [src/job_seeker/tools/job_search_tools.py] on strings has a definition
    here: [in], [lower], [strip], [startswith], [split], [replace], [join],
    slicing, [int] and [str] on decimal numerals.  Case mapping and
    whitespace are ASCII's; characters above 127 are outside the model. *)

From Stdlib Require Import Ascii NArith ZArith Lia.
From stdpp Require Import base list strings.
From S2P Require Import Prelude.

Abbreviation text := (list ascii).

(** A literal of the source. *)
Definition txt (s : string) : text := String.list_ascii_of_string s.

(** The newline. *)
Definition nl : text := ["010"%char].

(** ** Characters *)

Definition code (c : ascii) : N := N_of_ascii c.

Definition in_range (lo hi : N) (c : ascii) : bool :=
  ((lo <=? code c) && (code c <=? hi))%N.

Definition is_upper (c : ascii) : bool := in_range 65 90 c.
Definition is_lower (c : ascii) : bool := in_range 97 122 c.
Definition is_digit (c : ascii) : bool := in_range 48 57 c.

(** [str.isspace] on ASCII: tab to carriage return, the four separators
    0x1c to 0x1f, and space. *)
Definition is_space (c : ascii) : bool := in_range 9 13 c || in_range 28 32 c.

Definition to_lower (c : ascii) : ascii :=
  if is_upper c then ascii_of_N (code c + 32) else c.

Definition to_upper (c : ascii) : ascii :=
  if is_lower c then ascii_of_N (code c - 32) else c.

(** ** Operations *)

(** [s.lower()] *)
Definition lower (s : text) : text := map to_lower s.

(** [s.startswith(p)] *)
Fixpoint startswith (s p : text) : bool :=
  match p, s with
  | [], _ => true
  | _ :: _, [] => false
  | a :: p', b :: s' => Ascii.eqb a b && startswith s' p'
  end.

(** [sub in s] *)
Fixpoint contains (sub s : text) : bool :=
  startswith s sub ||
  match s with
  | [] => false
  | _ :: s' => contains sub s'
  end.

(** [s.find(sub)], with [None] for Python's -1. *)
Fixpoint find (s sub : text) : option nat :=
  if startswith s sub then Some 0
  else match s with
       | [] => None
       | _ :: s' => S <$> find s' sub
       end.

(** [s.split(sep)] for a non-empty [sep] (Python raises [ValueError] on an
    empty one; every call site passes a non-empty literal).  Each round
    removes at least one character, so [length s] rounds are enough. *)
Fixpoint split_fuel (n : nat) (s sep : text) : list text :=
  match find s sep, n with
  | Some i, S n' => take i s :: split_fuel n' (drop (i + length sep) s) sep
  | _, _ => [s]
  end.

Definition split (s sep : text) : list text := split_fuel (length s) s sep.

(** [sep.join(l)] *)
Fixpoint join (sep : text) (l : list text) : text :=
  match l with
  | [] => []
  | [s] => s
  | s :: l' => s ++ sep ++ join sep l'
  end.

(** [s.replace(old, new)] for a non-empty [old]: every non-overlapping
    occurrence, scanning from the left. *)
Fixpoint replace_fuel (n : nat) (s old new : text) : text :=
  match find s old, n with
  | Some i, S n' =>
      take i s ++ new ++ replace_fuel n' (drop (i + length old) s) old new
  | _, _ => s
  end.

Definition replace (s old new : text) : text :=
  replace_fuel (length s) s old new.

Fixpoint drop_while {A} (p : A → bool) (l : list A) : list A :=
  match l with
  | [] => []
  | x :: l' => if p x then drop_while p l' else l
  end.

(** [s.lstrip()], [s.rstrip()], [s.strip()] *)
Definition lstrip (s : text) : text := drop_while is_space s.
Definition rstrip (s : text) : text := reverse (drop_while is_space (reverse s)).
Definition strip (s : text) : text := rstrip (lstrip s).

(** Truth value of a string: non-empty. *)
Definition truthy (s : text) : bool :=
  match s with [] => false | _ => true end.

(** ** Decimal numerals *)

Definition digit_val (c : ascii) : N := (code c - 48)%N.

(** [int(s)] for a string of ASCII digits. *)
Definition int_of_digits (s : text) : N :=
  foldl (fun acc c => acc * 10 + digit_val c)%N 0%N s.

Definition digit_char (d : N) : ascii := ascii_of_N (48 + d).

(** The decimal digits of [n], least significant first; [n] has at most
    [fuel] digits. *)
Fixpoint rev_digits (fuel : nat) (n : N) : text :=
  match fuel with
  | 0 => []
  | S f =>
      digit_char (n mod 10) ::
      (if (n <? 10)%N then [] else rev_digits f (n / 10))
  end.

(** [str(n)] for a natural number. *)
Definition str_of_N (n : N) : text :=
  reverse (rev_digits (S (N.to_nat (N.log2 n))) n).

(** [str(z)] for an integer. *)
Definition str_of_Z (z : Z) : text :=
  match z with
  | Zneg p => txt "-" ++ str_of_N (Npos p)
  | _ => str_of_N (Z.to_N z)
  end.

(** ** Characters: lemmas *)

(** Closes a goal about one character by checking all 256. *)
Ltac by_ascii_cases c :=
  destruct c as [[] [] [] [] [] [] [] []]; vm_compute;
  intros; try discriminate; try reflexivity; try lia.

Lemma to_lower_idemp c : to_lower (to_lower c) = to_lower c.
Proof. by_ascii_cases c. Qed.

Lemma to_lower_not_upper c : is_upper (to_lower c) = false.
Proof. by_ascii_cases c. Qed.

Lemma to_lower_digit c : is_digit c = true → to_lower c = c.
Proof. by_ascii_cases c. Qed.

Lemma is_digit_not_space c : is_digit c = true → is_space c = false.
Proof. by_ascii_cases c. Qed.

Lemma digit_val_bound c : is_digit c = true → (digit_val c < 10)%N.
Proof. by_ascii_cases c. Qed.

Lemma digit_char_val c : is_digit c = true → digit_char (digit_val c) = c.
Proof. by_ascii_cases c. Qed.

(** ** [startswith], [in] and [find] *)

Section Search.
Implicit Types s sub p a b : text.

Lemma startswith_spec s p : startswith s p = true ↔ p `prefix_of` s.
Proof.
  revert s; induction p as [|x p IH]; intros [|y s]; simpl.
  - split; [intros _; apply prefix_nil | done].
  - split; [intros _; apply prefix_nil | done].
  - split; [done | intros H; by apply prefix_nil_inv in H].
  - rewrite andb_true_iff, Ascii.eqb_eq, IH. split.
    + intros [-> H]. by apply prefix_cons.
    + intros H. split; [by apply prefix_cons_inv_1 in H
                       | by apply prefix_cons_inv_2 in H].
Qed.

Lemma startswith_app s r : startswith (s ++ r) s = true.
Proof. apply startswith_spec, prefix_app_r. done. Qed.

Lemma startswith_false s p : startswith s p = false ↔ ¬ p `prefix_of` s.
Proof. rewrite <-startswith_spec. by destruct (startswith s p). Qed.

Lemma startswith_length s p : startswith s p = true → length p ≤ length s.
Proof. rewrite startswith_spec. apply prefix_length. Qed.

(** [sub in s] holds exactly when [s] is [a ++ sub ++ b]. *)
Lemma contains_spec sub s :
  contains sub s = true ↔ ∃ a b, s = a ++ sub ++ b.
Proof.
  induction s as [|y s IH]; cbn [contains].
  - rewrite orb_false_r, startswith_spec. split.
    + intros [r ->]. by exists [], r.
    + intros (a & b & H). symmetry in H.
      apply app_eq_nil in H as [-> H]. apply app_eq_nil in H as [-> _]. done.
  - rewrite orb_true_iff, startswith_spec, IH. split.
    + intros [[r ->] | (a & b & ->)]; [by exists [], r | by exists (y :: a), b].
    + intros ([|x a] & b & H); simpl in H.
      * left. by exists b.
      * right. inv H. by exists a, b.
Qed.

Lemma contains_refl s : contains s s = true.
Proof. apply contains_spec. exists [], []. by rewrite app_nil_r. Qed.

Lemma contains_nil s : contains [] s = true.
Proof. apply contains_spec. by exists [], s. Qed.

Lemma contains_app sub s a b :
  contains sub s = true → contains sub (a ++ s ++ b) = true.
Proof.
  rewrite !contains_spec. intros (a' & b' & ->).
  exists (a ++ a'), (b' ++ b). by rewrite <-!app_assoc.
Qed.

Lemma contains_app_l sub s a :
  contains sub s = true → contains sub (a ++ s) = true.
Proof. intros H. rewrite <-(app_nil_r s). by apply contains_app. Qed.

Lemma contains_app_r sub s b :
  contains sub s = true → contains sub (s ++ b) = true.
Proof. intros H. by apply (contains_app _ _ []). Qed.

Lemma contains_trans a b s :
  contains a b = true → contains b s = true → contains a s = true.
Proof.
  rewrite (contains_spec b s). intros H (x & y & ->). by apply contains_app.
Qed.

Lemma contains_length sub s : contains sub s = true → length sub ≤ length s.
Proof.
  rewrite contains_spec. intros (a & b & ->). rewrite !length_app. lia.
Qed.

Lemma contains_false_app_inv sub a b :
  contains sub (a ++ b) = false →
  contains sub a = false ∧ contains sub b = false.
Proof.
  intros H. split; apply not_true_iff_false; intros H';
    [apply (contains_app_r _ _ b) in H' | apply (contains_app_l _ _ a) in H'];
    congruence.
Qed.

(** [find] returns the first position where [sub] starts. *)
Lemma find_Some s sub i :
  find s sub = Some i ↔
  startswith (drop i s) sub = true ∧ i ≤ length s ∧
  ∀ j, j < i → startswith (drop j s) sub = false.
Proof.
  revert i; induction s as [|y s IH]; intros i; cbn [find].
  - destruct (startswith [] sub) eqn:E.
    + split.
      * intros [= <-]. cbn [drop length]. split_and!; [done | lia | intros; lia].
      * intros (_ & Hi & _). cbn in Hi. f_equal. lia.
    + split; [done|]. intros (H & _ & _). rewrite drop_nil in H. congruence.
  - destruct (startswith (y :: s) sub) eqn:E.
    + split.
      * intros [= <-]. cbn [drop]. split_and!; [done | lia | intros; lia].
      * intros (_ & _ & Hj). destruct i; [done|].
        specialize (Hj 0 ltac:(lia)). cbn [drop] in Hj. congruence.
    + destruct i as [|i].
      * split; [by destruct (find s sub) | intros (H & _); cbn [drop] in H; congruence].
      * cbn [drop length].
        transitivity (find s sub = Some i).
        { destruct (find s sub); cbn; split; congruence. }
        rewrite IH. split; intros (H1 & H2 & H3); (split_and!; [done | lia |]).
        -- intros [|j] Hj; [done|]. cbn [drop]. apply H3. lia.
        -- intros j Hj. apply (H3 (S j)). lia.
Qed.

Lemma find_None s sub : find s sub = None ↔ contains sub s = false.
Proof.
  induction s as [|y s IH]; cbn [find contains].
  - rewrite orb_false_r. by destruct (startswith [] sub).
  - destruct (startswith (y :: s) sub); cbn; [done|].
    rewrite <-IH. by destruct (find s sub).
Qed.

Lemma find_is_Some s sub : is_Some (find s sub) ↔ contains sub s = true.
Proof.
  rewrite <-not_eq_None_Some, find_None. by destruct (contains sub s).
Qed.

Lemma find_take_drop s sub i :
  find s sub = Some i → s = take i s ++ sub ++ drop (i + length sub) s.
Proof.
  intros (H & _ & _)%find_Some. apply startswith_spec in H as [r Hr].
  rewrite <-drop_drop, Hr, drop_app_length, <-Hr.
  by rewrite take_drop.
Qed.

(** The text before the first occurrence holds no occurrence. *)
Lemma find_take_no_sub s sub i :
  sub ≠ [] → find s sub = Some i → contains sub (take i s) = false.
Proof.
  intros Hne F. apply not_true_iff_false. intros (a & b & Hab)%contains_spec.
  apply find_Some in F as (_ & Hi & Hmin).
  assert (length a < i) as Ha.
  { apply (f_equal length) in Hab. rewrite length_take, !length_app in Hab.
    destruct sub; [done|]. simpl in Hab. lia. }
  specialize (Hmin _ Ha). apply startswith_false in Hmin. apply Hmin.
  rewrite <-(take_drop i s), Hab, <-!app_assoc, drop_app_length.
  by apply prefix_app_r.
Qed.
End Search.

(** ** [split], [join] and [replace] *)

Section Split.
Implicit Types s sep old new : text.

Lemma find_nil_ne sep : sep ≠ [] → find [] sep = None.
Proof. by destruct sep. Qed.

Lemma split_fuel_ne n s sep : split_fuel n s sep ≠ [].
Proof. destruct n; cbn [split_fuel]; by destruct (find s sep). Qed.

Lemma join_cons sep s l : l ≠ [] → join sep (s :: l) = s ++ sep ++ join sep l.
Proof. by destruct l. Qed.

(** Joining the pieces with the separator gives the string back, whatever
    the fuel. *)
Lemma join_split_fuel n s sep : join sep (split_fuel n s sep) = s.
Proof.
  revert s; induction n as [|n IH]; intros s; cbn [split_fuel].
  - by destruct (find s sep).
  - destruct (find s sep) as [i|] eqn:F; [|done].
    rewrite join_cons by apply split_fuel_ne.
    rewrite IH. symmetry. by apply find_take_drop.
Qed.

(** With enough fuel no piece holds the separator. *)
Lemma split_fuel_no_sep n s sep :
  sep ≠ [] → length s ≤ n →
  Forall (fun p => contains sep p = false) (split_fuel n s sep).
Proof.
  intros Hne. revert s; induction n as [|n IH]; intros s Hn; cbn [split_fuel].
  - destruct s; [|simpl in Hn; lia]. rewrite find_nil_ne by done.
    repeat constructor. by destruct sep.
  - destruct (find s sep) as [i|] eqn:F.
    + constructor; [by eapply find_take_no_sub|].
      apply IH. rewrite length_drop. destruct sep; [done|]. simpl. lia.
    + repeat constructor. by apply find_None.
Qed.

(** More fuel than the length changes nothing. *)
Lemma split_fuel_enough n m s sep :
  sep ≠ [] → length s ≤ n → length s ≤ m →
  split_fuel n s sep = split_fuel m s sep.
Proof.
  intros Hne. revert m s; induction n as [|n IH]; intros [|m] s Hn Hm;
    cbn [split_fuel]; try done.
  - destruct s; [|simpl in Hn; lia]. by rewrite find_nil_ne.
  - destruct s; [|simpl in Hm; lia]. by rewrite find_nil_ne.
  - destruct (find s sep) as [i|] eqn:F; [|done]. f_equal.
    assert (length (drop (i + length sep) s) < length s).
    { apply find_Some in F as (H%startswith_length & _).
      rewrite length_drop in *. destruct sep; [done|]. simpl in *. lia. }
    apply IH; lia.
Qed.

(** The equation of [split]: cut at the first occurrence and go on after
    it. *)
Lemma split_unfold s sep :
  sep ≠ [] →
  split s sep =
    match find s sep with
    | Some i => take i s :: split (drop (i + length sep) s) sep
    | None => [s]
    end.
Proof.
  intros Hne. unfold split. destruct s as [|c s].
  - cbn [length split_fuel]. by rewrite find_nil_ne.
  - cbn [length split_fuel]. destruct (find (c :: s) sep) as [i|] eqn:F; [|done].
    f_equal. apply split_fuel_enough; [done | | done].
    apply find_Some in F as (H%startswith_length & _).
    rewrite length_drop in *. destruct sep; [done|]. simpl in *. lia.
Qed.

Lemma split_no_sep s sep :
  sep ≠ [] → contains sep s = false → split s sep = [s].
Proof. intros Hne H%find_None. by rewrite split_unfold, H. Qed.

Lemma join_split s sep : join sep (split s sep) = s.
Proof. apply join_split_fuel. Qed.

Lemma split_pieces_no_sep s sep :
  sep ≠ [] → Forall (fun p => contains sep p = false) (split s sep).
Proof. intros. by apply split_fuel_no_sep. Qed.

(** [s.split(sep)[0]] is the text before the first occurrence. *)
Lemma split_head s sep d :
  sep ≠ [] →
  hd d (split s sep) = match find s sep with Some i => take i s | None => s end.
Proof. intros Hne. rewrite split_unfold by done. by destruct (find s sep). Qed.

(** [replace] is [split] followed by [join]. *)
Lemma replace_fuel_join n s old new :
  replace_fuel n s old new = join new (split_fuel n s old).
Proof.
  revert s; induction n as [|n IH]; intros s; cbn [replace_fuel split_fuel].
  - by destruct (find s old).
  - destruct (find s old) as [i|]; [|done].
    rewrite join_cons by apply split_fuel_ne. by rewrite IH.
Qed.

Lemma replace_join_split s old new :
  replace s old new = join new (split s old).
Proof. apply replace_fuel_join. Qed.

Lemma replace_no_old s old new :
  old ≠ [] → contains old s = false → replace s old new = s.
Proof. intros. by rewrite replace_join_split, split_no_sep. Qed.

Lemma replace_same s old : replace s old old = s.
Proof. rewrite replace_join_split. apply join_split. Qed.
End Split.

(** ** [lower] *)

Section Lower.
Implicit Types s sub : text.

Lemma lower_length s : length (lower s) = length s.
Proof. apply length_map. Qed.

Lemma lower_app s1 s2 : lower (s1 ++ s2) = lower s1 ++ lower s2.
Proof. apply map_app. Qed.

Lemma lower_idemp s : lower (lower s) = lower s.
Proof.
  unfold lower. rewrite map_map. apply map_ext. intros; apply to_lower_idemp.
Qed.

Lemma lower_no_upper s : Forall (fun c => is_upper c = false) (lower s).
Proof. apply Forall_map, Forall_true. intros; apply to_lower_not_upper. Qed.

(** Lowering both sides keeps an occurrence. *)
Lemma contains_lower sub s :
  contains sub s = true → contains (lower sub) (lower s) = true.
Proof.
  rewrite !contains_spec. intros (a & b & ->).
  exists (lower a), (lower b). by rewrite !lower_app.
Qed.
End Lower.

(** ** [strip] *)

Section Strip.
Context {A : Type} (p : A → bool).
Implicit Types l : list A.

Lemma drop_while_suffix l : drop_while p l `suffix_of` l.
Proof.
  induction l as [|x l IH]; simpl; [done|].
  destruct (p x); [by apply suffix_cons_r | done].
Qed.

Lemma drop_while_head l x l' : drop_while p l = x :: l' → p x = false.
Proof.
  induction l as [|y l IH]; simpl; [done|].
  destruct (p y) eqn:E; [done | by intros [= <- <-]].
Qed.

Lemma drop_while_id l : (∀ x l', l = x :: l' → p x = false) → drop_while p l = l.
Proof. destruct l as [|x l]; simpl; [done|]. intros H. by rewrite (H x l). Qed.

Lemma drop_while_idemp l : drop_while p (drop_while p l) = drop_while p l.
Proof. apply drop_while_id. intros x l'. apply drop_while_head. Qed.

Lemma drop_while_all l : Forall (fun x => p x = true) l → drop_while p l = [].
Proof. induction 1 as [|x l Hx _ IH]; simpl; [done|]. by rewrite Hx. Qed.
End Strip.

Lemma lstrip_idemp s : lstrip (lstrip s) = lstrip s.
Proof. apply drop_while_idemp. Qed.

Lemma rstrip_idemp s : rstrip (rstrip s) = rstrip s.
Proof. unfold rstrip. by rewrite reverse_involutive, drop_while_idemp. Qed.

(** [lstrip] cuts a prefix and [rstrip] a suffix. *)
Lemma lstrip_suffix s : lstrip s `suffix_of` s.
Proof. apply drop_while_suffix. Qed.

Lemma rstrip_prefix s : rstrip s `prefix_of` s.
Proof.
  destruct (drop_while_suffix is_space (reverse s)) as [k Hk]. exists (reverse k).
  apply (f_equal reverse) in Hk. rewrite reverse_involutive, reverse_app in Hk. done.
Qed.

Lemma strip_length s : length (strip s) ≤ length s.
Proof.
  etrans; [apply prefix_length, rstrip_prefix | apply suffix_length, lstrip_suffix].
Qed.

(** The first and last characters of a stripped string are not spaces. *)
Lemma rstrip_last s c : last (rstrip s) = Some c → is_space c = false.
Proof.
  unfold rstrip. rewrite last_reverse.
  destruct (drop_while is_space (reverse s)) as [|x l] eqn:E; [done|].
  intros [= <-]. by apply drop_while_head in E.
Qed.

Lemma rstrip_lstrip_head s c : head (rstrip (lstrip s)) = Some c → is_space c = false.
Proof.
  destruct (rstrip_prefix (lstrip s)) as [k Hk]. unfold strip.
  destruct (rstrip (lstrip s)) as [|x r]; [done|]. intros [= <-].
  simpl in Hk. by apply drop_while_head in Hk.
Qed.

Lemma strip_edges s :
  (∀ c, head (strip s) = Some c → is_space c = false) ∧
  (∀ c, last (strip s) = Some c → is_space c = false).
Proof. split; intros c; [apply rstrip_lstrip_head | apply rstrip_last]. Qed.

Lemma strip_id s :
  (∀ c, head s = Some c → is_space c = false) →
  (∀ c, last s = Some c → is_space c = false) →
  strip s = s.
Proof.
  intros Hh Hl. unfold strip, lstrip, rstrip.
  rewrite (drop_while_id _ s); [|intros x l' ->; by apply Hh].
  rewrite drop_while_id; [apply reverse_involutive|].
  intros x l' E. apply Hl. by rewrite <-(reverse_involutive s), E, last_reverse.
Qed.

Lemma strip_idemp s : strip (strip s) = strip s.
Proof. apply strip_id; apply strip_edges. Qed.

Lemma strip_spaces s : Forall (fun c => is_space c = true) s → strip s = [].
Proof. intros H. unfold strip, lstrip. by rewrite drop_while_all. Qed.

(** ** Decimal numerals: [int(str(n)) = n] *)

Section Digits.
Local Open Scope N_scope.

Lemma int_of_digits_snoc s c :
  int_of_digits (s ++ [c]) = int_of_digits s * 10 + digit_val c.
Proof. unfold int_of_digits. by rewrite foldl_snoc. Qed.

Lemma digit_val_char d : d < 10 → digit_val (digit_char d) = d.
Proof.
  intros H. unfold digit_val, digit_char, code.
  rewrite N_ascii_embedding by lia. lia.
Qed.

Lemma is_digit_char d : d < 10 → is_digit (digit_char d) = true.
Proof.
  intros H. unfold is_digit, in_range, digit_char, code.
  rewrite N_ascii_embedding by lia. apply andb_true_iff; split; apply N.leb_le; lia.
Qed.

Lemma rev_digits_value f n :
  n < 10 ^ N.of_nat f → int_of_digits (reverse (rev_digits f n)) = n.
Proof.
  revert n; induction f as [|f IH]; intros n Hn.
  - simpl in Hn. assert (n = 0) as -> by lia. done.
  - cbn [rev_digits]. rewrite reverse_cons, int_of_digits_snoc.
    rewrite digit_val_char by (apply N.mod_lt; lia).
    destruct (N.ltb_spec n 10) as [Hlt|Hge].
    + cbn. rewrite N.mod_small by done. done.
    + rewrite IH; [rewrite (N.div_mod n 10) at 3 by lia; lia|].
      rewrite Nat2N.inj_succ, N.pow_succ_r' in Hn.
      apply N.Div0.div_lt_upper_bound. lia.
Qed.

Lemma rev_digits_all_digits f n : Forall (fun c => is_digit c = true) (rev_digits f n).
Proof.
  revert n; induction f as [|f IH]; intros n; cbn [rev_digits]; [done|].
  constructor; [apply is_digit_char, N.mod_lt; lia|].
  destruct (n <? 10); [done | apply IH].
Qed.

Lemma log2_pow10 n : n < 10 ^ N.of_nat (S (N.to_nat (N.log2 n))).
Proof.
  rewrite Nat2N.inj_succ, N2Nat.id.
  destruct (N.eq_dec n 0) as [->|Hn]; [done|].
  apply N.lt_le_trans with (2 ^ N.succ (N.log2 n)).
  - apply N.log2_spec. lia.
  - apply N.pow_le_mono_l. lia.
Qed.

(** Printing a number and reading it back gives the number. *)
Lemma int_of_digits_str_of_N n : int_of_digits (str_of_N n) = n.
Proof. apply rev_digits_value, log2_pow10. Qed.

Lemma str_of_N_digits n : Forall (fun c => is_digit c = true) (str_of_N n).
Proof. apply Forall_reverse, rev_digits_all_digits. Qed.

Lemma str_of_N_ne n : str_of_N n ≠ [].
Proof.
  unfold str_of_N. cbn [rev_digits]. rewrite reverse_cons.
  intros H. by apply app_eq_nil in H as [_ ?].
Qed.

Lemma int_of_digits_bound s :
  Forall (fun c => is_digit c = true) s → int_of_digits s < 10 ^ N.of_nat (length s).
Proof.
  induction s as [|c s IH] using rev_ind; [done|]. intros [Hs Hc]%Forall_app.
  rewrite int_of_digits_snoc, length_app, Nat.add_comm, Nat2N.inj_succ, N.pow_succ_r'.
  rewrite Forall_singleton in Hc. apply digit_val_bound in Hc. specialize (IH Hs). lia.
Qed.
End Digits.

(** ** The last piece of a split *)

Lemma join_snoc sep l x : l ≠ [] → join sep (l ++ [x]) = join sep l ++ sep ++ x.
Proof.
  induction l as [|y l IH]; [done|]. intros _. destruct l as [|z l]; [done|].
  rewrite <-app_comm_cons, join_cons by done.
  rewrite IH, (join_cons _ y) by done. by rewrite <-!app_assoc.
Qed.

(** When the separator occurs, the last piece is what follows its last
    occurrence in the scan, and holds no separator. *)
Lemma split_last s sep :
  sep ≠ [] → contains sep s = true →
  ∃ a c, s = a ++ sep ++ c ∧ last (split s sep) = Some c ∧ contains sep c = false.
Proof.
  intros Hne Hs. pose proof (join_split s sep) as Hj.
  pose proof (split_pieces_no_sep s sep Hne) as Hp.
  pose proof (split_fuel_ne (length s) s sep) as Hn. fold (split s sep) in Hn.
  destruct (split s sep) as [|c l _] using rev_ind; [done|].
  apply Forall_app in Hp as [_ Hc]. rewrite Forall_singleton in Hc.
  destruct (decide (l = [])) as [->|Hl]; [simpl in *; congruence|].
  rewrite join_snoc in Hj by done. exists (join sep l), c. by rewrite last_snoc.
Qed.

(** When the separator occurs, the first piece is what precedes its first
    occurrence. *)
Lemma split_first s sep d :
  sep ≠ [] → contains sep s = true →
  ∃ c b, s = c ++ sep ++ b ∧ hd d (split s sep) = c ∧ contains sep c = false.
Proof.
  intros Hne [i Hi]%find_is_Some. exists (take i s), (drop (i + length sep) s).
  rewrite split_head, Hi by done. split_and!; [by apply find_take_drop | done |].
  by apply find_take_no_sub.
Qed.

(** ** Splitting text that was joined *)

(** The separator is found right after [a] when no occurrence starts
    inside [a]. *)
Lemma find_app_sep a sep b :
  sep ≠ [] → contains sep (a ++ take (length sep - 1) sep) = false →
  find (a ++ sep ++ b) sep = Some (length a).
Proof.
  intros Hne Hno. apply find_Some. split_and!.
  - rewrite drop_app_length. apply startswith_spec. by exists b.
  - rewrite length_app. lia.
  - intros j Hj. apply not_true_iff_false. intros [r Hr]%startswith_spec.
    apply not_true_iff_false in Hno. apply Hno, contains_spec.
    set (X := drop j a ++ take (length sep - 1) sep).
    assert (length sep ≤ length X) as Hlen.
    { unfold X. rewrite length_app, length_drop, length_take.
      destruct sep; [done | simpl; lia]. }
    assert (take (length sep) X = sep) as HX.
    { rewrite drop_app_le in Hr by lia.
      rewrite <-(take_drop (length sep - 1) sep) in Hr at 1.
      rewrite <-app_assoc, (app_assoc (drop j a)) in Hr. fold X in Hr.
      apply (f_equal (take (length sep))) in Hr. rewrite take_app_le in Hr by done.
      by rewrite Hr, take_app_length. }
    exists (take j a), (drop (length sep) X). trans (take j a ++ X).
    + unfold X. by rewrite app_assoc, take_drop.
    + by rewrite <-(take_drop (length sep) X) at 1; rewrite HX.
Qed.

Lemma split_app_sep a sep b :
  sep ≠ [] → contains sep (a ++ take (length sep - 1) sep) = false →
  split (a ++ sep ++ b) sep = a :: split b sep.
Proof.
  intros Hne Hno. rewrite split_unfold, find_app_sep by done.
  by rewrite take_app_length, <-drop_drop, drop_app_length, drop_app_length.
Qed.

(** Removing a label from the text it starts. *)
Lemma replace_prefix old rest :
  old ≠ [] → contains old rest = false → replace (old ++ rest) old [] = rest.
Proof.
  intros Hne Hno. rewrite replace_join_split.
  rewrite <-(app_nil_l (old ++ rest)), split_app_sep, split_no_sep by
    (done || (simpl; apply not_true_iff_false;
              intros ?%contains_length; rewrite length_take in *; destruct old; simpl in *; [done | lia])).
  done.
Qed.

(** ** Stripping text between other text *)

Lemma lstrip_nonspace c s : is_space c = false → lstrip (c :: s) = c :: s.
Proof. intros H. unfold lstrip. simpl. by rewrite H. Qed.

Lemma rstrip_snoc_nonspace s c : is_space c = false → rstrip (s ++ [c]) = s ++ [c].
Proof.
  intros H. unfold rstrip. rewrite reverse_snoc. simpl. rewrite H.
  by rewrite reverse_cons, reverse_involutive.
Qed.

Lemma rstrip_snoc_space s c : is_space c = true → rstrip (s ++ [c]) = rstrip s.
Proof. intros H. unfold rstrip. rewrite reverse_snoc. simpl. by rewrite H. Qed.

(** Text that begins and ends without white space is its own strip;
    [x] is stripped text that is not empty. *)
Lemma strip_around c s x :
  is_space c = false → x ≠ [] → strip x = x → strip (c :: s ++ x) = c :: s ++ x.
Proof.
  intros Hc Hx Hs. apply strip_id.
  - by intros ? [= <-].
  - intros d Hd. destruct x as [|y x _] using rev_ind; [done|].
    change (c :: s ++ x ++ [y]) with ((c :: s) ++ x ++ [y]) in Hd.
    rewrite app_assoc, last_snoc in Hd. injection Hd as <-.
    destruct (strip_edges (x ++ [y])) as [_ H]. apply H. by rewrite Hs, last_snoc.
Qed.

Lemma strip_lstrip c x : is_space c = true → strip (c :: x) = strip x.
Proof. intros H. unfold strip, lstrip. simpl. by rewrite H. Qed.

Lemma startswith_head_ne c d s p : c ≠ d → startswith (d :: s) (c :: p) = false.
Proof. intros H. simpl. by rewrite (proj2 (Ascii.eqb_neq c d) H). Qed.

Lemma contains_char c s : contains [c] s = false ↔ c ∉ s.
Proof.
  induction s as [|d s IH]; cbn [contains startswith].
  - split; [intros _ []%elem_of_nil | done].
  - rewrite not_elem_of_cons, <-IH. replace (startswith s []) with true by (by destruct s).
    destruct (Ascii.eqb_spec c d); simpl; intuition congruence.
Qed.

(** A label that begins with another character than [c] does not occur at
    the head of [c :: x]. *)
Lemma contains_cons_ne l ls c x :
  l ≠ c → contains (l :: ls) (c :: x) = contains (l :: ls) x.
Proof. intros H. cbn [contains]. by rewrite startswith_head_ne. Qed.

Lemma drop_while_app {A} (p : A → bool) (l k : list A) :
  drop_while p l ≠ [] → drop_while p (l ++ k) = drop_while p l ++ k.
Proof.
  induction l as [|x l IH]; simpl; [done|]. destruct (p x); [apply IH | done].
Qed.

Lemma rstrip_app a b : rstrip b ≠ [] → rstrip (a ++ b) = a ++ rstrip b.
Proof.
  unfold rstrip. intros H. rewrite reverse_app, drop_while_app, reverse_app.
  - by rewrite reverse_involutive.
  - intros E. by rewrite E in H.
Qed.

(** A stripped line that begins with a label: the label and what
    follows it, from which the value is recovered. *)
Lemma strip_labelled c label x :
  is_space c = false → (∀ d, last (c :: label) = Some d → is_space d = false) →
  strip x = x →
  ∃ rest, strip (c :: label ++ txt " " ++ x) = c :: label ++ rest ∧ strip rest = x ∧
          rest `suffix_of` txt " " ++ x.
Proof.
  intros Hc Hl Hx. destruct (decide (x = [])) as [->|Hne].
  - exists []. split_and!; [|done|by exists (txt " ")]. unfold strip. rewrite lstrip_nonspace by done.
    change (c :: label ++ txt " " ++ []) with ((c :: label) ++ [" "%char]).
    rewrite rstrip_snoc_space, app_nil_r by done.
    destruct (c :: label) as [|d k _] eqn:E using rev_ind; [done|].
    apply rstrip_snoc_nonspace, Hl. by rewrite last_snoc.
  - exists (txt " " ++ x). split_and!; [|by rewrite <-Hx at 2|done].
    rewrite !(app_assoc label). by apply strip_around.
Qed.

Lemma contains_suffix sub r s :
  r `suffix_of` s → contains sub s = false → contains sub r = false.
Proof. intros [k ->] H. by apply contains_false_app_inv in H as [_ ?]. Qed.

Lemma contains_prefix sub r s :
  r `prefix_of` s → contains sub s = false → contains sub r = false.
Proof. intros [k ->] H. by apply contains_false_app_inv in H as [? _]. Qed.

Lemma strip_app c a b :
  is_space c = false → rstrip b ≠ [] → strip (c :: a ++ b) = c :: a ++ rstrip b.
Proof.
  intros Hc Hb. unfold strip. rewrite lstrip_nonspace by done.
  by rewrite app_comm_cons, rstrip_app.
Qed.

Lemma strip_rstrip c b : is_space c = false → strip (c :: b) = rstrip (c :: b).
Proof. intros H. unfold strip. by rewrite lstrip_nonspace. Qed.

(** ** Text around a character that the separator does not hold *)

Lemma prefix_app_char (sub a b : text) c :
  c ∉ sub → sub `prefix_of` a ++ c :: b → sub `prefix_of` a.
Proof.
  revert sub. induction a as [|h a IH]; intros [|s sub] Hc Hp; try apply prefix_nil.
  - apply prefix_cons_inv_1 in Hp as ->. by apply not_elem_of_cons in Hc as [[] _].
  - simpl in Hp. rewrite (prefix_cons_inv_1 _ _ _ _ Hp). apply prefix_cons.
    apply prefix_cons_inv_2 in Hp. apply IH; [|done]. by apply not_elem_of_cons in Hc as [_ ?].
Qed.

Lemma startswith_app_char sub a b c :
  c ∉ sub → startswith (a ++ c :: b) sub = startswith a sub.
Proof.
  intros Hc. apply eq_true_iff_eq. rewrite !startswith_spec. split.
  - by apply prefix_app_char.
  - apply prefix_app_r.
Qed.

(** An occurrence of [sub] does not reach across a character that is not
    in [sub]. *)
Lemma contains_app_char sub a b c :
  c ∉ sub → contains sub (a ++ c :: b) = contains sub a || contains sub b.
Proof.
  intros Hc. induction a as [|h a IH].
  - cbn [app contains]. rewrite orb_false_r. rewrite <-(startswith_app_char sub [] b c) by done.
    cbn [app]. by destruct (startswith (c :: b) sub).
  - change ((h :: a) ++ c :: b) with (h :: a ++ c :: b). cbn [contains].
    rewrite IH, orb_assoc. f_equal.
    by rewrite <-(startswith_app_char sub (h :: a) b c).
Qed.

(** White space at the end of text goes with the strip. *)
Lemma drop_while_app_nil {A} (p : A → bool) (l k : list A) :
  drop_while p l = [] → drop_while p (l ++ k) = drop_while p k.
Proof. induction l as [|x l IH]; simpl; [done|]. by destruct (p x). Qed.

Lemma strip_snoc_space x c : is_space c = true → strip (x ++ [c]) = strip x.
Proof.
  intros Hc. unfold strip, lstrip. destruct (drop_while is_space x) as [|y r] eqn:E.
  - rewrite drop_while_app_nil by done. simpl. by rewrite Hc.
  - rewrite drop_while_app by (by rewrite E). rewrite E. by apply rstrip_snoc_space.
Qed.
