(* ===== verification/Json.v ===== *)
(** * Json: decoded JSON, and what Python does with a value of any shape

    The tools of [src/job_seeker/tools/job_search_tools.py] and the
    commands of [src/job_seeker/main.py] work on what [json.loads]
    returns: a value of any shape, which they use as if it had the shape
    they expect.  [json] is such a value; the operations of this file are
    the Python operations the code applies to it ([dict.get], [str.lower],
    iteration, [set], truth, arithmetic and comparison with a number),
    each with the exception Python raises when the value is of another
    type.  A number is an exact rational: [json.loads] distinguishes [int]
    and [float], which compare and add alike; [NaN] and the infinities,
    which it also accepts, are outside. *)

From Stdlib Require Import Ascii ZArith QArith.
From stdpp Require Import base list strings.
From S2P Require Import Prelude Text.

(** ** Values *)

(** A value of [json.loads].  An object lists each key once, in the order
    of its first appearance. *)
Inductive json : Type :=
  | JNull
  | JBool (b : bool)
  | JNum (q : Q)
  | JStr (s : text)
  | JArr (items : list json)
  | JObj (members : list (text * json)).

(** [bool(v)] *)
Definition json_truthy (v : json) : bool :=
  match v with
  | JNull => false
  | JBool b => b
  | JNum q => negb (Qeq_bool q 0)
  | JStr s => truthy s
  | JArr items => negb (bool_decide (items = []))
  | JObj members => negb (bool_decide (members = []))
  end.

(** What [', '.join(v)] iterates over: the strings of a list, the
    characters of a string, the keys of an object; [TypeError] on another
    value and on a list that holds something else than strings. *)
Definition strings_of (v : json) : result (list text) :=
  match v with
  | JStr s => Ok (map (fun c => [c]) s)
  | JArr items =>
      mapM (fun item => match item with JStr s => Ok s | _ => Raise TypeError end) items
  | JObj members => Ok (map fst members)
  | _ => Raise TypeError
  end.

(** [o.get(key)] *)
Definition obj_get (key : text) (members : list (text * json)) : option json :=
  (fun found => found.2.2) <$> list_find (fun m => m.1 = key) members.

(** ** Python on a value of any type *)

(** [d.get(key, otherwise)]: only a [dict] has the method. *)
Definition py_get (d : json) (key : string) (otherwise : json) : result json :=
  match d with
  | JObj members => Ok (default otherwise (obj_get (txt key) members))
  | _ => Raise AttributeError
  end.

(** A value used as a [str]: [e] is [AttributeError] where a method of
    [str] is called on it, [TypeError] where a regular expression is run
    on it. *)
Definition as_str (e : exn) (v : json) : result text :=
  match v with
  | JStr s => Ok s
  | _ => Raise e
  end.

(** [v.lower()] *)
Definition py_lower (v : json) : result text := lower <$> as_str AttributeError v.

(** What [for x in v] goes through: the items of a list, the characters
    of a string, the keys of an object. *)
Definition py_iter (v : json) : result (list json) :=
  match v with
  | JArr items => Ok items
  | JStr s => Ok (map (fun c => JStr [c]) s)
  | JObj members => Ok (map (fun m => JStr m.1) members)
  | _ => Raise TypeError
  end.

(** A list and an object cannot be a member of a [set]. *)
Definition hashable (v : json) : bool :=
  match v with
  | JArr _ | JObj _ => false
  | _ => true
  end.

(** [set(v)], as the list of its members. *)
Definition py_set (v : json) : result (list json) :=
  items ← py_iter v;
  if forallb hashable items then Ok items else Raise TypeError.

(** The strings among values. *)
Definition strs (items : list json) : list text :=
  omap (fun v => match v with JStr s => Some s | _ => None end) items.

(** A value in arithmetic or compared with a number: [True] is 1 and
    [False] is 0. *)
Definition number (v : json) : result Q :=
  match v with
  | JNum q => Ok q
  | JBool b => Ok (if b then 1 else 0)%Q
  | _ => Raise TypeError
  end.

(** [d[key] = v]: the value of a key that is there is replaced, a new key
    is added at the end. *)
Fixpoint set_item (key : text) (v : json) (members : list (text * json))
    : list (text * json) :=
  match members with
  | [] => [(key, v)]
  | m :: members' =>
      if bool_decide (m.1 = key) then (key, v) :: members' else m :: set_item key v members'
  end.

(** ** Laws *)

Lemma obj_get_nil key : obj_get key [] = None.
Proof. done. Qed.

Lemma obj_get_cons key k v members :
  obj_get key ((k, v) :: members) = if bool_decide (k = key) then Some v else obj_get key members.
Proof.
  unfold obj_get. simpl. case_decide; case_bool_decide; try done.
  by destruct (list_find _ members) as [[? [? ?]]|].
Qed.

(** A key reads what was written to it, and the other keys are as they
    were. *)
Lemma obj_get_set_item key k v members :
  obj_get key (set_item k v members) = if bool_decide (k = key) then Some v else obj_get key members.
Proof.
  induction members as [|[k' v'] members IH]; cbn [set_item fst].
  - by rewrite obj_get_cons, obj_get_nil.
  - destruct (decide (k' = k)) as [->|Hk];
      [rewrite bool_decide_eq_true_2 by done | rewrite bool_decide_eq_false_2 by done];
      rewrite !obj_get_cons, ?IH; by repeat case_bool_decide; simplify_eq.
Qed.

Lemma py_get_JObj members key otherwise :
  py_get (JObj members) key otherwise = Ok (default otherwise (obj_get (txt key) members)).
Proof. done. Qed.

Lemma py_get_not_object d key otherwise :
  (∀ members, d ≠ JObj members) → py_get d key otherwise = Raise AttributeError.
Proof. destruct d; try done. intros H. by destruct (H members). Qed.

(** Iteration fails on [null], a truth value and a number, and on nothing
    else. *)
Lemma py_iter_Raise v e :
  py_iter v = Raise e ↔ e = TypeError ∧ (v = JNull ∨ (∃ b, v = JBool b) ∨ ∃ q, v = JNum q).
Proof. destruct v; simpl; split; try done; naive_solver. Qed.

Lemma strs_JStr (l : list text) : strs (map JStr l) = l.
Proof.
  induction l as [|s l IH]; [done|].
  change (strs (map JStr (s :: l))) with (s :: strs (map JStr l)). by rewrite IH.
Qed.

Lemma hashable_JStr (l : list text) : forallb hashable (map JStr l) = true.
Proof. by induction l. Qed.
