(* ===== verification/Format.v ===== *)
(** * Format: the format specifications of the report

    The report of [src/job_seeker/tools/job_search_tools.py] writes the
    expected salary with [:,] (thousands separators) and a match score
    with [:.1f] (one decimal).  This file gives both as functions to text
    and proves what the text shows: the digits of the number for the first,
    the score to within a twentieth for the second.  A score is an exact
    rational number here; Python rounds the binary float, which may fall
    on the other side of a tie. *)

From Stdlib Require Import Ascii NArith ZArith QArith Qabs Lia Lqa.
From stdpp Require Import base list strings.
From S2P Require Import Prelude Text.

(** ** Thousands separators *)

(** A comma after every third digit, on digits in reverse order. *)
Fixpoint group3 (rev_digits : text) : text :=
  match rev_digits with
  | a :: b :: c :: ((_ :: _) as rest) => a :: b :: c :: ","%char :: group3 rest
  | _ => rev_digits
  end.

(** Digits in groups: a first group [h], then each group of [gs] behind a
    comma. *)
Definition groups (h : text) (gs : list text) : text :=
  h ++ concat (map (fun g => ","%char :: g) gs).

(** [groups h gs] as [:,] writes it: one to three digits, then groups of
    three. *)
Definition canonical (h : text) (gs : list text) : Prop :=
  1 ≤ length h ≤ 3 ∧ Forall (fun c => is_digit c = true) h ∧
  Forall (fun g => length g = 3 ∧ Forall (fun c => is_digit c = true) g) gs.

(** The format [:,] of an integer. *)
Definition fmt_thousands (z : Z) : text :=
  (if (z <? 0)%Z then txt "-" else []) ++
  reverse (group3 (reverse (str_of_N (Z.to_N (Z.abs z))))).

(** ** One decimal *)

(** The nearest integer, ties to the even one, of a number that is not
    negative. *)
Definition round_half_even (x : Q) : Z :=
  let n := Qnum x in
  let d := Zpos (Qden x) in
  let fl := (n / d)%Z in
  let twice := (2 * (n mod d))%Z in
  if (twice <? d)%Z then fl
  else if (d <? twice)%Z then (fl + 1)%Z
  else if Z.even fl then fl else (fl + 1)%Z.

(** The tenths shown for [q]. *)
Definition tenths (q : Q) : Z := round_half_even (Qabs q * 10).

(** The format [:.1f]. *)
Definition fmt_1f (q : Q) : text :=
  (if Qlt_le_dec q 0 then txt "-" else []) ++
  str_of_Z (tenths q / 10) ++ txt "." ++ str_of_Z (tenths q mod 10).

(** ** Thousands separators: the digits are those of the number *)

Section Thousands.
Implicit Types (l s : text) (c : ascii).

Lemma group3_step a b c d l :
  group3 (a :: b :: c :: d :: l) = a :: b :: c :: ","%char :: group3 (d :: l).
Proof. done. Qed.

Lemma group3_filter_fuel (n : nat) l :
  length l ≤ n → Forall (fun c => c ≠ ","%char) l →
  filter (fun c => c ≠ ","%char) (group3 l) = l.
Proof.
  revert l; induction n as [|n IH]; intros l Hn Hl.
  - destruct l; [done | simpl in Hn; lia].
  - destruct l as [|a [|b [|c [|d rest]]]]; try by apply filter_all.
    rewrite group3_step. apply Forall_cons in Hl as [Ha [Hb [Hc Hr]%Forall_cons]%Forall_cons].
    rewrite !filter_cons. rewrite !decide_True by done.
    rewrite decide_False by (intros H; by apply H).
    do 3 f_equal. apply IH; [simpl in *; lia | done].
Qed.

Lemma group3_filter l :
  Forall (fun c => c ≠ ","%char) l → filter (fun c => c ≠ ","%char) (group3 l) = l.
Proof. by apply (group3_filter_fuel (length l)). Qed.

Lemma digit_not_comma c : is_digit c = true → c ≠ ","%char.
Proof. by intros H ->. Qed.

(** Without its commas, the text is the decimal numeral. *)
Lemma fmt_thousands_digits (z : Z) :
  filter (fun c => c ≠ ","%char) (fmt_thousands z) = str_of_Z z.
Proof.
  unfold fmt_thousands. rewrite filter_app, filter_reverse, group3_filter.
  - rewrite reverse_involutive. destruct z as [|p|p]; simpl; try done.
  - apply Forall_reverse. eapply Forall_impl; [apply str_of_N_digits|].
    intros c. apply digit_not_comma.
Qed.
End Thousands.

(** ** [replace] of a character by nothing *)

Section ReplaceChar.
Implicit Types (s : text) (c : ascii).

Lemma replace_unfold s old new :
  old ≠ [] →
  replace s old new =
    match find s old with
    | Some i => take i s ++ new ++ replace (drop (i + length old) s) old new
    | None => s
    end.
Proof.
  intros Hne. rewrite !replace_join_split, split_unfold by done.
  destruct (find s old); [|done]. rewrite join_cons; [by rewrite replace_join_split|].
  apply split_fuel_ne.
Qed.

Lemma replace_char_fuel (n : nat) s c :
  length s ≤ n → replace s [c] [] = filter (fun d => d ≠ c) s.
Proof.
  revert s; induction n as [|n IH]; intros s Hn.
  - destruct s; [done | simpl in Hn; lia].
  - destruct (decide (c ∈ s)) as [Hin|Hin].
    + apply list_elem_of_split_l in Hin as (a & b & -> & Ha).
      change (a ++ c :: b) with (a ++ [c] ++ b). rewrite replace_unfold by done.
      rewrite (find_app_sep a [c] b) by (done || (simpl; rewrite app_nil_r; by apply contains_char)).
      rewrite take_app_length, <-drop_drop, drop_app_length. simpl drop. simpl app.
      rewrite drop_0.
      assert (length b ≤ n) as Hb by (rewrite length_app in Hn; simpl in Hn; lia).
      rewrite (IH b Hb).
      rewrite filter_app, filter_cons, decide_False by (intros H; by apply H).
      rewrite (filter_all _ a); [done|]. apply Forall_forall. by intros d Hd ->.
    + rewrite replace_no_old; [|done | by apply contains_char].
      symmetry. apply filter_all, Forall_forall. by intros d Hd ->.
Qed.

Lemma replace_char s c : replace s [c] [] = filter (fun d => d ≠ c) s.
Proof. by apply (replace_char_fuel (length s)). Qed.
End ReplaceChar.

(** ** One decimal: the error of rounding *)

Section Rounding.
#[local] Open Scope Q_scope.

Lemma round_half_even_error (x : Q) :
  x - (1 # 2) <= inject_Z (round_half_even x) ∧ inject_Z (round_half_even x) <= x + (1 # 2).
Proof.
  destruct x as [n d]. unfold round_half_even. cbn [Qnum Qden].
  pose proof (Z.div_mod n (Zpos d) ltac:(done)) as Hdm.
  pose proof (Z.mod_pos_bound n (Zpos d) ltac:(done)) as Hb.
  set (fl := (n / Zpos d)%Z) in *. set (r := (n mod Zpos d)%Z) in *. clearbody fl r.
  destruct (Z.ltb_spec (2 * r) (Zpos d)); [|destruct (Z.ltb_spec (Zpos d) (2 * r));
    [|destruct (Z.even fl)]];
    unfold Qminus; unfold Qle, Qplus, Qopp, inject_Z; cbn [Qnum Qden]; rewrite ?Pos2Z.inj_mul;
    split; nia.
Qed.

Lemma tenths_nonneg (q : Q) : (0 ≤ tenths q)%Z.
Proof.
  unfold tenths. pose proof (Qabs_nonneg q) as Hq. set (x := Qabs q * 10) in *.
  assert (0 <= x) as Hx by (unfold x; nra || (apply Qmult_le_0_compat; [done | lra])).
  destruct x as [n d]. unfold Qle in Hx. simpl in Hx. unfold round_half_even. cbn [Qnum Qden].
  assert (0 ≤ n / Zpos d)%Z by (apply Z.div_pos; lia).
  destruct (_ <? _)%Z; [done|]. destruct (_ <? _)%Z; [lia|]. destruct (Z.even _); lia.
Qed.

(** The tenths shown are within a half of ten times the number. *)
Lemma tenths_error (q : Q) :
  Qabs q * 10 - (1 # 2) <= inject_Z (tenths q) ∧ inject_Z (tenths q) <= Qabs q * 10 + (1 # 2).
Proof. apply round_half_even_error. Qed.

(** A match score is written as its sign, a whole number, a
    point and one digit; the number written differs from the score by at
    most a twentieth. *)
Lemma fmt_1f_error (q : Q) :
  ∃ whole digit : Z,
    fmt_1f q = (if Qlt_le_dec q 0 then txt "-" else []) ++
               str_of_Z whole ++ txt "." ++ str_of_Z digit ∧
    (0 ≤ whole)%Z ∧ (0 ≤ digit < 10)%Z ∧
    Qabs q - (1 # 20) <= inject_Z whole + inject_Z digit * (1 # 10) ∧
    inject_Z whole + inject_Z digit * (1 # 10) <= Qabs q + (1 # 20).
Proof.
  exists (tenths q / 10)%Z, (tenths q mod 10)%Z.
  pose proof (tenths_nonneg q) as Ht. pose proof (tenths_error q) as [H1 H2].
  pose proof (Z.div_mod (tenths q) 10 ltac:(done)) as Hdm.
  pose proof (Z.mod_pos_bound (tenths q) 10 ltac:(done)) as Hb.
  assert (inject_Z (tenths q) == 10 * inject_Z (tenths q / 10) + inject_Z (tenths q mod 10)) as He.
  { rewrite Hdm at 1. by rewrite inject_Z_plus, inject_Z_mult. }
  split_and!; [reflexivity | apply Z.div_pos; lia | lia | lia | |]; lra.
Qed.
End Rounding.

(** ** Thousands separators: the shape of the text *)

Section Groups.
Implicit Types (l h : text) (gs : list text).

Lemma groups_snoc h gs g : groups h (gs ++ [g]) = groups h gs ++ ","%char :: g.
Proof. unfold groups. by rewrite map_app, concat_app, app_assoc; simpl; rewrite app_nil_r. Qed.

Lemma group3_groups_fuel (n : nat) l :
  length l ≤ n → l ≠ [] → Forall (fun c => is_digit c = true) l →
  ∃ h gs, reverse (group3 l) = groups h gs ∧ canonical h gs.
Proof.
  revert l; induction n as [|n IH]; intros l Hn Hne Hl; [destruct l; [done | simpl in Hn; lia]|].
  destruct l as [|a [|b [|c [|d rest]]]]; [done | | | |].
  1-3: eexists _, []; unfold groups, canonical; simpl; rewrite app_nil_r;
       (split; [done|]); split_and!; rewrite ?length_reverse; simpl; try lia;
       [by apply Forall_reverse | constructor].
  rewrite group3_step.
  apply Forall_cons in Hl as [Ha [Hb [Hc Hr]%Forall_cons]%Forall_cons].
  destruct (IH (d :: rest)) as (h & gs & Hg & Hh & Hd & Hgs); [simpl in *; lia | done | done |].
  exists h, (gs ++ [[c; b; a]]). split.
  - rewrite groups_snoc, <-Hg, !reverse_cons, <-!app_assoc. done.
  - unfold canonical. split_and!; [lia | lia | done |]. apply Forall_app. split; [done|].
    repeat constructor; done.
Qed.

(** [:,] writes a number that is not negative in groups. *)
Lemma fmt_thousands_groups (z : Z) :
  (0 ≤ z)%Z → ∃ h gs, fmt_thousands z = groups h gs ∧ canonical h gs.
Proof.
  intros Hz. unfold fmt_thousands. destruct (Z.ltb_spec z 0); [lia|]. simpl.
  apply (group3_groups_fuel (length (reverse (str_of_N (Z.to_N (Z.abs z)))))); [done | |].
  - intros Hnil%(f_equal reverse). rewrite reverse_involutive in Hnil.
    by apply str_of_N_ne in Hnil.
  - apply Forall_reverse, str_of_N_digits.
Qed.
End Groups.
