(* ===== verification/Regex.v ===== *)
(** * Regex: the fragment of Python's [re] that the extraction functions use

    The patterns of [src/job_seeker/tools/job_search_tools.py] use literals,
    character classes, [\d], [\s], grouping, alternation, [?], [*], [+] and
    counted repetition, with one capturing group and, for two functions,
    [re.IGNORECASE].  This file gives the syntax of that fragment, a
    backtracking matcher with Python's priorities (leftmost start, greedy
    repetition, first alternative first), [re.search] and [re.findall] on top
    of it, and a declarative semantics that the matcher is proved sound and
    complete for.

    The starred sub-patterns of the source never match the empty string; an
    iteration of [Star] that consumes nothing is cut, which for such patterns
    is what Python does.  The recursion of the matcher through a star and
    of [findall] along the text runs on fuel, which the last section shows
    is never used up. *)

From Stdlib Require Import Ascii NArith Lia.
From stdpp Require Import base list strings.
From S2P Require Import Prelude Text.

(** ** Syntax *)

(** A character class: a union of inclusive ranges of character codes. *)
Definition cset := list (N * N).

Inductive re : Type :=
  | Eps                      (* the empty pattern *)
  | Chr (cs : cset)          (* one character of a class *)
  | Seq (r1 r2 : re)         (* r1 r2 *)
  | Alt (r1 r2 : re)         (* r1|r2, r1 tried first *)
  | Star (r : re)            (* r*, greedy *)
  | Group (r : re).          (* (r), the capturing group *)

(** Derived forms, expanded the way a backtracking engine tries them. *)
Definition Opt (r : re) : re := Alt r Eps.             (* r? *)
Definition Plus (r : re) : re := Seq r (Star r).       (* r+ *)

(** [r{n}] *)
Fixpoint Rep (n : nat) (r : re) : re :=
  match n with
  | 0 => Eps
  | S n' => Seq r (Rep n' r)
  end.

(** [r{0,n}]: as many as possible first. *)
Fixpoint UpTo (n : nat) (r : re) : re :=
  match n with
  | 0 => Eps
  | S n' => Opt (Seq r (UpTo n' r))
  end.

(** [r{lo,hi}] *)
Definition Range (lo hi : nat) (r : re) : re := Seq (Rep lo r) (UpTo (hi - lo) r).

(** A literal string. *)
Fixpoint Lit (s : text) : re :=
  match s with
  | [] => Eps
  | c :: s' => Seq (Chr [(code c, code c)]) (Lit s')
  end.

(** One of several alternatives, in order. *)
Fixpoint Alts (rs : list re) : re :=
  match rs with
  | [] => Chr []
  | [r] => r
  | r :: rs' => Alt r (Alts rs')
  end.

Definition digit : cset := [(48, 57)]%N.                        (* \d *)
Definition space : cset := [(9, 13); (28, 32)]%N.               (* \s *)
Definition upper : cset := [(65, 90)]%N.                        (* [A-Z] *)
Definition lowerc : cset := [(97, 122)]%N.                      (* [a-z] *)
Definition chr (s : string) : cset := map (fun c => (code c, code c)) (txt s).

(** ** Matching *)

Definition cset_hit (cs : cset) (c : ascii) : bool :=
  existsb (fun r => in_range r.1 r.2 c) cs.

(** Membership of a character in a class; under [re.IGNORECASE] the other
    case of the character is tried too. *)
Definition cset_mem (ci : bool) (cs : cset) (c : ascii) : bool :=
  cset_hit cs c || (ci && (cset_hit cs (to_lower c) || cset_hit cs (to_upper c))).

(** The text captured by the group, once it has closed. *)
Definition cap := option text.

Section Matcher.
Context (ci : bool) {R : Type}.

(** A continuation receives the rest of the input and the capture. *)
Definition cont := text → cap → option R.

(** The greedy loop of [r*]: [mr] matches one [r].  An iteration must
    consume input, so [length s] iterations are enough. *)
Fixpoint star_loop (mr : text → cap → cont → option R) (n : nat)
    (s : text) (g : cap) (k : cont) : option R :=
  match n with
  | 0 => k s g
  | S n' =>
      match mr s g (fun s' g' =>
                      if length s' <? length s then star_loop mr n' s' g' k
                      else None) with
      | Some x => Some x
      | None => k s g
      end
  end.

(** [m r s g k]: match [r] at the head of [s], then run [k] on what is
    left; on failure of [k] the next way to match [r] is tried. *)
Fixpoint m (r : re) (s : text) (g : cap) (k : cont) : option R :=
  match r with
  | Eps => k s g
  | Chr cs =>
      match s with
      | c :: s' => if cset_mem ci cs c then k s' g else None
      | [] => None
      end
  | Seq r1 r2 => m r1 s g (fun s' g' => m r2 s' g' k)
  | Alt r1 r2 =>
      match m r1 s g k with
      | Some x => Some x
      | None => m r2 s g k
      end
  | Star r' => star_loop (m r') (length s) s g k
  | Group r' =>
      m r' s g (fun s' _ => k s' (Some (take (length s - length s') s)))
  end.
End Matcher.

(** A match: where it starts, the text it covers and the group. *)
Record rmatch : Type := RMatch {
  m_start : nat;
  m_text : text;
  m_group : cap;
}.

(** Match [r] at the head of [s]: the rest of the input and the capture. *)
Definition match_here (ci : bool) (r : re) (s : text) : option (text * cap) :=
  m ci r s None (fun s' g => Some (s', g)).

(** [re.search(r, s)]: the first position, from the left, where [r]
    matches. *)
Fixpoint search_from (ci : bool) (r : re) (pos : nat) (s : text) : option rmatch :=
  match match_here ci r s with
  | Some (rest, g) => Some (RMatch pos (take (length s - length rest) s) g)
  | None =>
      match s with
      | [] => None
      | _ :: s' => search_from ci r (S pos) s'
      end
  end.

Definition search (ci : bool) (r : re) (s : text) : option rmatch :=
  search_from ci r 0 s.

(** [match.group(1)] of a pattern whose group takes part in every match. *)
Definition group1 (mt : rmatch) : text := default [] (m_group mt).

Fixpoint has_group (r : re) : bool :=
  match r with
  | Eps | Chr _ => false
  | Seq r1 r2 | Alt r1 r2 => has_group r1 || has_group r2
  | Star r' => has_group r'
  | Group _ => true
  end.

(** [re.findall(r, s)] for a pattern that never matches the empty string:
    the groups (or the matches, for a pattern without group) of the
    successive non-overlapping matches.  Each round consumes a character. *)
Fixpoint findall_fuel (n : nat) (ci : bool) (r : re) (s : text) : list text :=
  match n with
  | 0 => []
  | S n' =>
      match match_here ci r s, s with
      | Some (rest, g), _ :: s' =>
          let whole := take (length s - length rest) s in
          (if has_group r then default [] g else whole) ::
          findall_fuel n' ci r (if length rest <? length s then rest else s')
      | Some (rest, g), [] => [if has_group r then default [] g else []]
      | None, _ :: s' => findall_fuel n' ci r s'
      | None, [] => []
      end
  end.

Definition findall (ci : bool) (r : re) (s : text) : list text :=
  findall_fuel (S (length s)) ci r s.

(** ** What a pattern denotes *)

(** [matches ci r s]: the pattern matches exactly the text [s].  An
    iteration of a star is never empty. *)
Inductive matches (ci : bool) : re → text → Prop :=
  | M_Eps : matches ci Eps []
  | M_Chr cs c : cset_mem ci cs c = true → matches ci (Chr cs) [c]
  | M_Seq r1 r2 s1 s2 :
      matches ci r1 s1 → matches ci r2 s2 → matches ci (Seq r1 r2) (s1 ++ s2)
  | M_AltL r1 r2 s : matches ci r1 s → matches ci (Alt r1 r2) s
  | M_AltR r1 r2 s : matches ci r2 s → matches ci (Alt r1 r2) s
  | M_StarNil r : matches ci (Star r) []
  | M_StarCons r s1 s2 :
      s1 ≠ [] → matches ci r s1 → matches ci (Star r) s2 →
      matches ci (Star r) (s1 ++ s2)
  | M_Group r s : matches ci r s → matches ci (Group r) s.

(** A pattern that cannot match the empty string. *)
Fixpoint nonempty (r : re) : bool :=
  match r with
  | Eps | Star _ => false
  | Chr _ => true
  | Seq r1 r2 => nonempty r1 || nonempty r2
  | Alt r1 r2 => nonempty r1 && nonempty r2
  | Group r' => nonempty r'
  end.

Section MatcherProps.
Context {R : Type}.

(** The properties of a one-step matcher that the loop of [Star] needs:
    it calls equal continuations to equal effect, and fails when its
    continuation always fails. *)
Definition respects_ext (mr : text → cap → @cont R → option R) : Prop :=
  ∀ s g k1 k2, (∀ s' g', k1 s' g' = k2 s' g') → mr s g k1 = mr s g k2.

Definition fails_with (mr : text → cap → @cont R → option R) : Prop :=
  ∀ s g, mr s g (fun _ _ => None) = None.

End MatcherProps.

(** ** The matcher and its continuation *)

Section MatcherFacts.
Context (ci : bool) {R : Type}.
Implicit Types (r : re) (s : text) (g : cap) (k : @cont R).
Implicit Types mr : text → cap → @cont R → option R.

Lemma star_loop_ext mr n s g k1 k2 :
  respects_ext mr →
  (∀ s' g', k1 s' g' = k2 s' g') →
  star_loop mr n s g k1 = star_loop mr n s g k2.
Proof.
  intros Hmr Hk. revert s g; induction n as [|n IH]; intros s g; simpl; [done|].
  rewrite Hk. erewrite Hmr; [done|]. intros s' g'; simpl.
  by destruct (length s' <? length s).
Qed.

Lemma m_ext r : respects_ext (m ci (R:=R) r).
Proof.
  induction r as [|cs|r1 IH1 r2 IH2|r1 IH1 r2 IH2|r IH|r IH];
    intros s g k1 k2 Hk; simpl.
  - done.
  - destruct s as [|c s]; [done|]. by destruct (cset_mem ci cs c).
  - apply IH1. intros; by apply IH2.
  - by rewrite (IH1 _ _ k1 k2), (IH2 _ _ k1 k2).
  - by apply star_loop_ext.
  - apply IH. intros; apply Hk.
Qed.

Lemma star_loop_fail mr n s g :
  fails_with mr → respects_ext mr →
  star_loop mr n s g (fun _ _ => None) = None.
Proof.
  intros Hf He. revert s g; induction n as [|n IH]; intros s g; simpl; [done|].
  erewrite He; [by rewrite Hf|]. intros s' g'; simpl.
  rewrite IH. by destruct (length s' <? length s).
Qed.

Lemma m_fail r : fails_with (m ci (R:=R) r).
Proof.
  induction r as [|cs|r1 IH1 r2 IH2|r1 IH1 r2 IH2|r IH|r IH]; intros s g; simpl.
  - done.
  - destruct s as [|c s]; [done|]. by destruct (cset_mem ci cs c).
  - erewrite m_ext; [apply IH1|]. intros; apply IH2.
  - by rewrite IH1, IH2.
  - apply star_loop_fail; [done | apply m_ext].
  - apply IH.
Qed.

(** The loop never needs more fuel than the length of its input. *)
Lemma star_loop_fuel r n1 n2 s g k :
  length s ≤ n1 → length s ≤ n2 →
  star_loop (m ci r) n1 s g k = star_loop (m ci r) n2 s g k.
Proof.
  revert n2 s g; induction n1 as [|n1 IH]; intros [|n2] s g H1 H2; simpl; try done.
  - destruct s; [|simpl in H1; lia]. erewrite m_ext; [by rewrite m_fail|]. done.
  - destruct s; [|simpl in H2; lia]. erewrite m_ext; [by rewrite m_fail|]. done.
  - erewrite m_ext; [done|]. intros s' g'; simpl.
    destruct (Nat.ltb_spec (length s') (length s)); [|done]. apply IH; lia.
Qed.

(** The equation of [r*]: one more [r] that consumes input, then [r*]
    again; else stop. *)
Lemma m_star_unfold r s g k :
  m ci (Star r) s g k =
    match m ci r s g (fun s' g' =>
            if length s' <? length s then m ci (Star r) s' g' k else None) with
    | Some x => Some x
    | None => k s g
    end.
Proof.
  simpl. destruct s as [|c s]; simpl.
  - erewrite m_ext; [by rewrite m_fail|]. done.
  - erewrite m_ext; [done|]. intros s' g'; simpl.
    destruct (Nat.ltb_spec (length s') (S (length s))); [|done].
    apply star_loop_fuel; lia.
Qed.
End MatcherFacts.

(** ** Soundness and completeness of the matcher *)

Section Correctness.
Context (ci : bool) {R : Type}.
Implicit Types (r : re) (s t : text) (g : cap) (k : @cont R).

(** What it means for a matcher of [r] to succeed only through a match. *)
Definition sound_for r (mr : text → cap → @cont R → option R) : Prop :=
  ∀ s g k x, mr s g k = Some x →
    ∃ s1 s2 g', s = s1 ++ s2 ∧ matches ci r s1 ∧ k s2 g' = Some x.

Lemma star_loop_sound r n : sound_for r (m ci r) → sound_for (Star r) (star_loop (m ci r) n).
Proof.
  intros Hr. induction n as [|n IH]; intros s g k x; simpl.
  - intros H. exists [], s, g. split_and!; [done | constructor | done].
  - destruct (m ci r s g _) as [y|] eqn:E.
    + intros [= ->]. apply Hr in E as (s1 & s2 & g1 & -> & Hm & Hk).
      destruct (Nat.ltb_spec (length s2) (length (s1 ++ s2))) as [L|]; [|done].
      apply IH in Hk as (t1 & t2 & g2 & -> & Hs & Hk).
      exists (s1 ++ t1), t2, g2. split_and!; [by rewrite app_assoc | | done].
      constructor; [|done..]. intros ->. simpl in L. lia.
    + intros H. exists [], s, g. split_and!; [done | constructor | done].
Qed.

(** Soundness: when the matcher succeeds, a prefix of the input matches
    the pattern and the continuation succeeded on the rest. *)
Lemma m_sound r : sound_for r (m ci r).
Proof.
  induction r as [|cs|r1 IH1 r2 IH2|r1 IH1 r2 IH2|r IH|r IH]; intros s g k x; simpl.
  - intros H. exists [], s, g. split_and!; [done | constructor | done].
  - destruct s as [|c s]; [done|]. destruct (cset_mem ci cs c) eqn:E; [|done].
    intros H. exists [c], s, g. split_and!; [done | by constructor | done].
  - intros (s1 & s2 & g1 & -> & H1 & H)%IH1.
    apply IH2 in H as (t1 & t2 & g2 & -> & H2 & H).
    exists (s1 ++ t1), t2, g2. split_and!; [by rewrite app_assoc | by constructor | done].
  - destruct (m ci r1 s g k) as [y|] eqn:E.
    + intros [= ->]. apply IH1 in E as (s1 & s2 & g1 & -> & H1 & H).
      exists s1, s2, g1. split_and!; [done | by apply M_AltL | done].
    + intros (s1 & s2 & g1 & -> & H1 & H)%IH2.
      exists s1, s2, g1. split_and!; [done | by apply M_AltR | done].
  - by apply star_loop_sound.
  - intros (s1 & s2 & g1 & -> & H1 & H)%IH.
    eexists s1, s2, _. split_and!; [done | by constructor | done].
Qed.

(** Completeness: when a prefix matches and the continuation accepts the
    rest, the matcher succeeds (on that way to match or on one it tries
    before). *)
Lemma m_complete r s1 :
  matches ci r s1 →
  ∀ s2 g k, (∀ g', is_Some (k s2 g')) → is_Some (m ci r (s1 ++ s2) g k).
Proof.
  induction 1 as [|cs c Hc|r1 r2 s1 t1 _ IH1 _ IH2|r1 r2 s1 _ IH|r1 r2 s1 _ IH
                 |r|r s1 t1 Hne _ IH1 _ IH2|r s1 _ IH]; intros s2 g k Hk.
  - apply Hk.
  - simpl. rewrite Hc. apply Hk.
  - simpl. rewrite <-app_assoc. apply IH1. intros g'. by apply IH2.
  - simpl. by destruct (IH s2 g k Hk) as [x ->].
  - simpl. destruct (m ci r1 (s1 ++ s2) g k); [done | by apply IH].
  - rewrite m_star_unfold. destruct (m ci r _ _ _); [done | apply Hk].
  - rewrite m_star_unfold, <-app_assoc.
    edestruct (IH1 (t1 ++ s2) g) as [x ->]; [|done].
    intros g'. cbn beta.
    assert ((length (t1 ++ s2) <? length (s1 ++ t1 ++ s2)) = true) as ->.
    { apply Nat.ltb_lt. rewrite !length_app. destruct s1; [done | simpl; lia]. }
    by apply IH2.
  - simpl. apply IH. intros g'. apply Hk.
Qed.

(** A pattern that is [nonempty] matches no empty text. *)
Lemma matches_nonempty r s : matches ci r s → nonempty r = true → s ≠ [].
Proof.
  induction 1 as [|cs c Hc|r1 r2 s1 t1 _ IH1 _ IH2|r1 r2 s1 _ IH|r1 r2 s1 _ IH
                 |r|r s1 t1 Hne _ IH1 _ IH2|r s1 _ IH]; simpl; try done.
  - intros [H|H]%orb_true_iff E; apply app_eq_nil in E as [? ?]; naive_solver.
  - intros [H _]%andb_true_iff. auto.
  - intros [_ H]%andb_true_iff. auto.
Qed.
End Correctness.

(** ** [match_here], [search] and [findall] *)

Section SearchFacts.
Context (ci : bool).
Implicit Types (r : re) (s t a b rest : text) (g : cap) (mt : rmatch).

Lemma match_here_sound r s rest g :
  match_here ci r s = Some (rest, g) → ∃ t, s = t ++ rest ∧ matches ci r t.
Proof.
  intros (s1 & s2 & g' & -> & Hm & [= <- _])%m_sound. by exists s1.
Qed.

Lemma match_here_complete r t rest :
  matches ci r t → is_Some (match_here ci r (t ++ rest)).
Proof. intros H. by apply m_complete. Qed.

Lemma match_here_None r s :
  match_here ci r s = None ↔ ∀ t rest, s = t ++ rest → ¬ matches ci r t.
Proof.
  split.
  - intros E t rest -> Hm. apply (match_here_complete _ _ rest) in Hm as [x Hx].
    congruence.
  - intros H. destruct (match_here ci r s) as [[rest g]|] eqn:E; [|done].
    apply match_here_sound in E as (t & -> & Hm). by destruct (H t rest).
Qed.

Lemma match_here_length r s rest g :
  match_here ci r s = Some (rest, g) → length rest ≤ length s.
Proof. intros (t & -> & _)%match_here_sound. rewrite length_app. lia. Qed.

(** The text covered by a match at the head of [s]. *)
Lemma match_here_take r s rest g :
  match_here ci r s = Some (rest, g) →
  s = take (length s - length rest) s ++ rest ∧
  matches ci r (take (length s - length rest) s).
Proof.
  intros (t & -> & Hm)%match_here_sound.
  replace (length (t ++ rest) - length rest) with (length t)
    by (rewrite length_app; lia).
  by rewrite take_app_length.
Qed.

(** The capture of a pattern that is one group is the text of the match. *)
Lemma match_here_group r s rest g :
  match_here ci (Group r) s = Some (rest, g) →
  g = Some (take (length s - length rest) s).
Proof.
  unfold match_here. simpl. intros (s1 & s2 & g' & -> & Hm & [= <- <-])%m_sound. done.
Qed.

Lemma search_from_here r pos s rest g :
  match_here ci r s = Some (rest, g) →
  let mt := RMatch pos (take (length s - length rest) s) g in
  s = m_text mt ++ rest ∧ matches ci r (m_text mt) ∧
  match_here ci r (m_text mt ++ rest) = Some (rest, m_group mt).
Proof.
  intros E. pose proof (match_here_take _ _ _ _ E) as [Hs Hm]. simpl.
  split_and!; [done | done | by rewrite <-Hs].
Qed.

Lemma search_from_sound r pos s mt :
  search_from ci r pos s = Some mt →
  ∃ a b, s = a ++ m_text mt ++ b ∧ m_start mt = pos + length a ∧
         matches ci r (m_text mt) ∧
         match_here ci r (m_text mt ++ b) = Some (b, m_group mt) ∧
         ∀ a' rest, s = a' ++ rest → length a' < length a →
                    match_here ci r rest = None.
Proof.
  revert pos; induction s as [|c s IH]; intros pos; cbn [search_from];
    destruct (match_here ci r _) as [[rest g]|] eqn:E; try done.
  1,2: intros [= <-]; apply (search_from_here _ pos) in E as (Hs & Hm & Hh);
       exists [], rest; split_and!; [done | simpl; lia | done | done | simpl; intros; lia].
  intros (a & b & -> & Hp & Hm & Hh & Hl)%IH.
  exists (c :: a), b. split_and!; [done | simpl; lia | done | done |].
  intros [|c' a'] rest Heq Hlen; simpl in *.
  - by subst.
  - inv Heq. eapply Hl; [done | lia].
Qed.

(** [re.search] returns a match of the pattern inside [s], and no match
    starts to its left. *)
Lemma search_sound r s mt :
  search ci r s = Some mt →
  ∃ a b, s = a ++ m_text mt ++ b ∧ m_start mt = length a ∧
         matches ci r (m_text mt) ∧
         ∀ a' t b', s = a' ++ t ++ b' → length a' < length a → ¬ matches ci r t.
Proof.
  intros (a & b & -> & Hp & Hm & _ & Hl)%search_from_sound.
  exists a, b. split_and!; [done..|].
  intros a' t b' Heq Hlen Ht. specialize (Hl a' (t ++ b') Heq Hlen).
  by eapply match_here_None in Hl.
Qed.

Lemma search_from_None r pos s :
  search_from ci r pos s = None ↔ ∀ a t b, s = a ++ t ++ b → ¬ matches ci r t.
Proof.
  revert pos; induction s as [|c s IH]; intros pos; cbn [search_from].
  - destruct (match_here ci r []) as [[rest g]|] eqn:E.
    + split; [done|]. intros H. apply match_here_sound in E as (t & Ht & Hm).
      by destruct (H [] t rest).
    + split; [|done]. intros _ a t b Heq Hm.
      symmetry in Heq. apply app_eq_nil in Heq as [-> [-> ->]%app_eq_nil].
      eapply match_here_None in E; [done | by instantiate (1 := [])].
  - destruct (match_here ci r (c :: s)) as [[rest g]|] eqn:E.
    + split; [done|]. intros H. apply match_here_sound in E as (t & Ht & Hm).
      by destruct (H [] t rest).
    + rewrite IH. split.
      * intros H [|c' a] t b Heq Hm.
        -- eapply match_here_None in E; [done | exact Heq].
        -- inv Heq. by eapply H.
      * intros H a t b -> Hm. by eapply (H (c :: a)).
Qed.

(** [re.search] fails exactly when no part of [s] matches. *)
Lemma search_None r s :
  search ci r s = None ↔ ∀ a t b, s = a ++ t ++ b → ¬ matches ci r t.
Proof. apply search_from_None. Qed.

Lemma search_is_Some r s a t b :
  s = a ++ t ++ b → matches ci r t → is_Some (search ci r s).
Proof.
  intros Hs Hm. apply not_eq_None_Some. intros H.
  by eapply search_None in H.
Qed.

(** The group of a pattern that is one group is the text of the match. *)
Lemma search_from_group r pos s mt :
  search_from ci (Group r) pos s = Some mt → m_group mt = Some (m_text mt).
Proof.
  revert pos; induction s as [|c s IH]; intros pos; cbn [search_from].
  - destruct (match_here ci (Group r) []) as [[rest g]|] eqn:E; [|done].
    intros [= <-]. by apply match_here_group in E.
  - destruct (match_here ci (Group r) (c :: s)) as [[rest g]|] eqn:E; [|apply IH].
    intros [= <-]. by apply match_here_group in E.
Qed.

Lemma search_group1 r s mt :
  search ci (Group r) s = Some mt → group1 mt = m_text mt.
Proof. intros H%search_from_group. unfold group1. by rewrite H. Qed.
End SearchFacts.

(** ** The equations of [findall] *)

Section FindallFacts.
Context (ci : bool).
Implicit Types (r : re) (s rest : text) (g : cap).

(** The fuel of [findall] is never used up: every round drops a
    character. *)
Lemma findall_fuel_enough r (n1 n2 : nat) s :
  length s < n1 → length s < n2 → findall_fuel n1 ci r s = findall_fuel n2 ci r s.
Proof.
  revert n2 s; induction n1 as [|n1 IH]; intros [|n2] s H1 H2; try lia.
  cbn [findall_fuel].
  destruct (match_here ci r s) as [[rest g]|] eqn:E, s as [|c s']; try done.
  - f_equal. apply IH; destruct (Nat.ltb_spec (length rest) (length (c :: s')));
      simpl in *; lia.
  - apply IH; simpl in *; lia.
Qed.

Lemma findall_nil r :
  match_here ci r [] = None → findall ci r [] = [].
Proof. unfold findall. cbn [findall_fuel length]. by intros ->. Qed.

(** No match at the first character: go on behind it. *)
Lemma findall_skip r c s :
  match_here ci r (c :: s) = None → findall ci r (c :: s) = findall ci r s.
Proof. unfold findall. cbn [findall_fuel length]. by intros ->. Qed.

(** A match that is not empty: its group, or its text, then go on behind
    the match. *)
Lemma findall_match r s rest g :
  match_here ci r s = Some (rest, g) → length rest < length s →
  findall ci r s =
  (if has_group r then default [] g else take (length s - length rest) s) ::
  findall ci r rest.
Proof.
  intros E Hl. destruct s as [|c s']; [simpl in Hl; lia|].
  apply Nat.ltb_lt in Hl as Hb. unfold findall at 1. cbn [findall_fuel]. rewrite E, Hb.
  f_equal. apply findall_fuel_enough; simpl in *; lia.
Qed.
End FindallFacts.

(** ** The loops of the matcher end *)

Section Termination.
Context (ci : bool).
Implicit Types (r : re) (s : text) (g : cap).

End Termination.

(** ** The capture *)

Section Capture.
Context (ci : bool).
Implicit Types (r : re) (s t rest : text) (g : cap).

(** A pattern without group hands the capture it was given to its
    continuation. *)
Lemma star_loop_keeps_capture {R} r (n : nat) :
  (∀ s g (k : @cont R), m ci r s g k = m ci r s g (fun s' _ => k s' g)) →
  ∀ s g (k : @cont R),
    star_loop (m ci r) n s g k = star_loop (m ci r) n s g (fun s' _ => k s' g).
Proof.
  intros Hr. induction n as [|n IH]; intros s g k; simpl; [done|].
  match goal with
  | |- match ?a with _ => _ end = match ?b with _ => _ end => assert (a = b) as ->; [|done]
  end.
  rewrite Hr. symmetry. rewrite Hr. apply m_ext. intros s' _. simpl. by rewrite <-IH.
Qed.

Lemma m_keeps_capture {R} r :
  has_group r = false →
  ∀ s g (k : @cont R), m ci r s g k = m ci r s g (fun s' _ => k s' g).
Proof.
  induction r as [|cs|r1 IH1 r2 IH2|r1 IH1 r2 IH2|r IH|r IH]; simpl; try done.
  - intros [H1 H2]%orb_false_elim s g k.
    rewrite IH1, (IH1 H1 _ _ (fun s' g' => m ci r2 s' g' (fun s'' _ => k s'' g))) by done.
    apply m_ext. intros s' _. by apply IH2.
  - intros [H1 H2]%orb_false_elim s g k. by rewrite <-IH1, <-IH2.
  - intros H s g k. by apply star_loop_keeps_capture, IH.
Qed.

(** A pattern that begins with its group, and has no other: the capture
    is the text the group matched. *)
Lemma match_here_head_group r1 r2 s rest g :
  has_group r2 = false →
  match_here ci (Seq (Group r1) r2) s = Some (rest, g) →
  ∃ s1 s2, s = s1 ++ s2 ++ rest ∧ matches ci r1 s1 ∧ matches ci r2 s2 ∧ g = Some s1.
Proof.
  intros H2. unfold match_here. simpl.
  intros (s1 & s' & _ & -> & H1 & E)%m_sound. rewrite m_keeps_capture in E by done.
  apply m_sound in E as (s2 & rest' & _ & -> & Hm2 & [= <- <-]).
  exists s1, s2. split_and!; [done..|].
  by rewrite length_app, Nat.add_sub, take_app_length.
Qed.
End Capture.

(** ** Patterns that begin with their group *)

Section HeadGroup.
Context (ci : bool).
Implicit Types (r : re) (s t rest a b : text) (g : cap) (mt : rmatch).

Lemma matches_Seq_assoc r1 r2 r3 t :
  matches ci (Seq (Seq r1 r2) r3) t ↔ matches ci (Seq r1 (Seq r2 r3)) t.
Proof.
  split; intros H.
  - inv H. match goal with H : matches _ (Seq _ _) _ |- _ => inv H end.
    rewrite <-app_assoc. by repeat constructor.
  - inv H. match goal with H : matches _ (Seq _ _) _ |- _ => inv H end.
    rewrite app_assoc. by repeat constructor.
Qed.

(** [re.search] sees a pattern through the matches at each place. *)
Lemma search_from_ext r r' pos s :
  (∀ x, match_here ci r x = match_here ci r' x) →
  search_from ci r pos s = search_from ci r' pos s.
Proof.
  intros H. revert pos. induction s as [|c s IH]; intros pos; cbn [search_from]; rewrite H;
    [done|]. by rewrite IH.
Qed.

Lemma search_Seq_assoc r1 r2 r3 s :
  search ci (Seq (Seq r1 r2) r3) s = search ci (Seq r1 (Seq r2 r3)) s.
Proof. by apply search_from_ext. Qed.

(** The match that [re.search] returns for a pattern that begins with its
    group: the group holds the text its pattern matched, the rest of the
    pattern matched what follows, and the pattern matches at no place
    further left. *)
Lemma search_head_group r1 r2 s mt :
  has_group r2 = false →
  search ci (Seq (Group r1) r2) s = Some mt →
  ∃ a s1 s2 b,
    s = a ++ s1 ++ s2 ++ b ∧ matches ci r1 s1 ∧ matches ci r2 s2 ∧
    group1 mt = s1 ∧ m_text mt = s1 ++ s2 ∧
    ∀ a' t b', s = a' ++ t ++ b' → length a' < length a →
               ¬ matches ci (Seq (Group r1) r2) t.
Proof.
  intros H2 (a & b & -> & _ & _ & Hh & Hl)%search_from_sound.
  destruct (match_here_head_group ci _ _ _ _ _ H2 Hh) as (s1 & s2 & Hs & Hm1 & Hm2 & Hg).
  rewrite app_assoc in Hs. apply app_inv_tail in Hs.
  exists a, s1, s2, b. unfold group1. rewrite Hg, Hs, <-app_assoc in *. split_and!; [done..|].
  intros a' t b' Heq Hlen Ht. specialize (Hl a' (t ++ b') Heq Hlen).
  by eapply match_here_None in Hl.
Qed.
End HeadGroup.

(** ** Runs of one class *)

Section Runs.
Context (ci : bool).
Implicit Types (t : text) (cs : cset).

Lemma matches_star_chr cs t :
  matches ci (Star (Chr cs)) t ↔ Forall (fun c => cset_mem ci cs c = true) t.
Proof.
  split.
  - intros H. remember (Star (Chr cs)) as r eqn:Hr.
    induction H as [| | | | | |r s1 s2 _ H1 _ _ IH|]; try discriminate; [done|].
    injection Hr as ->. inv H1. constructor; [done | by apply IH].
  - induction 1 as [|c t Hc _ IH]; [constructor|].
    change (c :: t) with ([c] ++ t). by repeat constructor.
Qed.

Lemma matches_plus_chr cs t :
  matches ci (Plus (Chr cs)) t ↔ t ≠ [] ∧ Forall (fun c => cset_mem ci cs c = true) t.
Proof.
  unfold Plus. split.
  - intros H. inv H. match goal with H : matches _ (Chr _) _ |- _ => inv H end.
    split; [done|]. constructor; [done | by apply matches_star_chr].
  - intros [Hne H]. destruct H as [|c t Hc Ht]; [done|].
    change (c :: t) with ([c] ++ t). constructor; [by constructor | by apply matches_star_chr].
Qed.
End Runs.
