(* ===== verification/Extract.v ===== *)
(** * Extract: the extraction utilities

    The pure functions of [src/job_seeker/tools/job_search_tools.py] that
    pull a company, a location, a date, a salary, a job type, skills and
    required years of experience out of free text.  Each regular expression
    of the source is a value of [Regex.re], written next to the source
    pattern it transcribes; each function is a definition with the source's
    name, its rules in the source's order and its default.  Where a source
    pattern has a star before a closing parenthesis, the comment that
    quotes it puts a blank between the two. *)

From Stdlib Require Import Ascii NArith ZArith Lia.
From stdpp Require Import base list strings.
From S2P Require Import Prelude Text Format Regex.

(** ** Company *)

(** [_extract_company_from_title]: the text after the last " at ", else the
    text before the first " - ", else a sentinel. *)
Definition _extract_company_from_title (title : text) : text :=
  if contains (txt " at ") title then
    strip (List.last (split title (txt " at ")) [])
  else if contains (txt " - ") title then
    strip (hd [] (split title (txt " - ")))
  else txt "Unknown Company".

(** ** Patterns tried in order *)

(** [for pattern in patterns: match = re.search(pattern, s, flags);
    if match: return match.group(1)...]: the first pattern that matches
    somewhere wins. *)
Fixpoint first_match (ci : bool) (patterns : list re) (s : text) : option rmatch :=
  match patterns with
  | [] => None
  | p :: ps =>
      match search ci p s with
      | Some mt => Some mt
      | None => first_match ci ps s
      end
  end.

(** ** Location *)

(** [[A-Z][a-z]+] *)
Definition cap_word : re := Seq (Chr upper) (Plus (Chr lowerc)).

(** [[A-Z][a-z]+(?: [A-Z][a-z]+)*,?\s*], the head of the first two
    location patterns. *)
Definition city_head : re :=
  Seq cap_word
    (Seq (Star (Seq (Lit (txt " ")) cap_word))
       (Seq (Opt (Lit (txt ","))) (Star (Chr space)))).

Definition location_patterns : list re :=
  [ (* ([A-Z][a-z]+(?: [A-Z][a-z]+)*,?\s*[A-Z]{2}) *)
    Group (Seq city_head (Rep 2 (Chr upper)));
    (* ([A-Z][a-z]+(?: [A-Z][a-z]+)*,?\s*[A-Z][a-z]+) *)
    Group (Seq city_head cap_word);
    (* (Remote|Work from home|WFH) *)
    Group (Alts [Lit (txt "Remote"); Lit (txt "Work from home"); Lit (txt "WFH")]);
    (* (San Francisco|New York|Los Angeles|Chicago|Boston|Seattle|Austin|Denver) *)
    Group (Alts (map (fun c => Lit (txt c))
      ["San Francisco"; "New York"; "Los Angeles"; "Chicago"; "Boston";
       "Seattle"; "Austin"; "Denver"])) ].

Definition _extract_location_from_snippet (snippet : text) : text :=
  match first_match true location_patterns snippet with
  | Some mt => strip (group1 mt)
  | None => txt "Location not specified"
  end.

(** ** Posted date *)

(** [\d{1,2} <unit>s? ago] *)
Definition ago (unit : string) : re :=
  Seq (Range 1 2 (Chr digit))
    (Seq (Lit (txt " ")) (Seq (Lit (txt unit)) (Seq (Opt (Lit (txt "s"))) (Lit (txt " ago"))))).

Definition date_patterns : list re :=
  [ Group (ago "day");      (* (\d{1,2} days? ago) *)
    Group (ago "hour");     (* (\d{1,2} hours? ago) *)
    Group (ago "week");     (* (\d{1,2} weeks? ago) *)
    (* (Posted \d{1,2}/\d{1,2}/\d{4}) *)
    Group (Seq (Lit (txt "Posted "))
      (Seq (Range 1 2 (Chr digit)) (Seq (Lit (txt "/"))
        (Seq (Range 1 2 (Chr digit)) (Seq (Lit (txt "/")) (Rep 4 (Chr digit)))))));
    (* (\d{4}-\d{2}-\d{2}) *)
    Group (Seq (Rep 4 (Chr digit)) (Seq (Lit (txt "-"))
      (Seq (Rep 2 (Chr digit)) (Seq (Lit (txt "-")) (Rep 2 (Chr digit)))))) ].

Definition _extract_date_from_snippet (snippet : text) : text :=
  match first_match true date_patterns snippet with
  | Some mt => strip (group1 mt)
  | None => txt "Date not specified"
  end.

(** ** Salary *)

(** [\d{1,3}(?:,\d{3})*]: a number with thousands separators. *)
Definition comma_group : re := Seq (Lit (txt ",")) (Rep 3 (Chr digit)).

Definition amount : re := Seq (Range 1 3 (Chr digit)) (Star comma_group).

(** [(?:k|K)?] *)
Definition kilo : re := Opt (Alt (Lit (txt "k")) (Lit (txt "K"))).

Definition salary_patterns : list re :=
  [ (* (\$\d{1,3}(?:,\d{3})*(?:-\$\d{1,3}(?:,\d{3})* )?) *)
    Group (Seq (Lit (txt "$")) (Seq amount
      (Opt (Seq (Lit (txt "-$")) amount))));
    (* (\$\d{1,3}(?:,\d{3})*(?:k|K)?(?:-\$\d{1,3}(?:,\d{3})*(?:k|K)?)?) *)
    Group (Seq (Lit (txt "$")) (Seq amount (Seq kilo
      (Opt (Seq (Lit (txt "-$")) (Seq amount kilo))))));
    (* (\d{1,3}(?:,\d{3})*(?:-\d{1,3}(?:,\d{3})* )?\s*(?:k|K)?) *)
    Group (Seq amount (Seq (Opt (Seq (Lit (txt "-")) amount))
      (Seq (Star (Chr space)) kilo))) ].

(** The result is the group behind a dollar sign of its own. *)
Definition _extract_salary_from_snippet (snippet : text) : text :=
  match first_match false salary_patterns snippet with
  | Some mt => txt "$" ++ strip (group1 mt)
  | None => txt "Salary not specified"
  end.

(** ** Job type *)

(** [any(word in s for word in words)] *)
Definition any_in (words : list string) (s : text) : bool :=
  existsb (fun w => contains (txt w) s) words.

Definition _extract_job_type_from_snippet (snippet : text) : text :=
  let snippet_lower := lower snippet in
  if any_in ["full-time"; "full time"; "permanent"] snippet_lower then txt "Full-time"
  else if any_in ["part-time"; "part time"] snippet_lower then txt "Part-time"
  else if any_in ["contract"; "contractor"] snippet_lower then txt "Contract"
  else if any_in ["remote"; "work from home"; "wfh"] snippet_lower then txt "Remote"
  else txt "Full-time".

(** ** Skills *)

Definition common_skills : list text := map txt
  [ "python"; "javascript"; "java"; "react"; "node.js"; "aws"; "docker";
    "kubernetes"; "machine learning"; "ai"; "tensorflow"; "pytorch";
    "sql"; "mongodb"; "postgresql"; "git"; "linux"; "api"; "rest";
    "graphql"; "microservices"; "agile"; "scrum"; "ci/cd"; "jenkins";
    "terraform"; "puppet"; "ansible"; "devops"; "security"; "hipaa";
    "hitrust"; "finops"; "azure"; "gcp"; "snowflake" ].

(** The vocabulary entries that occur in the lowered description, in the
    vocabulary's order. *)
Definition _extract_skills (description : text) : list text :=
  let description_lower := lower description in
  filter (fun skill => contains skill description_lower = true) common_skills.

(** ** Required experience *)

(** [\+?\s*years?\s*] *)
Definition years_tail : re :=
  Seq (Opt (Lit (txt "+"))) (Seq (Star (Chr space))
    (Seq (Lit (txt "year")) (Seq (Opt (Lit (txt "s"))) (Star (Chr space))))).

(** [(\d+)\+?\s*years?\s*] *)
Definition years_head : re := Seq (Group (Plus (Chr digit))) years_tail.

(** [w1\s*w2\s*...]: the words with optional white space between them. *)
Fixpoint spaced (ws : list string) : re :=
  match ws with
  | [] => Eps
  | [w] => Lit (txt w)
  | w :: ws' => Seq (Lit (txt w)) (Seq (Star (Chr space)) (spaced ws'))
  end.

Definition experience_patterns : list re :=
  [ Seq years_head (spaced ["of"; "experience"]);              (* (\d+)\+?\s*years?\s*of\s*experience *)
    Seq years_head (spaced ["in"; "the"; "field"]);            (* (\d+)\+?\s*years?\s*in\s*the\s*field *)
    Seq years_head (spaced ["of"; "relevant"; "experience"]) ].  (* (\d+)\+?\s*years?\s*of\s*relevant\s*experience *)

Definition _extract_experience_requirement (description : text) : Z :=
  match first_match false experience_patterns (lower description) with
  | Some mt => Z.of_N (int_of_digits (group1 mt))
  | None => 3
  end.

(** ** Salary figure *)

(** [\$?(\d{1,3}(?:,\d{3})* )] *)
Definition salary_number : re := Seq (Opt (Lit (txt "$"))) (Group amount).

(** [num.replace(',', '')] then [int]. *)
Definition int_of_amount (num : text) : Z :=
  Z.of_N (int_of_digits (replace num (txt ",") [])).

(** [sum(salaries) // len(salaries)], floor division. *)
Definition average (salaries : list Z) : Z :=
  (foldr Z.add 0 salaries / Z.of_nat (length salaries))%Z.

(** [_extract_salary]: the average of the numbers of the range, 0 when
    there is none. *)
Definition _extract_salary (salary_range : text) : Z :=
  if truthy salary_range then
    let numbers := findall false salary_number salary_range in
    if bool_decide (numbers ≠ []) then average (map int_of_amount numbers)
    else 0
  else 0.

(** ** Specification vocabulary *)

(** One of [words] occurs in the snippet, whatever the case of the
    snippet. *)
Definition mentions (words : list string) (snippet : text) : Prop :=
  ∃ w a b, w ∈ words ∧ lower snippet = a ++ txt w ++ b.

(** No digit at the head. *)
Definition no_digit_head (s : text) : Prop :=
  match s with
  | c :: _ => is_digit c = false
  | [] => True
  end.

(** No comma with three digits at the head. *)
Definition no_comma_group (s : text) : Prop :=
  match s with
  | c :: s' => c = ","%char → no_digit_head s'
  | [] => True
  end.

#[global] Arguments _extract_skills : simpl never.
#[global] Arguments _extract_experience_requirement : simpl never.
#[global] Arguments _extract_salary : simpl never.
#[global] Arguments _extract_job_type_from_snippet : simpl never.
#[global] Arguments _extract_location_from_snippet : simpl never.
#[global] Arguments _extract_date_from_snippet : simpl never.
#[global] Arguments _extract_salary_from_snippet : simpl never.
#[global] Arguments _extract_company_from_title : simpl never.

(** ** Salary figure: sign *)

Lemma sum_nonneg (l : list Z) : Forall (fun z => 0 ≤ z)%Z l → (0 ≤ foldr Z.add 0 l)%Z.
Proof. induction 1; simpl; lia. Qed.

Lemma average_nonneg (l : list Z) : Forall (fun z => 0 ≤ z)%Z l → (0 ≤ average l)%Z.
Proof.
  intros H%sum_nonneg. unfold average. destruct l as [|z l]; [done|].
  apply Z.div_pos; [done | simpl; lia].
Qed.

(** The parsed salary is never negative. *)
Lemma _extract_salary_nonneg salary_range : (0 ≤ _extract_salary salary_range)%Z.
Proof.
  unfold _extract_salary. destruct (truthy salary_range); [|done].
  case_bool_decide; [|done]. apply average_nonneg, Forall_map, Forall_true.
  intros num. unfold int_of_amount. lia.
Qed.

Lemma average_bounds (lo hi : Z) (l : list Z) :
  l ≠ [] → Forall (fun z => lo ≤ z ≤ hi)%Z l → (lo ≤ average l ≤ hi)%Z.
Proof.
  intros Hl H. unfold average.
  assert (lo * Z.of_nat (length l) ≤ foldr Z.add 0 l ≤ hi * Z.of_nat (length l))%Z as [H1 H2].
  { clear Hl. induction H as [|z l Hz _ IH]; simpl length; simpl foldr; lia. }
  assert (0 < Z.of_nat (length l))%Z by (destruct l; [done | simpl; lia]).
  split; [apply Z.div_le_lower_bound | apply Z.div_le_upper_bound]; lia.
Qed.

(** ** What the extraction functions promise *)

Section ExtractClaims.
Implicit Types (s snippet title description : text).

Lemma any_in_spec words s :
  any_in words s = true ↔ ∃ w a b, w ∈ words ∧ s = a ++ txt w ++ b.
Proof.
  unfold any_in. rewrite existsb_exists. split.
  - intros (w & Hw%list_elem_of_In & (a & b & ->)%contains_spec). eauto 6.
  - intros (w & a & b & Hw%list_elem_of_In & ->). exists w. split; [done|].
    apply contains_spec. eauto.
Qed.

(** Property C35: [_extract_skills] returns exactly the entries of the
    vocabulary that occur, as substrings, in the lowered description, each
    once and in the order of the vocabulary. *)
Theorem _extract_skills_spec description :
  _extract_skills description `sublist_of` common_skills ∧
  ∀ skill, skill ∈ _extract_skills description ↔
           skill ∈ common_skills ∧ ∃ a b, lower description = a ++ skill ++ b.
Proof.
  unfold _extract_skills. split; [apply sublist_filter|]. intros skill.
  rewrite list_elem_of_filter, contains_spec. tauto.
Qed.

(** [_extract_job_type_from_snippet] decides by the first group of words,
    in the order full-time, part-time, contract, remote, of which one
    occurs in the lowered snippet; a snippet that mentions none of them is
    tagged "Full-time" as well. *)
Lemma _extract_job_type_cases snippet :
  let full := mentions ["full-time"; "full time"; "permanent"] snippet in
  let part := mentions ["part-time"; "part time"] snippet in
  let contract := mentions ["contract"; "contractor"] snippet in
  let remote := mentions ["remote"; "work from home"; "wfh"] snippet in
  let result := _extract_job_type_from_snippet snippet in
  (full → result = txt "Full-time") ∧
  (¬ full → part → result = txt "Part-time") ∧
  (¬ full → ¬ part → contract → result = txt "Contract") ∧
  (¬ full → ¬ part → ¬ contract → remote → result = txt "Remote") ∧
  (¬ full → ¬ part → ¬ contract → ¬ remote → result = txt "Full-time").
Proof.
  unfold _extract_job_type_from_snippet, mentions. cbv zeta. rewrite <-!any_in_spec.
  destruct (any_in ["full-time"; "full time"; "permanent"] _),
    (any_in ["part-time"; "part time"] _), (any_in ["contract"; "contractor"] _),
    (any_in ["remote"; "work from home"; "wfh"] _); intuition congruence.
Qed.

(** The figure [_extract_salary] returns lies between the smallest and the
    largest of the numbers found in the range: it is their mean, rounded
    down. *)
Lemma _extract_salary_bounds s (lo hi : Z) :
  findall false salary_number s ≠ [] →
  Forall (fun num => lo ≤ int_of_amount num ≤ hi)%Z (findall false salary_number s) →
  (lo ≤ _extract_salary s ≤ hi)%Z.
Proof.
  intros Hne Hall. unfold _extract_salary. destruct s as [|c s]; [done|]. simpl truthy.
  cbv iota. rewrite bool_decide_eq_true_2 by done.
  apply average_bounds; [by destruct (findall _ _ _) | by apply Forall_fmap].
Qed.

(** For a title that holds " at ", [_extract_company_from_title] returns
    what follows the last " at " of the scan, stripped; otherwise, for a
    title that holds " - ", what precedes the first " - ", stripped;
    otherwise the sentinel. *)
Lemma _extract_company_from_title_cases title :
  let result := _extract_company_from_title title in
  (contains (txt " at ") title = true →
     ∃ a c, title = a ++ txt " at " ++ c ∧ contains (txt " at ") c = false ∧
            result = strip c) ∧
  (contains (txt " at ") title = false → contains (txt " - ") title = true →
     ∃ c b, title = c ++ txt " - " ++ b ∧ contains (txt " - ") c = false ∧
            result = strip c) ∧
  (contains (txt " at ") title = false → contains (txt " - ") title = false →
     result = txt "Unknown Company").
Proof.
  unfold _extract_company_from_title. cbv zeta. split_and!.
  - intros H. rewrite H. destruct (split_last title (txt " at ")) as (a & c & ? & Hl & ?);
      [done.. |]. exists a, c. split_and!; [done..|]. f_equal. by apply last_default.
  - intros -> H. rewrite H.
    destruct (split_first title (txt " - ") []) as (c & b & ? & -> & ?); [done..|]. eauto.
  - by intros -> ->.
Qed.

(** Property C36: the two extractors that go through an ordered list of
    rules and take the first that applies.  [_extract_job_type_from_snippet]
    decides by the first group of words, in the order full-time, part-time,
    contract, remote, of which one occurs in the lowered snippet, and tags
    a snippet that mentions none of them "Full-time" as well.
    [_extract_company_from_title] returns, for a title that holds " at ",
    what follows the last " at ", stripped; otherwise, for a title that
    holds " - ", what precedes the first " - ", stripped; otherwise the
    sentinel. *)
Theorem ordered_rules_spec snippet title :
  let full := mentions ["full-time"; "full time"; "permanent"] snippet in
  let part := mentions ["part-time"; "part time"] snippet in
  let contract := mentions ["contract"; "contractor"] snippet in
  let remote := mentions ["remote"; "work from home"; "wfh"] snippet in
  let job_type := _extract_job_type_from_snippet snippet in
  let company := _extract_company_from_title title in
  ((full → job_type = txt "Full-time") ∧
   (¬ full → part → job_type = txt "Part-time") ∧
   (¬ full → ¬ part → contract → job_type = txt "Contract") ∧
   (¬ full → ¬ part → ¬ contract → remote → job_type = txt "Remote") ∧
   (¬ full → ¬ part → ¬ contract → ¬ remote → job_type = txt "Full-time")) ∧
  (contains (txt " at ") title = true →
     ∃ a c, title = a ++ txt " at " ++ c ∧ contains (txt " at ") c = false ∧
            company = strip c) ∧
  (contains (txt " at ") title = false → contains (txt " - ") title = true →
     ∃ c b, title = c ++ txt " - " ++ b ∧ contains (txt " - ") c = false ∧
            company = strip c) ∧
  (contains (txt " at ") title = false → contains (txt " - ") title = false →
     company = txt "Unknown Company").
Proof.
  split; [apply _extract_job_type_cases | apply _extract_company_from_title_cases].
Qed.
End ExtractClaims.

(** ** The functions on snippets of the kind the search returns *)


(** ** Patterns tried in order: what the first match is *)

Section FirstMatch.
Context (ci : bool).
Implicit Types (p : re) (ps : list re) (s t : text) (mt : rmatch).

(** [p] matches nowhere in [s]. *)
Definition nowhere p s : Prop := ∀ a t b, s = a ++ t ++ b → ¬ matches ci p t.

(** [t] is, in [s], a match of [p] at the leftmost place where [p]
    matches. *)
Definition leftmost p s t : Prop :=
  ∃ a b, s = a ++ t ++ b ∧ matches ci p t ∧
         ∀ a' t' b', s = a' ++ t' ++ b' → length a' < length a → ¬ matches ci p t'.

Lemma first_match_None ps s :
  first_match ci ps s = None ↔ Forall (fun p => nowhere p s) ps.
Proof.
  induction ps as [|p ps IH]; simpl; [by split|].
  rewrite Forall_cons, <-IH, <-(search_None ci p s). destruct (search ci p s); naive_solver.
Qed.

Lemma first_match_Some ps s mt :
  first_match ci ps s = Some mt →
  ∃ ps1 p ps2, ps = ps1 ++ p :: ps2 ∧ Forall (fun q => nowhere q s) ps1 ∧
               search ci p s = Some mt ∧ leftmost p s (m_text mt).
Proof.
  induction ps as [|p ps IH]; simpl; [done|].
  destruct (search ci p s) as [mt'|] eqn:E.
  - intros [= ->]. exists [], p, ps. split_and!; [done | constructor | done |].
    apply search_sound in E as (a & b & ? & _ & ? & ?). by exists a, b.
  - intros (ps1 & q & ps2 & -> & H1 & H2 & H3)%IH. exists (p :: ps1), q, ps2.
    split_and!; [done | | done..]. constructor; [|done]. unfold nowhere. by apply search_None.
Qed.

(** For patterns that are one group each, the group of the first match is
    its text. *)
Lemma first_match_group1 ps s mt :
  Forall (fun p => ∃ r, p = Group r) ps →
  first_match ci ps s = Some mt →
  ∃ ps1 p ps2, ps = ps1 ++ p :: ps2 ∧ Forall (fun q => nowhere q s) ps1 ∧
               leftmost p s (group1 mt).
Proof.
  intros Hg (ps1 & p & ps2 & -> & H1 & H2 & H3)%first_match_Some.
  apply Forall_app in Hg as [_ [[r ->] _]%Forall_cons].
  exists ps1, (Group r), ps2. by rewrite (search_group1 _ _ _ _ H2).
Qed.
End FirstMatch.

Lemma location_patterns_groups : Forall (fun p => ∃ r, p = Group r) location_patterns.
Proof. repeat constructor; eauto. Qed.

Lemma date_patterns_groups : Forall (fun p => ∃ r, p = Group r) date_patterns.
Proof. repeat constructor; eauto. Qed.

(** The result of a function that tries its patterns in order and strips
    the group of the first match. *)
Lemma first_match_sound ci ps s (sentinel : text) :
  Forall (fun p => ∃ r, p = Group r) ps →
  let result := match first_match ci ps s with
                | Some mt => strip (group1 mt)
                | None => sentinel
                end in
  (Forall (fun p => nowhere ci p s) ps ∧ result = sentinel) ∨
  ∃ ps1 p ps2 t,
    ps = ps1 ++ p :: ps2 ∧ Forall (fun q => nowhere ci q s) ps1 ∧
    leftmost ci p s t ∧ result = strip t.
Proof.
  intros Hg. cbv zeta. destruct (first_match ci ps s) as [mt|] eqn:E.
  - right. apply first_match_group1 in E as (ps1 & p & ps2 & ? & ? & ?); [|done].
    by exists ps1, p, ps2, (group1 mt).
  - left. by apply first_match_None in E.
Qed.

(** Property C37: [_extract_location_from_snippet] and
    [_extract_date_from_snippet] return their sentinel exactly when none of
    their patterns matches anywhere in the snippet; otherwise they return,
    stripped, a match of the first pattern of the list that matches
    somewhere, taken at the leftmost place where that pattern matches, case
    ignored. *)
Theorem snippet_patterns_sound snippet :
  ((Forall (fun p => nowhere true p snippet) location_patterns ∧
    _extract_location_from_snippet snippet = txt "Location not specified") ∨
   ∃ ps1 p ps2 t,
     location_patterns = ps1 ++ p :: ps2 ∧
     Forall (fun q => nowhere true q snippet) ps1 ∧ leftmost true p snippet t ∧
     _extract_location_from_snippet snippet = strip t) ∧
  ((Forall (fun p => nowhere true p snippet) date_patterns ∧
    _extract_date_from_snippet snippet = txt "Date not specified") ∨
   ∃ ps1 p ps2 t,
     date_patterns = ps1 ++ p :: ps2 ∧
     Forall (fun q => nowhere true q snippet) ps1 ∧ leftmost true p snippet t ∧
     _extract_date_from_snippet snippet = strip t).
Proof.
  split.
  - apply (first_match_sound true location_patterns snippet), location_patterns_groups.
  - apply (first_match_sound true date_patterns snippet), date_patterns_groups.
Qed.

(** ** Amounts written in groups *)

Section Amounts.
Context {R : Type}.
Implicit Types (h s t rest : text) (gs : list text) (g : cap) (k : @cont R) (c : ascii).

Lemma cset_mem_digit c : cset_mem false digit c = is_digit c.
Proof. unfold cset_mem, cset_hit, digit, is_digit. simpl. by rewrite !orb_false_r. Qed.

Lemma m_digit c s g k : is_digit c = true → m false (Chr digit) (c :: s) g k = k s g.
Proof. intros H. cbn [m]. by rewrite cset_mem_digit, H. Qed.

Lemma m_no_digit s g k : no_digit_head s → m false (Chr digit) s g k = None.
Proof. destruct s as [|c s]; [done|]. simpl. intros H. by rewrite cset_mem_digit, H. Qed.

(** [\d{1,3}] takes the whole first group. *)
Lemma m_first_group h t g k x :
  1 ≤ length h ≤ 3 → Forall (fun c => is_digit c = true) h → no_digit_head t →
  k t g = Some x → m false (Range 1 3 (Chr digit)) (h ++ t) g k = Some x.
Proof.
  intros Hl Hd Ht Hk.
  change (Range 1 3 (Chr digit)) with
    (Seq (Seq (Chr digit) Eps) (Alt (Seq (Chr digit) (Alt (Seq (Chr digit) Eps) Eps)) Eps)).
  destruct h as [|a [|b [|c [|]]]]; simpl in Hl; try lia;
    repeat match goal with H : Forall _ (_ :: _) |- _ => apply Forall_cons in H as [? H] end;
    cbn [app]; cbn [m]; rewrite ?cset_mem_digit;
    repeat match goal with H : is_digit _ = true |- _ => rewrite H; clear H end;
    destruct t as [|d t]; cbn [m]; rewrite ?cset_mem_digit, ?Ht, ?Hk; try done.
Qed.

Lemma m_comma_group a b c s g k :
  is_digit a = true → is_digit b = true → is_digit c = true →
  m false comma_group (","%char :: a :: b :: c :: s) g k = k s g.
Proof.
  intros Ha Hb Hc.
  change comma_group with (Seq (Seq (Chr [(44, 44)%N]) Eps) (Rep 3 (Chr digit))).
  cbn [Rep]. cbn [m]. change (cset_mem false _ ","%char) with true. cbn iota.
  by rewrite !cset_mem_digit, Ha, Hb, Hc.
Qed.

Lemma cset_mem_comma c : cset_mem false [(44, 44)%N] c = true → c = ","%char.
Proof.
  unfold cset_mem, cset_hit, in_range. simpl. rewrite !orb_false_r.
  intros [H1%N.leb_le H2%N.leb_le]%andb_true_iff.
  rewrite <-(ascii_N_embedding c). change (N_of_ascii c) with (code c).
  by replace (code c) with 44%N by lia.
Qed.

Lemma m_no_comma_group s g k : no_comma_group s → m false comma_group s g k = None.
Proof.
  destruct s as [|c s]; [done|]. intros H.
  change comma_group with (Seq (Seq (Chr [(44, 44)%N]) Eps) (Rep 3 (Chr digit))).
  cbn [Rep]. cbn [m].
  destruct (cset_mem false _ c) eqn:Hc; [|done]. apply cset_mem_comma in Hc.
  specialize (H Hc). destruct s as [|d s]; [done|]. simpl in H.
  by rewrite cset_mem_digit, H.
Qed.

(** [(?:,\d{3})*] takes every group. *)
Lemma m_groups_star gs rest g k x :
  Forall (fun gr => length gr = 3 ∧ Forall (fun c => is_digit c = true) gr) gs →
  no_comma_group rest → k rest g = Some x →
  m false (Star comma_group) (concat (map (fun gr => ","%char :: gr) gs) ++ rest) g k = Some x.
Proof.
  intros Hgs Hr Hk. induction Hgs as [|gr gs [Hl Hd] _ IH]; rewrite m_star_unfold.
  - cbn [map concat app]. by rewrite m_no_comma_group.
  - destruct gr as [|a [|b [|c [|]]]]; try done.
    repeat match goal with H : Forall _ (_ :: _) |- _ => apply Forall_cons in H as [? H] end.
    cbn [map concat app]. rewrite m_comma_group by done.
    destruct (Nat.ltb_spec (length (concat (map (fun gr => ","%char :: gr) gs) ++ rest))
                (length (","%char :: a :: b :: c ::
                           concat (map (fun gr => ","%char :: gr) gs) ++ rest)));
      [by rewrite IH | simpl in *; lia].
Qed.

Lemma groups_tail_no_digit gs rest :
  no_digit_head rest → no_digit_head (concat (map (fun gr => ","%char :: gr) gs) ++ rest).
Proof. by destruct gs. Qed.

(** The pattern of an amount takes a number written in groups whole. *)
Lemma m_amount h gs rest g k x :
  canonical h gs → no_comma_group rest → no_digit_head rest → k rest g = Some x →
  m false amount (groups h gs ++ rest) g k = Some x.
Proof.
  intros (Hl & Hd & Hgs) Hc Hn Hk. unfold amount, groups. rewrite <-app_assoc. cbn [m].
  apply m_first_group; [done | done | by apply groups_tail_no_digit |].
  by apply m_groups_star.
Qed.
End Amounts.

(** ** A range of two amounts *)

Section SalaryRange.
Implicit Types (h s rest sep : text) (gs : list text) (c : ascii).

(** A dollar sign and a number in groups is one match, the number its
    group. *)
Lemma match_here_dollar_amount h gs rest :
  canonical h gs → no_comma_group rest → no_digit_head rest →
  match_here false salary_number ("$"%char :: groups h gs ++ rest) =
  Some (rest, Some (groups h gs)).
Proof.
  intros Hc Hn Hd. unfold match_here, salary_number.
  change (Opt (Lit (txt "$"))) with (Alt (Seq (Chr [(36, 36)%N]) Eps) Eps).
  cbn [m]. change (cset_mem false _ "$"%char) with true. cbn iota.
  rewrite (m_amount h gs rest _ _ (rest, Some (groups h gs))); [done..|].
  rewrite length_app, Nat.add_sub. by rewrite take_app_length.
Qed.

(** No match at a character that is no digit and stands before none. *)
Lemma match_here_no_amount c s :
  is_digit c = false → no_digit_head s → match_here false salary_number (c :: s) = None.
Proof.
  intros Hc Hs. unfold match_here, salary_number, amount.
  change (Opt (Lit (txt "$"))) with (Alt (Seq (Chr [(36, 36)%N]) Eps) Eps).
  change (Range 1 3 (Chr digit)) with
    (Seq (Seq (Chr digit) Eps) (Alt (Seq (Chr digit) (Alt (Seq (Chr digit) Eps) Eps)) Eps)).
  cbn [m]. rewrite cset_mem_digit, Hc.
  destruct (cset_mem false _ c); [|done].
  destruct s as [|d s]; [done|]. simpl in Hs. by rewrite cset_mem_digit, Hs.
Qed.

Lemma sep_no_digit_head sep s :
  Forall (fun c => is_digit c = false) sep → no_digit_head (sep ++ "$"%char :: s).
Proof. by intros [|c sep' Hc _]. Qed.

Lemma sep_no_comma_group sep s :
  Forall (fun c => is_digit c = false) sep → no_comma_group (sep ++ "$"%char :: s).
Proof. intros [|c sep' Hc Hs]; [done|]. intros _. by apply sep_no_digit_head. Qed.

Lemma findall_sep sep s :
  Forall (fun c => is_digit c = false) sep →
  findall false salary_number (sep ++ "$"%char :: s) =
  findall false salary_number ("$"%char :: s).
Proof.
  induction 1 as [|c sep Hc Hs IH]; [done|].
  cbn [app]. rewrite findall_skip; [done|].
  apply match_here_no_amount; [done | by apply sep_no_digit_head].
Qed.

(** [findall] on a range of two amounts finds the two numbers. *)
Lemma findall_range h1 gs1 h2 gs2 sep :
  canonical h1 gs1 → canonical h2 gs2 → Forall (fun c => is_digit c = false) sep →
  findall false salary_number
    ("$"%char :: groups h1 gs1 ++ sep ++ "$"%char :: groups h2 gs2) =
  [groups h1 gs1; groups h2 gs2].
Proof.
  intros H1 H2 Hs.
  assert (findall false salary_number ("$"%char :: groups h2 gs2 ++ []) = [groups h2 gs2])
    as E2.
  { rewrite (findall_match _ _ _ _ _ (match_here_dollar_amount h2 gs2 [] H2 I I))
      by (rewrite !length_cons, !length_app; simpl; lia).
    by rewrite findall_nil. }
  rewrite app_nil_r in E2.
  rewrite (findall_match _ _ _ _ _
             (match_here_dollar_amount h1 gs1 _ H1 (sep_no_comma_group _ _ Hs)
                (sep_no_digit_head _ _ Hs)))
    by (rewrite !length_cons, !length_app, !length_cons; lia).
  by rewrite findall_sep, E2.
Qed.

(** [int_of_amount] reads back what the format with thousands separators
    writes. *)
Lemma int_of_amount_fmt_thousands (z : Z) : (0 ≤ z)%Z → int_of_amount (fmt_thousands z) = z.
Proof.
  intros Hz. unfold int_of_amount. change (txt ",") with [","%char].
  rewrite replace_char, fmt_thousands_digits.
  destruct z as [|p|p]; [done | | lia]; simpl str_of_Z; rewrite int_of_digits_str_of_N; lia.
Qed.

(** Property C21: for a salary range of two dollar amounts written with
    thousands separators, with any text without digits between them, the
    parsed salary is the average of the two amounts, rounded down. *)
Theorem _extract_salary_range (a b : Z) sep :
  (0 ≤ a)%Z → (0 ≤ b)%Z → Forall (fun c => is_digit c = false) sep →
  _extract_salary (txt "$" ++ fmt_thousands a ++ sep ++ txt "$" ++ fmt_thousands b) =
  ((a + b) / 2)%Z.
Proof.
  intros Ha Hb Hs.
  destruct (fmt_thousands_groups a Ha) as (h1 & gs1 & E1 & H1).
  destruct (fmt_thousands_groups b Hb) as (h2 & gs2 & E2 & H2).
  pose proof (int_of_amount_fmt_thousands a Ha) as Ia.
  pose proof (int_of_amount_fmt_thousands b Hb) as Ib.
  unfold _extract_salary. rewrite E1, E2 in *.
  change (txt "$" ++ groups h1 gs1 ++ sep ++ txt "$" ++ groups h2 gs2)
    with ("$"%char :: groups h1 gs1 ++ sep ++ "$"%char :: groups h2 gs2).
  rewrite findall_range by done. cbn [truthy map]. rewrite bool_decide_true by done.
  rewrite Ia, Ib. unfold average. cbn [foldr length]. f_equal; lia.
Qed.
End SalaryRange.

Lemma _extract_salary_range_witness :
  _extract_salary (txt "$" ++ fmt_thousands 140000 ++ txt " - " ++ txt "$" ++ fmt_thousands 160000) =
  ((140000 + 160000) / 2)%Z.
Proof.
  apply (_extract_salary_range 140000 160000 (txt " - ")); [lia | lia |].
  repeat constructor.
Defined.

(** ** The required experience *)

Section Experience.
Implicit Types (s t a b ds tail : text) (c : ascii) (p words : re).

(** Each pattern is the group of digits, the tail of [years_head] and
    words without a group. *)
Lemma experience_patterns_shape p :
  p ∈ experience_patterns → ∃ words, p = Seq years_head words ∧ has_group words = false.
Proof.
  unfold experience_patterns. rewrite !elem_of_cons, elem_of_nil.
  intros [-> | [-> | [-> | []]]]; by eexists.
Qed.

Lemma matches_digits ds :
  matches false (Plus (Chr digit)) ds ↔ ds ≠ [] ∧ Forall (fun c => is_digit c = true) ds.
Proof.
  rewrite matches_plus_chr. apply and_iff_compat_l. apply Forall_proper; [|done].
  intros c. by rewrite cset_mem_digit.
Qed.

(** A plus sign, white space and the letter y are no digits. *)
Lemma tail_head_not_digit c :
  cset_mem false (chr "+") c = true ∨ cset_mem false space c = true ∨
  cset_mem false (chr "y") c = true →
  is_digit c = false.
Proof. destruct c as [[] [] [] [] [] [] [] []]; vm_compute; intuition congruence. Qed.

(** What follows the digits does not begin with a digit. *)
Lemma years_tail_head words tail :
  matches false (Seq years_tail words) tail → no_digit_head tail.
Proof.
  intros H. inv H. match goal with H : matches _ years_tail _ |- _ => inv H end.
  repeat match goal with
         | H : matches _ (Opt _) _ |- _ => inv H
         | H : matches _ (Lit _) _ |- _ => inv H
         | H : matches _ (Seq _ _) _ |- _ => inv H
         | H : matches _ (Chr _) _ |- _ => inv H
         | H : matches _ Eps _ |- _ => inv H
         end; simpl; try (apply tail_head_not_digit; auto; fail).
  all: match goal with H : matches _ (Star (Chr space)) ?sp |- no_digit_head ((?sp ++ _) ++ _) =>
         apply matches_star_chr in H; destruct H; simpl; apply tail_head_not_digit;
         [right; right | right; left]; assumption
       end.
Qed.

(** Property C34: the years of experience a description asks for.  When one
    of the three patterns matches the lowered description, the function
    returns the number written before "years of experience" (or "years in
    the field", "years of relevant experience") at the leftmost match of
    the first pattern that matches: the digits captured are a whole
    number of the text, with no digit before or after them, and the
    result is their value.  When none matches, the result is 3. *)
Theorem _extract_experience_requirement_spec description :
  let s := lower description in
  (Forall (fun p => nowhere false p s) experience_patterns ∧
   _extract_experience_requirement description = 3%Z) ∨
  ∃ ps1 p ps2 a ds tail b,
    experience_patterns = ps1 ++ p :: ps2 ∧ Forall (fun q => nowhere false q s) ps1 ∧
    s = a ++ ds ++ tail ++ b ∧ matches false p (ds ++ tail) ∧
    (∀ a' t b', s = a' ++ t ++ b' → length a' < length a → ¬ matches false p t) ∧
    (ds ≠ [] ∧ Forall (fun c => is_digit c = true) ds) ∧
    (∀ c, last a = Some c → is_digit c = false) ∧ no_digit_head tail ∧
    _extract_experience_requirement description = Z.of_N (int_of_digits ds).
Proof.
  cbv zeta. unfold _extract_experience_requirement.
  destruct (first_match false experience_patterns _) as [mt|] eqn:E;
    [right | left; by apply first_match_None in E].
  apply first_match_Some in E as (ps1 & p & ps2 & Hps & Hno & Hsearch & _).
  destruct (experience_patterns_shape p) as (words & -> & Hw);
    [rewrite Hps; apply elem_of_app; right; left|].
  unfold years_head in Hsearch. rewrite search_Seq_assoc in Hsearch.
  apply search_head_group in Hsearch as (a & ds & tail & b & Hs & Hd & Ht & Hg & _ & Hleft);
    [|done].
  assert (∀ x, matches false (Plus (Chr digit)) x → matches false (Seq years_head words) (x ++ tail))
    as Hwhole by (intros x Hx; apply matches_Seq_assoc; by repeat constructor).
  exists ps1, (Seq years_head words), ps2, a, ds, tail, b.
  split_and!; [done | done | done | by apply Hwhole | | by apply matches_digits..| |
               by eapply years_tail_head | by rewrite Hg].
  - intros a' t b' Heq Hlen Hm%matches_Seq_assoc. by eapply Hleft.
  - intros c [a0 ->]%last_Some. destruct (is_digit c) eqn:Hc; [exfalso | done].
    apply (Hleft a0 ((c :: ds) ++ tail) b); [by rewrite Hs, <-!app_assoc | |].
    + rewrite length_app. simpl. lia.
    + apply matches_Seq_assoc, Hwhole, matches_digits. split; [done|].
      constructor; [done | by apply matches_digits].
Qed.
End Experience.
