(* ===== verification/Data.v ===== *)
(** * Data: user profiles, job postings and tool replies

    The dictionaries that travel through the tools of
    [src/job_seeker/tools/job_search_tools.py].  A job posting and a user
    profile are decoded JSON objects with the keys the tools read; every key
    may be absent or [null], which is what [dict.get] distinguishes
    ([field]).  Values have the types the profile file and the search tool
    give them: strings, integers, lists of strings, and a rational number
    for the match score (a Python float, taken exactly).  Keys the tools
    never read are not kept. *)

From Stdlib Require Import Ascii ZArith QArith.
From stdpp Require Import base list strings.
From S2P Require Import Prelude Text.

(** The user profile of [knowledge/resume_template.json], by key. *)
Record profile : Type := Profile {
  name : field text;
  current_role : field text;
  years_experience : field Z;
  skills : field (list text);
  preferred_locations : field (list text);
  expected_salary : field Z;
  preferred_company_type : field text;
}.

(** A job posting, by key.  [match_score] and [evaluation_date] are absent
    until the evaluation tool sets them. *)
Record job : Type := Job {
  title : field text;
  company : field text;
  location : field text;
  url : field text;
  description : field text;
  posted_date : field text;
  salary_range : field text;
  site : field text;
  job_type : field text;
  match_score : field Q;
  evaluation_date : field text;
}.

(** [job['match_score'] = score; job['evaluation_date'] = date] *)
Definition set_evaluation (j : job) (score : Q) (date : text) : job :=
  Job (title j) (company j) (location j) (url j) (description j)
      (posted_date j) (salary_range j) (site j) (job_type j)
      (Val score) (Val date).

(** What a tool returns: its payload, or the message of its
    [except Exception as e] handler, a fixed prefix followed by the
    exception. *)
Inductive reply (A : Type) : Type :=
  | Reply (a : A)
  | Failed (prefix : text) (e : exn).
Arguments Reply {A} a.
Arguments Failed {A} prefix e.

(** [try: return body except Exception as e: return f"{prefix}{e}"] *)
Definition guarded {A} (prefix : string) (body : result A) : reply A :=
  match body with
  | Ok a => Reply a
  | Raise e => Failed (txt prefix) e
  end.

Lemma guarded_Reply {A} prefix (body : result A) a :
  guarded prefix body = Reply a ↔ body = Ok a.
Proof. destruct body; simpl; split; congruence. Qed.

Lemma guarded_Failed {A} prefix (body : result A) p e :
  guarded prefix body = Failed p e ↔ body = Raise e ∧ p = txt prefix.
Proof. destruct body; simpl; split; [done | by intros [] | by intros [= <- <-] | by intros [[= ->] ->]]. Qed.

Lemma set_evaluation_score j score date :
  match_score (set_evaluation j score date) = Val score.
Proof. done. Qed.

Lemma set_evaluation_url j score date : url (set_evaluation j score date) = url j.
Proof. done. Qed.
