(* ===== verification/Sorting.v ===== *)
(** * Sorting: the contract of a stable sort, and a sort that meets it

    [list.sort(key=..., reverse=True)] of Python and [ORDER BY ... DESC] of
    the database are used by the tools only through their contract: the
    result is a permutation of the input, it is ordered, and elements that
    compare equal keep their relative order.  This file states the contract
    ([sorts]), proves that it determines the result ([sorts_unique]), and
    gives an insertion sort that meets it ([stable_sort]).  The components
    that sort are proved against the contract. *)

From stdpp Require Import base list sorting.
From S2P Require Import Prelude.

Section StableSort.
Context {A : Type} (leb : A → A → bool).

(** [leb x y]: [x] may come before [y]. *)
Class TotalPreorder : Prop := {
  leb_total x y : leb x y = true ∨ leb y x = true;
  leb_trans x y z : leb x y = true → leb y z = true → leb x z = true;
}.

(** Two elements that compare equal. *)
Definition tied (x y : A) : Prop := leb x y = true ∧ leb y x = true.

#[export] Instance tied_dec x y : Decision (tied x y).
Proof. unfold tied. apply _. Defined.

Definition ordered (l : list A) : Prop :=
  StronglySorted (fun x y => leb x y = true) l.

(** The contract of a stable sort. *)
Record sorts (f : list A → list A) : Prop := Sorts {
  sorts_perm l : f l ≡ₚ l;
  sorts_ordered l : ordered (f l);
  sorts_stable l z : filter (tied z) (f l) = filter (tied z) l;
}.

(** Insert [x], which stood before every element of [l], before the first
    element it may precede. *)
Fixpoint insert (x : A) (l : list A) : list A :=
  match l with
  | [] => [x]
  | y :: l' => if leb x y then x :: l else y :: insert x l'
  end.

Definition stable_sort (l : list A) : list A := foldr insert [] l.

Context `{!TotalPreorder}.

Lemma leb_refl x : leb x x = true.
Proof. by destruct (leb_total x x). Qed.

Lemma tied_refl x : tied x x.
Proof. split; apply leb_refl. Qed.

Lemma tied_leb z x y : tied z x → tied z y → leb x y = true.
Proof. intros [_ H1] [H2 _]. by eapply leb_trans. Qed.

Lemma insert_perm x l : insert x l ≡ₚ x :: l.
Proof.
  induction l as [|y l IH]; simpl; [done|]. destruct (leb x y); [done|].
  by rewrite IH, Permutation_swap.
Qed.

Lemma insert_ordered x l : ordered l → ordered (insert x l).
Proof.
  unfold ordered. induction 1 as [|y l Hl IH Hy]; simpl; [by repeat constructor|].
  destruct (leb x y) eqn:E.
  - constructor; [by constructor|]. constructor; [done|].
    eapply Forall_impl; [done|]. intros z Hz. by eapply leb_trans.
  - constructor; [done|]. rewrite insert_perm. constructor; [|done].
    by destruct (leb_total x y); [congruence|].
Qed.

Lemma insert_stable x l z : filter (tied z) (insert x l) = filter (tied z) (x :: l).
Proof.
  induction l as [|y l IH]; simpl; [done|]. destruct (leb x y) eqn:E; [done|].
  rewrite (filter_cons _ y), IH, !filter_cons.
  destruct (decide (tied z x)) as [Hx|]; [|done].
  destruct (decide (tied z y)) as [Hy|]; [|done].
  rewrite (tied_leb z x y) in E by done. done.
Qed.

(** The insertion sort meets the contract. *)
Lemma stable_sort_sorts : sorts stable_sort.
Proof.
  split; intros l; induction l as [|x l IH]; simpl; try done.
  - by rewrite insert_perm, IH.
  - constructor.
  - by apply insert_ordered.
  - intros z. by rewrite insert_stable, !filter_cons, IH.
Qed.

Lemma ordered_head_leb x l y : ordered (x :: l) → y ∈ x :: l → leb x y = true.
Proof.
  intros [_ Hl]%StronglySorted_inv [->|Hy]%elem_of_cons; [apply leb_refl|].
  by eapply Forall_forall in Hl.
Qed.

(** An ordered list is determined by its classes of tied elements, each in
    its order. *)
Lemma ordered_unique l1 l2 :
  ordered l1 → ordered l2 →
  (∀ z, filter (tied z) l1 = filter (tied z) l2) → l1 = l2.
Proof.
  revert l2; induction l1 as [|x l1 IH]; intros l2 H1 H2 Hf.
  - destruct l2 as [|y l2]; [done|]. specialize (Hf y).
    rewrite filter_cons, decide_True in Hf by apply tied_refl. done.
  - destruct l2 as [|y l2].
    { specialize (Hf x). rewrite filter_cons, decide_True in Hf by apply tied_refl. done. }
    assert (tied x y) as Hxy.
    { split.
      - assert (y ∈ x :: l1) as Hy; [|by eapply ordered_head_leb].
        eapply (list_elem_of_filter (tied y)). rewrite Hf, filter_cons, decide_True
          by apply tied_refl. left.
      - assert (x ∈ y :: l2) as Hx; [|by eapply ordered_head_leb].
        eapply (list_elem_of_filter (tied x)). rewrite <-Hf, filter_cons, decide_True
          by apply tied_refl. left. }
    pose proof (Hf x) as Hx. rewrite !filter_cons in Hx.
    rewrite decide_True in Hx by apply tied_refl. rewrite decide_True in Hx by done.
    injection Hx as -> Hx. f_equal.
    apply StronglySorted_inv in H1 as [H1 _], H2 as [H2 _]. apply IH; [done..|].
    intros z. specialize (Hf z). rewrite !filter_cons in Hf.
    destruct (decide (tied z y)); [by injection Hf | done].
Qed.

(** The contract determines the result: every stable sort is this one. *)
Lemma sorts_unique f : sorts f → ∀ l, f l = stable_sort l.
Proof.
  intros Hf l. apply ordered_unique.
  - apply Hf.
  - apply stable_sort_sorts.
  - intros z. rewrite sorts_stable by done. by rewrite sorts_stable by apply stable_sort_sorts.
Qed.

Lemma sorts_length f l : sorts f → length (f l) = length l.
Proof. intros Hf. by rewrite (sorts_perm f Hf). Qed.

Lemma sorts_elem_of f l x : sorts f → x ∈ f l ↔ x ∈ l.
Proof. intros Hf. by rewrite (sorts_perm f Hf). Qed.

(** An ordered list is left as it is. *)
Lemma sorts_ordered_id f l : sorts f → ordered l → f l = l.
Proof.
  intros Hf Hl. apply ordered_unique; [apply Hf | done |].
  intros z. by apply sorts_stable.
Qed.

Lemma sorts_idemp f l : sorts f → f (f l) = f l.
Proof. intros Hf. apply sorts_ordered_id; [done | apply Hf]. Qed.

Lemma ordered_filter (P : A → Prop) `{∀ x, Decision (P x)} l :
  ordered l → ordered (filter P l).
Proof.
  unfold ordered. induction 1 as [|x l Hl IH Hx]; [constructor|].
  rewrite filter_cons. destruct (decide (P x)); [|done]. constructor; [done|].
  apply Forall_forall. intros y [_ Hy]%list_elem_of_filter.
  by eapply Forall_forall in Hx.
Qed.

Lemma ordered_take n l : ordered l → ordered (take n l).
Proof.
  unfold ordered. intros Hl. revert n; induction Hl as [|x l Hl IH Hx]; intros [|n];
    simpl; try constructor; [apply IH|].
  by apply Forall_take.
Qed.
(** In an ordered list, the elements of a set that holds whatever may
    come before one of its elements stand first. *)
Lemma ordered_filter_prefix (P : A → Prop) `{∀ x, Decision (P x)} l :
  (∀ x y, leb x y = true → P y → P x) → ordered l → filter P l `prefix_of` l.
Proof.
  intros Hup. unfold ordered. induction 1 as [|x l Hl IH Hx]; [done|].
  rewrite filter_cons. destruct (decide (P x)) as [|Hn]; [by apply prefix_cons|].
  rewrite filter_none; [apply prefix_nil|].
  eapply Forall_impl; [done|]. intros y Hy ?. by apply Hn, (Hup x y).
Qed.

(** Order by position: in an ordered list an earlier element may come
    before every later one. *)
Lemma ordered_prefix l1 l2 : l1 `prefix_of` l2 → ordered l2 → ordered l1.
Proof.
  intros [k ->] Hl. rewrite <-(take_app_length l1 k). by apply ordered_take.
Qed.

Lemma ordered_lookup l i j x y :
  ordered l → i < j → l !! i = Some x → l !! j = Some y → leb x y = true.
Proof.
  intros Hl. revert i j; induction Hl as [|z l Hl IH Hz]; intros i j Hij Hi Hj; [done|].
  destruct j as [|j]; [lia|]. simpl in Hj. destruct i as [|i]; simpl in Hi.
  - injection Hi as ->. eapply Forall_forall in Hz; [done|]. by eapply list_elem_of_lookup_2.
  - eapply (IH i j); [lia | done..].
Qed.
End StableSort.

(** ** Sorting two lists alike *)

Section Related.
Context {A B : Type} (R : A → B → Prop) (leb : A → A → bool) (leb' : B → B → bool).

(** The two orders agree on related elements. *)
Hypothesis leb_related : ∀ x x' y y', R x x' → R y y' → leb x y = leb' x' y'.

Lemma insert_related x x' l l' :
  R x x' → Forall2 R l l' → Forall2 R (insert leb x l) (insert leb' x' l').
Proof.
  intros Hx. induction 1 as [|y y' l l' Hy Hl IH]; simpl; [by repeat constructor|].
  rewrite <-(leb_related x x' y y') by done. destruct (leb x y); by repeat constructor.
Qed.

(** Related lists are sorted into related lists: the sort moves the
    elements of both in the same way. *)
Lemma stable_sort_related l l' :
  Forall2 R l l' → Forall2 R (stable_sort leb l) (stable_sort leb' l').
Proof. induction 1; simpl; [constructor | by apply insert_related]. Qed.
End Related.
