(* ===== verification/Scorer.v ===== *)
(** * Scorer: the match score and the evaluation tool

    [_calculate_match_score] and [job_evaluation_tool] of
    [src/job_seeker/tools/job_search_tools.py].  The score is the sum of
    five parts (skills 40, experience 25, location 15 or 10, salary 10,
    company type 10) cut at 100.  Python computes it in binary floating
    point; here it is the exact rational number, so a theorem about a score
    holds up to the rounding of the float operations.

    A key bound to [null] makes the code raise at its first use as a string,
    a list or a number; the definitions raise the same exception at the same
    place, and the tool turns it into its error reply. *)

From Stdlib Require Import Ascii ZArith QArith Qminmax Lia Lqa.
From stdpp Require Import base list strings gmap.
From S2P Require Import Prelude Text Regex Extract Data Sorting.

#[local] Open Scope Q_scope.

(** ** The five parts *)

(** [len(set(job_skills) & set(user_skills))] *)
Definition skill_matches (job_skills user_skills : list text) : nat :=
  size ((list_to_set job_skills : gset text) ∩ list_to_set user_skills).

(** [(skill_matches / max(len(job_skills), 1)) * 40] *)
Definition skill_score (job_skills user_skills : list text) : Q :=
  (inject_Z (Z.of_nat (skill_matches job_skills user_skills)) /
   inject_Z (Z.of_nat (max (length job_skills) 1))) * 40.

(** [25] when the profile has the required years, else 5 less per missing
    year, not below 0. *)
Definition exp_score (required_exp user_exp : Z) : Z :=
  if (required_exp <=? user_exp)%Z then 25%Z
  else Z.max 0 (25 - (required_exp - user_exp) * 5).

(** [15] when a preferred location occurs in the job's location, else [10]
    for a remote job, else nothing. *)
Definition location_score (job_location : text) (preferred_locations : list text) : Z :=
  if existsb (fun loc => contains loc job_location) preferred_locations then 15%Z
  else if contains (txt "remote") job_location || contains (txt "anywhere") job_location
  then 10%Z
  else 0%Z.

(** [max(0, x)] of an int and a float: [x] when it is greater. *)
Definition max0 (x : Q) : Q := if Qlt_le_dec 0 x then x else 0.

(** The salary part; a salary of 0 on either side means unknown. *)
Definition salary_score (job_salary expected_salary : Z) : Q :=
  if bool_decide (job_salary ≠ 0%Z) && bool_decide (expected_salary ≠ 0%Z) then
    if (expected_salary <=? job_salary)%Z then 10
    else max0 (10 - inject_Z (expected_salary - job_salary) / inject_Z expected_salary * 10)
  else 0.

(** ** The score *)

(** The sum of the parts before it is cut at 100.  The reads of the two
    dictionaries are in the order of the source, each raising what Python
    raises on [None]. *)
Definition raw_score (j : job) (p : profile) : result Q :=
  description ← need AttributeError (get (description j) []);
  let job_skills := _extract_skills description in
  user_skills ← need TypeError (get (skills p) []);
  let score := 0 + skill_score job_skills user_skills in
  let required_exp := _extract_experience_requirement description in
  user_exp ← need TypeError (get (years_experience p) 0%Z);
  let score := score + inject_Z (exp_score required_exp user_exp) in
  job_location ← lower <$> need AttributeError (get (location j) []);
  preferred ← need TypeError (get (preferred_locations p) []);
  let score := score + inject_Z (location_score job_location (map lower preferred)) in
  let job_salary := default 0%Z (_extract_salary <$> get (salary_range j) []) in
  let expected := default 0%Z (get (expected_salary p) 0%Z) in
  let score := score + salary_score job_salary expected in
  let company_type := default [] (get (preferred_company_type p) []) in
  if truthy company_type then
    job_company ← need AttributeError (get (company j) []);
    if contains (lower company_type) (lower job_company) then Ok (score + 10)
    else Ok score
  else Ok score.

Definition max_score : Q := 100.

(** [_calculate_match_score]: [min(score, max_score)]. *)
Definition _calculate_match_score (j : job) (p : profile) : result Q :=
  score ← raw_score j p; Ok (Qmin score max_score).

(** ** The evaluation tool *)

(** Jobs by decreasing score: [x] may come before [y] when its score is
    at least [y]'s.  [job['match_score']] is present after evaluation. *)
Definition score_of (j : job) : Q := default 0 (get (match_score j) 0).

Definition by_score_desc (x y : job) : bool := Qle_bool (score_of y) (score_of x).

(** The loop of the tool: score each job and stamp it with the time of its
    evaluation; [clock i] is [datetime.now().isoformat()] at the [i]-th
    job.  The first exception ends the loop. *)
Fixpoint evaluate_from (clock : nat → text) (i : nat) (p : profile)
    (jobs : list job) : result (list job) :=
  match jobs with
  | [] => Ok []
  | j :: jobs' =>
      score ← _calculate_match_score j p;
      rest ← evaluate_from clock (S i) p jobs';
      Ok (set_evaluation j score (clock i) :: rest)
  end.

(** [job_evaluation_tool]: the evaluated jobs, highest score first, or the
    error reply. *)
Definition job_evaluation_tool (clock : nat → text) (job_data : list job)
    (user_profile : profile) : reply (list job) :=
  guarded "Error evaluating jobs: "
    (evaluated_jobs ← evaluate_from clock 0 user_profile job_data;
     Ok (stable_sort by_score_desc evaluated_jobs)).

(** ** Specification vocabulary *)

(** Lists with the same elements, in any order and number. *)
Definition same_elements (l k : list text) : Prop := ∀ x, x ∈ l ↔ x ∈ k.

(** Keys that are both absent, both [null], or hold related values. *)
Definition field_rel {A} (R : relation A) (f g : field A) : Prop :=
  match f, g with
  | Absent, Absent | Null, Null => True
  | Val a, Val b => R a b
  | _, _ => False
  end.

(** Profiles that differ at most in the order and the repetitions of
    their skills and of their preferred locations. *)
Definition profile_equiv (p q : profile) : Prop :=
  name p = name q ∧ current_role p = current_role q ∧
  years_experience p = years_experience q ∧
  field_rel same_elements (skills p) (skills q) ∧
  field_rel same_elements (preferred_locations p) (preferred_locations q) ∧
  expected_salary p = expected_salary q ∧
  preferred_company_type p = preferred_company_type q.

(** ** Bounds of the parts *)

Lemma size_list_to_set_le (l : list text) : size (list_to_set l : gset text) ≤ length l.
Proof.
  induction l as [|x l IH]; [by rewrite list_to_set_nil, size_empty|].
  rewrite list_to_set_cons, size_union_alt, size_singleton. simpl.
  assert (size (list_to_set l ∖ {[x]} : gset text) ≤ size (list_to_set l : gset text))
    by (apply subseteq_size; set_solver).
  lia.
Qed.

(** At most every skill of the posting is matched. *)
Lemma skill_matches_le job_skills user_skills :
  skill_matches job_skills user_skills ≤ length job_skills.
Proof.
  unfold skill_matches. etrans; [|apply size_list_to_set_le].
  apply subseteq_size. set_solver.
Qed.

Lemma skill_matches_elem job_skills user_skills :
  skill_matches job_skills user_skills = 0%nat ↔
  ∀ s, s ∈ job_skills → s ∉ user_skills.
Proof.
  unfold skill_matches. rewrite size_empty_iff. set_solver.
Qed.

Lemma Qdiv_unit (a b : Q) : 0 <= a → a <= b → 0 < b → 0 <= a / b ∧ a / b <= 1.
Proof.
  intros Ha Hab Hb. split.
  - apply Qle_shift_div_l; [done | lra].
  - apply Qle_shift_div_r; [done | lra].
Qed.

Lemma skill_score_bounds job_skills user_skills :
  0 <= skill_score job_skills user_skills ∧ skill_score job_skills user_skills <= 40.
Proof.
  unfold skill_score. pose proof (skill_matches_le job_skills user_skills) as Hle.
  destruct (Qdiv_unit (inject_Z (Z.of_nat (skill_matches job_skills user_skills)))
              (inject_Z (Z.of_nat (length job_skills `max` 1)))) as [H0 H1].
  - rewrite <-(Zle_Qle 0). lia.
  - rewrite <-Zle_Qle. lia.
  - rewrite <-(Zlt_Qlt 0). lia.
  - split; lra.
Qed.

(** A posting that names no known skill scores nothing on skills. *)
Lemma skill_score_no_skills user_skills : skill_score [] user_skills == 0.
Proof.
  unfold skill_score, skill_matches.
  assert ((list_to_set [] : gset text) ∩ list_to_set user_skills = ∅) as -> by set_solver.
  by rewrite size_empty.
Qed.

Lemma exp_score_bounds required_exp user_exp :
  (0 ≤ exp_score required_exp user_exp ≤ 25)%Z.
Proof. unfold exp_score. destruct (Z.leb_spec required_exp user_exp); lia. Qed.

Lemma location_score_bounds job_location preferred :
  (0 ≤ location_score job_location preferred ≤ 15)%Z.
Proof.
  unfold location_score. destruct (existsb _ _); [lia|]. destruct (_ || _); lia.
Qed.

Lemma max0_nonneg x : 0 <= max0 x.
Proof. unfold max0. destruct (Qlt_le_dec 0 x); lra. Qed.

Lemma max0_pos x : 0 < x → max0 x = x.
Proof. intros H. unfold max0. destruct (Qlt_le_dec 0 x); [done | lra]. Qed.

(** The falloff is [10 * job / expected]. *)
Lemma salary_falloff (job_salary expected : Z) :
  (0 < expected)%Z →
  10 - inject_Z (expected - job_salary) / inject_Z expected * 10
  == 10 * inject_Z job_salary / inject_Z expected.
Proof.
  intros He. assert (0 < inject_Z expected) by (rewrite <-(Zlt_Qlt 0); lia).
  unfold Zminus. rewrite inject_Z_plus, inject_Z_opp. field. lra.
Qed.

Lemma salary_score_bounds job_salary expected :
  (0 ≤ job_salary)%Z →
  0 <= salary_score job_salary expected ∧ salary_score job_salary expected <= 10.
Proof.
  intros Hj. unfold salary_score. destruct (_ && _) eqn:E; [|lra].
  apply andb_true_iff in E as [Hj0%bool_decide_eq_true He0%bool_decide_eq_true].
  destruct (Z.leb_spec expected job_salary) as [|Hlt]; [lra|].
  split; [apply max0_nonneg|].
  assert (0 < inject_Z job_salary) by (rewrite <-(Zlt_Qlt 0); lia).
  assert (inject_Z job_salary < inject_Z expected) by (rewrite <-Zlt_Qlt; lia).
  rewrite max0_pos; rewrite salary_falloff by lia.
  - apply Qle_shift_div_r; lra.
  - apply Qlt_shift_div_l; lra.
Qed.

(** ** The score and its errors *)

(** The exception of the first read that meets a [null], in the order of
    the source's statements. *)
Definition score_error (j : job) (p : profile) : option exn :=
  if is_null (description j) then Some AttributeError
  else if is_null (skills p) then Some TypeError
  else if is_null (years_experience p) then Some TypeError
  else if is_null (location j) then Some AttributeError
  else if is_null (preferred_locations p) then Some TypeError
  else if truthy (default [] (get (preferred_company_type p) [])) && is_null (company j)
  then Some AttributeError
  else None.

(** Case analysis on the dictionary entry [f]. *)
Ltac read f :=
  destruct f eqn:?;
  cbn [get need mbind result_bind fmap result_fmap is_null default option_fmap
       option_map andb orb negb is_ok] in *;
  try done.

(** The five reads that come before the company type, in order. *)
Ltac read_all j p :=
  read (description j); read (skills p); read (years_experience p);
  read (location j); read (preferred_locations p).

Lemma raw_score_error j p :
  match score_error j p with
  | Some e => raw_score j p = Raise e
  | None => is_ok (raw_score j p) = true
  end.
Proof.
  unfold score_error, raw_score.
  read_all j p; destruct (truthy _); cbn [andb]; try done;
    read (company j); by destruct (contains _ _).
Qed.

Lemma exp_score_boundsQ required_exp user_exp :
  0 <= inject_Z (exp_score required_exp user_exp) ∧
  inject_Z (exp_score required_exp user_exp) <= 25.
Proof.
  pose proof (exp_score_bounds required_exp user_exp) as [H0 H1].
  rewrite Zle_Qle in H0, H1. done.
Qed.

Lemma location_score_boundsQ job_location preferred :
  0 <= inject_Z (location_score job_location preferred) ∧
  inject_Z (location_score job_location preferred) <= 15.
Proof.
  pose proof (location_score_bounds job_location preferred) as [H0 H1].
  rewrite Zle_Qle in H0, H1. done.
Qed.

Lemma job_salary_nonneg (f : field text) :
  (0 ≤ default 0 (_extract_salary <$> get f []))%Z.
Proof. destruct f; simpl; [apply _extract_salary_nonneg | done | apply _extract_salary_nonneg]. Qed.

(** Inverts the next successful bind of [H]. *)
Ltac bind_ok H := apply bind_Ok_inv in H as (? & _ & H); cbv beta zeta in H.

(** Adds the bounds of the parts that occur in the goal. *)
Ltac part_bounds :=
  match goal with |- context [skill_score ?a ?b] =>
    pose proof (skill_score_bounds a b) as [? ?] end;
  match goal with |- context [exp_score ?a ?b] =>
    pose proof (exp_score_boundsQ a b) as [? ?] end;
  match goal with |- context [location_score ?a ?b] =>
    pose proof (location_score_boundsQ a b) as [? ?] end;
  match goal with |- context [salary_score (default 0%Z (_extract_salary <$> get ?f [])) ?b] =>
    pose proof (salary_score_bounds _ b (job_salary_nonneg f)) as [? ?] end.

(** The raw score lies between 0 and 100: the five parts are bounded by
    40, 25, 15, 10 and 10. *)
Lemma raw_score_bounds j p s : raw_score j p = Ok s → 0 <= s ∧ s <= 100.
Proof.
  unfold raw_score. intros H. do 5 bind_ok H.
  destruct (truthy _); [bind_ok H; destruct (contains _ _)|];
    injection H as <-; part_bounds; split; lra.
Qed.

Lemma Qmin_bounds x : 0 <= x → 0 <= Qmin x max_score ∧ Qmin x max_score <= 100.
Proof.
  intros H. destruct (Q.min_spec_le x max_score) as [[? ->]|[? ->]];
    unfold max_score in *; split; lra.
Qed.

(** The cut at 100 never acts: the score returned is the sum of the five
    parts. *)
Lemma score_is_raw_score j p s :
  raw_score j p = Ok s → ∃ s', _calculate_match_score j p = Ok s' ∧ s' == s.
Proof.
  intros H. unfold _calculate_match_score. rewrite H. eexists; split; [done|].
  apply raw_score_bounds in H as [_ H]. by apply Q.min_l.
Qed.

(** Property C1: the score is a number between 0 and 100, whatever the posting
    and the profile, and it is the sum of the five parts: the parts add up
    to at most 100, so the cut [min(score, max_score)] never acts. *)
Theorem score_bounds j p s :
  _calculate_match_score j p = Ok s →
  0 <= s ∧ s <= 100 ∧ ∃ parts, raw_score j p = Ok parts ∧ s == parts.
Proof.
  intros H. pose proof H as (x & Hx & [= <-])%bind_Ok_inv.
  destruct (score_is_raw_score j p x Hx) as (s' & Hs' & Heq). rewrite H in Hs'.
  injection Hs' as <-. destruct (raw_score_bounds j p x Hx).
  split_and!; [by apply Qmin_bounds.. | by exists x].
Qed.

Lemma calculate_error j p :
  match score_error j p with
  | Some e => _calculate_match_score j p = Raise e
  | None => ∃ s, _calculate_match_score j p = Ok s
  end.
Proof.
  unfold _calculate_match_score. pose proof (raw_score_error j p) as H.
  destruct (score_error j p) as [e|]; [by rewrite H|].
  destruct (raw_score j p); [simpl; eauto | done].
Qed.

(** Property C5: the score raises exactly when a read meets [null], with the
    exception of the first such read: [AttributeError] for the description,
    the location and the company, [TypeError] for the skills, the years of
    experience and the preferred locations; with no [null] among the keys
    it reads, the score is defined. *)
Theorem score_raises j p :
  (∀ e, _calculate_match_score j p = Raise e ↔ score_error j p = Some e) ∧
  (score_error j p = None → ∃ s, _calculate_match_score j p = Ok s).
Proof.
  pose proof (calculate_error j p) as H. destruct (score_error j p) as [e'|].
  - split; [|done]. intros e. rewrite H. split; congruence.
  - split; [|done]. intros e. destruct H as [s ->]. split; congruence.
Qed.

(** ** Experience and location *)

(** The experience part is 25 when the profile has the required years,
    loses 5 per missing year, and is 0 from five missing years on. *)
Lemma exp_score_spec required_exp user_exp :
  let missing := (required_exp - user_exp)%Z in
  ((missing ≤ 0 → exp_score required_exp user_exp = 25) ∧
   (0 < missing < 5 → exp_score required_exp user_exp = 25 - 5 * missing) ∧
   (5 ≤ missing → exp_score required_exp user_exp = 0))%Z.
Proof. unfold exp_score. destruct (Z.leb_spec required_exp user_exp); lia. Qed.

(** More experience never lowers the experience part. *)
Lemma exp_score_mono required_exp user_exp user_exp' :
  (user_exp ≤ user_exp' →
   exp_score required_exp user_exp ≤ exp_score required_exp user_exp')%Z.
Proof.
  unfold exp_score. intros H.
  destruct (Z.leb_spec required_exp user_exp), (Z.leb_spec required_exp user_exp'); lia.
Qed.

Lemma location_score_preferred job_location preferred loc :
  loc ∈ preferred → contains loc job_location = true →
  location_score job_location preferred = 15%Z.
Proof.
  intros Hin Hc. unfold location_score.
  assert (existsb (fun loc => contains loc job_location) preferred = true) as ->; [|done].
  apply existsb_exists. exists loc. by rewrite <-list_elem_of_In.
Qed.

Lemma location_score_remote job_location preferred :
  Forall (fun loc => contains loc job_location = false) preferred →
  contains (txt "remote") job_location = true →
  location_score job_location preferred = 10%Z.
Proof.
  intros Hn Hr. unfold location_score.
  assert (existsb (fun loc => contains loc job_location) preferred = false) as ->.
  { apply not_true_iff_false. intros (loc & Hin & Hc)%existsb_exists.
    rewrite <-list_elem_of_In in Hin. eapply Forall_forall in Hn; [|done]. congruence. }
  by rewrite Hr.
Qed.

(** The parts of the score that are read off the posting.  The
    experience part is 25 when the profile has the required years, loses
    5 per missing year, and is 0 from five missing years on.  The location
    part is 15 when a preferred location occurs in the location of the
    posting, also when that location is remote; else 10 for a remote
    posting. *)
Lemma score_parts_cases required_exp user_exp job_location preferred :
  ((required_exp ≤ user_exp → exp_score required_exp user_exp = 25) ∧
   (0 < required_exp - user_exp < 5 →
    exp_score required_exp user_exp = 25 - 5 * (required_exp - user_exp)) ∧
   (5 ≤ required_exp - user_exp → exp_score required_exp user_exp = 0))%Z ∧
  ((∃ loc, loc ∈ preferred ∧ contains loc job_location = true) →
   location_score job_location preferred = 15%Z) ∧
  (Forall (fun loc => contains loc job_location = false) preferred →
   contains (txt "remote") job_location = true →
   location_score job_location preferred = 10%Z).
Proof.
  pose proof (exp_score_spec required_exp user_exp) as He. cbv zeta in He.
  split_and!; try (intros; apply He; lia).
  - intros (loc & ? & ?). by eapply location_score_preferred.
  - apply location_score_remote.
Qed.

(** ** The evaluation tool *)

#[export] Instance by_score_desc_preorder : TotalPreorder by_score_desc.
Proof.
  split; unfold by_score_desc.
  - intros x y. rewrite !Qle_bool_iff.
    destruct (Qlt_le_dec (score_of x) (score_of y)); [right; lra | by left].
  - intros x y z. rewrite !Qle_bool_iff. lra.
Qed.

(** The loop gives each job its score and the time of its turn. *)
Lemma evaluate_from_Ok clock i p jobs out :
  evaluate_from clock i p jobs = Ok out →
  Forall2 (fun '(k, j) r => ∃ s, _calculate_match_score j p = Ok s ∧
                                 r = set_evaluation j s (clock k))
          (zip (seq i (length jobs)) jobs) out.
Proof.
  revert i out; induction jobs as [|j jobs IH]; intros i out; cbn [evaluate_from].
  - intros [= <-]. constructor.
  - intros (s & Hs & (rest & Hr & [= <-])%bind_Ok_inv)%bind_Ok_inv.
    constructor; [by exists s | by apply IH].
Qed.

Lemma evaluate_from_length clock i p jobs out :
  evaluate_from clock i p jobs = Ok out → length out = length jobs.
Proof.
  intros H%evaluate_from_Ok%Forall2_length.
  rewrite length_zip, length_seq in H. lia.
Qed.

Lemma score_Ok_no_error j p s :
  _calculate_match_score j p = Ok s → score_error j p = None.
Proof.
  intros H. pose proof (calculate_error j p) as Hc.
  destruct (score_error j p); [congruence | done].
Qed.

Lemma score_Raise_error j p e :
  _calculate_match_score j p = Raise e → score_error j p = Some e.
Proof.
  intros H. pose proof (calculate_error j p) as Hc.
  destruct (score_error j p); [congruence | destruct Hc; congruence].
Qed.

(** The loop stops at the first job whose score raises. *)
Lemma evaluate_from_Raise clock i p jobs e :
  evaluate_from clock i p jobs = Raise e ↔
  ∃ done_ j rest, jobs = done_ ++ j :: rest ∧
    Forall (fun j' => score_error j' p = None) done_ ∧ score_error j p = Some e.
Proof.
  split.
  - revert i; induction jobs as [|j jobs IH]; intros i; cbn [evaluate_from]; [done|].
    destruct (_calculate_match_score j p) as [s|e'] eqn:E; simpl.
    + destruct (evaluate_from clock (S i) p jobs) as [l|e'] eqn:El; simpl; [done|].
      intros [= ->]. apply IH in El as (d & j2 & rest & -> & Hd & He).
      exists (j :: d), j2, rest. split_and!; [done | | done].
      constructor; [by eapply score_Ok_no_error | done].
    + intros [= ->]. exists [], j, jobs. split_and!; [done | done | by apply score_Raise_error].
  - intros (d & j & rest & -> & Hd & He). pose proof (calculate_error j p) as Hc.
    rewrite He in Hc. clear He. revert i.
    induction Hd as [|j' d Hj' _ IH]; intros i; cbn [app evaluate_from].
    + by rewrite Hc.
    + pose proof (calculate_error j' p) as Hj. rewrite Hj' in Hj.
      destruct Hj as [s ->]. simpl. by rewrite IH.
Qed.

(** What the tool replies on success: the evaluated jobs, sorted. *)
Lemma job_evaluation_tool_Reply clock jobs p out :
  job_evaluation_tool clock jobs p = Reply out ↔
  ∃ l, evaluate_from clock 0 p jobs = Ok l ∧ out = stable_sort by_score_desc l.
Proof.
  unfold job_evaluation_tool. rewrite guarded_Reply. split.
  - intros (l & Hl & [= <-])%bind_Ok_inv. by exists l.
  - intros (l & -> & ->). done.
Qed.

(** Property C3: the reply holds every posting once, each with its score,
    between 0 and 100, and the time of its evaluation; the postings are
    in the order of their scores, highest first, and in the order of the
    input among postings of equal score. *)
Theorem job_evaluation_tool_stable clock jobs p out :
  job_evaluation_tool clock jobs p = Reply out →
  ∃ l, Forall2 (fun '(k, j) r => ∃ s, _calculate_match_score j p = Ok s ∧
                  0 <= s ∧ s <= 100 ∧ r = set_evaluation j s (clock k))
         (zip (seq 0 (length jobs)) jobs) l ∧
       out ≡ₚ l ∧
       (∀ (i k : nat) x y, (i < k)%nat → out !! i = Some x → out !! k = Some y →
                           score_of y <= score_of x) ∧
       ∀ z, filter (tied by_score_desc z) out = filter (tied by_score_desc z) l.
Proof.
  intros (l & Hl%evaluate_from_Ok & ->)%job_evaluation_tool_Reply. exists l.
  pose proof (stable_sort_sorts by_score_desc) as Hs. split_and!.
  - eapply Forall2_impl; [done|]. intros [k j] r (s & Hs' & ->).
    exists s. pose proof Hs' as Hc. unfold _calculate_match_score in Hc.
    apply bind_Ok_inv in Hc as (x & [? _]%raw_score_bounds & [= <-]).
    by destruct (Qmin_bounds x).
  - apply Hs.
  - intros i k x y Hik Hx Hy. apply Qle_bool_iff. change (by_score_desc x y = true).
    eapply (ordered_lookup by_score_desc _ i k); [apply Hs | done..].
  - intros z. apply Hs.
Qed.

(** Property C24: one posting whose score raises makes the tool reply with the
    error message alone: no posting of the batch is evaluated. *)
Theorem job_evaluation_tool_Failed clock jobs p prefix e :
  job_evaluation_tool clock jobs p = Failed prefix e ↔
  prefix = txt "Error evaluating jobs: " ∧
  ∃ done_ j rest, jobs = done_ ++ j :: rest ∧
    Forall (fun j' => score_error j' p = None) done_ ∧ score_error j p = Some e.
Proof.
  unfold job_evaluation_tool. rewrite guarded_Failed, <-(evaluate_from_Raise clock 0).
  destruct (evaluate_from clock 0 p jobs); simpl; naive_solver.
Qed.

Lemma job_evaluation_tool_length clock jobs p out :
  job_evaluation_tool clock jobs p = Reply out → length out = length jobs.
Proof.
  intros (l & Hl%evaluate_from_length & ->)%job_evaluation_tool_Reply.
  by rewrite (sorts_length by_score_desc _ _ (stable_sort_sorts _)).
Qed.

(** ** Profiles that list the same skills and locations *)

Section ProfileOrder.
Implicit Types (l k : list text) (p q : profile) (j : job).

#[export] Instance same_elements_equiv : Equivalence same_elements.
Proof.
  split; [by intros l x | by intros l k H x; symmetry; apply H |].
  intros l k m H1 H2 x. by rewrite (H1 x), (H2 x).
Qed.

#[export] Instance field_rel_equiv {A} (R : relation A) `{!Equivalence R} :
  Equivalence (field_rel R).
Proof.
  split.
  - intros [| |a]; simpl; [done | done | reflexivity].
  - intros [| |a] [| |b]; simpl; try done; by symmetry.
  - intros [| |a] [| |b] [| |c]; simpl; try done; by etrans.
Qed.

#[export] Instance profile_equiv_equiv : Equivalence profile_equiv.
Proof.
  split.
  - intros p. repeat split; reflexivity.
  - intros p q (? & ? & ? & ? & ? & ? & ?). repeat split; by symmetry.
  - intros p q r (? & ? & ? & ? & ? & ? & ?) (? & ? & ? & ? & ? & ? & ?).
    repeat split; by etrans.
Qed.

(** [set(user_skills)] forgets the order and the repetitions. *)
#[export] Instance list_to_set_same :
  Proper (same_elements ==> (=)) (list_to_set (C := gset text)).
Proof. intros l k H. apply set_eq. intros x. rewrite !elem_of_list_to_set. apply H. Qed.

#[export] Instance skill_score_same : Proper ((=) ==> same_elements ==> (=)) skill_score.
Proof. intros js ? <- l k H. unfold skill_score, skill_matches. by rewrite H. Qed.

#[export] Instance map_lower_same : Proper (same_elements ==> same_elements) (map lower).
Proof.
  intros l k H x. change (x ∈ lower <$> l ↔ x ∈ lower <$> k).
  rewrite !list_elem_of_fmap. unfold same_elements in H. by setoid_rewrite H.
Qed.

(** [any(loc in job_location for loc in preferred_locations)] asks for
    one element. *)
#[export] Instance location_score_same :
  Proper ((=) ==> same_elements ==> (=)) location_score.
Proof.
  intros loc ? <- l k H. unfold location_score.
  assert (existsb (fun x => contains x loc) l = existsb (fun x => contains x loc) k) as ->;
    [|done].
  unfold same_elements in H. apply eq_true_iff_eq. rewrite !existsb_exists.
  by setoid_rewrite <-list_elem_of_In; setoid_rewrite H.
Qed.

#[export] Instance raw_score_equiv : Proper ((=) ==> profile_equiv ==> (=)) raw_score.
Proof.
  intros j ? <- [n1 r1 y1 s1 l1 e1 c1] [n2 r2 y2 s2 l2 e2 c2] (? & ? & ? & Hs & Hl & ? & ?).
  simpl in *. subst. unfold raw_score. simpl.
  destruct (description j) as [| |d]; simpl; [|done|];
    (destruct s1 as [| |u1], s2 as [| |u2]; simpl in Hs |- *; try done);
    (destruct y2; simpl; try done);
    (destruct (location j); simpl; try done);
    (destruct l1 as [| |w1], l2 as [| |w2]; simpl in Hl |- *; try done);
    try rewrite (skill_score_same _ _ eq_refl _ _ Hs);
    try rewrite (location_score_same _ _ eq_refl _ _ (map_lower_same _ _ Hl)); done.
Qed.

#[export] Instance _calculate_match_score_equiv :
  Proper ((=) ==> profile_equiv ==> (=)) _calculate_match_score.
Proof. intros j ? <- p q H. unfold _calculate_match_score. by rewrite H. Qed.

#[export] Instance evaluate_from_equiv clock i :
  Proper (profile_equiv ==> (=) ==> (=)) (evaluate_from clock i).
Proof.
  intros p q H jobs ? <-. revert i. induction jobs as [|j jobs IH]; intros i; [done|].
  cbn [evaluate_from]. by rewrite H, IH.
Qed.

(** Property C23: the order and the repetitions of the skills and of the
    preferred locations in the profile do not matter.  Two profiles that
    agree on the other keys and list the same skills and the same
    locations give every posting the same score, or the same exception,
    and the evaluation tool the same reply. *)
Theorem score_respects_profile_equiv p q :
  profile_equiv p q →
  (∀ j, _calculate_match_score j p = _calculate_match_score j q) ∧
  (∀ clock jobs, job_evaluation_tool clock jobs p = job_evaluation_tool clock jobs q).
Proof.
  intros H. split; [intros j; by rewrite H|].
  intros clock jobs. unfold job_evaluation_tool. by rewrite H.
Qed.
End ProfileOrder.

(** ** The example of the specification *)

(** The profile and the posting of the specification's worked example. *)
Definition spec_profile : profile :=
  Profile Absent Absent (Val 5%Z) (Val [txt "python"; txt "aws"])
    (Val [txt "Remote"]) (Val 150000%Z) Absent.

Definition spec_job : job :=
  Job Absent Absent (Val (txt "Remote")) Absent
    (Val (txt "5 years of experience with python and aws")) Absent
    (Val (txt "$140,000-$160,000")) Absent Absent Absent Absent.

(** On the worked example the score is 90: skills 40, experience 25,
    location 15 (the preferred location "Remote" occurs in the job's
    location), salary 10, company 0. *)
Example spec_example_score :
  ∃ s, _calculate_match_score spec_job spec_profile = Ok s ∧ s == 90.
Proof. eexists. split; [vm_compute; reflexivity | reflexivity]. Qed.

(** ** The theorems at concrete inputs *)

(** A posting with no key at all, and a clock that counts. *)
Definition empty_job : job :=
  Job Absent Absent Absent Absent Absent Absent Absent Absent Absent Absent Absent.

Definition tick (i : nat) : text := str_of_N (N.of_nat i).

Lemma score_bounds_witness :
  0 <= 180 # 2 ∧ 180 # 2 <= 100 ∧
  ∃ parts, raw_score spec_job spec_profile = Ok parts ∧ 180 # 2 == parts.
Proof. apply (score_bounds spec_job spec_profile). vm_compute. reflexivity. Defined.

Lemma job_evaluation_tool_stable_witness :
  ∃ l, Forall2 (fun '(k, j) r => ∃ s, _calculate_match_score j spec_profile = Ok s ∧
                  0 <= s ∧ s <= 100 ∧ r = set_evaluation j s (tick k))
         (zip (seq 0 2) [empty_job; spec_job]) l ∧
       [set_evaluation spec_job (180 # 2) (tick 1);
        set_evaluation empty_job (25 # 1) (tick 0)] ≡ₚ l ∧
       (∀ (i k : nat) x y, (i < k)%nat →
          [set_evaluation spec_job (180 # 2) (tick 1);
           set_evaluation empty_job (25 # 1) (tick 0)] !! i = Some x →
          [set_evaluation spec_job (180 # 2) (tick 1);
           set_evaluation empty_job (25 # 1) (tick 0)] !! k = Some y →
          score_of y <= score_of x) ∧
       ∀ z, filter (tied by_score_desc z)
              [set_evaluation spec_job (180 # 2) (tick 1);
               set_evaluation empty_job (25 # 1) (tick 0)] =
            filter (tied by_score_desc z) l.
Proof.
  apply (job_evaluation_tool_stable tick [empty_job; spec_job] spec_profile).
  vm_compute. reflexivity.
Defined.

(** The skills of the worked example in another order, one of them
    twice. *)
Definition spec_profile_reordered : profile :=
  Profile Absent Absent (Val 5%Z) (Val [txt "aws"; txt "python"; txt "aws"])
    (Val [txt "Remote"]) (Val 150000%Z) Absent.

Lemma score_respects_profile_equiv_witness :
  (∀ j, _calculate_match_score j spec_profile =
        _calculate_match_score j spec_profile_reordered) ∧
  (∀ clock jobs, job_evaluation_tool clock jobs spec_profile =
                 job_evaluation_tool clock jobs spec_profile_reordered).
Proof.
  apply (score_respects_profile_equiv spec_profile spec_profile_reordered).
  unfold profile_equiv. simpl. split_and!; try done;
    intros x; rewrite ?elem_of_cons, ?elem_of_nil; tauto.
Defined.

(** ** Batches that cannot fail *)

(** A batch in which no posting makes the score raise is evaluated. *)
Lemma evaluate_from_total clock i p jobs :
  Forall (fun j => score_error j p = None) jobs →
  ∃ out, evaluate_from clock i p jobs = Ok out.
Proof.
  intros Hall. destruct (evaluate_from clock i p jobs) as [out|e] eqn:He; [eauto|].
  apply evaluate_from_Raise in He as (done_ & j & rest & -> & _ & Hj).
  apply Forall_app in Hall as [_ [Hj' _]%Forall_cons]. congruence.
Qed.

(** Every posting of an evaluated batch is a posting of the input with
    its score, between 0 and 100. *)
Lemma evaluate_from_scored clock i p jobs out :
  evaluate_from clock i p jobs = Ok out →
  Forall (fun r => ∃ j s date, j ∈ jobs ∧ r = set_evaluation j s date ∧ 0 <= s ∧ s <= 100) out.
Proof.
  intros H%evaluate_from_Ok. apply Forall_forall. intros r Hr.
  apply list_elem_of_lookup in Hr as [n Hn].
  destruct (Forall2_lookup_r _ _ _ _ _ H Hn) as ([k j] & Hkj & s & Hs & ->).
  apply lookup_zip_with_Some in Hkj as (? & ? & [= <- <-] & _ & Hj%list_elem_of_lookup_2).
  exists j, s, (clock k). unfold _calculate_match_score in Hs.
  apply bind_Ok_inv in Hs as (x & [? _]%raw_score_bounds & [= <-]).
  by destruct (Qmin_bounds x).
Qed.
