(* ===== verification/Dynamic.v ===== *)
(** * Dynamic: the scorer and the evaluation tool on values of any shape

    [job_evaluation_tool] of [src/job_seeker/tools/job_search_tools.py]
    decodes its arguments with [json.loads], or takes them as they are
    when they are no strings, and then uses them as a list of postings and
    a profile: nothing checks that they are.  [Scorer] describes the tool
    on values of the expected shape (records with typed keys).  This file
    describes it on any decoded value ([Json]): every operation the code
    applies to a value is the Python operation, which works on more types
    than the expected one (a string is iterated character by character, an
    object key by key, [True] counts as 1) and raises on the others.

    The two descriptions are related by the decoders [job_of_json] and
    [profile_of_json], which read a record from an object whose keys hold
    values of the expected types: on such values, and up to the equality
    of rational numbers, the scorer and the tool of this file are those
    of [Scorer] ([job_evaluation_tool_dyn_refines]); the tool is taken
    from its arguments ([job_evaluation_tool_entry]), each of which is
    decoded when it is a string ([decoded]).  On all other values
    the file says what the tool does: which exceptions it raises, and on
    which shapes it answers without one
    ([job_evaluation_tool_dyn_spec]). *)

From Stdlib Require Import Ascii ZArith QArith Qminmax Qround Lia Lqa.
From stdpp Require Import base list strings.
From S2P Require Import Prelude Text Json Regex Extract Data Sorting Scorer.

#[local] Open Scope Q_scope.

(** ** The parts that read a number *)

(** [_extract_salary(salary_range)]: a value that counts as false is no
    salary; on any other value the regular expression is run, which takes
    a string only. *)
Definition _extract_salary_dyn (salary_range : json) : result Z :=
  if json_truthy salary_range then _extract_salary <$> as_str TypeError salary_range
  else Ok 0%Z.

(** The experience part, for years of experience that are any number. *)
Definition exp_score_dyn (required_exp : Z) (user_exp : Q) : Q :=
  if Qle_bool (inject_Z required_exp) user_exp then 25
  else max0 (25 - (inject_Z required_exp - user_exp) * 5).

(** The salary part: [if job_salary and expected_salary] takes the truth
    of any value; the comparison that follows takes a number. *)
Definition salary_score_dyn (job_salary : Z) (expected_salary : json) : result Q :=
  if bool_decide (job_salary ≠ 0%Z) && json_truthy expected_salary then
    expected ← number expected_salary;
    Ok (if Qle_bool expected (inject_Z job_salary) then 10
        else max0 (10 - (expected - inject_Z job_salary) / expected * 10))
  else Ok 0.

(** ** The score *)

(** The sum of the parts, statement by statement. *)
Definition raw_score_dyn (job profile : json) : result Q :=
  description ← py_get job "description" (JStr []) ≫= as_str AttributeError;
  let job_skills := _extract_skills description in
  user_skills ← py_get profile "skills" (JArr []) ≫= py_set;
  let score := 0 + skill_score job_skills (strs user_skills) in
  let required_exp := _extract_experience_requirement description in
  user_exp ← py_get profile "years_experience" (JNum 0) ≫= number;
  let score := score + exp_score_dyn required_exp user_exp in
  job_location ← py_get job "location" (JStr []) ≫= py_lower;
  listed ← py_get profile "preferred_locations" (JArr []) ≫= py_iter;
  preferred_locations ← mapM py_lower listed;
  let score := score + inject_Z (location_score job_location preferred_locations) in
  job_salary ← py_get job "salary_range" (JStr []) ≫= _extract_salary_dyn;
  expected_salary ← py_get profile "expected_salary" (JNum 0);
  salary ← salary_score_dyn job_salary expected_salary;
  let score := score + salary in
  company_type ← py_get profile "preferred_company_type" (JStr []);
  if json_truthy company_type then
    wanted ← py_lower company_type;
    job_company ← py_get job "company" (JStr []) ≫= py_lower;
    if contains wanted job_company then Ok (score + 10) else Ok score
  else Ok score.

(** [_calculate_match_score] on any two values. *)
Definition _calculate_match_score_dyn (job profile : json) : result Q :=
  score ← raw_score_dyn job profile; Ok (Qmin score max_score).

(** ** The evaluation tool *)

(** [job['match_score'] = score; job['evaluation_date'] = date]: a posting
    that was scored is an object. *)
Definition set_evaluation_dyn (job : json) (score : Q) (date : text) : json :=
  match job with
  | JObj members =>
      JObj (set_item (txt "evaluation_date") (JStr date)
              (set_item (txt "match_score") (JNum score) members))
  | _ => job
  end.

(** [x['match_score']] of an evaluated posting. *)
Definition score_of_dyn (job : json) : Q :=
  match job with
  | JObj members =>
      match obj_get (txt "match_score") members with
      | Some (JNum q) => q
      | _ => 0
      end
  | _ => 0
  end.

Definition by_score_desc_dyn (x y : json) : bool := Qle_bool (score_of_dyn y) (score_of_dyn x).

(** The loop of the tool over what [for job in jobs] goes through. *)
Fixpoint evaluate_from_dyn (clock : nat → text) (i : nat) (profile : json)
    (jobs : list json) : result (list json) :=
  match jobs with
  | [] => Ok []
  | job :: jobs' =>
      score ← _calculate_match_score_dyn job profile;
      rest ← evaluate_from_dyn clock (S i) profile jobs';
      Ok (set_evaluation_dyn job score (clock i) :: rest)
  end.

(** [job_evaluation_tool] on two decoded values. *)
Definition job_evaluation_tool_dyn (clock : nat → text) (job_data user_profile : json)
    : reply json :=
  guarded "Error evaluating jobs: "
    (jobs ← py_iter job_data;
     evaluated_jobs ← evaluate_from_dyn clock 0 user_profile jobs;
     Ok (JArr (stable_sort by_score_desc_dyn evaluated_jobs))).

(** [json.loads(x) if isinstance(x, str) else x]: an argument that is a
    string is decoded, any other value is taken as it is.  [loads] is
    [json.loads] on a string. *)
Definition decoded (loads : text → result json) (argument : json) : result json :=
  match argument with
  | JStr s => loads s
  | _ => Ok argument
  end.

(** [job_evaluation_tool] from its two arguments to the value it
    encodes: the postings are decoded first, then the profile, both
    inside the [try]. *)
Definition job_evaluation_tool_entry (loads : text → result json) (clock : nat → text)
    (job_data user_profile : json) : reply json :=
  guarded "Error evaluating jobs: "
    (jobs ← decoded loads job_data;
     profile ← decoded loads user_profile;
     listed ← py_iter jobs;
     evaluated_jobs ← evaluate_from_dyn clock 0 profile listed;
     Ok (JArr (stable_sort by_score_desc_dyn evaluated_jobs))).

(** ** Specification vocabulary *)

(** Reading a key of the expected type: the key is absent, [null], or
    holds a value that [read] accepts. *)
Definition get_field {A} (read : json → option A) (key : string)
    (members : list (text * json)) : option (field A) :=
  match obj_get (txt key) members with
  | None => Some Absent
  | Some JNull => Some Null
  | Some v => Val <$> read v
  end.

Definition read_text (v : json) : option text :=
  match v with
  | JStr s => Some s
  | _ => None
  end.

Definition read_number (v : json) : option Q :=
  match v with
  | JNum q => Some q
  | _ => None
  end.

(** A number without fraction. *)
Definition read_int (v : json) : option Z :=
  match v with
  | JNum q => if Qeq_bool q (inject_Z (Qfloor q)) then Some (Qfloor q) else None
  | _ => None
  end.

Definition read_texts (v : json) : option (list text) :=
  match v with
  | JArr items => mapM read_text items
  | _ => None
  end.

(** The posting that an object with keys of the expected types holds;
    other keys are not looked at. *)
Definition job_of_json (v : json) : option job :=
  match v with
  | JObj m =>
      title ← get_field read_text "title" m;
      company ← get_field read_text "company" m;
      location ← get_field read_text "location" m;
      url ← get_field read_text "url" m;
      description ← get_field read_text "description" m;
      posted_date ← get_field read_text "posted_date" m;
      salary_range ← get_field read_text "salary_range" m;
      site ← get_field read_text "site" m;
      job_type ← get_field read_text "job_type" m;
      match_score ← get_field read_number "match_score" m;
      evaluation_date ← get_field read_text "evaluation_date" m;
      Some (Job title company location url description posted_date salary_range site
                job_type match_score evaluation_date)
  | _ => None
  end.

(** The profile that an object with keys of the expected types holds. *)
Definition profile_of_json (v : json) : option profile :=
  match v with
  | JObj m =>
      name ← get_field read_text "name" m;
      current_role ← get_field read_text "current_role" m;
      years_experience ← get_field read_int "years_experience" m;
      skills ← get_field read_texts "skills" m;
      preferred_locations ← get_field read_texts "preferred_locations" m;
      expected_salary ← get_field read_int "expected_salary" m;
      preferred_company_type ← get_field read_text "preferred_company_type" m;
      Some (Profile name current_role years_experience skills preferred_locations
                    expected_salary preferred_company_type)
  | _ => None
  end.

(** Results that raise the same exception or return equal numbers. *)
Definition same_result (a b : result Q) : Prop :=
  match a, b with
  | Ok x, Ok y => x == y
  | Raise e, Raise e' => e = e'
  | _, _ => False
  end.

(** A computation that raises nothing but the two exceptions of a value
    of the wrong type. *)
Definition raises_only {A} (c : result A) : Prop :=
  ∀ e, c = Raise e → e = AttributeError ∨ e = TypeError.

(** Postings that differ at most in the way their score is written as a
    fraction. *)
Definition same_job (a b : job) : Prop :=
  title a = title b ∧ company a = company b ∧ location a = location b ∧ url a = url b ∧
  description a = description b ∧ posted_date a = posted_date b ∧
  salary_range a = salary_range b ∧ site a = site b ∧ job_type a = job_type b ∧
  field_rel Qeq (match_score a) (match_score b) ∧ evaluation_date a = evaluation_date b.

(** The value holds the posting: it is an object whose keys, read with
    their expected types, are those of the posting. *)
Definition holds (v : json) (j : job) : Prop :=
  ∃ j', job_of_json v = Some j' ∧ same_job j' j.

(** Replies that fail alike, or return lists that hold the same
    postings in the same order. *)
Definition same_reply (a : reply json) (b : reply (list job)) : Prop :=
  match a, b with
  | Reply v, Reply evaluated => ∃ out, v = JArr out ∧ Forall2 holds out evaluated
  | Failed prefix e, Failed prefix' e' => prefix = prefix' ∧ e = e'
  | _, _ => False
  end.

(** ** Bounds of the parts *)

Section Bounds.
Implicit Types (job profile v : json) (q : Q).

Lemma exp_score_dyn_bounds required_exp user_exp :
  0 <= exp_score_dyn required_exp user_exp ∧ exp_score_dyn required_exp user_exp <= 25.
Proof.
  unfold exp_score_dyn. destruct (Qle_bool _ _) eqn:E; [lra|].
  split; [apply max0_nonneg|]. unfold max0. destruct (Qlt_le_dec 0 _); [|lra].
  assert (¬ inject_Z required_exp <= user_exp) by (rewrite <-Qle_bool_iff; congruence). lra.
Qed.

Lemma _extract_salary_dyn_nonneg v n : _extract_salary_dyn v = Ok n → (0 ≤ n)%Z.
Proof.
  unfold _extract_salary_dyn. destruct (json_truthy v); [|by intros [= <-]].
  destruct v; simpl; try done. intros [= <-]. apply _extract_salary_nonneg.
Qed.

(** The falloff of the salary part, for an expected salary that is any
    positive number. *)
Lemma salary_falloff_dyn (job_salary expected : Q) :
  0 < expected → 10 - (expected - job_salary) / expected * 10 == 10 * job_salary / expected.
Proof. intros He. field. lra. Qed.

Lemma salary_score_dyn_bounds job_salary v s :
  (0 ≤ job_salary)%Z → salary_score_dyn job_salary v = Ok s → 0 <= s ∧ s <= 10.
Proof.
  intros Hj. unfold salary_score_dyn. destruct (_ && _) eqn:E; [|intros [= <-]; lra].
  apply andb_true_iff in E as [Hj0%bool_decide_eq_true _].
  intros (expected & _ & [= <-])%bind_Ok_inv.
  destruct (Qle_bool _ _) eqn:El; [lra|]. split; [apply max0_nonneg|].
  assert (¬ expected <= inject_Z job_salary) by (rewrite <-Qle_bool_iff; congruence).
  assert (0 < inject_Z job_salary) by (rewrite <-(Zlt_Qlt 0); lia).
  rewrite max0_pos; rewrite salary_falloff_dyn by lra.
  - apply Qle_shift_div_r; lra.
  - apply Qlt_shift_div_l; lra.
Qed.

(** The raw score lies between 0 and 100 whatever the two values are. *)
Lemma raw_score_dyn_bounds job profile s : raw_score_dyn job profile = Ok s → 0 <= s ∧ s <= 100.
Proof.
  unfold raw_score_dyn. intros H.
  apply bind_Ok_inv in H as (description & _ & H). cbv zeta in H.
  apply bind_Ok_inv in H as (user_skills & _ & H).
  apply bind_Ok_inv in H as (user_exp & _ & H).
  apply bind_Ok_inv in H as (job_location & _ & H).
  apply bind_Ok_inv in H as (listed & _ & H).
  apply bind_Ok_inv in H as (preferred & _ & H).
  apply bind_Ok_inv in H as (job_salary & Hj & H).
  apply bind_Ok_inv in Hj as (sr & _ & Hj). apply _extract_salary_dyn_nonneg in Hj.
  apply bind_Ok_inv in H as (expected_salary & _ & H).
  apply bind_Ok_inv in H as (salary & Hs & H).
  apply salary_score_dyn_bounds in Hs as [? ?]; [|done].
  apply bind_Ok_inv in H as (company_type & _ & H).
  pose proof (skill_score_bounds (_extract_skills description) (strs user_skills)) as [? ?].
  pose proof (exp_score_dyn_bounds (_extract_experience_requirement description) user_exp) as [? ?].
  pose proof (location_score_boundsQ job_location preferred) as [? ?].
  destruct (json_truthy company_type).
  - apply bind_Ok_inv in H as (wanted & _ & H). apply bind_Ok_inv in H as (job_company & _ & H).
    destruct (contains _ _); injection H as <-; split; lra.
  - injection H as <-. split; lra.
Qed.
End Bounds.

(** ** Reading a key of the expected type *)

Section Reads.
Implicit Types (m : list (text * json)) (v : json) (q : Q) (z : Z) (s : text).

(** The decoders, key by key. *)
Lemma job_of_json_Some v j :
  job_of_json v = Some j →
  ∃ m, v = JObj m ∧
    get_field read_text "title" m = Some (title j) ∧
    get_field read_text "company" m = Some (company j) ∧
    get_field read_text "location" m = Some (location j) ∧
    get_field read_text "url" m = Some (url j) ∧
    get_field read_text "description" m = Some (description j) ∧
    get_field read_text "posted_date" m = Some (posted_date j) ∧
    get_field read_text "salary_range" m = Some (salary_range j) ∧
    get_field read_text "site" m = Some (site j) ∧
    get_field read_text "job_type" m = Some (job_type j) ∧
    get_field read_number "match_score" m = Some (match_score j) ∧
    get_field read_text "evaluation_date" m = Some (evaluation_date j).
Proof.
  destruct v as [| | | | |m]; try done. intros H. exists m. split; [done|].
  unfold job_of_json in H. simplify_option_eq. by split_and!.
Qed.

Lemma profile_of_json_Some v p :
  profile_of_json v = Some p →
  ∃ m, v = JObj m ∧
    get_field read_text "name" m = Some (name p) ∧
    get_field read_text "current_role" m = Some (current_role p) ∧
    get_field read_int "years_experience" m = Some (years_experience p) ∧
    get_field read_texts "skills" m = Some (skills p) ∧
    get_field read_texts "preferred_locations" m = Some (preferred_locations p) ∧
    get_field read_int "expected_salary" m = Some (expected_salary p) ∧
    get_field read_text "preferred_company_type" m = Some (preferred_company_type p).
Proof.
  destruct v as [| | | | |m]; try done. intros H. exists m. split; [done|].
  unfold profile_of_json in H. simplify_option_eq. by split_and!.
Qed.

(** What a key holds, by the field that was read from it. *)
Lemma get_field_Some {A} (read : json → option A) key m f :
  get_field read key m = Some f →
  match f with
  | Absent => obj_get (txt key) m = None
  | Null => obj_get (txt key) m = Some JNull
  | Val a => ∃ v, obj_get (txt key) m = Some v ∧ read v = Some a
  end.
Proof.
  unfold get_field. destruct (obj_get _ m) as [v|]; [|by intros [= <-]].
  destruct v; simpl; try (by intros [= <-]);
    (destruct (read _) eqn:E; simpl; [|done]); intros [= <-]; eauto.
Qed.

Lemma read_texts_Some v l : read_texts v = Some l → v = JArr (map JStr l).
Proof.
  destruct v as [| | | |items|]; try done. simpl. intros H. f_equal.
  revert l H. induction items as [|x items IH]; intros l H; simpl in H; [by injection H as <-|].
  destruct x; simpl in H; try done. destruct (mapM read_text items) as [l'|] eqn:E; [|done].
  injection H as <-. simpl. f_equal. by apply IH.
Qed.

Lemma read_int_Some v z : read_int v = Some z → ∃ q, v = JNum q ∧ q == inject_Z z.
Proof.
  destruct v as [| |q| | |]; try done. simpl.
  destruct (Qeq_bool _ _) eqn:E; [|done]. intros [= <-]. exists q. split; [done|].
  by apply Qeq_bool_iff.
Qed.

(** A key read as text where a method of [str] is called, or a regular
    expression run, on its value. *)
Lemma py_get_text e key m f :
  get_field read_text key m = Some f →
  py_get (JObj m) key (JStr []) ≫= as_str e = need e (get f []).
Proof.
  intros H%get_field_Some. rewrite py_get_JObj.
  destruct f as [| |s]; [by rewrite H..|]. destruct H as (v & -> & Hv). by destruct v; simpl in *; simplify_eq.
Qed.

Lemma py_get_lower key m f :
  get_field read_text key m = Some f →
  py_get (JObj m) key (JStr []) ≫= py_lower = lower <$> need AttributeError (get f []).
Proof.
  intros H%get_field_Some. rewrite py_get_JObj.
  destruct f as [| |s]; [by rewrite H..|]. destruct H as (v & -> & Hv). by destruct v; simpl in *; simplify_eq.
Qed.

(** A key read as a list of strings where it is made a set. *)
Lemma py_get_set key m f :
  get_field read_texts key m = Some f →
  py_get (JObj m) key (JArr []) ≫= py_set = map JStr <$> need TypeError (get f []).
Proof.
  intros H%get_field_Some. rewrite py_get_JObj.
  destruct f as [| |l]; [by rewrite H..|]. destruct H as (v & -> & ->%read_texts_Some).
  simpl. unfold py_set. simpl. by rewrite hashable_JStr.
Qed.

(** A key read as a list of strings where each is lowered. *)
Lemma py_get_lowered key m f :
  get_field read_texts key m = Some f →
  (py_get (JObj m) key (JArr []) ≫= py_iter) ≫= mapM py_lower =
    map lower <$> need TypeError (get f []).
Proof.
  intros H%get_field_Some. rewrite py_get_JObj.
  destruct f as [| |l]; [by rewrite H..|]. destruct H as (v & -> & ->%read_texts_Some).
  simpl. induction l as [|s l IH]; [done|]. simpl in *. by rewrite IH.
Qed.

(** A key read as an integer where a number is needed. *)
Lemma py_get_number key m f :
  get_field read_int key m = Some f →
  match py_get (JObj m) key (JNum 0) ≫= number, need TypeError (get f 0%Z) with
  | Ok q, Ok z => q == inject_Z z
  | Raise e, Raise e' => e = e'
  | _, _ => False
  end.
Proof.
  intros H%get_field_Some. rewrite py_get_JObj.
  destruct f as [| |z]; [by rewrite H..|]. destruct H as (v & -> & (q & -> & Hq)%read_int_Some).
  done.
Qed.

(** The salary of a posting. *)
Lemma py_get_salary m f :
  get_field read_text "salary_range" m = Some f →
  py_get (JObj m) "salary_range" (JStr []) ≫= _extract_salary_dyn =
    Ok (default 0%Z (_extract_salary <$> get f [])).
Proof.
  intros H%get_field_Some. rewrite py_get_JObj.
  destruct f as [| |s]; [by rewrite H..|]. destruct H as (v & -> & Hv).
  destruct v; simpl in *; simplify_eq. unfold _extract_salary_dyn. by destruct s.
Qed.
End Reads.

(** ** The parts on integers *)

Section Parts.
Implicit Types (m : list (text * json)) (v : json) (q : Q) (z : Z).

Lemma max0_Qeq x y : x == y → max0 x == max0 y.
Proof. intros H. unfold max0. destruct (Qlt_le_dec 0 x), (Qlt_le_dec 0 y); lra. Qed.

Lemma Qmin_Qeq x y c : x == y → Qmin x c == Qmin y c.
Proof.
  intros H. destruct (Q.min_spec x c) as [[? ->]|[? ->]],
    (Q.min_spec y c) as [[? ->]|[? ->]]; lra.
Qed.

Lemma Qle_bool_Qeq x y x' y' : x == x' → y == y' → Qle_bool x y = Qle_bool x' y'.
Proof.
  intros Hx Hy. destruct (Qle_bool x y) eqn:E, (Qle_bool x' y') eqn:E'; try done.
  - apply Qle_bool_iff in E. assert (¬ x' <= y') by (rewrite <-Qle_bool_iff; congruence). lra.
  - apply Qle_bool_iff in E'. assert (¬ x <= y) by (rewrite <-Qle_bool_iff; congruence). lra.
Qed.

(** On whole years the experience part is the one of [Scorer]. *)
Lemma exp_score_dyn_int required_exp q z :
  q == inject_Z z → exp_score_dyn required_exp q == inject_Z (exp_score required_exp z).
Proof.
  intros Hq. unfold exp_score_dyn, exp_score.
  rewrite (Qle_bool_Qeq _ q (inject_Z required_exp) (inject_Z z)) by done.
  destruct (Z.leb_spec required_exp z) as [Hle|Hlt].
  - assert (Qle_bool (inject_Z required_exp) (inject_Z z) = true) as ->; [|done].
    apply Qle_bool_iff. by rewrite <-Zle_Qle.
  - assert (Qle_bool (inject_Z required_exp) (inject_Z z) = false) as ->.
    { apply not_true_is_false. rewrite Qle_bool_iff, <-Zle_Qle. lia. }
    rewrite (max0_Qeq _ (inject_Z (25 - (required_exp - z) * 5))).
    + unfold max0. destruct (Qlt_le_dec 0 _) as [H|H].
      * rewrite <-(Zlt_Qlt 0) in H. by rewrite Z.max_r by lia.
      * rewrite <-(Zle_Qle _ 0) in H. by rewrite Z.max_l by lia.
    + rewrite Hq. unfold Zminus.
      repeat first [rewrite inject_Z_plus | rewrite inject_Z_opp | rewrite inject_Z_mult]. ring.
Qed.

(** On a whole expected salary the salary part is the one of [Scorer]. *)
Lemma salary_score_dyn_int job_salary m f :
  get_field read_int "expected_salary" m = Some f →
  ∃ s, salary_score_dyn job_salary (default (JNum 0) (obj_get (txt "expected_salary") m)) = Ok s ∧
       s == salary_score job_salary (default 0%Z (get f 0%Z)).
Proof.
  intros H%get_field_Some. unfold salary_score_dyn, salary_score.
  destruct f as [| |z]; [rewrite H; simpl; rewrite andb_false_r; by eexists..|].
  destruct H as (v & -> & (q & -> & Hq)%read_int_Some). simpl.
  assert (Qeq_bool q 0 = bool_decide (z = 0%Z)) as ->.
  { case_bool_decide as Hz.
    - subst z. by apply Qeq_bool_iff.
    - apply not_true_is_false. rewrite Qeq_bool_iff, Hq. intros E.
      apply (inject_Z_injective z 0) in E. done. }
  destruct (bool_decide (job_salary ≠ 0%Z)); simpl; [|by eexists].
  case_bool_decide as Hz; simpl; [by eexists; rewrite bool_decide_eq_false_2 by (by intros ?)|].
  rewrite bool_decide_eq_true_2 by done. simpl. eexists. split; [done|].
  rewrite (Qle_bool_Qeq q _ (inject_Z z) (inject_Z job_salary)) by done.
  destruct (Z.leb_spec z job_salary) as [Hle|Hlt].
  - assert (Qle_bool (inject_Z z) (inject_Z job_salary) = true) as ->; [|done].
    apply Qle_bool_iff. by rewrite <-Zle_Qle.
  - assert (Qle_bool (inject_Z z) (inject_Z job_salary) = false) as ->.
    { apply not_true_is_false. rewrite Qle_bool_iff, <-Zle_Qle. lia. }
    apply max0_Qeq. rewrite Hq. unfold Zminus. by rewrite inject_Z_plus, inject_Z_opp.
Qed.
End Parts.

(** ** The scorer on values of the expected shape *)

Section Refinement.
Implicit Types (m : list (text * json)) (v w : json) (j : job) (p : profile).

Lemma result_bind_assoc {A B C} (a : result A) (f : A → result B) (g : B → result C) :
  a ≫= (fun x => f x ≫= g) = (a ≫= f) ≫= g.
Proof. by destruct a. Qed.

(** The preferred company type counts as true when it is a string that
    is not empty, and is then lowered. *)
Lemma py_get_company_type m f :
  get_field read_text "preferred_company_type" m = Some f →
  let v := default (JStr []) (obj_get (txt "preferred_company_type") m) in
  json_truthy v = truthy (default [] (get f [])) ∧
  (json_truthy v = true → py_lower v = Ok (lower (default [] (get f [])))).
Proof.
  intros H%get_field_Some. destruct f as [| |s]; [by rewrite H..|].
  destruct H as (v & -> & Hv). by destruct v; simpl in *; simplify_eq.
Qed.

(** Reduces the binds of a result that is known. *)
Ltac run := cbn [mbind result_bind fmap result_fmap mret result_ret same_result].

Lemma raw_score_dyn_refines v w j p :
  job_of_json v = Some j → profile_of_json w = Some p →
  same_result (raw_score_dyn v w) (raw_score j p).
Proof.
  intros (mj & -> & _ & Hcompany & Hlocation & _ & Hdescription & _ & Hsalary & _)%job_of_json_Some
         (mp & -> & _ & _ & Hyears & Hskills & Hpreferred & Hexpected & Hctype)%profile_of_json_Some.
  unfold raw_score_dyn, raw_score. cbv zeta.
  rewrite (py_get_text _ _ _ _ Hdescription).
  destruct (need AttributeError (get (description j) [])) as [description|e]; run; [|done].
  rewrite (py_get_set _ _ _ Hskills).
  destruct (need TypeError (get (skills p) [])) as [user_skills|e]; run; [|done].
  rewrite strs_JStr.
  pose proof (py_get_number _ _ _ Hyears) as Hy.
  destruct (py_get (JObj mp) "years_experience" (JNum 0) ≫= number) as [q|e],
    (need TypeError (get (years_experience p) 0%Z)) as [z|e']; run; try done.
  apply (exp_score_dyn_int (_extract_experience_requirement description)) in Hy.
  rewrite (py_get_lower _ _ _ Hlocation).
  destruct (need AttributeError (get (location j) [])) as [job_location|e]; run; [|done].
  rewrite result_bind_assoc, (py_get_lowered _ _ _ Hpreferred).
  destruct (need TypeError (get (preferred_locations p) [])) as [preferred|e]; run; [|done].
  rewrite (py_get_salary _ _ Hsalary). run. rewrite !(py_get_JObj mp). run.
  destruct (salary_score_dyn_int (default 0%Z (_extract_salary <$> get (salary_range j) [])) mp _
              Hexpected) as (s & -> & Hs). run.
  destruct (py_get_company_type mp _ Hctype) as [-> Hlower].
  destruct (truthy _) eqn:Et; run; [|lra]. rewrite Hlower by done. run.
  rewrite (py_get_lower _ _ _ Hcompany).
  destruct (need AttributeError (get (company j) [])) as [job_company|e]; run; [|done].
  destruct (contains _ _); run; lra.
Qed.
End Refinement.

(** ** The tool on values of the expected shape *)

Section ToolRefinement.
Implicit Types (m : list (text * json)) (v w : json) (j : job) (p : profile).

Lemma _calculate_match_score_dyn_refines v w j p :
  job_of_json v = Some j → profile_of_json w = Some p →
  same_result (_calculate_match_score_dyn v w) (_calculate_match_score j p).
Proof.
  intros Hv Hw. pose proof (raw_score_dyn_refines v w j p Hv Hw) as H.
  unfold _calculate_match_score_dyn, _calculate_match_score.
  destruct (raw_score_dyn v w), (raw_score j p); simpl in *; try done. by apply Qmin_Qeq.
Qed.

Lemma same_job_refl j : same_job j j.
Proof. unfold same_job. split_and!; try done; by destruct (match_score j). Qed.

Lemma holds_decoded v j : job_of_json v = Some j → holds v j.
Proof. intros H. exists j. split; [done | apply same_job_refl]. Qed.

(** A key after an assignment. *)
Lemma get_field_set_item {A} (read : json → option A) key k v m :
  get_field read key (set_item k v m) =
    if bool_decide (k = txt key) then
      match v with
      | JNull => Some Null
      | _ => Val <$> read v
      end
    else get_field read key m.
Proof. unfold get_field. rewrite obj_get_set_item. by case_bool_decide. Qed.

(** Stamping the value is stamping the posting it holds. *)
Lemma set_evaluation_dyn_holds v j s s' date :
  job_of_json v = Some j → s == s' →
  holds (set_evaluation_dyn v s date) (set_evaluation j s' date).
Proof.
  intros (m & -> & Ht & Hc & Hl & Hu & Hd & Hp & Hs & Hsi & Hj & _ & _)%job_of_json_Some Heq.
  exists (set_evaluation j s date). split; [|unfold same_job; by split_and!].
  simpl. rewrite !get_field_set_item. simpl. rewrite Ht, Hc, Hl, Hu, Hd, Hp, Hs, Hsi, Hj. done.
Qed.

(** The score by which the tool sorts. *)
Lemma score_of_dyn_holds v j : holds v j → score_of_dyn v == score_of j.
Proof.
  intros (j' & (m & -> & H)%job_of_json_Some & Hj).
  destruct H as (_ & _ & _ & _ & _ & _ & _ & _ & _ & Hs%get_field_Some & _).
  destruct Hj as (_ & _ & _ & _ & _ & _ & _ & _ & _ & Hrel & _).
  unfold score_of_dyn, score_of.
  destruct (match_score j') as [| |q], (match_score j) as [| |q']; try done;
    [by rewrite Hs..|]. destruct Hs as (v & -> & Hv). by destruct v; simpl in *; simplify_eq.
Qed.

Lemma by_score_desc_dyn_holds x j y k :
  holds x j → holds y k → by_score_desc_dyn x y = by_score_desc j k.
Proof.
  intros Hx%score_of_dyn_holds Hy%score_of_dyn_holds. by apply Qle_bool_Qeq.
Qed.

(** The loop of the tool, on values that hold postings. *)
Lemma evaluate_from_dyn_refines clock i w p items jobs :
  profile_of_json w = Some p → Forall2 (fun v j => job_of_json v = Some j) items jobs →
  match evaluate_from_dyn clock i w items, evaluate_from clock i p jobs with
  | Ok out, Ok evaluated => Forall2 holds out evaluated
  | Raise e, Raise e' => e = e'
  | _, _ => False
  end.
Proof.
  intros Hw Hall. revert i. induction Hall as [|v j items jobs Hv _ IH]; intros i; simpl;
    [constructor|].
  pose proof (_calculate_match_score_dyn_refines v w j p Hv Hw) as Hs.
  destruct (_calculate_match_score_dyn v w) as [s|e], (_calculate_match_score j p) as [s'|e'];
    simpl in *; try done.
  specialize (IH (S i)).
  destruct (evaluate_from_dyn clock (S i) w items), (evaluate_from clock (S i) p jobs);
    simpl; try done.
  constructor; [by apply set_evaluation_dyn_holds | done].
Qed.
End ToolRefinement.

(** ** The exceptions of a value of the wrong type *)

Section Raises.
Implicit Types (v w : json).

Lemma raises_only_Ok {A} (a : A) : raises_only (Ok a).
Proof. by intros e. Qed.

Lemma raises_only_bind {A B} (c : result A) (f : A → result B) :
  raises_only c → (∀ a, raises_only (f a)) → raises_only (c ≫= f).
Proof. intros Hc Hf e [H|(a & _ & H)]%bind_Raise_inv; [by apply Hc | by eapply Hf]. Qed.

Lemma raises_only_fmap {A B} (c : result A) (f : A → B) : raises_only c → raises_only (f <$> c).
Proof. intros Hc e. destruct c; [done|]. intros [= <-]. by apply Hc. Qed.

Lemma py_get_raises v key otherwise : raises_only (py_get v key otherwise).
Proof. intros e. destruct v; simpl; intros [= <-]; auto. Qed.

Lemma as_str_raises e v : e = AttributeError ∨ e = TypeError → raises_only (as_str e v).
Proof. intros He e'. by destruct v; simpl; intros [= <-]. Qed.

Lemma py_lower_raises v : raises_only (py_lower v).
Proof. apply raises_only_fmap, as_str_raises. auto. Qed.

Lemma py_iter_raises v : raises_only (py_iter v).
Proof. intros e. destruct v; simpl; intros [= <-]; auto. Qed.

Lemma py_set_raises v : raises_only (py_set v).
Proof.
  apply raises_only_bind; [apply py_iter_raises|]. intros items e.
  destruct (forallb _ _); intros [= <-]; auto.
Qed.

Lemma number_raises v : raises_only (number v).
Proof. intros e. destruct v; simpl; intros [= <-]; auto. Qed.

Lemma mapM_raises {A B} (f : A → result B) l : (∀ a, raises_only (f a)) → raises_only (mapM f l).
Proof.
  intros Hf. induction l as [|a l IH]; simpl; [apply raises_only_Ok|].
  apply raises_only_bind; [done|]. intros b. apply raises_only_bind; [done|].
  intros k. apply raises_only_Ok.
Qed.

Lemma _extract_salary_dyn_raises v : raises_only (_extract_salary_dyn v).
Proof.
  unfold _extract_salary_dyn. destruct (json_truthy v); [|apply raises_only_Ok].
  apply raises_only_fmap, as_str_raises. auto.
Qed.

Lemma salary_score_dyn_raises job_salary v : raises_only (salary_score_dyn job_salary v).
Proof.
  unfold salary_score_dyn. destruct (_ && _); [|apply raises_only_Ok].
  apply raises_only_bind; [apply number_raises|]. intros q. apply raises_only_Ok.
Qed.

(** Steps through the binds of the scorer. *)
Ltac raises :=
  repeat first
    [ apply raises_only_Ok | apply py_get_raises | apply py_lower_raises | apply py_iter_raises
    | apply py_set_raises | apply number_raises | apply _extract_salary_dyn_raises
    | apply salary_score_dyn_raises | apply as_str_raises; auto
    | apply mapM_raises; intros ? | apply raises_only_bind; [|intros ?] ].

Lemma raw_score_dyn_raises v w : raises_only (raw_score_dyn v w).
Proof.
  unfold raw_score_dyn. cbv zeta. raises.
  match goal with |- context [json_truthy ?c] => destruct (json_truthy c) end; raises.
  match goal with |- context [contains ?a ?b] => destruct (contains a b) end; raises.
Qed.

Lemma _calculate_match_score_dyn_raises v w : raises_only (_calculate_match_score_dyn v w).
Proof. unfold _calculate_match_score_dyn. apply raises_only_bind; [apply raw_score_dyn_raises|]. by intros. Qed.

Lemma evaluate_from_dyn_raises clock i w jobs : raises_only (evaluate_from_dyn clock i w jobs).
Proof.
  revert i. induction jobs as [|job jobs IH]; intros i; simpl; [apply raises_only_Ok|].
  apply raises_only_bind; [apply _calculate_match_score_dyn_raises|]. intros s.
  apply raises_only_bind; [apply IH|]. intros rest. apply raises_only_Ok.
Qed.
End Raises.

(** ** The tool on any two values *)

Section AnyValue.
Implicit Types (v w job : json) (s : text).

#[export] Instance by_score_desc_dyn_preorder : TotalPreorder by_score_desc_dyn.
Proof.
  split; unfold by_score_desc_dyn.
  - intros x y. rewrite !Qle_bool_iff.
    destruct (Qlt_le_dec (score_of_dyn x) (score_of_dyn y)); [right; lra | by left].
  - intros x y z. rewrite !Qle_bool_iff. lra.
Qed.

Lemma _calculate_match_score_dyn_bounds job w q :
  _calculate_match_score_dyn job w = Ok q → 0 <= q ∧ q <= 100.
Proof.
  unfold _calculate_match_score_dyn. intros (r & Hr%raw_score_dyn_bounds & [= <-])%bind_Ok_inv.
  unfold max_score. split; [apply Q.min_glb; lra | apply Q.le_min_r].
Qed.

(** A value that was scored is an object. *)
Lemma _calculate_match_score_dyn_object job w q :
  _calculate_match_score_dyn job w = Ok q → ∃ members, job = JObj members.
Proof. destruct job; try done. by eexists. Qed.

Lemma score_of_set_evaluation_dyn members q date :
  score_of_dyn (set_evaluation_dyn (JObj members) q date) = q.
Proof.
  simpl. rewrite obj_get_set_item, bool_decide_eq_false_2 by done.
  by rewrite obj_get_set_item, bool_decide_eq_true_2.
Qed.

(** What the loop returns: as many objects as it went through, each with
    a score between 0 and 100. *)
Lemma evaluate_from_dyn_Ok clock i w jobs evaluated :
  evaluate_from_dyn clock i w jobs = Ok evaluated →
  Forall2 (fun job out => ∃ members q, job = JObj members ∧
             _calculate_match_score_dyn job w = Ok q ∧ 0 <= q ∧ q <= 100 ∧
             score_of_dyn out = q ∧ ∃ date, out = set_evaluation_dyn job q date)
          jobs evaluated.
Proof.
  revert i evaluated. induction jobs as [|job jobs IH]; intros i evaluated; simpl.
  - intros [= <-]. constructor.
  - intros (q & Hq & (rest & Hrest & [= <-])%bind_Ok_inv)%bind_Ok_inv.
    constructor; [|by eapply IH].
    destruct (_calculate_match_score_dyn_object _ _ _ Hq) as [members ->].
    destruct (_calculate_match_score_dyn_bounds _ _ _ Hq).
    exists members, q. rewrite score_of_set_evaluation_dyn. eauto 10.
Qed.

(** The loop stops at the first value that is no object. *)
Lemma evaluate_from_dyn_not_object clock i w job jobs :
  (∀ members, job ≠ JObj members) →
  evaluate_from_dyn clock i w (job :: jobs) = Raise AttributeError.
Proof.
  intros Hjob. destruct job; try done. by destruct (Hjob members).
Qed.
End AnyValue.

(** ** Skills given as one string *)

Section SkillsString.
Implicit Types (s : text) (job : json).

Lemma common_skills_long : Forall (fun skill => (2 ≤ length skill)%nat) common_skills.
Proof. apply (bool_decide_unpack _). by vm_compute. Qed.

Lemma py_set_JStr s : py_set (JStr s) = Ok (map (fun c => JStr [c]) s).
Proof.
  unfold py_set. simpl.
  by replace (forallb hashable _) with true by (by induction s).
Qed.

Lemma strs_chars s : strs (map (fun c => JStr [c]) s) = map (fun c => [c]) s.
Proof. by rewrite <-(map_map (fun c : ascii => [c]) JStr s), strs_JStr. Qed.

(** No skill of the vocabulary is one character. *)
Lemma skill_score_chars description s :
  skill_score (_extract_skills description) (map (fun c => [c]) s) =
  skill_score (_extract_skills description) [].
Proof.
  unfold skill_score. rewrite !(proj2 (skill_matches_elem _ _)); [done| |].
  - intros skill _. apply not_elem_of_nil.
  - intros skill [_ Hin]%list_elem_of_filter (c & -> & _)%list_elem_of_fmap.
    pose proof common_skills_long as Hlong. rewrite Forall_forall in Hlong.
    apply Hlong in Hin. simpl in Hin. lia.
Qed.

Lemma py_get_set_item members key v otherwise :
  py_get (JObj (set_item (txt key) v members)) key otherwise = Ok v.
Proof. by rewrite py_get_JObj, obj_get_set_item, bool_decide_eq_true_2. Qed.

Lemma py_get_set_item_ne members key key' v otherwise :
  txt key ≠ txt key' →
  py_get (JObj (set_item (txt key) v members)) key' otherwise = py_get (JObj members) key' otherwise.
Proof. intros Hk. by rewrite !py_get_JObj, obj_get_set_item, bool_decide_eq_false_2. Qed.

(** A profile whose skills are one string scores as a profile without
    skills: the set of its characters meets no skill of a posting. *)
Lemma skills_as_string job members s :
  raw_score_dyn job (JObj (set_item (txt "skills") (JStr s) members)) =
  raw_score_dyn job (JObj (set_item (txt "skills") (JArr []) members)).
Proof.
  unfold raw_score_dyn. rewrite !py_get_set_item, !py_get_set_item_ne by done.
  cbn [mbind result_bind]. rewrite py_set_JStr.
  destruct (py_get job "description" (JStr []) ≫= as_str AttributeError) as [description|]; [|done].
  cbn [mbind result_bind]. by rewrite strs_chars, skill_score_chars.
Qed.
End SkillsString.

(** ** The arguments of the tool *)

Section Entry.
Context (loads : text → result json).
Implicit Types (v w : json) (s : text).

(** The tool is the tool on the decoded values; an argument that does
    not decode fails it, the postings before the profile. *)
Lemma job_evaluation_tool_entry_cases clock job_data user_profile :
  job_evaluation_tool_entry loads clock job_data user_profile =
  match decoded loads job_data, decoded loads user_profile with
  | Ok jobs, Ok profile => job_evaluation_tool_dyn clock jobs profile
  | Ok _, Raise e | Raise e, _ => Failed (txt "Error evaluating jobs: ") e
  end.
Proof.
  unfold job_evaluation_tool_entry, job_evaluation_tool_dyn.
  by destruct (decoded loads job_data), (decoded loads user_profile).
Qed.

Lemma decoded_value v : (∀ s, v ≠ JStr s) → decoded loads v = Ok v.
Proof. intros Hv. destruct v; try done. by destruct (Hv s). Qed.

(** Values that are no strings are not decoded: the decoder plays no
    part. *)
Lemma job_evaluation_tool_entry_values clock v w :
  (∀ s, v ≠ JStr s) → (∀ s, w ≠ JStr s) →
  job_evaluation_tool_entry loads clock v w = job_evaluation_tool_dyn clock v w.
Proof. intros Hv Hw. by rewrite job_evaluation_tool_entry_cases, !decoded_value. Qed.

(** A string is always decoded, and what it decodes to is not decoded
    again: postings that were encoded twice are iterated by character. *)
Lemma job_evaluation_tool_entry_twice clock s c s' w :
  loads s = Ok (JStr (c :: s')) → (∀ s, w ≠ JStr s) →
  job_evaluation_tool_entry loads clock (JStr s) w =
  Failed (txt "Error evaluating jobs: ") AttributeError.
Proof.
  intros Hs Hw. rewrite job_evaluation_tool_entry_cases, (decoded_value w) by done.
  simpl. by rewrite Hs.
Qed.

(** The profile is decoded also when there are no postings. *)
Lemma job_evaluation_tool_entry_profile clock s e :
  loads s = Raise e →
  job_evaluation_tool_entry loads clock (JArr []) (JStr s) =
  Failed (txt "Error evaluating jobs: ") e.
Proof. intros Hs. rewrite job_evaluation_tool_entry_cases. simpl. by rewrite Hs. Qed.
End Entry.

(** ** The theorems of the tool *)

Section Tool.
Implicit Types (job job_data user_profile v w : json) (items : list json).

(** On decoded values of the expected shape the two tools reply alike. *)
Lemma job_evaluation_tool_dyn_related clock items w jobs p :
  Forall2 (fun v j => job_of_json v = Some j) items jobs →
  profile_of_json w = Some p →
  same_reply (job_evaluation_tool_dyn clock (JArr items) w) (job_evaluation_tool clock jobs p).
Proof.
  intros Hall Hw. unfold job_evaluation_tool_dyn, job_evaluation_tool.
  cbn [py_iter mbind result_bind].
  pose proof (evaluate_from_dyn_refines clock 0 w p items jobs Hw Hall) as H.
  destruct (evaluate_from_dyn clock 0 w items), (evaluate_from clock 0 p jobs);
    simpl in *; try done.
  eexists. split; [done|]. apply stable_sort_related; [|done].
  intros. by apply by_score_desc_dyn_holds.
Qed.

(** Property C11: on arguments of the expected shape the tool on any
    values is the typed tool.  When the first argument, decoded if it is
    a string and taken as it is otherwise, is a list whose items decode
    to postings, and the second is in the same way an object that decodes
    to a profile, [job_evaluation_tool_entry] and
    [Scorer.job_evaluation_tool] fail with the same exception or return
    lists that hold the same postings in the same order, scores equal as
    rational numbers; and item by item [_calculate_match_score_dyn] and
    [_calculate_match_score] return equal scores or raise the same
    exception. *)
Theorem job_evaluation_tool_dyn_refines loads clock job_data user_profile items w jobs p :
  decoded loads job_data = Ok (JArr items) → decoded loads user_profile = Ok w →
  Forall2 (fun v j => job_of_json v = Some j) items jobs →
  profile_of_json w = Some p →
  same_reply (job_evaluation_tool_entry loads clock job_data user_profile)
             (job_evaluation_tool clock jobs p) ∧
  Forall2 (fun v j => same_result (_calculate_match_score_dyn v w) (_calculate_match_score j p))
          items jobs.
Proof.
  intros Hj Hp Hall Hw. split.
  - rewrite job_evaluation_tool_entry_cases, Hj, Hp. by apply job_evaluation_tool_dyn_related.
  - eapply Forall2_impl; [done|]. intros v j Hv. by apply _calculate_match_score_dyn_refines.
Qed.

(** Property C12: [job_evaluation_tool] on any two decoded values.  (1) On
    any posting value the score is between 0 and 100 and the posting is an
    object, or the scorer raises [AttributeError] or [TypeError].  (2) A
    reply of the tool is the list of the values that iterating [job_data]
    goes through, each an object stamped with its score, in descending
    order of score; a failure carries the prefix of the tool and one of
    the two exceptions.  (3) By the shape of [job_data]: [null], a truth
    value and a number fail with [TypeError]; the empty list, string and
    object give the empty list whatever the profile is; a non-empty
    string or object and a list whose first item is no object fail with
    [AttributeError].  (4) A profile whose skills are one string is
    scored as a profile without skills. *)
Theorem job_evaluation_tool_dyn_spec clock job_data user_profile :
  let tool := job_evaluation_tool_dyn clock job_data user_profile in
  (∀ job, match _calculate_match_score_dyn job user_profile with
          | Ok q => 0 <= q ∧ q <= 100 ∧ ∃ members, job = JObj members
          | Raise e => e = AttributeError ∨ e = TypeError
          end) ∧
  match tool with
  | Reply out =>
      ∃ jobs evaluated,
        py_iter job_data = Ok jobs ∧ out = JArr (stable_sort by_score_desc_dyn evaluated) ∧
        ordered by_score_desc_dyn (stable_sort by_score_desc_dyn evaluated) ∧
        Forall2 (fun job v => ∃ members q, job = JObj members ∧
                   _calculate_match_score_dyn job user_profile = Ok q ∧ 0 <= q ∧ q <= 100 ∧
                   score_of_dyn v = q ∧ ∃ date, v = set_evaluation_dyn job q date)
                jobs evaluated
  | Failed prefix e =>
      prefix = txt "Error evaluating jobs: " ∧ (e = AttributeError ∨ e = TypeError)
  end ∧
  match job_data with
  | JNull | JBool _ | JNum _ => tool = Failed (txt "Error evaluating jobs: ") TypeError
  | JArr [] | JStr [] | JObj [] => tool = Reply (JArr [])
  | JArr (JObj _ :: _) => True
  | _ => tool = Failed (txt "Error evaluating jobs: ") AttributeError
  end ∧
  (∀ job members s,
     raw_score_dyn job (JObj (set_item (txt "skills") (JStr s) members)) =
     raw_score_dyn job (JObj (set_item (txt "skills") (JArr []) members))).
Proof.
  split_and!.
  - intros job. destruct (_calculate_match_score_dyn job user_profile) as [q|e] eqn:E.
    + destruct (_calculate_match_score_dyn_bounds _ _ _ E).
      eauto using _calculate_match_score_dyn_object.
    + by eapply _calculate_match_score_dyn_raises.
  - unfold job_evaluation_tool_dyn.
    destruct (py_iter job_data) as [jobs|e] eqn:Ei; cbn [mbind result_bind];
      [|split; [done | by eapply py_iter_raises]].
    destruct (evaluate_from_dyn clock 0 user_profile jobs) as [evaluated|e] eqn:Ee;
      cbn [mbind result_bind guarded]; [|split; [done | by eapply evaluate_from_dyn_raises]].
    exists jobs, evaluated. split_and!; [done..| |by eapply evaluate_from_dyn_Ok].
    apply stable_sort_sorts. apply _.
  - destruct job_data as [| | |[|c s]|[|[] items]|[|m members]]; try done.
  - apply skills_as_string.
Qed.
End Tool.

(** ** The theorems at concrete inputs *)

(** The posting and the profile of the specification's worked example, as
    decoded values. *)
Definition spec_job_dyn : json :=
  JObj [(txt "description", JStr (txt "5 years of experience with python and aws"));
        (txt "location", JStr (txt "Remote"));
        (txt "salary_range", JStr (txt "$140,000-$160,000"))].

Definition spec_profile_dyn : json :=
  JObj [(txt "skills", JArr [JStr (txt "python"); JStr (txt "aws")]);
        (txt "years_experience", JNum 5);
        (txt "expected_salary", JNum 150000);
        (txt "preferred_locations", JArr [JStr (txt "Remote")])].

(** A decoder that knows one text. *)
Definition ex_loads (s : text) : result json :=
  if bool_decide (s = txt "[posting]") then Ok (JArr [spec_job_dyn]) else Raise ValueError.

Lemma job_evaluation_tool_dyn_refines_witness :
  same_reply (job_evaluation_tool_entry ex_loads (fun _ => txt "now")
                (JStr (txt "[posting]")) spec_profile_dyn)
             (job_evaluation_tool (fun _ => txt "now") [spec_job] spec_profile) ∧
  Forall2 (fun v j => same_result (_calculate_match_score_dyn v spec_profile_dyn)
                                  (_calculate_match_score j spec_profile))
          [spec_job_dyn] [spec_job].
Proof.
  apply (job_evaluation_tool_dyn_refines ex_loads (fun _ => txt "now") (JStr (txt "[posting]"))
           spec_profile_dyn [spec_job_dyn] spec_profile_dyn [spec_job] spec_profile);
    [reflexivity | reflexivity | by repeat constructor | reflexivity].
Defined.

(** The worked example on decoded values: 90, as with the records. *)
Example spec_example_score_dyn :
  ∃ q, _calculate_match_score_dyn spec_job_dyn spec_profile_dyn = Ok q ∧ q == 90.
Proof. eexists. split; [vm_compute; reflexivity | reflexivity]. Qed.

(** Values of other types that are taken without an error: years of
    experience that are [true] count as one year (5 of 25 for the
    experience, 10 for the location), skills given as one string score
    nothing for the skills (25 and 10 remain), and postings given as the
    empty string give the empty list. *)
Example wrong_shapes_accepted :
  (∃ q, _calculate_match_score_dyn spec_job_dyn
          (JObj [(txt "years_experience", JBool true)]) = Ok q ∧ q == 15) ∧
  (∃ q, _calculate_match_score_dyn spec_job_dyn
          (JObj [(txt "skills", JStr (txt "python, aws")); (txt "years_experience", JNum 5)])
        = Ok q ∧ q == 35) ∧
  job_evaluation_tool_dyn (fun _ => txt "now") (JStr []) JNull = Reply (JArr []).
Proof.
  split_and!; [eexists; split; [vm_compute; reflexivity | reflexivity]..|reflexivity].
Qed.

(** Values that raise: a profile that is a list, a salary range that is a
    number, skills that hold a list. *)
Example wrong_shapes_raise :
  _calculate_match_score_dyn spec_job_dyn (JArr []) = Raise AttributeError ∧
  _calculate_match_score_dyn (JObj [(txt "salary_range", JNum 140000)]) spec_profile_dyn
    = Raise TypeError ∧
  _calculate_match_score_dyn spec_job_dyn (JObj [(txt "skills", JArr [JArr []])])
    = Raise TypeError.
Proof. by vm_compute. Qed.
