(* ===== verification/Store.v ===== *)
(** * Store: the table of job opportunities

    [_init_database], [_store_jobs], [_retrieve_jobs], [_update_job],
    [_delete_job] and [database_tool] of [src/job_seeker/tools/job_search_tools.py], over a
    model of the one table they use.  The database file is a state that
    each operation takes and returns: either the table does not exist yet,
    or it holds its rows in the order of their ids together with the last
    id that [AUTOINCREMENT] handed out.

    The SQL statements of the source are modelled by what SQLite does with
    them: [INSERT OR REPLACE] first checks [NOT NULL], then deletes the rows
    that share the new row's [UNIQUE] url, then appends the row under a
    fresh id; [SELECT ... WHERE match_score >= ? ORDER BY match_score DESC
    LIMIT ?] filters, sorts and cuts; [UPDATE ... SET ... WHERE id = ?]
    rewrites at most one row, or nothing when a constraint fails;
    [DELETE ... WHERE id = ?] removes at most one row.  Ids are unbounded integers (SQLite's are 64-bit). *)

From Stdlib Require Import Ascii ZArith QArith Lia Lqa.
From stdpp Require Import base list strings sorting relations.
From S2P Require Import Prelude Text Data Sorting.

(** ** Rows and tables *)

(** A row of [job_opportunities]; [None] is SQL's [NULL].  [title] and
    [company] are [NOT NULL], [url] is [UNIQUE]. *)
Record row : Type := Row {
  id : Z;
  r_title : text;
  r_company : text;
  r_location : option text;
  r_url : option text;
  r_description : option text;
  r_salary_range : option text;
  r_posted_date : option text;
  r_site : option text;
  r_job_type : option text;
  r_match_score : option Q;
  r_evaluation_date : option text;
  r_applied : bool;
  r_application_date : option text;
  r_created_at : text;
}.

(** The table and the counter of [sqlite_sequence]. *)
Record table : Type := Table {
  rows : list row;
  seq : Z;
}.

(** The database file: [None] until the table is created. *)
Definition db : Type := option table.

(** ** Creating the table *)

(** [CREATE TABLE IF NOT EXISTS] *)
Definition _init_database (d : db) : table :=
  match d with
  | None => Table [] 0
  | Some t => t
  end.

(** ** Storing *)

(** The values the statement binds, from [job.get(key, default)]. *)
Record insert_values : Type := InsertValues {
  v_title : option text;
  v_company : option text;
  v_location : option text;
  v_url : option text;
  v_description : option text;
  v_salary_range : option text;
  v_posted_date : option text;
  v_site : option text;
  v_job_type : option text;
  v_match_score : option Q;
  v_evaluation_date : option text;
}.

Definition values_of_job (j : job) : insert_values :=
  InsertValues
    (get (title j) []) (get (company j) []) (get (location j) [])
    (get (url j) []) (get (description j) []) (get (salary_range j) [])
    (get (posted_date j) []) (get (site j) []) (get (job_type j) [])
    (get (match_score j) 0%Q) (get (evaluation_date j) []).

(** The rows that a new row with url [u] conflicts with. *)
Definition url_conflict (u : option text) (r : row) : Prop :=
  is_Some u ∧ r_url r = u.

#[export] Instance url_conflict_dec u r : Decision (url_conflict u r).
Proof. unfold url_conflict. apply _. Defined.

(** The largest id in use; 0 for no row. *)
Definition max_id (l : list row) : Z := foldr (fun r acc => Z.max (id r) acc) 0%Z l.

(** [INSERT OR REPLACE INTO job_opportunities (...) VALUES (...)] at time
    [now]. *)
Definition insert_or_replace (now : text) (v : insert_values) (t : table) : result table :=
  title ← need IntegrityError (v_title v);
  company ← need IntegrityError (v_company v);
  let kept := filter (fun r => ¬ url_conflict (v_url v) r) (rows t) in
  let new_id := (Z.max (seq t) (max_id kept) + 1)%Z in
  Ok (Table
        (kept ++ [Row new_id title company (v_location v) (v_url v)
                    (v_description v) (v_salary_range v) (v_posted_date v)
                    (v_site v) (v_job_type v) (v_match_score v)
                    (v_evaluation_date v) false None now])
        new_id).

(** The loop of [_store_jobs]: an [IntegrityError] skips the job, a stored
    job is counted. *)
Fixpoint store_loop (now : text) (jobs : list job) (t : table) (stored_count : nat)
    : table * nat :=
  match jobs with
  | [] => (t, stored_count)
  | j :: jobs' =>
      match insert_or_replace now (values_of_job j) t with
      | Ok t' => store_loop now jobs' t' (S stored_count)
      | Raise _ => store_loop now jobs' t stored_count   (* IntegrityError, the
                                                           only one it raises *)
      end
  end.

(** [_store_jobs]: the new database and the count of the message. *)
Definition _store_jobs (now : text) (jobs : list job) (d : db) : db * nat :=
  let '(t, stored_count) := store_loop now jobs (_init_database d) 0 in
  (Some t, stored_count).

(** ** Retrieving *)

(** The decoded filters: each key is present or not. *)
Record filters : Type := Filters {
  min_score : option Q;
  limit : option Z;
}.

(** [match_score >= ?]: false on [NULL]. *)
Definition score_at_least (m : Q) (r : row) : bool :=
  match r_match_score r with
  | Some s => Qle_bool m s
  | None => false
  end.

(** [ORDER BY match_score DESC]: [NULL] is below every number. *)
Definition by_match_score_desc (x y : row) : bool :=
  match r_match_score y, r_match_score x with
  | None, _ => true
  | Some _, None => false
  | Some sy, Some sx => Qle_bool sy sx
  end.

(** [LIMIT n]: the first [n] rows; a negative [n] is no limit. *)
Definition sql_limit (n : Z) (l : list row) : list row :=
  if (n <? 0)%Z then l else take (Z.to_nat n) l.

(** [SELECT * FROM job_opportunities [WHERE match_score >= ?] ORDER BY
    match_score DESC [LIMIT ?]]; rows of equal score come in the order of
    their ids. *)
Definition select (conditions : option Q) (lim : option Z) (t : table) : list row :=
  let matching :=
    match conditions with
    | Some m => filter (fun r => score_at_least m r = true) (rows t)
    | None => rows t
    end in
  let sorted := stable_sort by_match_score_desc matching in
  match lim with
  | Some n => sql_limit n sorted
  | None => sorted
  end.

(** [_retrieve_jobs]: the table is created first; without filters the name
    [conditions] is read before it was ever bound. *)
Definition _retrieve_jobs (filters_json : option filters) (d : db)
    : db * result (list row) :=
  let t := _init_database d in
  (Some t,
   conditions ← match filters_json with
                | Some f => Ok (min_score f)
                | None => Raise UnboundLocalError
                end;
   Ok (select conditions (filters_json ≫= limit) t)).

(** ** Deleting *)

(** [DELETE FROM job_opportunities WHERE id = ?]; [job_id] is [None] when
    the argument is no number, which equals no id. *)
Definition delete_row (job_id : option Z) (t : table) : table :=
  Table (filter (fun r => Some (id r) ≠ job_id) (rows t)) (seq t).

(** [_delete_job]: the table is not created here. *)
Definition _delete_job (job_id : option Z) (d : db) : db * result unit :=
  match d with
  | None => (None, Raise OperationalError)
  | Some t => (Some (delete_row job_id t), Ok ())
  end.

(** ** Updating *)

(** The columns of text that an update may name. *)
Inductive text_column : Type :=
  | c_title | c_company | c_location | c_url | c_description
  | c_salary_range | c_posted_date | c_site | c_job_type
  | c_evaluation_date | c_application_date.

(** One entry of [updates]: a column with a value of its type ([None] is
    [null]), or a key that names no column.  The keys of a JSON object are
    distinct. *)
Inductive assignment : Type :=
  | SetText (c : text_column) (v : option text)
  | SetScore (v : option Q)
  | SetApplied (b : bool)
  | NoSuchColumn (key : text).

(** The decoded argument of [_update_job]: [data.get('id')] and the key
    ['updates']. *)
Record update_data : Type := UpdateData {
  u_id : option Z;
  u_updates : field (list assignment);
}.

Definition is_column (a : assignment) : bool :=
  match a with
  | NoSuchColumn _ => false
  | _ => true
  end.

(** [SET column = ?] on one row; [NOT NULL] guards [title] and [company]. *)
Definition assign (a : assignment) (r : row) : result row :=
  let 'Row i ti co lo ur de sa po si jt ms ed ap ad cr := r in
  match a with
  | SetText c_title v =>
      v' ← need IntegrityError v; Ok (Row i v' co lo ur de sa po si jt ms ed ap ad cr)
  | SetText c_company v =>
      v' ← need IntegrityError v; Ok (Row i ti v' lo ur de sa po si jt ms ed ap ad cr)
  | SetText c_location v => Ok (Row i ti co v ur de sa po si jt ms ed ap ad cr)
  | SetText c_url v => Ok (Row i ti co lo v de sa po si jt ms ed ap ad cr)
  | SetText c_description v => Ok (Row i ti co lo ur v sa po si jt ms ed ap ad cr)
  | SetText c_salary_range v => Ok (Row i ti co lo ur de v po si jt ms ed ap ad cr)
  | SetText c_posted_date v => Ok (Row i ti co lo ur de sa v si jt ms ed ap ad cr)
  | SetText c_site v => Ok (Row i ti co lo ur de sa po v jt ms ed ap ad cr)
  | SetText c_job_type v => Ok (Row i ti co lo ur de sa po si v ms ed ap ad cr)
  | SetText c_evaluation_date v => Ok (Row i ti co lo ur de sa po si jt ms v ap ad cr)
  | SetText c_application_date v => Ok (Row i ti co lo ur de sa po si jt ms ed ap v cr)
  | SetScore v => Ok (Row i ti co lo ur de sa po si jt v ed ap ad cr)
  | SetApplied b => Ok (Row i ti co lo ur de sa po si jt ms ed b ad cr)
  | NoSuchColumn _ => Raise OperationalError
  end.

(** The [SET] clauses in the order of the keys. *)
Fixpoint assign_all (updates : list assignment) (r : row) : result row :=
  match updates with
  | [] => Ok r
  | a :: updates' => r' ← assign a r; assign_all updates' r'
  end.

(** [UNIQUE] on [url]: the url of a row is held by none of the rows [l]. *)
Definition url_free (u : option text) (l : list row) : bool :=
  match u with
  | Some u' => bool_decide (u' ∉ omap r_url l)
  | None => true
  end.

(** [UPDATE job_opportunities SET ... WHERE id = ?]: the statement is
    compiled first (no clause or an unknown column is an error), then the
    row of that id, if there is one, is rewritten and checked. *)
Definition update_row (job_id : Z) (updates : list assignment) (t : table)
    : result table :=
  if bool_decide (updates = []) then Raise OperationalError
  else if negb (forallb is_column updates) then Raise OperationalError
  else
    match list_find (fun r => id r = job_id) (rows t) with
    | None => Ok t
    | Some (i, r) =>
        r' ← assign_all updates r;
        if url_free (r_url r') (delete i (rows t))
        then Ok (Table (<[i := r']> (rows t)) (seq t))
        else Raise IntegrityError
    end.

(** What the tool says on success. *)
Inductive answer : Type :=
  | Stored (stored_count : nat)        (* "Stored n job opportunities in database" *)
  | Retrieved (jobs : list row)        (* the rows as JSON *)
  | IdRequired                         (* "Job ID is required for updates" *)
  | Updated (job_id : Z)               (* "Updated job id successfully" *)
  | Deleted (job_id : option Z)        (* "Deleted job id successfully" *)
  | UnknownAction (name : text).       (* "Unknown action: name" *)

(** [_update_job]: an id that is missing, [null] or 0 is refused; the table
    is not created here; a failed statement changes nothing. *)
Definition _update_job (data : update_data) (d : db) : db * result answer :=
  match u_id data with
  | None | Some 0%Z => (d, Ok IdRequired)
  | Some job_id =>
      match d with
      | None => (None, (_ ← need AttributeError (get (u_updates data) []);
                        Raise OperationalError))
      | Some t =>
          let r := updates ← need AttributeError (get (u_updates data) []);
                   update_row job_id updates t in
          match r with
          | Ok t' => (Some t', Ok (Updated job_id))
          | Raise e => (Some t, Raise e)
          end
      end
  end.

(** ** The tool *)

(** The action and its decoded argument. *)
Inductive action : Type :=
  | Store (jobs : list job)
  | Retrieve (filters_json : option filters)
  | Update (data : update_data)
  | Delete (job_id : option Z)
  | Other (name : text).

(** [database_tool]: dispatch on the action; an exception becomes
    "Database error: ...". *)
Definition database_tool (now : text) (a : action) (d : db) : db * reply answer :=
  match a with
  | Store jobs =>
      let '(d', n) := _store_jobs now jobs d in (d', Reply (Stored n))
  | Retrieve f =>
      let '(d', r) := _retrieve_jobs f d in
      (d', guarded "Database error: " (Retrieved <$> r))
  | Update data =>
      let '(d', r) := _update_job data d in
      (d', guarded "Database error: " r)
  | Delete job_id =>
      let '(d', r) := _delete_job job_id d in
      (d', guarded "Database error: " ((fun _ => Deleted job_id) <$> r))
  | Other name => (d, Reply (UnknownAction name))
  end.

(** ** Well-formed tables *)

(** The constraints of the schema: ids grow along the rows, none is above
    the counter, and no url is held twice. *)
Record table_ok (t : table) : Prop := TableOk {
  ok_sorted : StronglySorted Z.lt (map id (rows t));
  ok_bound : Forall (fun r => (0 < id r ≤ seq t)%Z) (rows t);
  ok_seq : (0 ≤ seq t)%Z;
  ok_urls : NoDup (omap r_url (rows t));
}.

(** A job that the statement accepts: [title] and [company] are not
    [null]. *)
Definition storable (j : job) : bool :=
  negb (is_null (title j)) && negb (is_null (company j)).

(** The rows of a database, none before the table exists. *)
Definition rows_of (d : db) : list row :=
  match d with
  | Some t => rows t
  | None => []
  end.

Definition db_ok (d : db) : Prop :=
  match d with
  | Some t => table_ok t
  | None => True
  end.

(** The last id handed out; 0 before the table exists. *)
Definition seq_of (d : db) : Z := seq (_init_database d).

(** One call of the tool. *)
Definition step (d d' : db) : Prop :=
  ∃ now a, d' = (database_tool now a d).1.

(** The row of a stored job: the last row of the table. *)
Definition row_of_job (now : text) (new_id : Z) (title company : text) (j : job) : row :=
  let v := values_of_job j in
  Row new_id title company (v_location v) (v_url v) (v_description v)
    (v_salary_range v) (v_posted_date v) (v_site v) (v_job_type v)
    (v_match_score v) (v_evaluation_date v) false None now.

(** The rows that pass the condition of a query. *)
Definition matching (conditions : option Q) (t : table) : list row :=
  match conditions with
  | Some m => filter (fun r => score_at_least m r = true) (rows t)
  | None => rows t
  end.

(** [d'] holds no id at or below the counter of [d] that [d] did not hold,
    and its counter is not below. *)
Definition extends (d d' : db) : Prop :=
  (seq_of d ≤ seq_of d')%Z ∧
  ∀ r', r' ∈ rows_of d' → (id r' ≤ seq_of d)%Z → id r' ∈ map id (rows_of d).

Section TableFacts.
Implicit Types (t : table) (r : row) (l : list row) (v : insert_values).

Lemma init_ok d : db_ok d → table_ok (_init_database d).
Proof.
  destruct d as [t|]; [done|]. intros _. split; simpl; by try constructor.
Qed.

Lemma max_id_ge l : Forall (fun r => (id r ≤ max_id l)%Z) l.
Proof.
  induction l as [|r l IH]; simpl; constructor; [lia|].
  eapply Forall_impl; [done|]. simpl. lia.
Qed.

Lemma max_id_le l (b : Z) :
  (0 ≤ b)%Z → Forall (fun r => (id r ≤ b)%Z) l → (max_id l ≤ b)%Z.
Proof. intros Hb. induction 1; simpl; lia. Qed.

Lemma StronglySorted_filter_map {A B} (R : relation B) (f : A → B)
    (P : A → Prop) `{∀ x, Decision (P x)} (l : list A) :
  StronglySorted R (map f l) → StronglySorted R (map f (filter P l)).
Proof.
  induction l as [|x l IH]; simpl; [done|]. intros [Hl Hx]%StronglySorted_inv.
  rewrite filter_cons. destruct (decide (P x)); simpl; [|by apply IH].
  constructor; [by apply IH|]. rewrite Forall_forall in Hx |- *.
  intros y (z & -> & [_ Hz]%list_elem_of_filter)%list_elem_of_fmap.
  apply Hx. by apply list_elem_of_fmap_2.
Qed.

Lemma StronglySorted_snoc_lt (l : list Z) (x : Z) :
  StronglySorted Z.lt l → Forall (fun y => (y < x)%Z) l → StronglySorted Z.lt (l ++ [x]).
Proof.
  induction 1 as [|y l Hl IH Hy]; simpl; intros Hx; [repeat constructor|].
  apply Forall_cons in Hx as [Hyx Hx]. constructor; [by apply IH|].
  apply Forall_app; split; [done | by constructor].
Qed.

Lemma omap_filter_sublist {A B} (f : A → option B) (P : A → Prop)
    `{∀ x, Decision (P x)} (l : list A) :
  omap f (filter P l) `sublist_of` omap f l.
Proof.
  induction l as [|x l IH]; simpl; [done|]. rewrite filter_cons.
  destruct (decide (P x)); simpl; destruct (f x); try done;
    [by apply sublist_skip | by apply sublist_cons].
Qed.

(** The statement fails exactly on a [NULL] title or company. *)
Lemma insert_or_replace_Raise now v t e :
  insert_or_replace now v t = Raise e ↔
  e = IntegrityError ∧ (v_title v = None ∨ v_company v = None).
Proof.
  unfold insert_or_replace. destruct (v_title v), (v_company v); simpl;
    intuition congruence.
Qed.

(** In a well-formed table the fresh id is the counter plus one. *)
Lemma fresh_id t (P : row → Prop) `{∀ r, Decision (P r)} :
  table_ok t → Z.max (seq t) (max_id (filter P (rows t))) = seq t.
Proof.
  intros [_ Hb Hs _]. apply Z.max_l, max_id_le; [done|].
  apply Forall_forall. intros r [_ Hr]%list_elem_of_filter.
    eapply Forall_forall in Hb; [|done]. lia.
Qed.
End TableFacts.

(** ** Storing keeps the table well-formed *)

Section StoreFacts.
Implicit Types (t : table) (r : row) (l : list row) (v : insert_values) (j : job).

Lemma insert_or_replace_Ok now v t t' :
  insert_or_replace now v t = Ok t' →
  ∃ title company,
    v_title v = Some title ∧ v_company v = Some company ∧
    let kept := filter (fun r => ¬ url_conflict (v_url v) r) (rows t) in
    let new_id := (Z.max (seq t) (max_id kept) + 1)%Z in
    seq t' = new_id ∧
    rows t' = kept ++ [Row new_id title company (v_location v) (v_url v)
                         (v_description v) (v_salary_range v) (v_posted_date v)
                         (v_site v) (v_job_type v) (v_match_score v)
                         (v_evaluation_date v) false None now].
Proof.
  unfold insert_or_replace. destruct (v_title v) as [ti|], (v_company v) as [co|];
    simpl; try done. intros [= <-]. by exists ti, co.
Qed.

Lemma kept_no_url l (u : text) :
  u ∉ omap r_url (filter (fun r => ¬ url_conflict (Some u) r) l).
Proof.
  intros (r & [Hr _]%list_elem_of_filter & Hru)%list_elem_of_omap.
  apply Hr. by split.
Qed.

Lemma insert_or_replace_ok now v t t' :
  table_ok t → insert_or_replace now v t = Ok t' → table_ok t'.
Proof.
  intros Ht (ti & co & _ & _ & Hseq & Hrows)%insert_or_replace_Ok.
  cbv zeta in *. rewrite (fresh_id t _ Ht) in Hseq, Hrows.
  destruct Ht as [Hs Hb Hq Hu]. split; rewrite ?Hrows, ?Hseq.
  - rewrite map_app. apply StronglySorted_snoc_lt; [by apply StronglySorted_filter_map|].
    apply Forall_forall. intros y (r & -> & [_ Hr]%list_elem_of_filter)%list_elem_of_fmap.
    eapply Forall_forall in Hb; [|done]. simpl in *. lia.
  - apply Forall_app; split.
    + apply Forall_forall. intros r [_ Hr]%list_elem_of_filter.
      eapply Forall_forall in Hb; [|done]. simpl in *. lia.
    + constructor; [simpl; lia | done].
  - lia.
  - rewrite omap_app. apply NoDup_app. split_and!.
    + eapply sublist_NoDup; [exact Hu | apply omap_filter_sublist].
    + simpl. destruct (v_url v) as [u|] eqn:Hv; [|by intros ? ? ?%not_elem_of_nil].
      intros x Hx ->%list_elem_of_singleton. by apply kept_no_url in Hx.
    + simpl. destruct (v_url v); [apply NoDup_singleton | apply NoDup_nil_2].
Qed.

Lemma store_loop_ok now jobs t n :
  table_ok t → table_ok (store_loop now jobs t n).1.
Proof.
  revert t n; induction jobs as [|j jobs IH]; intros t n Ht; simpl; [done|].
  destruct (insert_or_replace now (values_of_job j) t) as [t'|] eqn:E;
    apply IH; [by eapply insert_or_replace_ok | done].
Qed.

(** The counter of the message: the jobs whose title and company are not
    [null], duplicates included. *)
Lemma store_loop_count now jobs t n :
  (store_loop now jobs t n).2 = (n + length (filter (fun j => storable j = true) jobs))%nat.
Proof.
  revert t n; induction jobs as [|j jobs IH]; intros t n; simpl; [lia|].
  rewrite filter_cons. unfold insert_or_replace, values_of_job. simpl.
  destruct (decide (storable j = true)) as [Hs|Hs]; unfold storable in Hs;
    destruct (title j), (company j); simpl in *; try done; rewrite IH; simpl; lia.
Qed.

Lemma store_loop_seq now jobs t n :
  table_ok t → (seq t ≤ seq (store_loop now jobs t n).1)%Z.
Proof.
  revert t n; induction jobs as [|j jobs IH]; intros t n Ht; simpl; [done|].
  destruct (insert_or_replace now (values_of_job j) t) as [t'|] eqn:E; [|by apply IH].
  etrans; [|apply IH; by eapply insert_or_replace_ok].
  apply insert_or_replace_Ok in E as (? & ? & _ & _ & Hseq & _).
  cbv zeta in Hseq. rewrite (fresh_id t _ Ht) in Hseq. lia.
Qed.
End StoreFacts.

(** ** Retrieval *)

#[export] Instance by_match_score_desc_preorder : TotalPreorder by_match_score_desc.
Proof.
  split; unfold by_match_score_desc.
  - intros x y. destruct (r_match_score x) as [a|], (r_match_score y) as [b|]; auto.
    rewrite !Qle_bool_iff. destruct (Qlt_le_dec a b); [right; lra | by left].
  - intros x y z.
    destruct (r_match_score x), (r_match_score y), (r_match_score z); try done.
    rewrite !Qle_bool_iff. lra.
Qed.

Section SelectFacts.
Implicit Types (t : table) (r : row) (l : list row) (c : option Q) (lim : option Z).

Lemma sql_limit_prefix n l : sql_limit n l `prefix_of` l.
Proof. unfold sql_limit. destruct (n <? 0)%Z; [done | apply prefix_take]. Qed.

Lemma sql_limit_length n l : (0 ≤ n)%Z → length (sql_limit n l) ≤ Z.to_nat n.
Proof.
  intros Hn. unfold sql_limit. destruct (Z.ltb_spec n 0); [lia|].
  rewrite length_take. lia.
Qed.

Lemma select_unlimited c t : select c None t = stable_sort by_match_score_desc (matching c t).
Proof. done. Qed.

Lemma select_prefix c lim t : select c lim t `prefix_of` select c None t.
Proof. unfold select. destruct lim; [apply sql_limit_prefix | done]. Qed.

Lemma select_unlimited_perm c t : select c None t ≡ₚ matching c t.
Proof. apply (sorts_perm _ _ (stable_sort_sorts by_match_score_desc)). Qed.

Lemma select_ordered c lim t : ordered by_match_score_desc (select c lim t).
Proof.
  eapply ordered_prefix; [apply select_prefix|].
  apply (sorts_ordered _ _ (stable_sort_sorts by_match_score_desc)).
Qed.

Lemma select_elem_of c lim t r :
  r ∈ select c lim t → r ∈ rows t ∧ ∀ m, c = Some m → score_at_least m r = true.
Proof.
  intros Hr. eapply elem_of_prefix in Hr; [|apply select_prefix].
  rewrite select_unlimited_perm in Hr. destruct c as [m|]; simpl in Hr.
  - apply list_elem_of_filter in Hr as [? ?]. split; [done|]. by intros ? [= <-].
  - split; [done|]. by intros ? [=].
Qed.
End SelectFacts.

(** ** What the operations promise *)

Section StoreClaims.
Implicit Types (t : table) (r : row) (l : list row) (d : db) (j : job).

(** [_store_jobs] leaves a well-formed table. *)
Lemma _store_jobs_ok now jobs d : db_ok d → db_ok (_store_jobs now jobs d).1.
Proof.
  intros Hd%init_ok. unfold _store_jobs.
  pose proof (store_loop_ok now jobs _ 0 Hd) as Ht.
  by destruct (store_loop now jobs (_init_database d) 0).
Qed.

(** Property C30: the count that [_store_jobs] reports is the number of jobs
    whose title and company are not [null]: the statement raises exactly
    on those, with an [IntegrityError], and a job whose url is already in
    the table is counted like any other. *)
Theorem _store_jobs_count now jobs d :
  (_store_jobs now jobs d).2 = length (filter (fun j => storable j = true) jobs) ∧
  ∀ j t, match insert_or_replace now (values_of_job j) t with
         | Ok _ => storable j = true
         | Raise e => storable j = false ∧ e = IntegrityError
         end.
Proof.
  split.
  - unfold _store_jobs. pose proof (store_loop_count now jobs (_init_database d) 0) as Hn.
    by destruct (store_loop now jobs (_init_database d) 0).
  - intros j t. unfold insert_or_replace, values_of_job, storable. simpl.
    by destruct (title j), (company j).
Qed.

(** Property C4: storing a posting whose url the table already holds removes
    the row that held it and appends the posting under an id above every id
    handed out before: the existing row is replaced, not preserved. *)
Theorem insert_or_replace_replaces now v t t' r u :
  table_ok t → r ∈ rows t → r_url r = Some u → v_url v = Some u →
  insert_or_replace now v t = Ok t' →
  (r ∉ rows t') ∧
  ∃ r', last (rows t') = Some r' ∧ r_url r' = Some u ∧ id r' = (seq t + 1)%Z ∧
        (id r < id r')%Z.
Proof.
  intros Ht Hr Hru Hv (ti & co & _ & _ & Hseq & Hrows)%insert_or_replace_Ok.
  cbv zeta in *. rewrite (fresh_id t _ Ht) in Hrows. destruct Ht as [_ Hb _ _].
  eapply Forall_forall in Hb; [|done]. rewrite Hrows. split.
  - rewrite elem_of_app, list_elem_of_filter, list_elem_of_singleton.
    intros [[Hn _] | ->]; [apply Hn; split; [by rewrite Hv | congruence] | simpl in Hb; lia].
  - eexists. rewrite last_snoc. split; [done|]. simpl. split_and!; [done..|lia].
Qed.

End StoreClaims.

Section RetrieveClaims.
Implicit Types (t : table) (r : row) (l : list row) (d : db) (f : filters).

Lemma retrieve_jobs_Ok o d d' l :
  _retrieve_jobs o d = (d', Ok l) →
  ∃ f, o = Some f ∧ d' = Some (_init_database d) ∧
       l = select (min_score f) (limit f) (_init_database d).
Proof. unfold _retrieve_jobs. destruct o as [f|]; simpl; [|done]. intros [= <- <-]. eauto. Qed.

Lemma rows_init d : rows (_init_database d) = rows_of d.
Proof. by destruct d. Qed.

(** Property C7: every row that [_retrieve_jobs] returns is a row of the
    table whose score is at least [min_score], when that filter is given;
    a row without score never passes it. *)
Theorem _retrieve_jobs_sound f d d' l r :
  _retrieve_jobs (Some f) d = (d', Ok l) → r ∈ l →
  r ∈ rows_of d ∧
  ∀ m, min_score f = Some m → ∃ s, r_match_score r = Some s ∧ (m <= s)%Q.
Proof.
  intros (? & [= <-] & _ & ->)%retrieve_jobs_Ok [Hr Hm]%select_elem_of.
  rewrite rows_init in Hr. split; [done|]. intros m Hf. specialize (Hm m Hf).
  unfold score_at_least in Hm. destruct (r_match_score r) as [s|]; [|done].
  exists s. by rewrite <-Qle_bool_iff.
Qed.

(** Property C29: what [_retrieve_jobs] returns is cut from one list, which
    holds every row of the table that passes the [min_score] filter, each
    once, by falling score with the rows without score last: a row never
    stands before a row of higher score.  Without a limit, or with a
    negative one, it is the whole list; with a limit [n ≥ 0], its first
    [n] rows. *)
Theorem _retrieve_jobs_spec f d d' l :
  _retrieve_jobs (Some f) d = (d', Ok l) →
  ∃ all,
    all ≡ₚ matching (min_score f) (_init_database d) ∧
    (∀ (i k : nat) x y, (i < k)%nat → all !! i = Some x → all !! k = Some y →
       by_match_score_desc x y = true) ∧
    match limit f with
    | None => l = all
    | Some n => if (n <? 0)%Z then l = all else l = take (Z.to_nat n) all
    end.
Proof.
  intros (? & [= <-] & _ & ->)%retrieve_jobs_Ok.
  exists (select (min_score f) None (_init_database d)). split_and!.
  - apply select_unlimited_perm.
  - intros i k x y ? ? ?. eapply (ordered_lookup by_match_score_desc _ i k); [|done..].
    apply select_ordered.
  - unfold select, sql_limit. destruct (limit f) as [n|]; [|done]. by destruct (n <? 0)%Z.
Qed.
End RetrieveClaims.

Section DeleteClaims.
Implicit Types (t : table) (r : row) (l : list row) (d : db) (k : Z).

Lemma delete_row_ok o t : table_ok t → table_ok (delete_row o t).
Proof.
  intros [Hs Hb Hq Hu]. split; simpl; [by apply StronglySorted_filter_map | | done |].
  - apply Forall_forall. intros r [_ Hr]%list_elem_of_filter. by eapply Forall_forall in Hb.
  - eapply sublist_NoDup; [exact Hu | apply omap_filter_sublist].
Qed.

(** Ids are unique, so an id selects at most one row. *)
Lemma delete_at_most_one o l :
  StronglySorted Z.lt (map id l) →
  length l ≤ S (length (filter (fun r => Some (id r) ≠ o) l)).
Proof.
  induction l as [|x l IH]; simpl; [lia|]. intros [Hl Hx]%StronglySorted_inv.
  rewrite filter_cons. destruct (decide (Some (id x) ≠ o)) as [|Ho%dec_stable]; simpl.
  - specialize (IH Hl). lia.
  - rewrite filter_all; [lia|]. rewrite Forall_fmap in Hx.
    eapply Forall_impl; [done|]. simpl. intros r Hr [= Hk]. subst o. injection Hk. lia.
Qed.

(** [_delete_job] on an existing table removes the row of that
    id and no other: the rows left are those of another id, in their
    order, and at most one row is gone. *)
Lemma _delete_job_removes k d d' :
  db_ok d → _delete_job (Some k) d = (d', Ok ()) →
  rows_of d' = filter (fun r => id r ≠ k) (rows_of d) ∧
  length (rows_of d) ≤ S (length (rows_of d')).
Proof.
  destruct d as [t|]; simpl; [|done]. intros [Hs _ _ _] [= <-]. simpl. split.
  - apply list_filter_iff. intros r. split; [intros Hr E; apply Hr; by rewrite E | congruence].
  - by apply delete_at_most_one.
Qed.

End DeleteClaims.

Section UpdateFacts.
Implicit Types (t : table) (r : row) (l : list row) (d : db) (a : assignment).

Lemma assign_id a r r' : assign a r = Ok r' → id r' = id r.
Proof.
  destruct r, a as [[] [v|] | | |]; simpl; intros [= <-]; done.
Qed.

Lemma assign_all_id updates r r' : assign_all updates r = Ok r' → id r' = id r.
Proof.
  revert r; induction updates as [|a updates IH]; simpl; intros r H; [by inv H|].
  bind_inv H. apply IH in H. apply assign_id in E. congruence.
Qed.

Lemma update_row_Ok job_id updates t t' :
  update_row job_id updates t = Ok t' →
  (Forall (fun r => id r ≠ job_id) (rows t) ∧ t' = t) ∨
  ∃ i r r', rows t !! i = Some r ∧ id r = job_id ∧ assign_all updates r = Ok r' ∧
            url_free (r_url r') (delete i (rows t)) = true ∧
            t' = Table (<[i := r']> (rows t)) (seq t).
Proof.
  unfold update_row. case_bool_decide; [done|].
  destruct (forallb is_column updates); simpl; [|done].
  destruct (list_find _ _) as [[i r]|] eqn:Hf;
    [|intros [= <-]; left; by apply list_find_None in Hf].
  apply list_find_Some in Hf as (Hi & Hr & _). intros Hx. bind_inv Hx.
  destruct (url_free _ _) eqn:Hu; [|done]. injection Hx as <-. right. by exists i, r, a.
Qed.

Lemma omap_insert_NoDup l i r r' :
  l !! i = Some r → NoDup (omap r_url l) →
  url_free (r_url r') (delete i l) = true →
  NoDup (omap r_url (<[i := r']> l)).
Proof.
  intros Hi Hl Hu. rewrite insert_take_drop by (by eapply lookup_lt_Some).
  rewrite <-(take_drop_middle l i r), omap_app, omap_cons_app in Hl by done.
  rewrite omap_app, omap_cons_app. eapply NoDup_replace_middle; [done | |].
  - destruct (r_url r'); simpl; [apply NoDup_singleton | apply NoDup_nil_2].
  - intros x Hx. unfold url_free in Hu.
    destruct (r_url r') as [u'|]; simpl in Hx; [|by apply elem_of_nil in Hx].
    apply list_elem_of_singleton in Hx as ->.
    by rewrite bool_decide_eq_true, delete_take_drop, omap_app, not_elem_of_app in Hu.
Qed.

Lemma update_row_ok job_id updates t t' :
  table_ok t → update_row job_id updates t = Ok t' → table_ok t'.
Proof.
  intros Ht [[_ ->]|(i & r & r' & Hi & _ & Hr' & Hu & ->)]%update_row_Ok; [done|].
  apply assign_all_id in Hr'. destruct Ht as [Hs Hb Hq Hn]. split; simpl; [| |done|].
  - by rewrite list_fmap_insert, Hr', list_insert_id by (by rewrite list_lookup_fmap, Hi).
  - apply Forall_insert; [done|]. rewrite Hr'. by eapply Forall_lookup_1 in Hb.
  - by eapply omap_insert_NoDup.
Qed.

Lemma _update_job_ok data d : db_ok d → db_ok (_update_job data d).1.
Proof.
  unfold _update_job. destruct (u_id data) as [[| |]|], d as [t|]; simpl; try done;
    intros Ht; destruct (get (u_updates data) []) as [updates|]; simpl; try done;
    destruct (update_row _ updates t) eqn:E; simpl; try done; by eapply update_row_ok.
Qed.

Lemma update_row_ids job_id updates t t' :
  update_row job_id updates t = Ok t' → map id (rows t') = map id (rows t) ∧ seq t' = seq t.
Proof.
  intros [[_ ->]|(i & r & r' & Hi & _ & Hr'%assign_all_id & _ & ->)]%update_row_Ok; [done|].
  simpl. by rewrite list_fmap_insert, Hr', list_insert_id by (by rewrite list_lookup_fmap, Hi).
Qed.

Lemma _update_job_ids data d :
  map id (rows_of (_update_job data d).1) = map id (rows_of d) ∧
  seq_of (_update_job data d).1 = seq_of d.
Proof.
  unfold _update_job. destruct (u_id data) as [[| |]|], d as [t|]; simpl; try done;
    destruct (get (u_updates data) []) as [updates|]; simpl; try done;
    destruct (update_row _ updates t) eqn:E; simpl; try done; by eapply update_row_ids.
Qed.
End UpdateFacts.

Section UpdateClaims.
Implicit Types (t : table) (r : row) (l : list row) (d : db) (a : assignment).

(** A call of [_update_job] that raises leaves the database as it was. *)
Lemma _update_job_atomic data d d' e :
  _update_job data d = (d', Raise e) → d' = d.
Proof.
  unfold _update_job. destruct (u_id data) as [[| |]|], d as [t|]; simpl; try done;
    destruct (need _ _ ≫= _); by intros [= <-].
Qed.

(** A successful [_update_job] rewrites the row of the given id, in place. *)
Lemma _update_job_applies data t d' k :
  _update_job data (Some t) = (d', Ok (Updated k)) →
  u_id data = Some k ∧
  ((Forall (fun r => id r ≠ k) (rows t) ∧ d' = Some t) ∨
   ∃ i r r' updates,
     get (u_updates data) [] = Some updates ∧
     rows t !! i = Some r ∧ id r = k ∧ assign_all updates r = Ok r' ∧
     d' = Some (Table (<[i := r']> (rows t)) (seq t))).
Proof.
  unfold _update_job. destruct (u_id data) as [[| |]|]; simpl; try done;
    destruct (get (u_updates data) []) as [updates|]; simpl; try done;
    destruct (update_row _ updates t) as [t'|] eqn:E; try done; intros [= <- <-];
    (split; [done|]);
    apply update_row_Ok in E as [[? ->]|(i & r & r' & ? & ? & ? & _ & ->)]; eauto 10.
Qed.

(** [_update_job] refuses an id that is missing, [null] or 0 before it
    looks at the database; otherwise, on a database without table, it
    raises. *)
Lemma _update_job_guards data d :
  match u_id data with
  | None | Some 0%Z => _update_job data d = (d, Ok IdRequired)
  | Some _ => d = None → ∃ e, _update_job data d = (None, Raise e)
  end.
Proof.
  unfold _update_job. destruct (u_id data) as [[| |]|]; try done; intros ->;
    destruct (get (u_updates data) []); simpl; eauto.
Qed.

(** Property C39: the calls that fail where the contract promises an answer.
    [_retrieve_jobs] without filters raises [UnboundLocalError], the local
    [conditions] being read though no branch bound it, after the table was
    created; [_delete_job] and [_update_job] do not create the table and
    raise [OperationalError] on a fresh database; [database_tool] turns
    each into "Database error: ...". *)
Theorem database_tool_error_replies now job_id data k updates :
  _retrieve_jobs None None = (Some (Table [] 0), Raise UnboundLocalError) ∧
  (∀ d, database_tool now (Retrieve None) d =
        (Some (_init_database d), Failed (txt "Database error: ") UnboundLocalError)) ∧
  database_tool now (Delete job_id) None =
    (None, Failed (txt "Database error: ") OperationalError) ∧
  (u_id data = Some k → k ≠ 0%Z → u_updates data = Val updates →
   database_tool now (Update data) None =
     (None, Failed (txt "Database error: ") OperationalError)).
Proof.
  split_and!; [done..|]. intros Hk Hne Hu. simpl. unfold _update_job.
  rewrite Hk, Hu. by destruct k.
Qed.
End UpdateClaims.

(** ** Every call keeps the table well-formed *)

Section StepClaims.
Implicit Types (t : table) (r : row) (l : list row) (d : db).

(** What [_update_job] says: that it needs an id, or that it updated. *)
Lemma _update_job_answer data d d' a :
  _update_job data d = (d', Ok a) → a = IdRequired ∨ ∃ k, a = Updated k.
Proof.
  unfold _update_job. destruct (u_id data) as [[| |]|], d as [t|]; simpl;
    try (intros [= <- <-]; by left);
    try (by destruct (get (u_updates data) []));
    destruct (need _ _ ≫= _); intros [=]; simplify_eq; eauto.
Qed.

(** Property C27: [_update_job], case by case.  A call that raises (no
    clause, an unknown column, a [null] title or company, a url that
    another row holds, no table) leaves the database exactly as it was.
    A call without id, or with the id [null] or 0, is refused before the
    database is looked at.  Any other call that returns answers
    "Updated job ... successfully": it has rewritten the row of that id by
    the assignments, in place, and touched no other row, or, when no row
    has the id, it has changed nothing and reports success all the
    same. *)
Theorem _update_job_spec data d d' answer :
  _update_job data d = (d', answer) →
  match answer with
  | Raise e => d' = d
  | Ok a =>
      (a = IdRequired ∧ d' = d ∧ (u_id data = None ∨ u_id data = Some 0%Z)) ∨
      ∃ k t, a = Updated k ∧ u_id data = Some k ∧ k ≠ 0%Z ∧ d = Some t ∧
        ((Forall (fun r => id r ≠ k) (rows t) ∧ d' = Some t) ∨
         ∃ i r r' updates,
           get (u_updates data) [] = Some updates ∧
           rows t !! i = Some r ∧ id r = k ∧ assign_all updates r = Ok r' ∧
           d' = Some (Table (<[i := r']> (rows t)) (seq t)))
  end.
Proof.
  intros H. destruct answer as [a|e]; [|by eapply _update_job_atomic].
  pose proof (_update_job_guards data d) as Hg.
  destruct (u_id data) as [k|] eqn:Ek; [destruct (decide (k = 0%Z)) as [->|Hk]|].
  - rewrite Hg in H. injection H as <- <-. left. eauto.
  - right. destruct d as [t|].
    + assert (a = Updated k) as ->.
      { revert H. unfold _update_job. rewrite Ek. destruct k; [done|..];
          destruct (need _ _ ≫= _); congruence. }
      exists k, t. split_and!; [done..|].
      apply _update_job_applies in H as [_ H]. done.
    + assert (∃ e, _update_job data None = (None, Raise e)) as [e He]
        by (destruct k; [done|..]; by apply Hg).
      by rewrite He in H.
  - rewrite Hg in H. injection H as <- <-. left. eauto.
Qed.

(** A call that fails changes no row: at most it creates the table. *)
Lemma database_tool_Failed_rows now a d d' prefix e :
  database_tool now a d = (d', Failed prefix e) → rows_of d' = rows_of d.
Proof.
  destruct a as [jobs|f|data|o|name]; simpl; [| | | |done].
  - by destruct (_store_jobs now jobs d).
  - intros [= <- _]. apply rows_init.
  - unfold _update_job. destruct (u_id data) as [[| |]|], d as [t|]; simpl; try done;
      destruct (need _ _ ≫= _); simpl; by intros [= <-].
  - destruct d as [t|]; simpl; [done | by intros [= <-]].
Qed.

Lemma database_tool_ok now a d : db_ok d → db_ok (database_tool now a d).1.
Proof.
  intros Hd. destruct a as [jobs|f|data|o|name]; simpl; [| | | |done].
  - pose proof (_store_jobs_ok now jobs d Hd). by destruct (_store_jobs now jobs d).
  - by apply init_ok.
  - pose proof (_update_job_ok data d Hd). by destruct (_update_job data d).
  - destruct d as [t|]; simpl; [by apply delete_row_ok | done].
Qed.

Lemma steps_ok d d' : rtc step d d' → db_ok d → db_ok d'.
Proof.
  induction 1 as [|d1 d2 d3 (now & a & ->) _ IH]; [done|].
  intros. by apply IH, database_tool_ok.
Qed.

(** Property C2: whatever sequence of calls of [database_tool] is made on a
    fresh database, the table stays well-formed: ids strictly grow along
    the rows and are positive and at most the counter, and no two rows hold
    the same url. *)
Theorem reachable_ok d : rtc step None d → db_ok d.
Proof.
  intros H. by eapply steps_ok.
Qed.
End StepClaims.

(** ** Ids are never handed out twice *)

Section IdClaims.
Implicit Types (t : table) (r : row) (l : list row) (d : db).

Lemma extends_refl d : extends d d.
Proof. split; [done|]. intros r' Hr' _. by apply list_elem_of_fmap_2. Qed.

Lemma extends_trans d1 d2 d3 : extends d1 d2 → extends d2 d3 → extends d1 d3.
Proof.
  intros [Hs1 H1] [Hs2 H2]. split; [lia|]. intros r Hr Hid.
  apply H2 in Hr as (r2 & Hid2 & Hr2)%list_elem_of_fmap; [|lia].
  rewrite Hid2 in *. by apply H1.
Qed.

Lemma insert_or_replace_extends now v t t' :
  table_ok t → insert_or_replace now v t = Ok t' → extends (Some t) (Some t').
Proof.
  intros Ht (ti & co & _ & _ & Hseq & Hrows)%insert_or_replace_Ok.
  cbv zeta in *. rewrite (fresh_id t _ Ht) in Hseq, Hrows.
  unfold extends, seq_of. split; simpl; [lia|].
  rewrite Hrows. intros r' [[_ Hr]%list_elem_of_filter | ->%list_elem_of_singleton]%elem_of_app Hid;
    [by apply list_elem_of_fmap_2 | simpl in Hid; lia].
Qed.

Lemma store_loop_extends now jobs t n :
  table_ok t → extends (Some t) (Some (store_loop now jobs t n).1).
Proof.
  revert t n; induction jobs as [|j jobs IH]; intros t n Ht; simpl; [apply extends_refl|].
  destruct (insert_or_replace now (values_of_job j) t) as [t'|] eqn:E; [|by apply IH].
  eapply extends_trans; [by eapply insert_or_replace_extends|].
  apply IH. by eapply insert_or_replace_ok.
Qed.

Lemma init_extends d : extends d (Some (_init_database d)).
Proof.
  destruct d; [apply extends_refl|]. split; [done|]. by intros r' ?%elem_of_nil.
Qed.

Lemma database_tool_extends now a d : db_ok d → extends d (database_tool now a d).1.
Proof.
  intros Hd. destruct a as [jobs|f|data|o|name]; simpl; [| | | |apply extends_refl].
  - unfold _store_jobs.
    pose proof (store_loop_extends now jobs _ 0 (init_ok d Hd)) as He.
    destruct (store_loop now jobs (_init_database d) 0). simpl in *.
    eapply extends_trans; [apply init_extends | done].
  - apply init_extends.
  - destruct (_update_job_ids data d) as [Hi Hs].
    destruct (_update_job data d) as [d' r]. simpl in *. split; [lia|].
    intros r' Hr' _. rewrite <-Hi. by apply list_elem_of_fmap_2.
  - destruct d as [t|]; simpl; [|apply extends_refl]. split; [done|]. simpl.
    intros r' [_ Hr']%list_elem_of_filter _. by apply list_elem_of_fmap_2.
Qed.

Lemma steps_extends d d' : rtc step d d' → db_ok d → extends d d'.
Proof.
  induction 1 as [|d1 d2 d3 (now & a & ->) _ IH]; [intros; apply extends_refl|].
  intros Hd. eapply extends_trans; [by apply database_tool_extends|].
  by apply IH, database_tool_ok.
Qed.

(** Property C8: an id is never handed out twice.  Once the row of id [k] is
    deleted, no sequence of later calls of [database_tool] brings a row of
    id [k] back: a stored posting always gets an id above the counter. *)
Theorem deleted_id_never_returns now k d d' r' :
  db_ok d → (k ≤ seq_of d)%Z →
  rtc step (database_tool now (Delete (Some k)) d).1 d' →
  r' ∈ rows_of d' → id r' ≠ k.
Proof.
  intros Hd Hk Hsteps Hr' Hid.
  eapply steps_extends in Hsteps as [_ He]; [|by apply database_tool_ok].
  destruct d as [t|]; unfold seq_of in *; simpl in *.
  - apply He in Hr' as (r & Hr & [Hn _]%list_elem_of_filter)%list_elem_of_fmap; [|lia].
    apply Hn. congruence.
  - apply He in Hr' as []%elem_of_nil. lia.
Qed.
End IdClaims.

(** ** Reading back what was stored *)

Section RoundTrip.
Implicit Types (t : table) (r : row) (l : list row) (d : db) (j : job).

Lemma store_loop_app now jobs1 jobs2 t n :
  store_loop now (jobs1 ++ jobs2) t n =
  store_loop now jobs2 (store_loop now jobs1 t n).1 (store_loop now jobs1 t n).2.
Proof.
  revert t n; induction jobs1 as [|j jobs1 IH]; intros t n; simpl; [done|].
  destruct (insert_or_replace now (values_of_job j) t); apply IH.
Qed.

Lemma insert_job_last now j t ti co :
  table_ok t → get (title j) [] = Some ti → get (company j) [] = Some co →
  ∃ t', insert_or_replace now (values_of_job j) t = Ok t' ∧
        last (rows t') = Some (row_of_job now (seq t') ti co j).
Proof.
  intros Ht Hti Hco. unfold insert_or_replace. cbn [values_of_job v_title v_company].
  rewrite Hti, Hco. simpl. eexists. split; [done|]. simpl. by rewrite last_snoc.
Qed.

(** Property C6: a posting with title and company that is stored last is
    read back: [_retrieve_jobs] with an empty filter object returns the row
    that holds its fields under the newest id. *)
Theorem store_retrieve_roundtrip now jobs j d ti co :
  db_ok d → get (title j) [] = Some ti → get (company j) [] = Some co →
  let d' := (_store_jobs now (jobs ++ [j]) d).1 in
  ∃ l, (_retrieve_jobs (Some (Filters None None)) d').2 = Ok l ∧
       row_of_job now (seq_of d') ti co j ∈ l.
Proof.
  intros Hd Hti Hco. unfold _store_jobs. rewrite store_loop_app.
  pose proof (store_loop_ok now jobs _ 0 (init_ok d Hd)) as Ht.
  destruct (store_loop now jobs (_init_database d) 0) as [t1 n1]. simpl in *.
  destruct (insert_job_last now j t1 ti co Ht Hti Hco) as (t' & -> & Hlast).
  exists (select None None t'). split; [done|].
  rewrite select_unlimited_perm. unfold matching, seq_of. cbn [fst _init_database].
  apply last_Some in Hlast as [l' ->]. apply elem_of_app. right. by left.
Qed.
End RoundTrip.

(** ** The theorems at work on a small database *)

(** A posting with a title, a url and a score. *)
Definition posting (ti u : string) (score : Q) : job :=
  Job (Val (txt ti)) (Val (txt "Acme")) Absent (Val (txt u)) Absent Absent
      Absent Absent Absent (Val score) Absent.

Definition ex_now : text := txt "2025-01-01 00:00:00".

Definition ex_jobs : list job :=
  [posting "A" "u1" 50; posting "B" "u2" 70; posting "C" "u3" 60].

(** Three postings stored into a fresh database: ids 1, 2 and 3. *)
Definition ex_db : db := (_store_jobs ex_now ex_jobs None).1.

Definition ex_table : table := _init_database ex_db.

Definition ex_row (i : Z) (ti u : string) (score : Q) : row :=
  Row i (txt ti) (txt "Acme") (Some []) (Some (txt u)) (Some []) (Some [])
      (Some []) (Some []) (Some []) (Some score) (Some []) false None ex_now.

(** The table after a fourth posting took the url of the first. *)
Definition ex_table' : table :=
  Table [ex_row 2 "B" "u2" 70; ex_row 3 "C" "u3" 60; ex_row 4 "D" "u1" 80] 4.

Definition ex_filters : filters := Filters (Some 60%Q) (Some 1%Z).

(** An update that gives row 2 the url of row 1, and one that marks it. *)
Definition ex_bad_update : update_data :=
  UpdateData (Some 2%Z) (Val [SetText c_url (Some (txt "u1"))]).

Definition ex_update : update_data :=
  UpdateData (Some 2%Z) (Val [SetApplied true]).

Lemma ex_db_reachable : rtc step None ex_db.
Proof. apply rtc_once. by exists ex_now, (Store ex_jobs). Qed.

Lemma ex_db_ok : db_ok ex_db.
Proof. by apply (steps_ok None ex_db ex_db_reachable). Qed.

Lemma insert_or_replace_replaces_witness :
  (ex_row 1 "A" "u1" 50 ∉ rows ex_table') ∧
  ∃ r', last (rows ex_table') = Some r' ∧ r_url r' = Some (txt "u1") ∧
        id r' = (seq ex_table + 1)%Z ∧ (id (ex_row 1 "A" "u1" 50) < id r')%Z.
Proof.
  apply (insert_or_replace_replaces ex_now (values_of_job (posting "D" "u1" 80))
           ex_table ex_table' _ (txt "u1"));
    [apply ex_db_ok | vm_compute; by left | reflexivity..].
Defined.

Lemma _retrieve_jobs_sound_witness :
  ex_row 2 "B" "u2" 70 ∈ rows_of ex_db ∧
  ∀ m, min_score ex_filters = Some m →
       ∃ s, r_match_score (ex_row 2 "B" "u2" 70) = Some s ∧ (m <= s)%Q.
Proof.
  apply (_retrieve_jobs_sound ex_filters ex_db (Some ex_table) [ex_row 2 "B" "u2" 70]);
    [reflexivity | by left].
Defined.

Lemma _retrieve_jobs_spec_witness :
  ∃ all,
    all ≡ₚ matching (min_score ex_filters) (_init_database ex_db) ∧
    (∀ (i k : nat) x y, (i < k)%nat → all !! i = Some x → all !! k = Some y →
       by_match_score_desc x y = true) ∧
    match limit ex_filters with
    | None => [ex_row 2 "B" "u2" 70] = all
    | Some n => if (n <? 0)%Z then [ex_row 2 "B" "u2" 70] = all
                else [ex_row 2 "B" "u2" 70] = take (Z.to_nat n) all
    end.
Proof. apply (_retrieve_jobs_spec ex_filters ex_db (Some ex_table)). reflexivity. Defined.

Lemma _update_job_spec_witness : (_update_job ex_bad_update ex_db).1 = ex_db.
Proof.
  apply (_update_job_spec ex_bad_update ex_db _ (Raise IntegrityError)). reflexivity.
Defined.

(** An update that goes through: the row of id 2 is rewritten in place. *)
Example _update_job_applies_example :
  u_id ex_update = Some 2%Z ∧
  ((Forall (fun r => id r ≠ 2%Z) (rows ex_table) ∧
    (_update_job ex_update ex_db).1 = Some ex_table) ∨
   ∃ i r r' updates,
     get (u_updates ex_update) [] = Some updates ∧
     rows ex_table !! i = Some r ∧ id r = 2%Z ∧ assign_all updates r = Ok r' ∧
     (_update_job ex_update ex_db).1 = Some (Table (<[i := r']> (rows ex_table)) (seq ex_table))).
Proof. by apply (_update_job_applies ex_update ex_table). Qed.

Lemma reachable_ok_witness : db_ok ex_db.
Proof. apply reachable_ok, ex_db_reachable. Defined.

Lemma deleted_id_never_returns_witness : id (ex_row 4 "D" "u4" 80) ≠ 3%Z.
Proof.
  apply (deleted_id_never_returns ex_now 3 ex_db
           (database_tool ex_now (Store [posting "D" "u4" 80])
              (database_tool ex_now (Delete (Some 3%Z)) ex_db).1).1);
    [apply ex_db_ok | vm_compute; discriminate | | vm_compute; right; right; by left].
  apply rtc_once. by exists ex_now, (Store [posting "D" "u4" 80]).
Defined.

Lemma store_retrieve_roundtrip_witness :
  let d' := (_store_jobs ex_now ([posting "A" "u1" 50] ++ [posting "B" "u2" 70]) None).1 in
  ∃ l, (_retrieve_jobs (Some (Filters None None)) d').2 = Ok l ∧
       row_of_job ex_now (seq_of d') (txt "B") (txt "Acme") (posting "B" "u2" 70) ∈ l.
Proof.
  by apply (store_retrieve_roundtrip ex_now [posting "A" "u1" 50] (posting "B" "u2" 70) None).
Defined.
