(* ===== verification/StoreSpec.v ===== *)
(** * StoreSpec: what the store promises, and that the table keeps it

    The specification of the persistence store as a finite map: the
    postings by id, and the counter the ids come from.  The order of the
    rows, the search for a row and the maximum over the ids, which
    [Store] has from the SQL statements, are gone; what is left is the
    contract of [database_tool] of
    [src/job_seeker/tools/job_search_tools.py]: which postings the store
    holds after each action, and what the action answers.

    The table of [Store] refines this specification: related by
    [abs], every call of the tool on a well-formed table is a step of the
    specification with the same answer ([database_tool_refines]), and so
    is every sequence of calls from the empty database
    ([runs_refine]). *)

From Stdlib Require Import Ascii ZArith QArith Lia.
From stdpp Require Import base list strings gmap fin_maps sorting relations.
From S2P Require Import Prelude Text Data Sorting Store.

(** ** The abstract store *)

(** The postings by id and the last id handed out. *)
Record astore : Type := AStore {
  postings : gmap Z row;
  counter : Z;
}.

(** [None] until the table is created. *)
Definition astate : Type := option astore.

Definition a_init (s : astate) : astore := default (AStore ∅ 0) s.

(** Storing one posting: the postings of the same url go, the new one
    comes under the next id. *)
Definition a_insert (now : text) (v : insert_values) (s : astore) : result astore :=
  title ← need IntegrityError (v_title v);
  company ← need IntegrityError (v_company v);
  let k := (counter s + 1)%Z in
  Ok (AStore
        (<[k := Row k title company (v_location v) (v_url v)
                 (v_description v) (v_salary_range v) (v_posted_date v)
                 (v_site v) (v_job_type v) (v_match_score v)
                 (v_evaluation_date v) false None now]>
           (filter (fun kr => ¬ url_conflict (v_url v) kr.2) (postings s)))
        k).

(** Storing a batch: a posting that is refused is skipped. *)
Fixpoint a_store (now : text) (jobs : list job) (s : astore) (stored_count : nat)
    : astore * nat :=
  match jobs with
  | [] => (s, stored_count)
  | j :: jobs' =>
      match a_insert now (values_of_job j) s with
      | Ok s' => a_store now jobs' s' (S stored_count)
      | Raise _ => a_store now jobs' s stored_count
      end
  end.

(** Deleting by id. *)
Definition a_delete (job_id : option Z) (s : astore) : astore :=
  match job_id with
  | Some k => AStore (delete k (postings s)) (counter s)
  | None => s
  end.

(** No other posting has the url. *)
Definition a_url_free (k : Z) (u : option text) (m : gmap Z row) : Prop :=
  map_Forall (fun k' r => k' = k ∨ ¬ url_conflict u r) m.

(** Updating the posting of an id, if there is one. *)
Definition a_update (k : Z) (updates : list assignment) (s : astore) : result astore :=
  if bool_decide (updates = []) then Raise OperationalError
  else if negb (forallb is_column updates) then Raise OperationalError
  else
    match postings s !! k with
    | None => Ok s
    | Some r =>
        r' ← assign_all updates r;
        if decide (a_url_free k (r_url r') (postings s))
        then Ok (AStore (<[k := r']> (postings s)) (counter s))
        else Raise IntegrityError
    end.

(** A posting passes the condition of a query. *)
Definition passes (conditions : option Q) (r : row) : Prop :=
  match conditions with
  | Some m => score_at_least m r = true
  | None => True
  end.

#[export] Instance passes_dec conditions r : Decision (passes conditions r).
Proof. destruct conditions; simpl; apply _. Defined.

(** What a query may answer: the postings that pass, by falling score, cut
    at the limit.  The order among postings of equal score is left
    open. *)
Definition a_selected (conditions : option Q) (lim : option Z) (s : astore)
    (l : list row) : Prop :=
  ∃ all,
    all ≡ₚ filter (passes conditions) (map_to_list (postings s)).*2 ∧
    ordered by_match_score_desc all ∧
    l = match lim with
        | Some n => sql_limit n all
        | None => all
        end.

(** What an update answers and leaves, on an existing table. *)
Definition a_updated (data : update_data) (k : Z) (s : astore) : astore * reply answer :=
  match updates ← need AttributeError (get (u_updates data) []); a_update k updates s with
  | Ok s' => (s', Reply (Updated k))
  | Raise e => (s, Failed (txt "Database error: ") e)
  end.

(** One action of the store and its answer. *)
Inductive astep (now : text) : astate → action → reply answer → astate → Prop :=
  | astep_store s jobs :
      astep now s (Store jobs)
        (Reply (Stored (a_store now jobs (a_init s) 0).2))
        (Some (a_store now jobs (a_init s) 0).1)
  | astep_retrieve s f l :
      a_selected (min_score f) (limit f) (a_init s) l →
      astep now s (Retrieve (Some f)) (Reply (Retrieved l)) (Some (a_init s))
  | astep_retrieve_unbound s :
      astep now s (Retrieve None)
        (Failed (txt "Database error: ") UnboundLocalError) (Some (a_init s))
  | astep_delete s job_id :
      astep now (Some s) (Delete job_id) (Reply (Deleted job_id))
        (Some (a_delete job_id s))
  | astep_delete_no_table job_id :
      astep now None (Delete job_id) (Failed (txt "Database error: ") OperationalError) None
  | astep_update_no_id s data :
      u_id data = None ∨ u_id data = Some 0%Z →
      astep now s (Update data) (Reply IdRequired) s
  | astep_update s data k :
      u_id data = Some k → k ≠ 0%Z →
      astep now (Some s) (Update data) (a_updated data k s).2 (Some (a_updated data k s).1)
  | astep_update_no_table data k :
      u_id data = Some k → k ≠ 0%Z →
      astep now None (Update data)
        (Failed (txt "Database error: ")
           (if is_null (u_updates data) then AttributeError else OperationalError))
        None
  | astep_other s name :
      astep now s (Other name) (Reply (UnknownAction name)) s.

(** A sequence of actions with their answers. *)
Inductive aruns : astate → list (text * action * reply answer) → astate → Prop :=
  | aruns_nil s : aruns s [] s
  | aruns_cons s now a r s' tr s'' :
      astep now s a r s' → aruns s' tr s'' → aruns s ((now, a, r) :: tr) s''.

(** ** The table as an abstract store *)

(** The rows by their ids. *)
Definition rows_map (l : list row) : gmap Z row :=
  list_to_map ((fun r => (id r, r)) <$> l).

Definition abs_table (t : table) : astore := AStore (rows_map (rows t)) (seq t).

Definition abs (d : db) : astate := abs_table <$> d.

(** The calls of the tool, with their answers. *)
Inductive runs : db → list (text * action * reply answer) → db → Prop :=
  | runs_nil d : runs d [] d
  | runs_cons d now a tr d'' :
      runs (database_tool now a d).1 tr d'' →
      runs d ((now, a, (database_tool now a d).2) :: tr) d''.

(** ** Rows as a map *)

Section RowsMap.
Implicit Types (r : row) (l : list row) (m : gmap Z row) (k : Z).

Lemma StronglySorted_lt_NoDup (zs : list Z) : StronglySorted Z.lt zs → NoDup zs.
Proof.
  induction 1 as [|z zs _ IH Hz]; constructor; [|done].
  intros Hin. eapply Forall_forall in Hz; [|done]. lia.
Qed.

Lemma NoDup_ids_filter (P : row → Prop) `{∀ r, Decision (P r)} l :
  NoDup (id <$> l) → NoDup (id <$> filter P l).
Proof. intros Hn. eapply sublist_NoDup; [done|]. apply fmap_sublist, sublist_filter. Qed.

(** A map is known by what it holds. *)
Lemma map_eq_Some m1 m2 : (∀ k r, m1 !! k = Some r ↔ m2 !! k = Some r) → m1 = m2.
Proof. intros H. apply map_eq. intros k. apply option_eq. intros r. apply H. Qed.

Lemma rows_map_lookup l k r :
  NoDup (id <$> l) → rows_map l !! k = Some r ↔ r ∈ l ∧ id r = k.
Proof.
  intros Hn. unfold rows_map.
  rewrite <-elem_of_list_to_map by (by rewrite <-list_fmap_compose).
  rewrite list_elem_of_fmap. split; [intros (r' & [= -> ->] & ?) | intros [? <-]; eauto]. done.
Qed.

Lemma rows_map_eq l m :
  NoDup (id <$> l) → (∀ k r, m !! k = Some r ↔ r ∈ l ∧ id r = k) → rows_map l = m.
Proof. intros Hn H. apply map_eq_Some. intros k r. by rewrite H, rows_map_lookup. Qed.

Lemma rows_map_filter (P : row → Prop) `{∀ r, Decision (P r)} l :
  NoDup (id <$> l) → rows_map (filter P l) = filter (fun kr => P kr.2) (rows_map l).
Proof.
  intros Hn. apply rows_map_eq; [by apply NoDup_ids_filter|]. intros k r.
  rewrite map_lookup_filter_Some, rows_map_lookup, list_elem_of_filter by done. simpl. tauto.
Qed.

Lemma rows_map_delete l k :
  NoDup (id <$> l) →
  rows_map (filter (fun r => Some (id r) ≠ Some k) l) = delete k (rows_map l).
Proof.
  intros Hn. apply rows_map_eq; [by apply NoDup_ids_filter|]. intros j r.
  rewrite lookup_delete_Some, rows_map_lookup, list_elem_of_filter by done.
  split; [intros (? & ? & <-) | intros ((? & ?) & <-)]; split_and!; congruence.
Qed.

Lemma rows_map_snoc l r :
  NoDup (id <$> l) → id r ∉ id <$> l → rows_map (l ++ [r]) = <[id r := r]> (rows_map l).
Proof.
  intros Hn Hr. apply rows_map_eq.
  - rewrite fmap_app. apply NoDup_app. split_and!; [done | | apply NoDup_singleton].
    intros x Hx ->%list_elem_of_singleton. done.
  - intros k r'. rewrite lookup_insert_Some, rows_map_lookup, elem_of_app by done.
    rewrite list_elem_of_singleton. split.
    + intros [(<- & <-) | (Hk & Hin & <-)]; auto.
    + intros [[Hin | ->] <-]; [right | by left]. split_and!; [|done..].
      intros E. apply Hr. rewrite E. by apply list_elem_of_fmap_2.
Qed.

(** Replacing the row at an index by a row of the same id. *)
Lemma rows_map_insert l (i : nat) r r' :
  NoDup (id <$> l) → l !! i = Some r → id r' = id r →
  rows_map (<[i := r']> l) = <[id r := r']> (rows_map l).
Proof.
  intros Hn Hi Hid. apply list_elem_of_split_length in Hi as (l1 & l2 & -> & ->).
  rewrite insert_app_r_alt, Nat.sub_diag by done.
  change (<[0:=r']> (r :: l2)) with (r' :: l2).
  assert (id <$> l1 ++ r' :: l2 = id <$> l1 ++ r :: l2) as Hids
    by (rewrite !fmap_app, !fmap_cons; congruence).
  apply rows_map_eq; [by rewrite Hids|]. intros k x.
  rewrite lookup_insert_Some, rows_map_lookup by done.
  rewrite !elem_of_app, !elem_of_cons.
  rewrite fmap_app, fmap_cons in Hn. apply NoDup_app in Hn as (_ & H1 & [H2 _]%NoDup_cons).
  split.
  - intros [(<- & <-) | (Hk & [?|[-> | ?]] & <-)]; auto. done.
  - intros [[?| [-> | ?]] <-]; [right | left | right]; split_and?; auto; try congruence.
    + intros E. eapply (H1 (id r)); [rewrite E; by apply list_elem_of_fmap_2 | left].
    + intros E. apply H2. rewrite E. by apply list_elem_of_fmap_2.
Qed.
End RowsMap.

(** ** Each operation on the table is the operation on the map *)

Section Operations.
Implicit Types (t : table) (d : db) (s : astore) (r : row) (k : Z).

Lemma table_ok_NoDup t : table_ok t → NoDup (id <$> rows t).
Proof. intros [Hs _ _ _]. by apply StronglySorted_lt_NoDup. Qed.

Lemma abs_init d : abs_table (_init_database d) = a_init (abs d).
Proof. by destruct d. Qed.

Lemma a_insert_abs now v t :
  table_ok t → a_insert now v (abs_table t) = abs_table <$> insert_or_replace now v t.
Proof.
  intros Ht. pose proof (table_ok_NoDup t Ht) as Hn.
  unfold a_insert, insert_or_replace. destruct (v_title v), (v_company v); simpl; try done.
  rewrite (fresh_id t _ Ht). unfold abs_table. simpl. do 2 f_equal.
  rewrite rows_map_snoc; [by rewrite rows_map_filter | by apply NoDup_ids_filter |].
  simpl. intros (r & Hid & [_ Hr]%list_elem_of_filter)%list_elem_of_fmap.
  destruct Ht as [_ Hb _ _]. eapply Forall_forall in Hb; [|done]. lia.
Qed.

Lemma a_store_abs now jobs t n :
  table_ok t →
  a_store now jobs (abs_table t) n =
  (abs_table (store_loop now jobs t n).1, (store_loop now jobs t n).2).
Proof.
  revert t n; induction jobs as [|j jobs IH]; intros t n Ht; [done|].
  cbn [a_store store_loop]. rewrite a_insert_abs by done.
  destruct (insert_or_replace now (values_of_job j) t) as [t'|e] eqn:E; simpl; [|by apply IH].
  apply IH. by eapply insert_or_replace_ok.
Qed.

Lemma a_delete_abs o t : table_ok t → abs_table (delete_row o t) = a_delete o (abs_table t).
Proof.
  intros Hn%table_ok_NoDup. unfold abs_table, delete_row, a_delete. destruct o as [k|]; simpl.
  - by rewrite rows_map_delete.
  - rewrite filter_all; [done|]. by apply Forall_forall.
Qed.

(** The rows left when the row at an index goes. *)
Lemma elem_of_delete_ids (l : list row) (i : nat) r x :
  NoDup (id <$> l) → l !! i = Some r → x ∈ delete i l ↔ x ∈ l ∧ id x ≠ id r.
Proof.
  intros Hn (l1 & l2 & -> & ->)%list_elem_of_split_length.
  rewrite delete_middle, !elem_of_app, elem_of_cons.
  rewrite fmap_app, fmap_cons in Hn. apply NoDup_app in Hn as (_ & H1 & [H2 _]%NoDup_cons).
  split.
  - intros [?|?]; (split; [auto|]); intros E.
    + eapply (H1 (id r)); [rewrite <-E; by apply list_elem_of_fmap_2 | left].
    + apply H2. rewrite <-E. by apply list_elem_of_fmap_2.
  - intros [[?|[->|?]] ?]; auto. done.
Qed.

Lemma a_url_free_abs (l : list row) (i : nat) r u :
  NoDup (id <$> l) → l !! i = Some r →
  url_free u (delete i l) = true ↔ a_url_free (id r) u (rows_map l).
Proof.
  intros Hn Hi. unfold url_free, a_url_free, url_conflict, map_Forall.
  destruct u as [u|]; [|split; [intros _ k x _; right; by intros [[? [=]] _] | done]].
  rewrite bool_decide_eq_true, list_elem_of_omap. split.
  - intros Hu k x [Hx <-]%rows_map_lookup; [|done].
    destruct (decide (id x = id r)); [by left | right]. intros [_ E]. apply Hu.
    exists x. split; [|done]. by eapply elem_of_delete_ids.
  - intros H (x & [Hx Hne]%(elem_of_delete_ids l i r) & E); [|done..].
    destruct (H (id x) x) as [?|Hc]; [by apply rows_map_lookup | done | apply Hc; eauto].
Qed.

Lemma a_update_abs k updates t :
  table_ok t → a_update k updates (abs_table t) = abs_table <$> update_row k updates t.
Proof.
  intros Hn%table_ok_NoDup. unfold a_update, update_row.
  case_bool_decide; [done|]. destruct (negb _); [done|]. cbn [postings abs_table].
  destruct (list_find _ (rows t)) as [[i r]|] eqn:Hf.
  - apply list_find_Some in Hf as (Hi & Hk & _).
    rewrite (proj2 (rows_map_lookup _ k r Hn)) by (split; [by eapply list_elem_of_lookup_2|done]).
    destruct (assign_all updates r) as [r'|e] eqn:Ha; simpl; [|done].
    pose proof (a_url_free_abs _ _ _ (r_url r') Hn Hi) as Hu. rewrite Hk in Hu.
    apply assign_all_id in Ha. destruct (decide (a_url_free _ _ _)) as [Hd|Hd].
    + rewrite (proj2 Hu Hd). simpl. unfold abs_table. simpl. f_equal.
      by rewrite (rows_map_insert _ i r r'), Hk by (done || congruence).
    + destruct (url_free _ _); [by destruct Hd; apply Hu | done].
  - apply list_find_None in Hf.
    destruct (rows_map (rows t) !! k) as [r|] eqn:Hr; [|done].
    apply rows_map_lookup in Hr as [Hr Hk]; [|done].
    eapply Forall_forall in Hf; [|done]. done.
Qed.

Lemma rows_map_to_list (l : list row) : NoDup (id <$> l) → (map_to_list (rows_map l)).*2 ≡ₚ l.
Proof.
  intros Hn. unfold rows_map. rewrite map_to_list_to_map by (by rewrite <-list_fmap_compose).
  rewrite <-list_fmap_compose. by rewrite list_fmap_id.
Qed.

Lemma matching_passes c t : matching c t = filter (passes c) (rows t).
Proof.
  destruct c as [m|]; simpl; [done|]. symmetry. apply filter_all. by apply Forall_forall.
Qed.

Lemma a_selected_abs c lim t :
  table_ok t → a_selected c lim (abs_table t) (select c lim t).
Proof.
  intros Hn%table_ok_NoDup. exists (select c None t). split_and!.
  - rewrite select_unlimited_perm, matching_passes. simpl. by rewrite rows_map_to_list.
  - apply select_ordered.
  - by destruct lim.
Qed.
End Operations.

(** ** The refinement *)

Section Refinement.
Implicit Types (t : table) (d : db) (a : action).

(** One call of the tool on a well-formed table is one action of the
    abstract store, with the same answer. *)
Lemma database_tool_refines now a d :
  db_ok d → astep now (abs d) a (database_tool now a d).2 (abs (database_tool now a d).1).
Proof.
  intros Hd. pose proof (init_ok d Hd) as Hi. destruct a as [jobs|[f|]|data|job_id|name]; simpl.
  - unfold _store_jobs. pose proof (a_store_abs now jobs _ 0 Hi) as Hs.
    pose proof (astep_store now (abs d) jobs) as Ha. rewrite <-abs_init, Hs in Ha.
    by destruct (store_loop now jobs (_init_database d) 0).
  - rewrite abs_init. apply astep_retrieve. rewrite <-abs_init. by apply a_selected_abs.
  - rewrite abs_init. apply astep_retrieve_unbound.
  - unfold _update_job. destruct (u_id data) as [k|] eqn:Hk; [|apply astep_update_no_id; auto].
    destruct (decide (k = 0%Z)) as [->|Hne]; [apply astep_update_no_id; auto|].
    assert (∀ X (x y : X), match k with 0%Z => x | _ => y end = y) as -> by (by destruct k).
    destruct d as [t|]; simpl.
    + pose proof (astep_update now (abs_table t) data k Hk Hne) as Ha. unfold a_updated in Ha.
      destruct (get (u_updates data) []) as [updates|]; simpl in *; [|done].
      rewrite a_update_abs in Ha by done. by destruct (update_row k updates t).
    + pose proof (astep_update_no_table now data k Hk Hne) as Ha.
      by destruct (u_updates data).
  - destruct d as [t|]; simpl; [|apply astep_delete_no_table].
    rewrite a_delete_abs by done. apply astep_delete.
  - apply astep_other.
Qed.

(** Property C10: the table refines the abstract store.  Every sequence of
    calls of [database_tool] from a well-formed database, with the answers
    it gives, is a sequence of actions of the specification, in which the
    store is a finite map of postings by id: the same postings are held
    after each call and the same answers are given. *)
Theorem runs_refine d tr d' :
  db_ok d → runs d tr d' → aruns (abs d) tr (abs d').
Proof.
  intros Hd Hr. induction Hr as [d|d now a tr d'' _ IH]; [constructor|].
  econstructor; [by apply database_tool_refines|]. apply IH. by apply database_tool_ok.
Qed.
End Refinement.

(** ** What the specification gives *)

Section Specification.
Implicit Types (s : astore) (k : Z) (r : row).

(** A stored posting is held under the next id, and no other posting
    shares its url. *)
Lemma a_insert_lookup now v s s' :
  a_insert now v s = Ok s' →
  counter s' = (counter s + 1)%Z ∧
  (∃ r, postings s' !! counter s' = Some r ∧ id r = counter s' ∧ r_url r = v_url v) ∧
  ∀ k r, postings s' !! k = Some r → k ≠ counter s' →
         postings s !! k = Some r ∧ ¬ url_conflict (v_url v) r.
Proof.
  unfold a_insert. destruct (v_title v), (v_company v); simpl; try done. intros [= <-]. simpl.
  split_and!; [done | eexists; by rewrite lookup_insert_eq |].
  intros k r Hr Hk. rewrite lookup_insert_ne in Hr by done.
  by apply map_lookup_filter_Some in Hr.
Qed.

(** A deleted id holds nothing, and the other ids hold what they held. *)
Lemma a_delete_lookup k s k' :
  postings (a_delete (Some k) s) !! k' = if decide (k = k') then None else postings s !! k'.
Proof. simpl. apply lookup_delete. Qed.

(** An update touches the posting of its id only. *)
Lemma a_update_lookup k updates s s' k' :
  a_update k updates s = Ok s' → k' ≠ k → postings s' !! k' = postings s !! k'.
Proof.
  unfold a_update. case_bool_decide; [done|]. destruct (negb _); [done|].
  destruct (postings s !! k) as [r|]; [|by intros [= <-]].
  destruct (assign_all updates r) as [r'|]; simpl; [|done].
  destruct (decide _); [|done]. intros [= <-] Hk. simpl. by rewrite lookup_insert_ne.
Qed.
End Specification.

(** ** A run and its abstract run *)

Definition ex_stored : db := (database_tool ex_now (Store ex_jobs) None).1.

Definition ex_deleted : db := (database_tool ex_now (Delete (Some 2%Z)) ex_stored).1.

Definition ex_trace : list (text * action * reply answer) :=
  [ (ex_now, Store ex_jobs, (database_tool ex_now (Store ex_jobs) None).2);
    (ex_now, Delete (Some 2%Z), (database_tool ex_now (Delete (Some 2%Z)) ex_stored).2) ].

Example ex_trace_answers :
  ex_trace.*2 = [Reply (Stored 3); Reply (Deleted (Some 2%Z))] ∧
  id <$> rows_of ex_deleted = [1; 3]%Z.
Proof. split; vm_compute; reflexivity. Qed.

Lemma runs_refine_witness : aruns (abs None) ex_trace (abs ex_deleted).
Proof.
  apply (runs_refine None ex_trace ex_deleted); [done|].
  apply (runs_cons None ex_now (Store ex_jobs)).
  apply (runs_cons ex_stored ex_now (Delete (Some 2%Z))). apply runs_nil.
Defined.
