(* ===== verification/Search.v ===== *)
(** * Search: the search aggregator

    [job_search_tool], [_parse_serper_results] and [_search_site] of
    [src/job_seeker/tools/job_search_tools.py].  The search provider is a
    parameter: for the query of each site it returns an answer or raises.
    An answer is a string in the provider's text format (sections separated
    by three dashes, each with lines "Title:", "Link:" and "Snippet:"), or
    something that is no string.  The tool walks the sites in order, parses
    each answer into postings, and on an exception of the provider puts the
    mock postings of [_search_site] in their place.  The pause of one
    second after a site is counted, not waited for.  The loop over the
    sites is given twice: as the fold [search_sites], which the tool is
    defined with, and as the relation [loop_step] of one round, which is
    proved to run to the same result without ever stalling. *)

From Stdlib Require Import Ascii ZArith Lia.
From stdpp Require Import base list strings relations.
From S2P Require Import Prelude Text Regex Extract Data.

(** ** The mock postings *)

(** One mock posting, for [i] of the comprehension. *)
Definition mock_job (query site : text) (i : Z) : job :=
  Job (Val (txt "Senior " ++ query ++ txt " Engineer"))
      (Val (txt "Tech Company " ++ str_of_Z i))
      (Val (txt "San Francisco, CA"))
      (Val (txt "https://" ++ site ++ txt "/job/" ++ str_of_Z i))
      (Val (txt "Looking for a senior " ++ query ++
            txt " engineer with 5+ years experience..."))
      (Val (txt "2024-01-15"))
      (Val (txt "$120,000 - $180,000"))
      (Val site)
      (Val (txt "Full-time"))
      Absent Absent.

(** [_search_site]: the postings for [i in range(1, min(max_results + 1, 6))]. *)
Definition _search_site (query site : text) (max_results : Z) : list job :=
  map (mock_job query site) (seqZ 1 (Z.min (max_results + 1) 6 - 1)).

(** ** Parsing an answer of the provider *)

(** What [serper_tool.run] returned: a string, or a value that is none. *)
Inductive provider_answer : Type :=
  | Str (s : text)
  | NotStr.

(** The three variables of the loop over the lines of a section. *)
Record section_fields : Type := SectionFields {
  f_title : text;
  f_link : text;
  f_snippet : text;
}.

(** One round of [for line in lines]: the line, stripped, sets the field
    whose label it starts with, to the line without any occurrence of the
    label, stripped. *)
Definition scan_line (acc : section_fields) (line : text) : section_fields :=
  let line := strip line in
  if startswith line (txt "Title:") then
    SectionFields (strip (replace line (txt "Title:") [])) (f_link acc) (f_snippet acc)
  else if startswith line (txt "Link:") then
    SectionFields (f_title acc) (strip (replace line (txt "Link:") [])) (f_snippet acc)
  else if startswith line (txt "Snippet:") then
    SectionFields (f_title acc) (f_link acc) (strip (replace line (txt "Snippet:") []))
  else acc.

(** The posting built from the fields of a section. *)
Definition job_of_fields (site : text) (f : section_fields) : job :=
  Job (Val (f_title f))
      (Val (_extract_company_from_title (f_title f)))
      (Val (_extract_location_from_snippet (f_snippet f)))
      (Val (f_link f))
      (Val (f_snippet f))
      (Val (_extract_date_from_snippet (f_snippet f)))
      (Val (_extract_salary_from_snippet (f_snippet f)))
      (Val site)
      (Val (_extract_job_type_from_snippet (f_snippet f)))
      Absent Absent.

(** The body of the loop over the sections: [None] where the source says
    [continue]. *)
Definition parse_section (site : text) (section : text) : option job :=
  if negb (truthy (strip section)) then None
  else
    let lines := split (strip section) nl in
    let f := foldl scan_line (SectionFields [] [] []) lines in
    if negb (truthy (f_title f)) || negb (truthy (f_link f)) then None
    else Some (job_of_fields site f).

(** [_parse_serper_results]: at most ten sections are read; an answer that
    is no string raises inside the [try] and yields no posting. *)
Definition _parse_serper_results (search_results : provider_answer)
    (site query : text) : list job :=
  match search_results with
  | NotStr => []
  | Str s =>
      let result_sections :=
        if contains (txt "---") s then split s (txt "---") else [s] in
      omap (parse_section site) (take 10 result_sections)
  end.

(** ** The tool *)

Definition default_sites : list text := map txt
  [ "indeed.com"; "linkedin.com/jobs"; "glassdoor.com"; "monster.com";
    "ziprecruiter.com"; "dice.com"; "angel.co"; "remote.co" ].

Definition dquote : text := ["034"%char].

(** [f'site:{site} "{query}" jobs'] *)
Definition site_query (site query : text) : text :=
  txt "site:" ++ site ++ txt " " ++ dquote ++ query ++ dquote ++ txt " jobs".

(** The search provider: the answer to the [i]-th call, for its query. *)
Definition provider : Type := nat → text → result provider_answer.

(** What the tool did: the postings, and the seconds it paused. *)
Record search_outcome : Type := SearchOutcome {
  results : list job;
  slept : nat;
}.

(** The loop over the sites, from the [i]-th call of the provider on. *)
Fixpoint search_sites (serper_tool : provider) (query : text) (max_results : Z)
    (i : nat) (sites : list text) (acc : search_outcome) : search_outcome :=
  match sites with
  | [] => acc
  | site :: sites' =>
      let acc' :=
        match serper_tool i (site_query site query) with
        | Ok search_results =>
            SearchOutcome
              (results acc ++ _parse_serper_results search_results site query)
              (S (slept acc))
        | Raise _ =>
            SearchOutcome (results acc ++ _search_site query site max_results)
                          (slept acc)
        end in
      search_sites serper_tool query max_results (S i) sites' acc'
  end.

(** The loop, one site at a time: the number of the next call, the sites
    still to search, those searched, and the outcome so far. *)
Record loop_state : Type := LoopState {
  call_no : nat;
  pending : list text;
  searched : list text;
  so_far : search_outcome;
}.

(** One round of the loop: the answer is parsed and the tool pauses, or
    the [except] branch takes the mock postings; either way the loop goes
    on with the next site. *)
Inductive loop_step (serper_tool : provider) (query : text) (max_results : Z)
    : loop_state → loop_state → Prop :=
  | loop_answered i site sites was acc search_results :
      serper_tool i (site_query site query) = Ok search_results →
      loop_step serper_tool query max_results
        (LoopState i (site :: sites) was acc)
        (LoopState (S i) sites (was ++ [site])
           (SearchOutcome
              (results acc ++ _parse_serper_results search_results site query)
              (S (slept acc))))
  | loop_fallback i site sites was acc e :
      serper_tool i (site_query site query) = Raise e →
      loop_step serper_tool query max_results
        (LoopState i (site :: sites) was acc)
        (LoopState (S i) sites (was ++ [site])
           (SearchOutcome (results acc ++ _search_site query site max_results)
                          (slept acc))).

(** [job_search_tool]: [sites] is [None] when the argument is left out. *)
Definition job_search_tool (serper_tool : provider) (query : text)
    (sites : option (list text)) (max_results : Z) : search_outcome :=
  search_sites serper_tool query max_results 0 (default default_sites sites)
    (SearchOutcome [] 0).

(** ** Specification vocabulary *)

(** The postings of one site. *)
Definition site_results (serper_tool : provider) (query : text) (max_results : Z)
    (i : nat) (site : text) : list job :=
  match serper_tool i (site_query site query) with
  | Ok search_results => _parse_serper_results search_results site query
  | Raise _ => _search_site query site max_results
  end.

(** A posting that has every key a parsed or mock posting has, none of
    them [null]. *)
Definition complete (j : job) : Prop :=
  (∃ t, title j = Val t ∧ t ≠ []) ∧ (∃ u, url j = Val u ∧ u ≠ []) ∧
  (∃ c, company j = Val c) ∧ (∃ l, location j = Val l) ∧
  (∃ d, description j = Val d) ∧ (∃ p, posted_date j = Val p) ∧
  (∃ s, salary_range j = Val s) ∧ (∃ s, site j = Val s) ∧
  (∃ t, job_type j = Val t).

(** How many of the calls, from the [i]-th on, the provider answered. *)
Fixpoint answered (serper_tool : provider) (query : text) (i : nat)
    (sites : list text) : nat :=
  match sites with
  | [] => 0
  | site :: sites' =>
      (if is_ok (serper_tool i (site_query site query)) then 1 else 0) +
      answered serper_tool query (S i) sites'
  end.

(** Text as the parser returns it: stripped, on one line. *)
Definition clean (x : text) : Prop := strip x = x ∧ "010"%char ∉ x.

(** A section in the provider's format. *)
Definition render_section (title link snippet : text) : text :=
  txt "Title: " ++ title ++ nl ++ txt "Link: " ++ link ++ nl ++
  txt "Snippet: " ++ snippet.

(** An answer of several sections, with a rule of three dashes on a line
    of its own between them. *)
Definition render_answer (sections : list section_fields) : text :=
  join (nl ++ txt "---" ++ nl)
       (map (fun f => render_section (f_title f) (f_link f) (f_snippet f)) sections).

(** Fields that the layout carries: stripped values on one line, without
    their own label and without a rule, title and link not empty. *)
Definition parseable (f : section_fields) : Prop :=
  (clean (f_title f) ∧ clean (f_link f) ∧ clean (f_snippet f)) ∧
  (f_title f ≠ [] ∧ f_link f ≠ []) ∧
  (contains (txt "Title:") (f_title f) = false ∧
   contains (txt "Link:") (f_link f) = false ∧
   contains (txt "Snippet:") (f_snippet f) = false) ∧
  (contains (txt "---") (f_title f) = false ∧
   contains (txt "---") (f_link f) = false ∧
   contains (txt "---") (f_snippet f) = false).

#[global] Arguments _search_site : simpl never.
#[global] Arguments _parse_serper_results : simpl never.

(** ** The mock postings *)

Section Mock.
Implicit Types (query site : text) (j : job).

Lemma str_of_N_inj a b : str_of_N a = str_of_N b → a = b.
Proof. intros H%(f_equal int_of_digits). by rewrite !int_of_digits_str_of_N in H. Qed.

Lemma str_of_Z_pos_inj (a b : Z) : (0 < a)%Z → (0 < b)%Z → str_of_Z a = str_of_Z b → a = b.
Proof.
  destruct a as [|a|a], b as [|b|b]; try lia. intros _ _ H%str_of_N_inj. lia.
Qed.

Lemma mock_job_complete query site i : complete (mock_job query site i).
Proof. unfold complete, mock_job. simpl. split_and!; eauto. Qed.

(** [_search_site] returns min(max_results, 5) postings, none
    for a limit that is not positive; the [k]-th is the mock posting
    number [k + 1], every one has all its keys, names the site, and no two
    have the same url. *)
Lemma _search_site_spec query site max_results :
  length (_search_site query site max_results) = Z.to_nat (Z.min max_results 5) ∧
  (∀ k j, _search_site query site max_results !! k = Some j →
          j = mock_job query site (1 + Z.of_nat k) ∧ complete j ∧ Data.site j = Val site) ∧
  NoDup (map url (_search_site query site max_results)).
Proof.
  unfold _search_site. split_and!.
  - rewrite length_map, length_seqZ. lia.
  - intros k j (i & -> & [-> _]%lookup_seqZ)%list_lookup_fmap_Some.
    split_and!; [done | apply mock_job_complete | done].
  - rewrite <-list_fmap_compose. apply NoDup_fmap_2_strong; [|apply NoDup_seqZ].
    intros a b [Ha _]%elem_of_seqZ [Hb _]%elem_of_seqZ [= H%app_inv_head].
    injection H as H. apply str_of_Z_pos_inj; [lia..|done].
Qed.
End Mock.

(** ** What the parser returns *)

Section Parse.
Implicit Types (site query section : text) (j : job) (f : section_fields).

Lemma job_of_fields_complete site f :
  f_title f ≠ [] → f_link f ≠ [] → complete (job_of_fields site f).
Proof. intros. unfold complete. simpl. split_and!; eauto. Qed.

Lemma truthy_ne (s : text) : truthy s = true ↔ s ≠ [].
Proof. by destruct s. Qed.

Lemma parse_section_Some site section j :
  parse_section site section = Some j →
  ∃ f, j = job_of_fields site f ∧ f_title f ≠ [] ∧ f_link f ≠ [].
Proof.
  unfold parse_section. destruct (truthy (strip section)); simpl; [|done].
  destruct (truthy (f_title _)) eqn:Ht, (truthy (f_link _)) eqn:Hl; simpl; try done.
  intros [= <-]. eexists. by rewrite <-!truthy_ne.
Qed.

Lemma parse_elem search_results site query j :
  j ∈ _parse_serper_results search_results site query →
  ∃ f, j = job_of_fields site f ∧ f_title f ≠ [] ∧ f_link f ≠ [].
Proof.
  unfold _parse_serper_results. destruct search_results as [s|]; [|by intros ?%elem_of_nil].
  intros (section & _ & H)%list_elem_of_omap. by eapply parse_section_Some.
Qed.

(** [_parse_serper_results] returns at most ten postings; each is built
    from the title, link and snippet of a section, with a title and a link
    that are not empty, the other keys extracted from the title and the
    snippet; an answer that is no string gives no posting. *)
Lemma _parse_serper_results_sound search_results site query :
  length (_parse_serper_results search_results site query) ≤ 10 ∧
  (∀ j, j ∈ _parse_serper_results search_results site query →
        ∃ f, j = job_of_fields site f ∧ f_title f ≠ [] ∧ f_link f ≠ []) ∧
  (search_results = NotStr → _parse_serper_results search_results site query = []).
Proof.
  split_and!; [|apply parse_elem|by intros ->].
  unfold _parse_serper_results. destruct search_results as [s|]; [|simpl; lia].
  etrans; [apply omap_length_le|]. rewrite length_take. lia.
Qed.

Lemma _parse_serper_results_complete search_results site query j :
  j ∈ _parse_serper_results search_results site query → complete j.
Proof.
  intros (f & -> & ? & ?)%parse_elem. by apply job_of_fields_complete.
Qed.
End Parse.

(** ** The tool *)

Section Tool.
Context (serper_tool : provider) (query : text) (max_results : Z).
Implicit Types (site : text) (sites : list text) (j : job) (acc : search_outcome).

Lemma search_sites_spec i sites acc :
  search_sites serper_tool query max_results i sites acc =
  SearchOutcome
    (results acc ++
       concat (imap (fun k site => site_results serper_tool query max_results (i + k) site) sites))
    (slept acc + answered serper_tool query i sites).
Proof.
  revert i acc; induction sites as [|site sites IH]; intros i acc; cbn [search_sites].
  - destruct acc. simpl. by rewrite app_nil_r, Nat.add_0_r.
  - rewrite IH. cbn [imap concat answered]. unfold site_results at 2.
    rewrite Nat.add_0_r.
    rewrite (imap_ext _ (fun k site => site_results serper_tool query max_results (i + S k) site))
      by (intros; simpl; f_equal; lia).
    destruct (serper_tool i (site_query site query)); simpl;
      rewrite <-app_assoc; f_equal; lia.
Qed.

Lemma site_results_complete i site j :
  j ∈ site_results serper_tool query max_results i site → complete j.
Proof.
  unfold site_results. destruct (serper_tool i _).
  - apply _parse_serper_results_complete.
  - unfold _search_site. intros (k & -> & _)%list_elem_of_fmap. apply mock_job_complete.
Qed.

Lemma site_results_length i site :
  length (site_results serper_tool query max_results i site) ≤ 10.
Proof.
  unfold site_results. destruct (serper_tool i _) as [a|].
  - unfold _parse_serper_results. destruct a; [|simpl; lia].
    etrans; [apply omap_length_le|]. rewrite length_take. lia.
  - unfold _search_site. rewrite length_map, length_seqZ. lia.
Qed.

Lemma answered_le i sites : answered serper_tool query i sites ≤ length sites.
Proof.
  revert i; induction sites as [|site sites IH]; intros i; simpl; [done|].
  specialize (IH (S i)). destruct (is_ok _); lia.
Qed.

(** Property C9: [job_search_tool] never fails.  Its postings are, site
    after site in the order of the list, what the parser makes of the
    provider's answer or, when the provider raised, the mock postings of
    that site; it pauses one second for each site that was answered and
    not after a site that raised. *)
Theorem job_search_tool_spec (given : option (list text)) :
  let the_sites := default default_sites given in
  job_search_tool serper_tool query given max_results =
  SearchOutcome
    (concat (imap (fun k site => site_results serper_tool query max_results k site) the_sites))
    (answered serper_tool query 0 the_sites).
Proof. cbv zeta. unfold job_search_tool. by rewrite search_sites_spec. Qed.

Lemma sites_results_complete i sites :
  let out := concat (imap (fun k site => site_results serper_tool query max_results (i + k) site)
                          sites) in
  Forall complete out ∧ length out ≤ 10 * length sites.
Proof.
  cbv zeta. revert i. induction sites as [|site sites IH]; intros i;
    [split; [constructor | simpl; lia]|].
  cbn [imap concat length]. rewrite Forall_app, length_app.
  rewrite (imap_ext _ (fun k site => site_results serper_tool query max_results (S i + k) site))
    by (intros; simpl; f_equal; lia).
  destruct (IH (S i)) as [IH1 IH2]. pose proof (site_results_length (i + 0) site).
  split_and!; [|done|lia]. apply Forall_forall. intros j. apply site_results_complete.
Qed.

(** Property C28: every posting that [job_search_tool] returns has all nine
    keys of a posting, none of them [null], with a title and a url that are
    not empty; there are at most ten postings per site, whatever
    [max_results] is.  For the parser does so with every answer: it
    returns at most ten postings, each built from the title, link and
    snippet of one section, with a title and a link that are not empty,
    and none at all for an answer that is no string. *)
Theorem job_search_tool_complete (given : option (list text)) :
  let out := results (job_search_tool serper_tool query given max_results) in
  Forall complete out ∧ length out ≤ 10 * length (default default_sites given) ∧
  ∀ search_results site,
    let parsed := _parse_serper_results search_results site query in
    length parsed ≤ 10 ∧
    (∀ j, j ∈ parsed → ∃ f, j = job_of_fields site f ∧ f_title f ≠ [] ∧ f_link f ≠ []) ∧
    (search_results = NotStr → parsed = []).
Proof.
  cbv zeta. split_and!; [| |intros; apply _parse_serper_results_sound];
    unfold job_search_tool; rewrite search_sites_spec; cbn [results app];
    apply (sites_results_complete 0).
Qed.
End Tool.

(** ** Reading back a rendered section *)

Section RoundTrip.
Implicit Types (t l s x line : text) (acc : section_fields).

(** No newline in text that is a label followed by clean text. *)
Ltac no_nl := cbn [app txt String.list_ascii_of_string];
  repeat (apply not_elem_of_cons; split; [discriminate|]); try done.

(** A character that is no dash is not in the rule. *)
Ltac no_dash := by (intros [?|[?|[?|[]%elem_of_nil]%elem_of_cons]%elem_of_cons]%elem_of_cons).

Lemma labelled_value c label x :
  is_space c = false → c ≠ " "%char →
  (∀ d, last (c :: label) = Some d → is_space d = false) →
  clean x → contains (c :: label) x = false →
  ∃ rest, strip (c :: label ++ txt " " ++ x) = c :: label ++ rest ∧
          strip (replace (c :: label ++ rest) (c :: label) []) = x ∧
          "010"%char ∉ rest.
Proof.
  intros Hc Hsp Hl [Hx Hnl] Hno.
  destruct (strip_labelled c label x Hc Hl Hx) as (rest & Hs & Hr & Hsuf).
  exists rest. split_and!; [done | |].
  - change (c :: label ++ rest) with ((c :: label) ++ rest).
    rewrite replace_prefix; [done | done |].
    eapply contains_suffix; [done|]. change (txt " " ++ x) with (" "%char :: x).
    by rewrite contains_cons_ne.
  - destruct Hsuf as [k Hk]. intros Hin. assert ("010"%char ∈ txt " " ++ x) as Hin'.
    { rewrite Hk. apply elem_of_app. by right. }
    apply elem_of_cons in Hin' as [?|?]; [discriminate | done].
Qed.

Lemma scan_line_strip acc line : scan_line acc (strip line) = scan_line acc line.
Proof. unfold scan_line. by rewrite strip_idemp. Qed.

Lemma scan_title acc t :
  clean t → contains (txt "Title:") t = false →
  scan_line acc (txt "Title: " ++ t) = SectionFields t (f_link acc) (f_snippet acc).
Proof.
  intros Ht Hno.
  destruct (labelled_value "T" (txt "itle:") t) as (r & Hs & Hv & _);
    [done | done | by intros ? [= <-] | done..|].
  change ("T"%char :: txt "itle:" ++ r) with (txt "Title:" ++ r) in Hs, Hv.
  change ("T"%char :: txt "itle:") with (txt "Title:") in Hv.
  unfold scan_line. change (txt "Title: " ++ t) with ("T"%char :: txt "itle:" ++ txt " " ++ t).
  by rewrite Hs, startswith_app, Hv.
Qed.

Lemma scan_link acc l :
  clean l → contains (txt "Link:") l = false →
  scan_line acc (txt "Link: " ++ l) = SectionFields (f_title acc) l (f_snippet acc).
Proof.
  intros Hl Hno.
  destruct (labelled_value "L" (txt "ink:") l) as (r & Hs & Hv & _);
    [done | done | by intros ? [= <-] | done..|].
  change ("L"%char :: txt "ink:" ++ r) with (txt "Link:" ++ r) in Hs, Hv.
  change ("L"%char :: txt "ink:") with (txt "Link:") in Hv.
  unfold scan_line. change (txt "Link: " ++ l) with ("L"%char :: txt "ink:" ++ txt " " ++ l).
  rewrite Hs. replace (startswith (txt "Link:" ++ r) (txt "Title:")) with false by done.
  by rewrite startswith_app, Hv.
Qed.

Lemma scan_snippet acc s :
  clean s → contains (txt "Snippet:") s = false →
  scan_line acc (txt "Snippet: " ++ s) = SectionFields (f_title acc) (f_link acc) s.
Proof.
  intros Hs' Hno.
  destruct (labelled_value "S" (txt "nippet:") s) as (r & Hs & Hv & _);
    [done | done | by intros ? [= <-] | done..|].
  unfold scan_line.
  change (txt "Snippet: " ++ s) with ("S"%char :: txt "nippet:" ++ txt " " ++ s).
  change ("S"%char :: txt "nippet:" ++ r) with (txt "Snippet:" ++ r) in Hs, Hv.
  change ("S"%char :: txt "nippet:") with (txt "Snippet:") in Hv.
  rewrite Hs. replace (startswith (txt "Snippet:" ++ r) (txt "Title:")) with false by done.
  replace (startswith (txt "Snippet:" ++ r) (txt "Link:")) with false by done.
  by rewrite startswith_app, Hv.
Qed.

(** The lines of a rendered section, as the parser cuts them. *)
Lemma section_lines t l s :
  clean t → clean l → clean s → contains (txt "Snippet:") s = false →
  split (strip (render_section t l s)) nl =
    [txt "Title: " ++ t; txt "Link: " ++ l; strip (txt "Snippet: " ++ s)].
Proof.
  intros [_ Ht] [_ Hl] Hs Hno.
  destruct (labelled_value "S" (txt "nippet:") s) as (r & Hr & _ & Hnl);
    [done | done | by intros ? [= <-] | done..|].
  change ("S"%char :: txt "nippet:" ++ txt " " ++ s) with (txt "Snippet: " ++ s) in Hr.
  assert (strip (render_section t l s) =
          (txt "Title: " ++ t) ++ nl ++ (txt "Link: " ++ l) ++ nl ++ strip (txt "Snippet: " ++ s)) as ->.
  { change (txt "Snippet: " ++ s) with ("S"%char :: txt "nippet: " ++ s) in *.
    rewrite strip_rstrip in Hr |- * by done.
    assert (render_section t l s =
            "T"%char :: (txt "itle: " ++ t ++ nl ++ txt "Link: " ++ l ++ nl) ++
            "S"%char :: txt "nippet: " ++ s) as -> by (unfold render_section; by rewrite <-!app_assoc).
    rewrite strip_app; [by rewrite <-!app_assoc | done | by rewrite Hr]. }
  rewrite split_app_sep, split_app_sep, split_no_sep; [done | done | ..]; try done;
    rewrite ?app_nil_r; apply contains_char; [rewrite Hr| |]; no_nl.
Qed.

Lemma parse_section_render site t l s :
  clean t → clean l → clean s → t ≠ [] → l ≠ [] →
  contains (txt "Title:") t = false → contains (txt "Link:") l = false →
  contains (txt "Snippet:") s = false →
  parse_section site (render_section t l s) = Some (job_of_fields site (SectionFields t l s)).
Proof.
  intros Ht Hl Hs Htn Hln Hct Hcl Hcs. unfold parse_section.
  rewrite section_lines by done. cbn [foldl].
  rewrite scan_title, scan_link, scan_line_strip, scan_snippet by done.
  cbn [f_title f_link]. destruct t, l; try done.
  by destruct (strip (render_section _ _ _)) eqn:E;
    [apply (f_equal (fun x => split x nl)) in E; rewrite section_lines in E|].
Qed.

(** The rule of three dashes is in none of the labels. *)
Lemma render_section_no_rule t l s :
  contains (txt "---") t = false → contains (txt "---") l = false →
  contains (txt "---") s = false →
  contains (txt "---") (render_section t l s) = false.
Proof.
  intros Ht Hl Hs. unfold render_section.
  change (txt "Title: " ++ t ++ nl ++ txt "Link: " ++ l ++ nl ++ txt "Snippet: " ++ s)
    with (txt "Title:" ++ " "%char ::
            (t ++ "010"%char :: (txt "Link:" ++ " "%char ::
               (l ++ "010"%char :: (txt "Snippet:" ++ " "%char :: s))))).
  rewrite !contains_app_char, Ht, Hl, Hs; [done | no_dash..].
Qed.

(** [if "---" in search_results] changes nothing: without a rule the
    split is the text itself. *)
Lemma result_sections_split x :
  (if contains (txt "---") x then split x (txt "---") else [x]) = split x (txt "---").
Proof. destruct (contains _ x) eqn:E; [done|]. by rewrite split_no_sep. Qed.

(** The pieces between the rules are the sections, up to the line breaks
    around them. *)
Lemma split_sections p xs :
  p = [] ∨ p = nl → xs ≠ [] → Forall (fun x => contains (txt "---") x = false) xs →
  Forall2 (fun piece x => strip piece = strip x)
          (split (p ++ join (nl ++ txt "---" ++ nl) xs) (txt "---")) xs.
Proof.
  intros Hp Hne Hxs. revert p Hp.
  induction Hxs as [|x xs Hx Hxs IH]; [done|]. intros p Hp.
  assert (strip (p ++ x) = strip x) as Hstrip by (by destruct Hp as [-> | ->]; [|apply strip_lstrip]).
  assert (contains (txt "---") (p ++ x) = false) as Hpx.
  { destruct Hp as [-> | ->]; [done|]. change (nl ++ x) with ([] ++ "010"%char :: x).
    by rewrite contains_app_char, Hx; [|no_dash]. }
  destruct xs as [|y ys].
  - cbn [join]. rewrite split_no_sep by done. by constructor.
  - rewrite join_cons by done.
    replace (p ++ x ++ (nl ++ txt "---" ++ nl) ++ join (nl ++ txt "---" ++ nl) (y :: ys))
      with (((p ++ x) ++ nl) ++ txt "---" ++ nl ++ join (nl ++ txt "---" ++ nl) (y :: ys))
      by (by rewrite <-!app_assoc).
    rewrite split_app_sep; [|done|].
    + constructor; [|apply IH; auto]. by rewrite (strip_snoc_space _ "010").
    + rewrite <-app_assoc.
      change (nl ++ ?r) with ("010"%char :: r). by rewrite contains_app_char, Hpx; [|no_dash].
Qed.

Lemma parse_section_strip site piece x :
  strip piece = strip x → parse_section site piece = parse_section site x.
Proof. unfold parse_section. by intros ->. Qed.

Lemma parse_sections_render site sections :
  Forall parseable sections →
  omap (parse_section site)
       (map (fun f => render_section (f_title f) (f_link f) (f_snippet f)) sections) =
    map (job_of_fields site) sections.
Proof.
  induction 1 as [|[t l s] fs (Hc & Hn & Hl & _) _ IH]; [done|]. cbn [map].
  rewrite omap_cons_app, IH. cbn in Hc, Hn, Hl. rewrite parse_section_render; [done | tauto..].
Qed.

(** Property C13: a rendered answer is parsed back.  For sections in the
    provider's layout (title, link and snippet each on a line after its
    label, the sections apart by a rule of three dashes), with values
    that are stripped, on one line, free of their own label and of the
    rule, and with title and link not empty, [_parse_serper_results]
    returns the postings built from the first ten sections, in their
    order. *)
Theorem parse_render_answer site query sections :
  Forall parseable sections →
  _parse_serper_results (Str (render_answer sections)) site query =
    map (job_of_fields site) (take 10 sections).
Proof.
  intros Hs. unfold _parse_serper_results. rewrite result_sections_split.
  destruct (decide (sections = [])) as [-> | Hne]; [done|].
  rewrite <-parse_sections_render by (by apply Forall_take). rewrite <-firstn_map.
  apply omap_Forall2, Forall2_take. unfold render_answer.
  eapply Forall2_impl; [apply (split_sections []); [by left | by destruct sections |]|].
  - apply Forall_map. eapply Forall_impl; [done|].
    intros [t l s] (_ & _ & _ & ? & ? & ?). by apply render_section_no_rule.
  - intros piece x. apply parse_section_strip.
Qed.
End RoundTrip.

(** ** The theorems at work on a small answer *)

Lemma ex_clean (x : string) :
  strip (txt x) = txt x → bool_decide ("010"%char ∉ txt x) = true → clean (txt x).
Proof. intros ? ?%bool_decide_eq_true. by split. Qed.

Definition ex_sections : list section_fields :=
  [ SectionFields (txt "Dev at Acme") (txt "http://x/1") (txt "Remote job");
    SectionFields (txt "Analyst - Initech") (txt "http://x/2") (txt "Full-time, posted 2 days ago") ].

Lemma ex_sections_parseable : Forall parseable ex_sections.
Proof. repeat constructor; try (by apply ex_clean); done. Qed.

Lemma parse_render_answer_witness :
  _parse_serper_results (Str (render_answer ex_sections)) (txt "dice.com") (txt "q") =
  map (job_of_fields (txt "dice.com")) (take 10 ex_sections).
Proof. apply parse_render_answer, ex_sections_parseable. Defined.

(** ** The loop never stalls *)

Section Loop.
Context (serper_tool : provider) (query : text) (max_results : Z).
Implicit Types (st : loop_state) (sites : list text).

(** A round is always possible while a site is left, whatever the
    provider does. *)
Lemma loop_progress st : pending st ≠ [] → ∃ st', loop_step serper_tool query max_results st st'.
Proof.
  destruct st as [i [|site sites] was acc]; [done|]. intros _.
  destruct (serper_tool i (site_query site query)) eqn:E; eexists; by econstructor.
Qed.

(** A round searches the first site left, and no other. *)
Lemma loop_step_pending st st' :
  loop_step serper_tool query max_results st st' →
  ∃ site, pending st = site :: pending st' ∧ searched st' = searched st ++ [site] ∧
          call_no st' = S (call_no st) ∧
          so_far st' = search_sites serper_tool query max_results (call_no st) [site] (so_far st).
Proof. intros []; exists site; simpl; split_and!; try done; by rewrite H. Qed.

Lemma loop_run st :
  ∃ st', nsteps (loop_step serper_tool query max_results) (length (pending st)) st st' ∧
         pending st' = [] ∧ searched st' = searched st ++ pending st ∧
         so_far st' =
           search_sites serper_tool query max_results (call_no st) (pending st) (so_far st).
Proof.
  destruct st as [i sites was acc]. revert i was acc.
  induction sites as [|site sites IH]; intros i was acc.
  - eexists. split; [constructor|]. simpl. by rewrite app_nil_r.
  - destruct (loop_progress (LoopState i (site :: sites) was acc)) as [st1 H1]; [done|].
    pose proof (loop_step_pending _ _ H1) as (site' & Hp & Hs & Hc & Ho).
    destruct st1 as [i1 sites1 was1 acc1]. simpl in *. injection Hp as <- <-.
    destruct (IH i1 was1 acc1) as (st' & Hn & ? & Hw & Hf).
    exists st'. split_and!; [by econstructor | done | by rewrite Hw, Hs, <-app_assoc |].
    by rewrite Hf, Ho, Hc.
Qed.

(** Rounds are deterministic. *)
Lemma loop_step_det st st1 st2 :
  loop_step serper_tool query max_results st st1 →
  loop_step serper_tool query max_results st st2 → st1 = st2.
Proof. intros [] H2; inv H2; congruence. Qed.
End Loop.

Section LoopClaims.
Context (serper_tool : provider) (query : text) (max_results : Z).
Implicit Types (st : loop_state) (sites : list text).

Lemma loop_steps_pending (n : nat) st st' :
  nsteps (loop_step serper_tool query max_results) n st st' →
  length (pending st) = n + length (pending st').
Proof.
  induction 1 as [|n st st1 st' H1 _ IH]; [done|].
  apply loop_step_pending in H1 as (site & -> & _). simpl. lia.
Qed.

End LoopClaims.
