(* ===== verification/Report.v ===== *)
(** * Report: the report renderer

    [report_generation_tool] and [_generate_markdown_report] of
    [src/job_seeker/tools/job_search_tools.py].  The report is markdown
    text: a header with the profile, one section for each of the first ten
    postings whose score is at least 70, and a fixed closing part.  A value
    is written as Python's [str] writes it, so a key bound to [null] shows
    as "None"; where the code slices, joins or formats a value, [null]
    raises, and the tool turns the exception into its error reply.  The
    time of the report is a parameter. *)

From Stdlib Require Import Ascii NArith ZArith QArith Qabs Lia Lqa.
From stdpp Require Import base list strings.
From S2P Require Import Prelude Text Regex Extract Data Format.

(** ** Writing values *)

(** [str(d.get(key, default))] for a key that holds text. *)
Definition show (f : field text) (default : string) : text :=
  match f with
  | Absent => txt default
  | Null => txt "None"
  | Val s => s
  end.

(** [str(d.get(key, default))] for a key that holds an integer. *)
Definition show_int (f : field Z) (default : string) : text :=
  match f with
  | Absent => txt default
  | Null => txt "None"
  | Val z => str_of_Z z
  end.

(** The lines, each ended by a newline. *)
Definition unlines (lines : list text) : text :=
  concat (map (fun line => line ++ nl) lines).

(** ** The header *)

(** [f"{profile.get('expected_salary', 'N/A'):,}"]: the default is a
    string, which has no format [,]; [None] has no format at all. *)
Definition show_salary (f : field Z) : result text :=
  match f with
  | Absent => Raise ValueError
  | Null => Raise TypeError
  | Val z => Ok (fmt_thousands z)
  end.

Definition header (now : text) (found : nat) (p : profile) : result text :=
  skills ← need TypeError (get (skills p) []);
  preferred ← need TypeError (get (preferred_locations p) []);
  salary ← show_salary (expected_salary p);
  Ok (unlines
    [ txt "# Job Search Report for " ++ show (name p) "Job Seeker";
      [];
      txt "## Executive Summary";
      txt "Found " ++ str_of_N (N.of_nat found) ++
        txt " highly relevant job opportunities matching your profile.";
      txt "Generated on: " ++ now;
      [];
      txt "## Your Profile Summary";
      txt "- **Name**: " ++ show (name p) "N/A";
      txt "- **Current Role**: " ++ show (current_role p) "N/A";
      txt "- **Experience**: " ++ show_int (years_experience p) "N/A" ++ txt " years";
      txt "- **Key Skills**: " ++ join (txt ", ") (take 10 skills);
      txt "- **Preferred Locations**: " ++ join (txt ", ") preferred;
      txt "- **Expected Salary**: $" ++ salary;
      [];
      txt "## Top Job Opportunities";
      [] ]).

(** ** The section of a posting *)

Definition job_section (i : nat) (j : job) : result text :=
  score ← need TypeError (get (match_score j) 0%Q);
  description ← need TypeError (get (description j) (txt "N/A"));
  Ok (unlines
    [ txt "### " ++ str_of_N (N.of_nat i) ++ txt ". " ++ show (title j) "N/A" ++
        txt " at " ++ show (company j) "N/A";
      txt "**Match Score**: " ++ fmt_1f score ++ txt "/100";
      [];
      txt "**Details:**";
      txt "- **Location**: " ++ show (location j) "N/A";
      txt "- **Salary**: " ++ show (salary_range j) "N/A";
      txt "- **Job Type**: " ++ show (job_type j) "N/A";
      txt "- **Posted**: " ++ show (posted_date j) "N/A";
      txt "- **Source**: " ++ show (site j) "N/A";
      [];
      txt "**Description:**";
      take 300 description ++ txt "...";
      [];
      txt "**Apply Here**: [View Job](" ++ show (url j) "#" ++ txt ")";
      [];
      txt "---";
      [] ]).

(** [for i, job in enumerate(jobs[:10], 1)], from number [i] on. *)
Fixpoint sections_from (i : nat) (jobs : list job) : result text :=
  match jobs with
  | [] => Ok []
  | j :: jobs' =>
      first ← job_section i j;
      rest ← sections_from (S i) jobs';
      Ok (first ++ rest)
  end.

(** ** The closing part *)

Definition footer : text := unlines (map txt
  [ "";
    "## Application Strategy";
    "";
    "### Immediate Actions (Next 24-48 hours):";
    "1. **Priority Applications**: Apply to the top 3 opportunities immediately";
    "2. **Customize Applications**: Tailor your resume and cover letter for each role";
    "3. **Follow Up**: Set reminders to follow up on applications";
    "";
    "### Medium-term Actions (Next Week):";
    "1. **Expand Search**: Consider additional job sites or networking opportunities";
    "2. **Skill Development**: Focus on any gaps identified in the job requirements";
    "3. **Interview Preparation**: Prepare for common interview questions in your field";
    "";
    "### Long-term Actions (Next Month):";
    "1. **Network Building**: Connect with employees at target companies";
    "2. **Portfolio Updates**: Update your portfolio with recent projects";
    "3. **Salary Negotiation**: Research market rates for your target positions";
    "";
    "## Next Steps";
    "1. Review each opportunity carefully";
    "2. Visit the job URLs to read full descriptions";
    "3. Prepare customized applications";
    "4. Track your applications in a spreadsheet";
    "5. Set up job alerts for similar positions";
    "";
    "---";
    "*Report generated by Job Seeker AI Crew*" ]).

(** ** The report *)

(** [_generate_markdown_report]: the header counts every posting it is
    given, the sections show the first ten. *)
Definition _generate_markdown_report (now : text) (jobs : list job) (p : profile)
    : result text :=
  report ← header now (length jobs) p;
  sections ← sections_from 1 (take 10 jobs);
  Ok (report ++ sections ++ footer).

(** [[job for job in jobs if job.get('match_score', 0) >= 70]]: comparing
    [None] with a number raises. *)
Fixpoint top_jobs (jobs : list job) : result (list job) :=
  match jobs with
  | [] => Ok []
  | j :: jobs' =>
      score ← need TypeError (get (match_score j) 0%Q);
      rest ← top_jobs jobs';
      Ok (if Qle_bool 70 score then j :: rest else rest)
  end.

(** [report_generation_tool]: the report, or the error reply. *)
Definition report_generation_tool (now : text) (jobs_data : list job)
    (user_profile : profile) : reply text :=
  guarded "Error generating report: "
    (top ← top_jobs jobs_data;
     _generate_markdown_report now top user_profile).

(** ** Specification vocabulary *)

(** The score a posting is filtered by. *)
Definition filter_score (j : job) : Q := default 0%Q (get (match_score j) 0%Q).

(** The postings of score 70 or more, in the order of the input. *)
Definition relevant (jobs : list job) : list job :=
  filter (fun j => Qle_bool 70 (filter_score j) = true) jobs.

(** The postings that get a section. *)
Definition shown (jobs : list job) : list job := take 10 (relevant jobs).

(** The exception of the tool, if any: the first [null] score of the
    input, then the profile keys that are sliced, joined or formatted, then
    the first [null] description among the postings shown. *)
Definition report_error (jobs : list job) (p : profile) : option exn :=
  if existsb (fun j => is_null (match_score j)) jobs then Some TypeError
  else if is_null (skills p) then Some TypeError
  else if is_null (preferred_locations p) then Some TypeError
  else
    match expected_salary p with
    | Absent => Some ValueError
    | Null => Some TypeError
    | Val _ =>
        if existsb (fun j => is_null (description j)) (shown jobs)
        then Some TypeError else None
    end.

(** ** The postings of the report *)

Section ReportFacts.
Implicit Types (j : job) (jobs : list job) (p : profile) (now : text).

(** The filter raises on the first [null] score, and else keeps the
    postings of score 70 or more. *)
Lemma top_jobs_spec jobs :
  top_jobs jobs =
  if existsb (fun j => is_null (match_score j)) jobs then Raise TypeError
  else Ok (relevant jobs).
Proof.
  induction jobs as [|j jobs IH]; [done|]. cbn [top_jobs existsb]. rewrite IH.
  unfold relevant. rewrite filter_cons. unfold filter_score.
  destruct (match_score j) as [| |s]; simpl; [| done |];
    destruct (existsb _ jobs); simpl; try done;
    case_decide as Hd; simpl in Hd;
    [by rewrite Hd | by apply not_true_is_false in Hd; rewrite Hd ..].
Qed.

Lemma relevant_score j jobs : j ∈ relevant jobs → (70 <= filter_score j)%Q.
Proof. intros [H _]%list_elem_of_filter. by apply Qle_bool_iff. Qed.

Lemma relevant_not_null jobs :
  existsb (fun j => is_null (match_score j)) jobs = false →
  Forall (fun j => ∃ s, match_score j = Val s ∧ (70 <= s)%Q) (relevant jobs).
Proof.
  intros Hn. apply Forall_forall. intros j Hj. pose proof (relevant_score _ _ Hj) as Hs.
  apply list_elem_of_filter in Hj as [_ Hj]. unfold filter_score in Hs.
  destruct (match_score j) as [| |s] eqn:E; simpl in Hs; [lra | | eauto].
  apply not_true_iff_false in Hn. destruct Hn. apply existsb_exists. exists j.
  by rewrite <-list_elem_of_In, E.
Qed.
End ReportFacts.

(** ** Header, sections and the tool *)

Section ReportClaims.
Implicit Types (j : job) (jobs : list job) (p : profile) (now : text).

(** What the header needs of the profile. *)
Definition header_error (p : profile) : option exn :=
  if is_null (skills p) then Some TypeError
  else if is_null (preferred_locations p) then Some TypeError
  else
    match expected_salary p with
    | Absent => Some ValueError
    | Null => Some TypeError
    | Val _ => None
    end.

Lemma header_spec now found p :
  match header_error p with
  | Some e => header now found p = Raise e
  | None => ∃ h, header now found p = Ok h
  end.
Proof.
  unfold header_error, header.
  destruct (skills p), (preferred_locations p), (expected_salary p); simpl; eauto.
Qed.

Lemma job_section_spec i j :
  match_score j ≠ Null →
  if is_null (description j) then job_section i j = Raise TypeError
  else ∃ t, job_section i j = Ok t.
Proof.
  unfold job_section. destruct (match_score j), (description j); simpl; eauto; done.
Qed.

Lemma sections_from_Ok i jobs t :
  sections_from i jobs = Ok t →
  ∃ secs, Forall2 (fun '(k, j) sec => job_section k j = Ok sec)
                  (zip (seq i (length jobs)) jobs) secs ∧ t = concat secs.
Proof.
  revert i t; induction jobs as [|j jobs IH]; intros i t; cbn [sections_from].
  - intros [= <-]. exists []. by split; [constructor|].
  - intros (sec & Hs & (rest & (secs & ? & ->)%IH & [= <-])%bind_Ok_inv)%bind_Ok_inv.
    exists (sec :: secs). by split; [constructor|].
Qed.

Lemma sections_from_spec i jobs :
  Forall (fun j => match_score j ≠ Null) jobs →
  if existsb (fun j => is_null (description j)) jobs
  then sections_from i jobs = Raise TypeError
  else ∃ t, sections_from i jobs = Ok t.
Proof.
  intros H. revert i; induction H as [|j jobs Hj _ IH]; intros i;
    cbn [sections_from existsb]; [eauto|].
  pose proof (job_section_spec i j Hj) as Hs. destruct (is_null (description j)); simpl.
  - by rewrite Hs.
  - destruct Hs as [t ->]. simpl. specialize (IH (S i)).
    destruct (existsb _ jobs); [by rewrite IH | destruct IH as [r ->]; simpl; eauto].
Qed.

Lemma shown_not_null jobs :
  existsb (fun j => is_null (match_score j)) jobs = false →
  Forall (fun j => match_score j ≠ Null) (shown jobs).
Proof.
  intros H%relevant_not_null. apply Forall_take. eapply Forall_impl; [done|].
  intros j (s & -> & _). done.
Qed.

Lemma report_error_spec jobs p :
  report_error jobs p =
  if existsb (fun j => is_null (match_score j)) jobs then Some TypeError
  else match header_error p with
       | Some e => Some e
       | None => if existsb (fun j => is_null (description j)) (shown jobs)
                 then Some TypeError else None
       end.
Proof.
  unfold report_error, header_error.
  by destruct (existsb _ jobs), (skills p), (preferred_locations p), (expected_salary p).
Qed.

(** The report tool, case by case. *)
Lemma report_generation_tool_spec now jobs p :
  match report_error jobs p with
  | Some e => report_generation_tool now jobs p = Failed (txt "Error generating report: ") e
  | None =>
      ∃ h t, header now (length (relevant jobs)) p = Ok h ∧
             sections_from 1 (shown jobs) = Ok t ∧
             report_generation_tool now jobs p = Reply (h ++ t ++ footer)
  end.
Proof.
  rewrite report_error_spec. unfold report_generation_tool, _generate_markdown_report.
  rewrite top_jobs_spec. destruct (existsb _ jobs) eqn:En; [done|]. simpl.
  pose proof (header_spec now (length (relevant jobs)) p) as Hh.
  destruct (header_error p) as [e|]; [by rewrite Hh|]. destruct Hh as [h Hh]. rewrite Hh. simpl.
  pose proof (sections_from_spec 1 (shown jobs) (shown_not_null jobs En)) as Hs.
  fold (shown jobs). destruct (existsb _ (shown jobs)); [by rewrite Hs|].
  destruct Hs as [t Hs]. rewrite Hs. simpl. eauto.
Qed.

(** Property C14: [report_generation_tool], case by case.  It fails exactly
    on a [null] match score anywhere in its input, on a profile whose
    skills or preferred locations are [null], whose expected salary is
    [null] or missing (the default "N/A" cannot be formatted with
    thousands separators), or on a [null] description among the postings
    it shows; the exception is that of the first of these in this order.
    Otherwise the report is the header, the sections and the closing part:
    the header counts every posting of score 70 or more; the sections,
    numbered from 1, show the first ten of them in the order of the input,
    which the tool does not sort. *)
Theorem report_generation_tool_cases now jobs p :
  match report_error jobs p with
  | Some e => report_generation_tool now jobs p = Failed (txt "Error generating report: ") e
  | None =>
      ∃ h secs,
        header now (length (relevant jobs)) p = Ok h ∧
        Forall2 (fun '(k, j) sec => job_section k j = Ok sec)
                (zip (seq 1 (length (shown jobs))) (shown jobs)) secs ∧
        Forall (fun j => (70 <= filter_score j)%Q) (shown jobs) ∧
        length secs = Nat.min 10 (length (relevant jobs)) ∧
        report_generation_tool now jobs p = Reply (h ++ concat secs ++ footer)
  end.
Proof.
  pose proof (report_generation_tool_spec now jobs p) as H.
  destruct (report_error jobs p) as [e'|]; [done|].
  destruct H as (h & t & Hh & (secs & Hs & ->)%sections_from_Ok & ->).
  exists h, secs. split_and!; [done | done | | | done].
  - apply Forall_take, Forall_forall. intros j. apply relevant_score.
  - apply Forall2_length in Hs. rewrite <-Hs, length_zip, length_seq. unfold shown.
    rewrite length_take. lia.
Qed.
End ReportClaims.

(** ** The numbers of the report *)

Section ReportNumbers.
#[local] Open Scope Q_scope.


End ReportNumbers.

(** ** The theorems at work on a small report *)

Definition ex_profile : profile :=
  Profile (Val (txt "Ann")) Absent (Val 5%Z) (Val [txt "python"; txt "aws"])
    (Val [txt "Remote"]) (Val 150000%Z) Absent.

Definition ex_posting (ti : string) (score : Q) : job :=
  Job (Val (txt ti)) (Val (txt "Acme")) (Val (txt "Remote")) (Val (txt "http://x/1"))
      (Val (txt "Python and AWS")) Absent Absent Absent Absent (Val score) Absent.

Definition ex_postings : list job :=
  [ex_posting "A" 90; ex_posting "B" 69; ex_posting "C" (725 # 10)].

Definition ex_report : text :=
  match report_generation_tool (txt "2025-01-01 00:00:00") ex_postings ex_profile with
  | Reply r => r
  | Failed _ _ => []
  end.

(** The report of the example postings: two of the three are shown. *)
Example report_generation_tool_example :
  report_error ex_postings ex_profile = None ∧
  length (shown ex_postings) = 2%nat ∧
  report_generation_tool (txt "2025-01-01 00:00:00") ex_postings ex_profile = Reply ex_report.
Proof. by vm_compute. Qed.
