(* ===== verification/Pipeline.v ===== *)
(** * Pipeline: the crew, its inputs, and the way of a posting through the tools

    [src/job_seeker/crew.py] declares five agents with their tools and five
    tasks with their contexts, runs them one after the other
    ([Process.sequential]), and prepares the inputs of a run in
    [run_job_search].  This file holds that declaration as data, the
    inputs as a function, and the theorem that joins the components: what
    the search tool returns can be evaluated, stored and reported without
    a failure.  The agents themselves are calls to a language model and
    are not part of the model: the theorem is about the tools applied to
    each other's output, as the contexts of the tasks hand it on. *)

From Stdlib Require Import Ascii ZArith QArith Lia Lqa.
From stdpp Require Import base list strings sorting.
From S2P Require Import Prelude Text Data Sorting Scorer Store Search Report.

(** ** The crew *)

(** The tools of [tools/job_search_tools.py]. *)
Inductive tool_name : Type :=
  | JobSearchTool
  | JobEvaluationTool
  | DatabaseTool
  | ReportGenerationTool.

#[export] Instance tool_name_eq_dec : EqDecision tool_name.
Proof. solve_decision. Defined.

(** The methods marked [@agent]. *)
Inductive agent : Type :=
  | job_search_agent
  | job_evaluator
  | database_manager
  | report_generator
  | application_coordinator.

(** [tools=[...]] of each agent; the coordinator has none. *)
Definition tools (a : agent) : list tool_name :=
  match a with
  | job_search_agent => [JobSearchTool]
  | job_evaluator => [JobEvaluationTool]
  | database_manager => [DatabaseTool]
  | report_generator => [ReportGenerationTool]
  | application_coordinator => []
  end.

(** The methods marked [@task]. *)
Inductive task : Type :=
  | job_search_task
  | job_evaluation_task
  | database_storage_task
  | report_generation_task
  | application_coordination_task.

#[export] Instance task_eq_dec : EqDecision task.
Proof. solve_decision. Defined.

(** [context=[...]]: the tasks whose output a task is given. *)
Definition context (t : task) : list task :=
  match t with
  | job_search_task => []
  | job_evaluation_task => [job_search_task]
  | database_storage_task => [job_evaluation_task]
  | report_generation_task => [job_evaluation_task]
  | application_coordination_task => [report_generation_task]
  end.

(** [output_file=...] *)
Definition output_file (t : task) : option text :=
  match t with
  | report_generation_task => Some (txt "job_search_report.md")
  | application_coordination_task => Some (txt "application_strategy.md")
  | _ => None
  end.

(** [self.tasks]: the tasks in the order of their declaration, which is
    the order [Process.sequential] runs them in. *)
Definition tasks : list task :=
  [ job_search_task; job_evaluation_task; database_storage_task;
    report_generation_task; application_coordination_task ].

(** ** The inputs of a run *)

(** The decoded profile file: the keys the tools read, and the names of
    its other keys (a dictionary is empty when it has no key at all). *)
Record profile_dict : Type := ProfileDict {
  keys : profile;
  others : list text;
}.

Definition absent {A} (f : field A) : bool :=
  match f with Absent => true | _ => false end.

(** [{}] *)
Definition empty_dict : profile_dict :=
  ProfileDict (Profile Absent Absent Absent Absent Absent Absent Absent) [].

(** [not user_profile] *)
Definition is_empty (d : profile_dict) : bool :=
  let p := keys d in
  absent (name p) && absent (current_role p) && absent (years_experience p) &&
  absent (skills p) && absent (preferred_locations p) && absent (expected_salary p) &&
  absent (preferred_company_type p) && bool_decide (others d = []).

(** [os.path.join(os.path.dirname(__file__), '..', '..', 'knowledge',
    'resume_template.json')]: the steps from the directory of [crew.py]
    to the profile file. *)
Definition profile_path : list text :=
  map txt [".."; ".."; "knowledge"; "resume_template.json"]%string.

(** What opening and decoding the profile file gives: the two exceptions
    that [load_user_profile] catches, the decoded object, or any other
    exception of [open] and [json.load] (no permission, a directory, bytes
    that are no text). *)
Inductive file_outcome : Type :=
  | FileNotFound
  | JSONDecodeError
  | Decoded (d : profile_dict)
  | OtherError (e : exn).

(** [load_user_profile]: the profile, or [{}] when the file is missing or
    is no JSON; another exception is not caught. *)
Definition load_user_profile (file : file_outcome) : result profile_dict :=
  match file with
  | Decoded d => Ok d
  | FileNotFound | JSONDecodeError => Ok empty_dict
  | OtherError e => Raise e
  end.

(** The sites of [run_job_search] when none are given. *)
Definition crew_sites : list text := map txt
  [ "indeed.com"; "linkedin.com/jobs"; "glassdoor.com"; "dice.com"; "remote.co";
    "angel.co"; "stackoverflow.com/jobs"; "github.com/careers";
    "weworkremotely.com"; "flexjobs.com" ]%string.

(** [f"{current_role} {skills[0] if skills else ''}"] *)
Definition query_of (p : profile) : text :=
  show (current_role p) "Software Engineer" ++ txt " " ++
  match skills p with
  | Val (skill :: _) => skill
  | _ => []
  end.

(** The dictionary handed to [kickoff]. *)
Record inputs : Type := Inputs {
  user_profile : profile_dict;
  job_sites : list text;
  search_query : text;
}.

(** [run_job_search], up to the start of the crew: the inputs it starts
    the crew with, or [None] when it returns before; the profile file is
    read, outside the [try], only when no profile is given. *)
Definition run_job_search (file : file_outcome) (given_profile : option profile_dict)
    (given_sites : option (list text)) : result (option inputs) :=
  profile ← match given_profile with
            | None => load_user_profile file
            | Some d => Ok d
            end;
  Ok (if is_empty profile then None
      else Some (Inputs profile
                   (match given_sites with
                    | Some (site :: sites) => site :: sites
                    | _ => crew_sites
                    end)
                   (query_of (keys profile)))).

(** ** Specification vocabulary *)

(** [t] is run before [u]. *)
Definition before (t u : task) : Prop :=
  ∃ i j, tasks !! i = Some t ∧ tasks !! j = Some u ∧ i < j.

(** A profile the scorer can read: none of the keys it needs is [null]. *)
Definition usable (p : profile) : Prop :=
  skills p ≠ Null ∧ years_experience p ≠ Null ∧ preferred_locations p ≠ Null.

(** An evaluated posting: complete, with a score between 0 and 100. *)
Definition scored (r : job) : Prop :=
  complete r ∧ ∃ s, match_score r = Val s ∧ (0 <= s)%Q ∧ (s <= 100)%Q.

(** ** The order of the tasks *)

Section Crew.
Implicit Types (t u : task).

Lemma tasks_all t : t ∈ tasks.
Proof. destruct t; unfold tasks; repeat constructor. Qed.

Lemma tasks_NoDup : NoDup tasks.
Proof. compute_done. Qed.

(** A task is given the output of tasks that have run: the declaration
    order is an order of the context graph. *)
Lemma context_before t u : u ∈ context t → before u t.
Proof.
  unfold before.
  destruct t; simpl; intros Hu;
    repeat match goal with
           | H : _ ∈ _ :: _ |- _ => apply elem_of_cons in H as [->|H]
           | H : _ ∈ [] |- _ => by apply elem_of_nil in H
           end.
  - exists 0, 1. split_and!; [done..|lia].
  - exists 1, 2. split_and!; [done..|lia].
  - exists 1, 3. split_and!; [done..|lia].
  - exists 3, 4. split_and!; [done..|lia].
Qed.

(** The evaluation is the only task read by two others, and the store is
    read by none: the report is made from the evaluated postings, not
    from the database. *)
Lemma context_of_evaluation t :
  job_evaluation_task ∈ context t ↔ t = database_storage_task ∨ t = report_generation_task.
Proof.
  destruct t; simpl; rewrite ?elem_of_cons, ?elem_of_nil; intuition congruence.
Qed.

Lemma storage_is_a_leaf t : database_storage_task ∉ context t.
Proof. destruct t; simpl; rewrite ?elem_of_cons, ?elem_of_nil; intuition congruence. Qed.
End Crew.

(** ** From the search to the report *)

Section Flow.
Implicit Types (j r : job) (p : profile) (d : db) (jobs : list job).

Lemma complete_score_error j p : complete j → usable p → score_error j p = None.
Proof.
  intros (_ & _ & [c Hc] & [l Hl] & [de Hd] & _) (Hs & Hy & Hp).
  unfold score_error. rewrite Hc, Hl, Hd. simpl.
  destruct (skills p), (years_experience p), (preferred_locations p); try done;
    simpl; by rewrite andb_false_r.
Qed.

Lemma complete_storable j : complete j → storable j = true.
Proof. intros ([t [Ht _]] & _ & [c Hc] & _). unfold storable. by rewrite Ht, Hc. Qed.

Lemma existsb_Forall_false {A} (f : A → bool) (l : list A) :
  Forall (fun x => f x = false) l → existsb f l = false.
Proof. induction 1 as [|x l Hx _ IH]; [done|]. simpl. by rewrite Hx, IH. Qed.

Lemma store_all now jobs d :
  Forall (fun j => storable j = true) jobs → (_store_jobs now jobs d).2 = length jobs.
Proof.
  intros H. unfold _store_jobs.
  pose proof (store_loop_count now jobs (_init_database d) 0) as Hc.
  destruct (store_loop now jobs (_init_database d) 0) as [t n]. simpl in *.
  by rewrite Hc, filter_all.
Qed.

Lemma report_of_scored now jobs p :
  Forall scored jobs → header_error p = None →
  ∃ report, report_generation_tool now jobs p = Reply report.
Proof.
  intros Hall Hp. pose proof (report_generation_tool_spec now jobs p) as H.
  rewrite report_error_spec, Hp in H.
  rewrite !existsb_Forall_false in H.
  - destruct H as (h & t & _ & _ & ->). eauto.
  - apply Forall_take, Forall_forall. intros j [_ Hj]%list_elem_of_filter.
    rewrite Forall_forall in Hall.
    by destruct (Hall j Hj) as ((_ & _ & _ & _ & [de ->] & _) & _).
  - eapply Forall_impl; [done|]. by intros j (_ & s & -> & _).
Qed.

(** What the evaluation returns is sorted, so the postings of score 70
    or more stand first and the report, which does not sort, shows the
    best of them: no posting left out is scored above a posting shown. *)
Lemma shown_best clock jobs p evaluated :
  job_evaluation_tool clock jobs p = Reply evaluated →
  shown evaluated `prefix_of` evaluated ∧
  ∀ x y, x ∈ shown evaluated → y ∈ drop (length (shown evaluated)) evaluated →
         (score_of y <= score_of x)%Q.
Proof.
  intros (l & _ & ->)%job_evaluation_tool_Reply.
  pose proof (sorts_ordered _ _ (stable_sort_sorts by_score_desc) l) as Hord.
  set (out := stable_sort by_score_desc l) in *.
  assert (shown out `prefix_of` out) as Hpre.
  { trans (relevant out); [apply prefix_take|].
    apply (ordered_filter_prefix by_score_desc); [|done].
    intros x y Hxy%Qle_bool_iff Hy%Qle_bool_iff. apply Qle_bool_iff.
    change (filter_score ?j) with (score_of j) in *. by eapply Qle_trans. }
  split; [done|]. intros x y [i Hi]%list_elem_of_lookup [k Hk]%list_elem_of_lookup.
  rewrite lookup_drop in Hk. apply Qle_bool_iff. change (by_score_desc x y = true).
  eapply (ordered_lookup by_score_desc out i (length (shown out) + k)); [done | | | done].
  - apply lookup_lt_Some in Hi. lia.
  - by eapply prefix_lookup_Some.
Qed.
End Flow.

Section FlowClaims.
Context (serper_tool : provider) (clock : nat → text) (now : text).
Implicit Types (p : profile) (d : db) (query : text).

Lemma found_complete query sites max_results :
  Forall complete (results (job_search_tool serper_tool query sites max_results)).
Proof.
  unfold job_search_tool. rewrite search_sites_spec. simpl.
  apply (sites_results_complete serper_tool query max_results 0).
Qed.

Lemma evaluated_scored p jobs out :
  Forall complete jobs → job_evaluation_tool clock jobs p = Reply out →
  Forall scored out ∧ length out = length jobs.
Proof.
  intros Hc Hr. split; [|by eapply job_evaluation_tool_length].
  apply job_evaluation_tool_Reply in Hr as (l & Hl%evaluate_from_scored & ->).
  rewrite (sorts_perm _ _ (stable_sort_sorts by_score_desc)).
  eapply Forall_impl; [done|]. intros r (j & s & date & Hj & -> & ? & ?).
  rewrite Forall_forall in Hc. split; [apply (Hc j Hj) | by exists s].
Qed.

(** The postings the search tool returns pass through the
    other tools without a failure, whatever the provider answers.  With a
    profile whose skills, years of experience and preferred locations are
    not [null], the evaluation tool returns them all, each with a score
    between 0 and 100; the database tool stores every one of them and
    keeps the table well-formed; the report tool writes a report
    whenever the profile has the keys its header needs; and since the
    evaluation sorts, the report, which does not, shows the best: no
    posting it leaves out is scored above a posting it shows. *)
Lemma search_results_flow query sites max_results p d :
  usable p →
  let found := results (job_search_tool serper_tool query sites max_results) in
  ∃ evaluated d',
    job_evaluation_tool clock found p = Reply evaluated ∧
    Forall scored evaluated ∧
    database_tool now (Store evaluated) d = (d', Reply (Stored (length found))) ∧
    (db_ok d → db_ok d') ∧
    (header_error p = None →
     ∃ report, report_generation_tool now evaluated p = Reply report) ∧
    (∀ x y, x ∈ shown evaluated → y ∈ drop (length (shown evaluated)) evaluated →
            (score_of y <= score_of x)%Q).
Proof.
  intros Hp found. pose proof (found_complete query sites max_results) as Hc. fold found in Hc.
  destruct (evaluate_from_total clock 0 p found) as [l Hl].
  { eapply Forall_impl; [done|]. intros j Hj. by apply complete_score_error. }
  assert (job_evaluation_tool clock found p = Reply (stable_sort by_score_desc l)) as Hr
    by (apply job_evaluation_tool_Reply; eauto).
  destruct (evaluated_scored p found _ Hc Hr) as [Hs Hlen].
  exists (stable_sort by_score_desc l), (_store_jobs now (stable_sort by_score_desc l) d).1.
  split_and!; [done | done | | apply _store_jobs_ok | by apply report_of_scored
              | by eapply shown_best].
  unfold database_tool. rewrite <-Hlen, <-(store_all now _ d).
  - by destruct (_store_jobs _ _ _).
  - eapply Forall_impl; [done|]. intros j [Hj _]. by apply complete_storable.
Qed.
End FlowClaims.

(** ** The inputs of a run *)

Section Inputs.
Implicit Types (file : file_outcome) (i : inputs).

Lemma load_user_profile_empty file :
  (∃ d, load_user_profile file = Ok d ∧ is_empty d = true) ↔
  file = FileNotFound ∨ file = JSONDecodeError ∨ ∃ d, file = Decoded d ∧ is_empty d = true.
Proof. destruct file as [| |d|e]; simpl; split; try (by eauto); naive_solver. Qed.

(** The profile that a search goes on with. *)
Lemma load_user_profile_Ok file d :
  load_user_profile file = Ok d ↔
  file = Decoded d ∨ (d = empty_dict ∧ (file = FileNotFound ∨ file = JSONDecodeError)).
Proof. destruct file as [| |d'|e]; simpl; split; naive_solver. Qed.

Lemma query_of_space p : ∃ role skill, query_of p = role ++ txt " " ++ skill ∧
  (skill = [] ↔ ¬ ∃ s rest, skills p = Val (s :: rest) ∧ s ≠ []).
Proof.
  unfold query_of. eexists _, _. split; [done|].
  destruct (skills p) as [| |[|s rest]]; try (split; [intros _ (? & ? & ? & ?); congruence | done]).
  split; [intros -> (? & ? & [= <- <-] & ?); done |].
  intros H. destruct s; [done|]. destruct H. eexists _, _. done.
Qed.

(** The profile [run_job_search] works with: the one it is given, or
    else the one of the file. *)
Definition profile_of (file : file_outcome) (given_profile : option profile_dict)
    : result profile_dict :=
  match given_profile with
  | None => load_user_profile file
  | Some d => Ok d
  end.

(** [run_job_search] starts the crew exactly when the profile it is
    given, or else the profile file, holds a key: with no profile given
    and a file that is missing or is no JSON it starts nothing, and with
    a file that cannot be read it raises.  The crew is started with the
    profile, with the given sites or, when none or an empty list is
    given, the ten default sites, which are not the eight of the search
    tool, and with the query made of the current role, a space and the
    first skill. *)
Lemma run_job_search_spec file given_profile given_sites :
  (run_job_search FileNotFound None given_sites = Ok None ∧
   run_job_search JSONDecodeError None given_sites = Ok None) ∧
  (∀ e, run_job_search file given_profile given_sites = Raise e ↔
        given_profile = None ∧ file = OtherError e) ∧
  (run_job_search file given_profile given_sites = Ok None ↔
   ∃ d, profile_of file given_profile = Ok d ∧ is_empty d = true) ∧
  (∀ i, run_job_search file given_profile given_sites = Ok (Some i) →
     profile_of file given_profile = Ok (user_profile i) ∧
     job_sites i ≠ [] ∧
     (given_sites = Some (job_sites i) ∨
      (job_sites i = crew_sites ∧ (given_sites = None ∨ given_sites = Some []))) ∧
     search_query i = query_of (keys (user_profile i))) ∧
  length crew_sites = 10 ∧ length default_sites = 8 ∧
  txt "monster.com" ∈ default_sites ∧ txt "monster.com" ∉ crew_sites.
Proof.
  unfold run_job_search. fold (profile_of file given_profile). split_and!; try done.
  - intros e. unfold profile_of.
    destruct given_profile, file; simpl; split; try done;
      try (by intros [[=] _]); try (by intros [_ [=]]);
      [by intros [= ->] | by intros [_ [= ->]]].
  - destruct (profile_of file given_profile) as [d|e]; simpl;
      [|by split; [|intros (? & ? & ?)]].
    destruct (is_empty d) eqn:E;
      (split; [by eauto | intros (? & [= <-] & ?); congruence]).
  - intros i Hi. destruct (profile_of file given_profile) as [d|e]; simpl in *; [|done].
    destruct (is_empty d); try done. injection Hi as <-. simpl.
    split_and!; [done | | | done]; destruct given_sites as [[|s l]|]; try done; eauto.
  - unfold default_sites. simpl. rewrite !elem_of_cons. tauto.
  - unfold crew_sites. simpl. rewrite !elem_of_cons, elem_of_nil. intuition congruence.
Qed.
End Inputs.

(** ** A run on concrete input *)

(** A provider that is down: every call raises. *)
Definition down : provider := fun _ _ => Raise OperationalError.

Definition ex_clock (i : nat) : text := txt "2025-01-01T00:00:0" ++ str_of_N (N.of_nat i).

Lemma search_results_flow_witness :
  ∃ evaluated d',
    job_evaluation_tool ex_clock
      (results (job_search_tool down (txt "AI") (Some [txt "indeed.com"]) 2)) ex_profile =
      Reply evaluated ∧
    Forall scored evaluated ∧
    database_tool (txt "2025-01-01 00:00:00") (Store evaluated) None =
      (d', Reply (Stored
         (length (results (job_search_tool down (txt "AI") (Some [txt "indeed.com"]) 2))))) ∧
    (db_ok None → db_ok d') ∧
    (header_error ex_profile = None →
     ∃ report, report_generation_tool (txt "2025-01-01 00:00:00") evaluated ex_profile =
               Reply report) ∧
    (∀ x y, x ∈ shown evaluated → y ∈ drop (length (shown evaluated)) evaluated →
            (score_of y <= score_of x)%Q).
Proof.
  apply (search_results_flow down ex_clock (txt "2025-01-01 00:00:00") (txt "AI")
           (Some [txt "indeed.com"]) 2 ex_profile None).
  repeat split; done.
Defined.
