(* ===== verification/Wire.v ===== *)
(** * Wire: the tools as they are called

    The agents call the tools of
    [src/job_seeker/tools/job_search_tools.py] with JSON text and read text
    back: each tool decodes its arguments with [json.loads] inside its
    [try], works on the decoded values as the other files describe, and
    encodes its result with [json.dumps].  This file adds that boundary.
    The JSON library is an interface ([Codec]): a printer and a parser for
    the values of one shape, of which the theorems assume nothing but, where
    they say so, that a value printed is parsed back ([roundtrips]).  Text
    that is JSON of another shape than a tool expects is outside the
    model.

    [database_tool_json] is the tool with its action as a string and its
    data as text or [None]; [wire_action] and [database_tool_json_spec]
    relate it to the tool on decoded values of [Store].  The last section
    runs the tools on each other's output, as text. *)

From Stdlib Require Import Ascii ZArith QArith Lia String.
From stdpp Require Import base list strings.
From Ceres Require Import Ceres.
From S2P Require Import Prelude Text Data Sorting Scorer Store Search Report Pipeline.

(** ** The JSON library *)

(** [json.dumps] and [json.loads] on the values of one shape; [loads]
    raises ([json.JSONDecodeError], a [ValueError]) on text that is no
    JSON. *)
Class Codec (A : Type) : Type := {
  dumps : A → text;
  loads : text → result A;
}.

(** A value that is parsed back from its text. *)
Definition roundtrips {A} `{Codec A} (a : A) : Prop := loads (dumps a) = Ok a.

(** The payload of a reply, encoded. *)
Definition reply_map {A B} (f : A → B) (r : reply A) : reply B :=
  match r with
  | Reply a => Reply (f a)
  | Failed prefix e => Failed prefix e
  end.

Section Tools.
Context `{Codec (list job), Codec profile, Codec filters, Codec update_data, Codec (list row)}.

(** The integer that SQLite compares with [id] when the parameter of
    [WHERE id = ?] is text: the column's affinity turns text that is a
    number into the number; other text equals no id. *)
Context (sql_integer : text → option Z).

(** ** Search, evaluation and report *)

(** [return json.dumps(results, indent=2)] *)
Definition job_search_tool_json (serper_tool : provider) (query : text)
    (sites : option (list text)) (max_results : Z) : text :=
  dumps (results (job_search_tool serper_tool query sites max_results)).

(** [job_evaluation_tool]: both arguments are decoded inside the [try],
    the postings first. *)
Definition job_evaluation_tool_json (clock : nat → text) (job_data user_profile : text)
    : reply text :=
  guarded "Error evaluating jobs: "
    (jobs ← loads job_data;
     profile ← loads user_profile;
     evaluated_jobs ← evaluate_from clock 0 profile jobs;
     Ok (dumps (stable_sort by_score_desc evaluated_jobs))).

(** [report_generation_tool] *)
Definition report_generation_tool_json (now : text) (jobs_data user_profile : text)
    : reply text :=
  guarded "Error generating report: "
    (jobs ← loads jobs_data;
     profile ← loads user_profile;
     top ← top_jobs jobs;
     _generate_markdown_report now top profile).

(** ** The database tool *)

(** [f"Stored {stored_count} job opportunities in database"] *)
Definition stored_message (stored_count : nat) : text :=
  txt "Stored " ++ str_of_N (N.of_nat stored_count) ++ txt " job opportunities in database".

(** What the tool returns for an answer; [job_id] is the data of a
    delete as it was passed, which the message repeats. *)
Definition show_answer (job_id : option text) (a : answer) : text :=
  match a with
  | Stored stored_count => stored_message stored_count
  | Retrieved jobs => dumps jobs
  | IdRequired => txt "Job ID is required for updates"
  | Updated k => txt "Updated job " ++ str_of_Z k ++ txt " successfully"
  | Deleted _ => txt "Deleted job " ++ default (txt "None") job_id ++ txt " successfully"
  | UnknownAction name => txt "Unknown action: " ++ name
  end.

(** [_store_jobs]: the table is created before the data is decoded; data
    that is [None] is not decoded, and the loop over it raises. *)
Definition _store_jobs_json (now : text) (jobs_json : option text) (d : db)
    : db * result text :=
  match jobs_json with
  | Some s =>
      match loads s with
      | Ok jobs =>
          let '(d', stored_count) := _store_jobs now jobs d in
          (d', Ok (stored_message stored_count))
      | Raise e => (Some (_init_database d), Raise e)
      end
  | None => (Some (_init_database d), Raise TypeError)
  end.

(** [_retrieve_jobs]: [if filters_json:] skips the decoding for [None] and
    for the empty string. *)
Definition _retrieve_jobs_json (filters_json : option text) (d : db) : db * result text :=
  match filters_json with
  | Some s =>
      if truthy s then
        match loads s with
        | Ok f => let '(d', r) := _retrieve_jobs (Some f) d in (d', dumps <$> r)
        | Raise e => (Some (_init_database d), Raise e)
        end
      else let '(d', r) := _retrieve_jobs None d in (d', dumps <$> r)
  | None => let '(d', r) := _retrieve_jobs None d in (d', dumps <$> r)
  end.

(** [_update_job]: the data is decoded first; [json.loads(None)] raises. *)
Definition _update_job_json (update_data : option text) (d : db) : db * result text :=
  match update_data with
  | Some s =>
      match loads s with
      | Ok data => let '(d', r) := _update_job data d in (d', show_answer None <$> r)
      | Raise e => (d, Raise e)
      end
  | None => (d, Raise TypeError)
  end.

(** [_delete_job]: the data is the parameter of the statement, as it is. *)
Definition _delete_job_json (job_id : option text) (d : db) : db * result text :=
  let '(d', r) := _delete_job (job_id ≫= sql_integer) d in
  (d', (fun _ => show_answer job_id (Deleted (job_id ≫= sql_integer))) <$> r).

(** [database_tool] *)
Definition database_tool_json (now : text) (action : text) (data : option text) (d : db)
    : db * reply text :=
  let '(d', r) :=
    if bool_decide (action = txt "store") then _store_jobs_json now data d
    else if bool_decide (action = txt "retrieve") then _retrieve_jobs_json data d
    else if bool_decide (action = txt "update") then _update_job_json data d
    else if bool_decide (action = txt "delete") then _delete_job_json data d
    else (d, Ok (show_answer None (UnknownAction action))) in
  (d', guarded "Database error: " r).

(** ** Specification vocabulary *)

(** The action and its decoded argument, when the call has one. *)
Definition wire_action (action : text) (data : option text) : result Store.action :=
  if bool_decide (action = txt "store") then
    match data with
    | Some s => Store <$> loads s
    | None => Raise TypeError
    end
  else if bool_decide (action = txt "retrieve") then
    match data with
    | Some s => if truthy s then (fun f => Retrieve (Some f)) <$> loads s else Ok (Retrieve None)
    | None => Ok (Retrieve None)
    end
  else if bool_decide (action = txt "update") then
    match data with
    | Some s => Update <$> loads s
    | None => Raise TypeError
    end
  else if bool_decide (action = txt "delete") then Ok (Delete (data ≫= sql_integer))
  else Ok (Other action).

(** The actions that create the table before they look at their data. *)
Definition creates_table (action : text) : bool :=
  bool_decide (action = txt "store") || bool_decide (action = txt "retrieve").

End Tools.

(** ** The database tool and its decoded form *)

Section DatabaseJson.
Context `{Codec (list job), Codec profile, Codec filters, Codec update_data, Codec (list row)}.
Context (sql_integer : text → option Z).
Implicit Types (action s : text) (data : option text) (d : db) (a : Store.action).

(** The four names of actions are distinct, so a call takes the branch of
    its name. *)
Ltac by_action :=
  unfold database_tool_json, wire_action, creates_table;
  repeat (case_bool_decide; simplify_eq; simpl).

(** A call whose data decodes does what the tool of [Store] does with the
    decoded action, and says it in text. *)
Lemma database_tool_json_decoded now action data d a :
  wire_action sql_integer action data = Ok a →
  database_tool_json sql_integer now action data d =
    ((database_tool now a d).1, reply_map (show_answer data) (database_tool now a d).2).
Proof.
  by_action.
  - destruct data as [s|]; [|done]. simpl. unfold _store_jobs_json.
    destruct (loads s) as [jobs|]; intros [= <-]. simpl. by destruct (_store_jobs now jobs d).
  - unfold _retrieve_jobs_json. destruct data as [s|]; [destruct (truthy s)|]; simpl;
      try (by intros [= <-]).
    destruct (loads s) as [f|]; by intros [= <-].
  - unfold _update_job_json. destruct data as [s|]; [|done]. simpl.
    destruct (loads s) as [u|]; intros [= <-]. simpl.
    destruct (_update_job u d) as [d' [ans|e]] eqn:E; simpl; [|done].
    by apply _update_job_answer in E as [-> | [k ->]].
  - intros [= <-]. simpl. unfold _delete_job_json. by destruct d.
  - by intros [= <-].
Qed.

(** A call whose data does not decode is answered with the error; before
    that, [store] and [retrieve] have created the table. *)
Lemma database_tool_json_undecoded now action data d e :
  wire_action sql_integer action data = Raise e →
  database_tool_json sql_integer now action data d =
    (if creates_table action then Some (_init_database d) else d,
     Failed (txt "Database error: ") e).
Proof.
  by_action; try done.
  - unfold _store_jobs_json. destruct data as [s|]; simpl; [|by intros [= <-]].
    destruct (loads s); by intros [= <-].
  - unfold _retrieve_jobs_json. destruct data as [s|]; [|done]. destruct (truthy s); [|done].
    simpl. destruct (loads s); by intros [= <-].
  - unfold _update_job_json. destruct data as [s|]; simpl; [|by intros [= <-]].
    destruct (loads s); by intros [= <-].
Qed.

(** Whatever is passed, the table stays well-formed. *)
Lemma database_tool_json_ok now action data d :
  db_ok d → db_ok (database_tool_json sql_integer now action data d).1.
Proof.
  intros Hd. destruct (wire_action sql_integer action data) as [a|e] eqn:E.
  - rewrite (database_tool_json_decoded _ _ _ _ _ E). by apply database_tool_ok.
  - rewrite (database_tool_json_undecoded _ _ _ _ _ E).
    destruct (creates_table action); [by apply init_ok | done].
Qed.

(** Property C26: the database tool at its boundary.  A call with an action
    and data that decode does what the tool does on the decoded action,
    and returns its answer as text.  A call whose data is no JSON, or is
    missing where the action reads it, is answered "Database error: ..."
    with the exception of the decoder; [store] and [retrieve] have then
    already created the table, [update] has not.  Whatever is passed, the
    table stays well-formed, and a call that is answered with an error
    changes no row. *)
Theorem database_tool_json_spec now action data d :
  match wire_action sql_integer action data with
  | Ok a =>
      database_tool_json sql_integer now action data d =
        ((database_tool now a d).1, reply_map (show_answer data) (database_tool now a d).2)
  | Raise e =>
      database_tool_json sql_integer now action data d =
        (if creates_table action then Some (_init_database d) else d,
         Failed (txt "Database error: ") e)
  end ∧
  (db_ok d → db_ok (database_tool_json sql_integer now action data d).1) ∧
  (∀ d' prefix e, database_tool_json sql_integer now action data d = (d', Failed prefix e) →
                  rows_of d' = rows_of d).
Proof.
  destruct (wire_action sql_integer action data) as [a|e] eqn:E.
  - rewrite (database_tool_json_decoded _ _ _ _ _ E). split_and!; [done | apply database_tool_ok |].
    intros d' prefix e. destruct (database_tool now a d) as [d1 [ans|p1 e1]] eqn:Ed; [done|].
    intros [= <- _ _]. by eapply database_tool_Failed_rows.
  - split_and!; [by apply database_tool_json_undecoded | apply database_tool_json_ok |].
    rewrite (database_tool_json_undecoded _ _ _ _ _ E).
    intros d' prefix e' [= <- _ _]. destruct (creates_table action); [apply rows_init | done].
Qed.
End DatabaseJson.

(** ** From the search to the report, through text *)

Section FlowJson.
Context `{Codec (list job), Codec profile, Codec filters, Codec update_data, Codec (list row)}.
Context (sql_integer : text → option Z).
Context (serper_tool : provider) (clock : nat → text) (now : text).
Implicit Types (p : profile) (d : db) (query : text) (jobs : list job).

(** On text that decodes, the tools are the tools of the other files. *)
Lemma job_evaluation_tool_json_decoded job_data user_profile jobs p :
  loads job_data = Ok jobs → loads user_profile = Ok p →
  job_evaluation_tool_json clock job_data user_profile =
    reply_map dumps (job_evaluation_tool clock jobs p).
Proof.
  intros Hj Hp. unfold job_evaluation_tool_json, job_evaluation_tool. rewrite Hj, Hp. simpl.
  by destruct (evaluate_from clock 0 p jobs).
Qed.

Lemma report_generation_tool_json_decoded jobs_data user_profile jobs p :
  loads jobs_data = Ok jobs → loads user_profile = Ok p →
  report_generation_tool_json now jobs_data user_profile = report_generation_tool now jobs p.
Proof. intros Hj Hp. unfold report_generation_tool_json. by rewrite Hj, Hp. Qed.

(** Property C15: the tools fit, as the agents chain them.  The text that
    the search tool returns is what the evaluation tool decodes; with a
    profile whose skills, years of experience and preferred locations are
    not [null], it returns all postings, each with a score between 0 and
    100, highest score first.  From that text the database tool stores
    every posting and keeps the table well-formed, and the report tool
    writes a report whenever the profile has the keys of its header; the
    report, which does not sort, then shows the best postings: none that
    it leaves out is scored above one it shows.  No tool answers with an
    error, whatever the provider does, as long as the JSON library reads
    back what it wrote. *)
Theorem tools_compose_json query sites max_results p d :
  usable p →
  let found := results (job_search_tool serper_tool query sites max_results) in
  roundtrips found → roundtrips p →
  ∃ evaluated,
    job_evaluation_tool_json clock
      (job_search_tool_json serper_tool query sites max_results) (dumps p) =
      Reply (dumps evaluated) ∧
    Forall scored evaluated ∧
    (roundtrips evaluated →
     (∃ d', database_tool_json sql_integer now (txt "store") (Some (dumps evaluated)) d =
              (d', Reply (stored_message (length found))) ∧
            (db_ok d → db_ok d')) ∧
     (header_error p = None →
      ∃ report, report_generation_tool_json now (dumps evaluated) (dumps p) = Reply report) ∧
     (∀ x y, x ∈ shown evaluated → y ∈ drop (length (shown evaluated)) evaluated →
             (score_of y <= score_of x)%Q)).
Proof.
  intros Hp found Hfound Hprofile.
  destruct (search_results_flow serper_tool clock now query sites max_results p d Hp)
    as (evaluated & d' & He & Hs & Hd & Hok & Hr & Hbest).
  exists evaluated. fold found in He, Hd. split_and!; [|done|].
  - unfold job_search_tool_json. fold found.
    by rewrite (job_evaluation_tool_json_decoded _ _ found p), He.
  - intros Hev. split_and!; [|intros Hh|done].
    + exists d'. split; [|done].
      rewrite (database_tool_json_decoded _ _ _ _ _ (Store evaluated)), Hd; [done|].
      unfold wire_action. simpl. by rewrite Hev.
    + destruct (Hr Hh) as [report Hrep]. exists report.
      by rewrite (report_generation_tool_json_decoded _ _ evaluated p).
Qed.
End FlowJson.

(** ** Text that does not decode *)

Section Undecoded.
Context `{Codec (list job), Codec profile}.

(** The evaluation tool and the report tool answer text that is no JSON
    with their error message; the postings are decoded first, so their
    error is the one reported when both arguments are bad. *)
Lemma json_tools_undecoded clock now (jobs_data user_profile : text) e :
  (loads (A := list job) jobs_data = Raise e ∨
   (∃ jobs, loads (A := list job) jobs_data = Ok jobs) ∧
   loads (A := profile) user_profile = Raise e) →
  job_evaluation_tool_json clock jobs_data user_profile =
    Failed (txt "Error evaluating jobs: ") e ∧
  report_generation_tool_json now jobs_data user_profile =
    Failed (txt "Error generating report: ") e.
Proof.
  unfold job_evaluation_tool_json, report_generation_tool_json.
  intros [-> | [[jobs ->] ->]]; by split.
Qed.
End Undecoded.

(** ** A codec that computes *)

(** S-expressions stand in for JSON: Ceres gives a printer and a parser
    for each type, so that the tools run on text and the round trips of
    concrete values are checked by computation. *)

#[local] Instance Serialize_text : Serialize text :=
  fun s => to_sexp (string_of_list_ascii s).

#[local] Instance Deserialize_text : Deserialize text :=
  fun l e => match from_sexp (A := string) e with
             | inr s => inr (list_ascii_of_string s)
             | inl err => inl err
             end.

#[local] Instance Serialize_field {A} `{Serialize A} : Serialize (field A) :=
  fun f => match f with
           | Absent => Atom "absent"
           | Null => Atom "null"
           | Val v => [Atom "val"; to_sexp v]
           end%sexp.

#[local] Instance Deserialize_field {A} `{Deserialize A} : Deserialize (field A) :=
  Deser.match_con "field" [("absent", Absent); ("null", Null)] [("val", Deser.con1_ Val)].

#[local] Instance Serialize_Q : Serialize Q :=
  fun q => [to_sexp (Qnum q); to_sexp (Zpos (Qden q))]%sexp.

#[local] Instance Deserialize_Q : Deserialize Q :=
  fun l e => match from_sexp (A := Z * Z) e with
             | inr (n, d) => inr (Qmake n (Z.to_pos d))
             | inl err => inl err
             end.

#[local] Instance Serialize_job : Serialize job :=
  fun j => [Atom "job"; to_sexp (title j); to_sexp (company j); to_sexp (location j);
            to_sexp (url j); to_sexp (description j); to_sexp (posted_date j);
            to_sexp (salary_range j); to_sexp (site j); to_sexp (job_type j);
            to_sexp (match_score j); to_sexp (evaluation_date j)]%sexp.

#[local] Instance Deserialize_job : Deserialize job :=
  Deser.match_con "job" [] [("job", Deser.con_ Job)].

#[local] Instance Serialize_profile : Serialize profile :=
  fun p => [Atom "profile"; to_sexp (name p); to_sexp (current_role p);
            to_sexp (years_experience p); to_sexp (skills p);
            to_sexp (preferred_locations p); to_sexp (expected_salary p);
            to_sexp (preferred_company_type p)]%sexp.

#[local] Instance Deserialize_profile : Deserialize profile :=
  Deser.match_con "profile" [] [("profile", Deser.con_ Profile)].

#[local] Instance Serialize_row : Serialize row :=
  fun r => [Atom "row"; to_sexp (id r); to_sexp (r_title r); to_sexp (r_company r);
            to_sexp (r_location r); to_sexp (r_url r); to_sexp (r_description r);
            to_sexp (r_salary_range r); to_sexp (r_posted_date r); to_sexp (r_site r);
            to_sexp (r_job_type r); to_sexp (r_match_score r);
            to_sexp (r_evaluation_date r); to_sexp (r_applied r);
            to_sexp (r_application_date r); to_sexp (r_created_at r)]%sexp.

#[local] Instance Deserialize_row : Deserialize row :=
  Deser.match_con "row" [] [("row", Deser.con_ Row)].

#[local] Instance Serialize_filters : Serialize filters :=
  fun f => [Atom "filters"; to_sexp (min_score f); to_sexp (limit f)]%sexp.

#[local] Instance Deserialize_filters : Deserialize filters :=
  Deser.match_con "filters" [] [("filters", Deser.con_ Filters)].

#[local] Instance Serialize_text_column : Serialize text_column :=
  fun c => match c with
           | c_title => Atom "title" | c_company => Atom "company"
           | c_location => Atom "location" | c_url => Atom "url"
           | c_description => Atom "description" | c_salary_range => Atom "salary_range"
           | c_posted_date => Atom "posted_date" | c_site => Atom "site"
           | c_job_type => Atom "job_type" | c_evaluation_date => Atom "evaluation_date"
           | c_application_date => Atom "application_date"
           end%sexp.

#[local] Instance Deserialize_text_column : Deserialize text_column :=
  Deser.match_con "column"
    [("title", c_title); ("company", c_company); ("location", c_location); ("url", c_url);
     ("description", c_description); ("salary_range", c_salary_range);
     ("posted_date", c_posted_date); ("site", c_site); ("job_type", c_job_type);
     ("evaluation_date", c_evaluation_date); ("application_date", c_application_date)] [].

#[local] Instance Serialize_assignment : Serialize assignment :=
  fun a => match a with
           | SetText c v => [Atom "text"; to_sexp c; to_sexp v]
           | SetScore v => [Atom "match_score"; to_sexp v]
           | SetApplied b => [Atom "applied"; to_sexp b]
           | NoSuchColumn key => [Atom "other"; to_sexp key]
           end%sexp.

#[local] Instance Deserialize_assignment : Deserialize assignment :=
  Deser.match_con "assignment" []
    [("text", Deser.con2_ SetText); ("match_score", Deser.con1_ SetScore);
     ("applied", Deser.con1_ SetApplied); ("other", Deser.con1_ NoSuchColumn)].

#[local] Instance Serialize_update_data : Serialize update_data :=
  fun u => [Atom "update"; to_sexp (u_id u); to_sexp (u_updates u)]%sexp.

#[local] Instance Deserialize_update_data : Deserialize update_data :=
  Deser.match_con "update" [] [("update", Deser.con_ UpdateData)].

(** The codec of a type that Ceres prints and parses. *)
Definition sexp_codec (A : Type) `{Serialize A, Deserialize A} : Codec A :=
  {| dumps a := list_ascii_of_string (to_string a);
     loads s := match from_string (string_of_list_ascii s) with
                | inr a => Ok a
                | inl _ => Raise ValueError
                end |}.

#[local] Instance jobs_codec : Codec (list job) := sexp_codec (list job).
#[local] Instance profile_codec : Codec profile := sexp_codec profile.
#[local] Instance filters_codec : Codec filters := sexp_codec filters.
#[local] Instance update_codec : Codec update_data := sexp_codec update_data.
#[local] Instance rows_codec : Codec (list row) := sexp_codec (list row).

(** Text of digits is the number; other text is none. *)
Definition ex_sql_integer (s : text) : option Z :=
  if truthy s && forallb is_digit s then Some (Z.of_N (int_of_digits s)) else None.

(** ** The theorems at concrete inputs *)

Definition ex_now : text := txt "2025-01-01 00:00:00".

(** The first call on a fresh database, for each action: text that is no
    codec text, no data at all, and an action that does not exist. *)
Example database_tool_json_fresh :
  database_tool_json ex_sql_integer ex_now (txt "store") (Some (txt "[{")) None =
    (Some (Table [] 0), Failed (txt "Database error: ") ValueError) ∧
  database_tool_json ex_sql_integer ex_now (txt "store") None None =
    (Some (Table [] 0), Failed (txt "Database error: ") TypeError) ∧
  database_tool_json ex_sql_integer ex_now (txt "retrieve") (Some []) None =
    (Some (Table [] 0), Failed (txt "Database error: ") UnboundLocalError) ∧
  database_tool_json ex_sql_integer ex_now (txt "retrieve") (Some (dumps (Filters None None))) None =
    (Some (Table [] 0), Reply (dumps ([] : list row))) ∧
  database_tool_json ex_sql_integer ex_now (txt "update") (Some (txt "[{")) None =
    (None, Failed (txt "Database error: ") ValueError) ∧
  database_tool_json ex_sql_integer ex_now (txt "delete") (Some (txt "7")) None =
    (None, Failed (txt "Database error: ") OperationalError) ∧
  database_tool_json ex_sql_integer ex_now (txt "drop") None None =
    (None, Reply (txt "Unknown action: drop")).
Proof. vm_compute. repeat split. Qed.

(** Postings stored from text, read back as text, and one deleted by the
    text of its id. *)
Example database_tool_json_session :
  let jobs := results (job_search_tool down (txt "AI") (Some [txt "indeed.com"]) 2) in
  let d1 := (database_tool_json ex_sql_integer ex_now (txt "store") (Some (dumps jobs)) None).1 in
  let d2 := (database_tool_json ex_sql_integer ex_now (txt "delete") (Some (txt "1")) d1).1 in
  (database_tool_json ex_sql_integer ex_now (txt "store") (Some (dumps jobs)) None).2 =
    Reply (txt "Stored 2 job opportunities in database") ∧
  map id (rows_of d1) = [1; 2]%Z ∧
  (database_tool_json ex_sql_integer ex_now (txt "delete") (Some (txt "1")) d1).2 =
    Reply (txt "Deleted job 1 successfully") ∧
  map id (rows_of d2) = [2]%Z ∧
  (database_tool_json ex_sql_integer ex_now (txt "retrieve") (Some (dumps (Filters None None))) d2).2 =
    Reply (dumps (rows_of d2)).
Proof. vm_compute. repeat split. Qed.

Lemma tools_compose_json_witness :
  ∃ evaluated,
    job_evaluation_tool_json ex_clock
      (job_search_tool_json down (txt "AI") (Some [txt "indeed.com"]) 2) (dumps ex_profile) =
      Reply (dumps evaluated) ∧
    Forall scored evaluated ∧
    (roundtrips evaluated →
     (∃ d', database_tool_json ex_sql_integer ex_now (txt "store") (Some (dumps evaluated)) None =
              (d', Reply (stored_message
                            (length (results (job_search_tool down (txt "AI")
                                                (Some [txt "indeed.com"]) 2))))) ∧
            (db_ok None → db_ok d')) ∧
     (header_error ex_profile = None →
      ∃ report, report_generation_tool_json ex_now (dumps evaluated) (dumps ex_profile) =
                Reply report) ∧
     (∀ x y, x ∈ shown evaluated → y ∈ drop (length (shown evaluated)) evaluated →
             (score_of y <= score_of x)%Q)).
Proof.
  apply (tools_compose_json ex_sql_integer down ex_clock ex_now (txt "AI")
           (Some [txt "indeed.com"]) 2 ex_profile None).
  - repeat split; done.
  - vm_compute. reflexivity.
  - vm_compute. reflexivity.
Defined.
