(* ===== verification/Crew.v ===== *)
(** * Crew: a run of the crew

    [src/job_seeker/crew.py] builds a crew of five agents and five tasks
    and starts it with [kickoff] ([run_job_search]); the agent framework
    then runs the tasks one after the other ([Process.sequential]).  An
    agent is a language model in a loop: given the task, the inputs and
    the outputs of the tasks of its context, it either calls one of its
    tools and reads what the tool returns, or gives its answer, which is
    the output of the task and, where the task names one, the content of
    its output file.

    What the language model says is not fixed by any code, so it is a
    parameter here ([language_model]): a function from what the agent has
    before it ([prompt]) to what it does next ([decision]).  The tools are
    the tools of [Wire], on text; the world they act on ([world]) is the
    database file, the seconds the search tool paused, and the files the
    tasks wrote.  The provider and the clock are given for every call
    ([surroundings]).  Which agent works on which task is written in the
    configuration of the crew, not in its code, and is a parameter too
    ([agent_of]); [configured] is the assignment the names suggest.

    The theorems hold for every language model: the run keeps the table
    well-formed and only a task whose agent has the database tool changes
    it; the run answers every task, in order, and writes the two files;
    what the report task is given and what it answers does not depend on
    the database nor on what the storage task does.  For the model that
    does what the task names say ([scripted]), the run is the tools
    applied to each other's output. *)

From Stdlib Require Import Ascii ZArith QArith Lia.
From stdpp Require Import base list strings.
From S2P Require Import Prelude Text Data Sorting Scorer Store Search Report Pipeline Wire.

(** ** Agents at work *)

(** A call of a tool, with the arguments of its signature; an argument
    that has a default holds the default when the agent leaves it out. *)
Inductive tool_call : Type :=
  | UseJobSearch (query : text) (sites : option (list text)) (max_results : Z)
  | UseJobEvaluation (job_data user_profile : text)
  | UseDatabase (action : text) (data : option text)
  | UseReportGeneration (jobs_data user_profile : text).

Definition tool_of (c : tool_call) : tool_name :=
  match c with
  | UseJobSearch _ _ _ => JobSearchTool
  | UseJobEvaluation _ _ => JobEvaluationTool
  | UseDatabase _ _ => DatabaseTool
  | UseReportGeneration _ _ => ReportGenerationTool
  end.

(** What the agent reads after a call: what the tool returned, or that it
    has no such tool. *)
Inductive observation : Type :=
  | ToolOutput (r : reply text)
  | NoSuchTool.

(** What an agent does next. *)
Inductive decision : Type :=
  | Action (c : tool_call)
  | FinalAnswer (output : text).

(** What an agent has before it: its task, the inputs of the run, the
    outputs of the tasks of the context, and the calls it made with what
    it read back, oldest first. *)
Record prompt : Type := Prompt {
  doing : task;
  given : inputs;
  from_context : list text;
  scratchpad : list (tool_call * observation);
}.

(** The language model: what it does next, and the answer it gives when
    it is allowed no further call. *)
Record language_model : Type := LanguageModel {
  decide : prompt → decision;
  conclude : prompt → text;
}.

(** What is outside the program at a call of a tool: the search provider,
    the clock read by the evaluation ([datetime.now()] at each posting)
    and the time of the call. *)
Record surroundings : Type := Surroundings {
  provider_then : provider;
  clock_then : nat → text;
  time_then : text;
}.

(** What a run acts on: the database file, the seconds paused, and the
    files written, latest first. *)
Record world : Type := World {
  database : db;
  paused : nat;
  files : list (text * text);
}.

(** The state of a run: the world, the outputs of the tasks done, and
    the calls made, by task. *)
Record crew_run : Type := CrewRun {
  after : world;
  outputs : list (task * text);
  log : list (task * tool_call * observation);
}.

(** The agent the names of the tasks suggest. *)
Definition configured (t : task) : agent :=
  match t with
  | job_search_task => job_search_agent
  | job_evaluation_task => job_evaluator
  | database_storage_task => database_manager
  | report_generation_task => report_generator
  | application_coordination_task => application_coordinator
  end.

(** The output of a task that is done. *)
Definition output_of (done : list (task * text)) (t : task) : option text :=
  (fun found => found.2.2) <$> list_find (fun o => o.1 = t) done.

(** [output_file=...]: the answer of the task is written to its file. *)
Definition write_output (t : task) (output : text) (w : world) : world :=
  match output_file t with
  | Some name => World (database w) (paused w) ((name, output) :: files w)
  | None => w
  end.

Definition observe (p : prompt) (c : tool_call) (seen : observation) : prompt :=
  Prompt (doing p) (given p) (from_context p) (scratchpad p ++ [(c, seen)]).

Section Run.
Context `{Codec (list job), Codec profile, Codec filters, Codec update_data, Codec (list row)}.
Context (sql_integer : text → option Z).
Context (agent_of : task → agent) (model : language_model).
Context (outside : task → nat → surroundings) (max_iter : nat).

(** The call of a tool: what it returns and what it does to the world.
    Only the database tool touches the database, only the search tool
    pauses. *)
Definition invoke (o : surroundings) (c : tool_call) (w : world) : world * reply text :=
  match c with
  | UseJobSearch query sites max_results =>
      let found := job_search_tool (provider_then o) query sites max_results in
      (World (database w) (paused w + slept found) (files w), Reply (dumps (results found)))
  | UseJobEvaluation job_data user_profile =>
      (w, job_evaluation_tool_json (clock_then o) job_data user_profile)
  | UseDatabase action data =>
      let '(d, r) := database_tool_json sql_integer (time_then o) action data (database w) in
      (World d (paused w) (files w), r)
  | UseReportGeneration jobs_data user_profile =>
      (w, report_generation_tool_json (time_then o) jobs_data user_profile)
  end.

(** An agent at its task: the model decides, a call of one of the
    agent's tools is made and read back, until the model answers; after
    [fuel] calls it has to. *)
Fixpoint execute (fuel : nat) (p : prompt) (w : world) : world * prompt * text :=
  match fuel with
  | 0 => (w, p, conclude model p)
  | S fuel' =>
      match decide model p with
      | FinalAnswer output => (w, p, output)
      | Action c =>
          if bool_decide (tool_of c ∈ tools (agent_of (doing p))) then
            let '(w', r) := invoke (outside (doing p) (length (scratchpad p))) c w in
            execute fuel' (observe p c (ToolOutput r)) w'
          else execute fuel' (observe p c NoSuchTool) w
      end
  end.

(** What the agent of a task starts from. *)
Definition brief (i : inputs) (done : list (task * text)) (t : task) : prompt :=
  Prompt t i (omap (output_of done) (context t)) [].

(** One task of the run. *)
Definition run_task (i : inputs) (r : crew_run) (t : task) : crew_run :=
  let '(w, p, output) := execute max_iter (brief i (outputs r) t) (after r) in
  CrewRun (write_output t output w) (outputs r ++ [(t, output)])
          (log r ++ map (fun seen => (t, seen.1, seen.2)) (scratchpad p)).

(** [Crew(..., process=Process.sequential).kickoff(inputs)] *)
Definition crew_kickoff (i : inputs) (w : world) : crew_run :=
  foldl (run_task i) (CrewRun w [] []) tasks.

End Run.

(** ** Specification vocabulary *)

(** A call in the log was answered by the tool exactly when the agent of
    the task has the tool. *)
Definition answered_by_tool (agent_of : task → agent)
    (entry : task * tool_call * observation) : Prop :=
  entry.2 = NoSuchTool ↔ tool_of entry.1.2 ∉ tools (agent_of entry.1.1).

(** The entries of a list by task that are not of the storage task. *)
Definition visible {A} (l : list (task * A)) : list (task * A) :=
  filter (fun entry => entry.1 ≠ database_storage_task) l.

(** Two runs that differ at most in the database, in the seconds paused
    and in what the storage task did. *)
Definition same_view (r1 r2 : crew_run) : Prop :=
  files (after r1) = files (after r2) ∧
  visible (outputs r1) = visible (outputs r2) ∧
  visible (map (fun e => (e.1.1, (e.1.2, e.2))) (log r1)) =
    visible (map (fun e => (e.1.1, (e.1.2, e.2))) (log r2)).

(** What an agent reads of an observation: the text the tool returned;
    of an error, the prefix of its message. *)
Definition told (seen : observation) : text :=
  match seen with
  | ToolOutput (Reply s) => s
  | ToolOutput (Failed prefix _) => prefix
  | NoSuchTool => []
  end.

(** The language model that does what the names of the tasks say: each
    agent calls its tool once, on the output of the task before it in its
    context and on the profile of the inputs, and answers with what the
    tool returned; the coordinator, which has no tool, hands the report
    on. *)
Definition scripted `{Codec profile} : language_model :=
  let answer p :=
    match scratchpad p with
    | [] => default [] (head (from_context p))
    | (_, seen) :: _ => told seen
    end in
  {| decide p :=
       let handed := default [] (head (from_context p)) in
       let profile := dumps (keys (user_profile (given p))) in
       match scratchpad p, doing p with
       | [], job_search_task =>
           Action (UseJobSearch (search_query (given p)) (Some (job_sites (given p))) 20)
       | [], job_evaluation_task => Action (UseJobEvaluation handed profile)
       | [], database_storage_task => Action (UseDatabase (txt "store") (Some handed))
       | [], report_generation_task => Action (UseReportGeneration handed profile)
       | _, _ => FinalAnswer (answer p)
       end;
     conclude := answer |}.

(** ** What every run does *)

Section RunFacts.
Context `{Codec (list job), Codec profile, Codec filters, Codec update_data, Codec (list row)}.
Context (sql_integer : text → option Z).
Context (agent_of : task → agent) (model : language_model).
Context (outside : task → nat → surroundings) (max_iter : nat).
Implicit Types (i : inputs) (w : world) (p : prompt) (t : task) (c : tool_call) (r : crew_run).

Notation invoke := (invoke sql_integer).
Notation execute := (execute sql_integer agent_of model outside).
Notation run_task := (run_task sql_integer agent_of model outside max_iter).
Notation crew_kickoff := (crew_kickoff sql_integer agent_of model outside max_iter).

Lemma invoke_database_ok o c w : db_ok (database w) → db_ok (database (invoke o c w).1).
Proof.
  intros Hw. destruct c; simpl; try done.
  pose proof (database_tool_json_ok sql_integer (time_then o) action data _ Hw) as Hd.
  by destruct (database_tool_json _ _ _ _ _).
Qed.

Lemma invoke_database o c w : tool_of c ≠ DatabaseTool → database (invoke o c w).1 = database w.
Proof. by destruct c. Qed.

Lemma invoke_files o c w : files (invoke o c w).1 = files w.
Proof. destruct c; simpl; try done. by destruct (database_tool_json _ _ _ _ _). Qed.

(** What the calls of an agent's tools preserve, its work preserves. *)
Lemma execute_preserves (P : world → Prop) t :
  (∀ o c w, tool_of c ∈ tools (agent_of t) → P w → P (invoke o c w).1) →
  ∀ fuel p w, doing p = t → P w → P (execute fuel p w).1.1.
Proof.
  intros Hstep. induction fuel as [|fuel IH]; intros p w Ht Hw; simpl; [done|].
  destruct (decide model p) as [c|output]; [|done]. case_bool_decide as Hc.
  - pose proof (Hstep (outside (doing p) (length (scratchpad p))) c w) as Hs. rewrite Ht in Hc.
    destruct (invoke _ c w) as [w' rep]. apply IH; [done|]. by apply Hs.
  - by apply IH.
Qed.

(** The agent stays at its task and makes at most [fuel] calls. *)
Lemma execute_prompt fuel p w :
  doing (execute fuel p w).1.2 = doing p ∧
  length (scratchpad (execute fuel p w).1.2) ≤ length (scratchpad p) + fuel.
Proof.
  revert p w. induction fuel as [|fuel IH]; intros p w; simpl; [split; [done|lia]|].
  destruct (decide model p) as [c|output]; simpl; [|split; [done|lia]].
  assert (∀ seen w', doing (execute fuel (observe p c seen) w').1.2 = doing p ∧
    length (scratchpad (execute fuel (observe p c seen) w').1.2) ≤ length (scratchpad p) + S fuel)
    as Hnext.
  { intros seen w'. destruct (IH (observe p c seen) w') as [-> Hl]. split; [done|].
    simpl in Hl. rewrite length_app in Hl. simpl in Hl. lia. }
  case_bool_decide; [destruct (invoke _ c w)|]; apply Hnext.
Qed.

Lemma run_task_preserves (P : world → Prop) i r t :
  (∀ o c w, tool_of c ∈ tools (agent_of t) → P w → P (invoke o c w).1) →
  (∀ output w, P w → P (write_output t output w)) →
  P (after r) → P (after (run_task i r t)).
Proof.
  intros Hstep Hwrite Hr. unfold run_task.
  pose proof (execute_preserves P t Hstep max_iter (brief i (outputs r) t) (after r) eq_refl Hr).
  destruct (execute _ _ _) as [[w p] output]. by apply Hwrite.
Qed.

Lemma write_output_database t output w : database (write_output t output w) = database w.
Proof. unfold write_output. by destruct (output_file t). Qed.

Lemma run_task_database_ok i r t :
  db_ok (database (after r)) → db_ok (database (after (run_task i r t))).
Proof.
  apply (run_task_preserves (fun w => db_ok (database w))).
  - intros o c w _. apply invoke_database_ok.
  - intros output w. by rewrite write_output_database.
Qed.

(** A task whose agent has no database tool leaves the database alone. *)
Lemma run_task_database i r t :
  DatabaseTool ∉ tools (agent_of t) → database (after (run_task i r t)) = database (after r).
Proof.
  intros Ht. apply (run_task_preserves (fun w => database w = database (after r))); [| |done].
  - intros o c w Hc <-. apply invoke_database. by intros E; rewrite E in Hc.
  - intros output w. by rewrite write_output_database.
Qed.
End RunFacts.

Section Kickoff.
Context `{Codec (list job), Codec profile, Codec filters, Codec update_data, Codec (list row)}.
Context (sql_integer : text → option Z).
Context (agent_of : task → agent) (model : language_model).
Context (outside : task → nat → surroundings) (max_iter : nat).
Implicit Types (i : inputs) (w : world) (p : prompt) (t : task) (c : tool_call) (r : crew_run).

Notation invoke := (invoke sql_integer).
Notation execute := (execute sql_integer agent_of model outside).
Notation run_task := (run_task sql_integer agent_of model outside max_iter).
Notation crew_kickoff := (crew_kickoff sql_integer agent_of model outside max_iter).

(** The state of the run after the first tasks of a list. *)
Lemma run_tasks_database_ok i r ts :
  db_ok (database (after r)) → db_ok (database (after (foldl (run_task i) r ts))).
Proof.
  revert r. induction ts as [|t ts IH]; intros r Hr; simpl; [done|].
  by apply IH, run_task_database_ok.
Qed.

Lemma run_tasks_database i r ts :
  Forall (fun t => DatabaseTool ∉ tools (agent_of t)) ts →
  database (after (foldl (run_task i) r ts)) = database (after r).
Proof.
  intros Hts. revert r. induction Hts as [|t ts Ht _ IH]; intros r; simpl; [done|].
  by rewrite IH, run_task_database.
Qed.

Lemma configured_database_tool t :
  DatabaseTool ∈ tools (configured t) ↔ t = database_storage_task.
Proof. destruct t; simpl; rewrite ?elem_of_cons, ?elem_of_nil; intuition congruence. Qed.

(** Property C16: the database through a run of the crew.  Whatever the
    language model decides, for every assignment of agents to tasks, every
    provider and every clock: the run leaves the table well-formed (ids
    increasing and within the counter, urls unique); a task whose agent
    has no database tool leaves the database as it found it; and with
    the agents assigned as their names say, the database is still the
    initial one when the storage task starts, and the database at the end
    of the run is the one the storage task left. *)
Theorem crew_kickoff_database i w :
  db_ok (database w) →
  db_ok (database (after (crew_kickoff i w))) ∧
  (∀ r t, DatabaseTool ∉ tools (agent_of t) →
          database (after (run_task i r t)) = database (after r)) ∧
  ((∀ t, agent_of t = configured t) →
   ∃ r, r = foldl (run_task i) (CrewRun w [] []) [job_search_task; job_evaluation_task] ∧
        database (after r) = database w ∧
        database (after (crew_kickoff i w)) =
          database (after (run_task i r database_storage_task))).
Proof.
  intros Hw. split_and!.
  - by apply run_tasks_database_ok.
  - intros r t. apply run_task_database.
  - intros Hconf. eexists. split; [done|].
    assert (∀ t, t ≠ database_storage_task → DatabaseTool ∉ tools (agent_of t)) as Hno.
    { intros t Ht. rewrite Hconf, configured_database_tool. done. }
    split.
    + rewrite run_tasks_database; [done|]. repeat constructor; by apply Hno.
    + assert (crew_kickoff i w =
        foldl (run_task i)
          (run_task i (foldl (run_task i) (CrewRun w [] []) [job_search_task; job_evaluation_task])
             database_storage_task)
          [report_generation_task; application_coordination_task]) as -> by done.
      rewrite run_tasks_database; [done|]. repeat constructor; by apply Hno.
Qed.
End Kickoff.

Section Answers.
Context `{Codec (list job), Codec profile, Codec filters, Codec update_data, Codec (list row)}.
Context (sql_integer : text → option Z).
Context (agent_of : task → agent) (model : language_model).
Context (outside : task → nat → surroundings) (max_iter : nat).
Implicit Types (i : inputs) (w : world) (p : prompt) (t : task) (c : tool_call) (r : crew_run).

Notation invoke := (invoke sql_integer).
Notation execute := (execute sql_integer agent_of model outside).
Notation run_task := (run_task sql_integer agent_of model outside max_iter).
Notation crew_kickoff := (crew_kickoff sql_integer agent_of model outside max_iter).
Notation answered_by_tool := (answered_by_tool agent_of).

(** The calls of an agent at work: at most [fuel], each answered by the
    tool or refused. *)
Lemma execute_scratchpad fuel p w :
  ∃ more, scratchpad (execute fuel p w).1.2 = scratchpad p ++ more ∧ length more ≤ fuel ∧
          Forall (fun seen => answered_by_tool (doing p, seen.1, seen.2)) more.
Proof.
  revert p w. induction fuel as [|fuel IH]; intros p w; simpl.
  { exists []. by rewrite app_nil_r. }
  destruct (decide model p) as [c|output]; simpl; [|exists []; rewrite app_nil_r; split_and!; [done | simpl; lia | done]].
  assert (∀ seen w', answered_by_tool (doing p, c, seen) →
    ∃ more, scratchpad (execute fuel (observe p c seen) w').1.2 = scratchpad p ++ more ∧
            length more ≤ S fuel ∧
            Forall (fun seen => answered_by_tool (doing p, seen.1, seen.2)) more) as Hnext.
  { intros seen w' Hseen. destruct (IH (observe p c seen) w') as (more & -> & Hl & Hall).
    exists ((c, seen) :: more). simpl. rewrite <-app_assoc. split_and!; [done | lia |].
    by constructor. }
  case_bool_decide as Hc; [destruct (invoke _ c w)|]; apply Hnext; unfold answered_by_tool; simpl;
    by split.
Qed.

Lemma execute_files fuel p w : files (execute fuel p w).1.1 = files w.
Proof.
  apply (execute_preserves sql_integer agent_of model outside
           (fun w' => files w' = files w) (doing p)); [|done..].
  intros o c w' _ <-. apply invoke_files.
Qed.

(** One task: its answer is added to the outputs and written to its
    file, and its calls are added to the log. *)
Lemma run_task_spec i r t :
  ∃ output more,
    outputs (run_task i r t) = outputs r ++ [(t, output)] ∧
    log (run_task i r t) = log r ++ more ∧ length more ≤ max_iter ∧
    Forall answered_by_tool more ∧
    files (after (run_task i r t)) =
      match output_file t with
      | Some name => (name, output) :: files (after r)
      | None => files (after r)
      end.
Proof.
  unfold run_task.
  destruct (execute_scratchpad max_iter (brief i (outputs r) t) (after r)) as (more & Hs & Hl & Hall).
  pose proof (execute_files max_iter (brief i (outputs r) t) (after r)) as Hf.
  destruct (execute _ _ _) as [[w p] output]. simpl in *. rewrite Hs. simpl.
  exists output, (map (fun seen => (t, seen.1, seen.2)) more).
  split_and!; [done | done | by rewrite length_map | by apply Forall_map |].
  unfold write_output. destruct (output_file t); simpl; by rewrite Hf.
Qed.

End Answers.

(** ** What the report does not depend on *)

Section Independence.
Context `{Codec (list job), Codec profile, Codec filters, Codec update_data, Codec (list row)}.
Context (sql_integer : text → option Z).
Context (agent_of : task → agent) (outside : task → nat → surroundings) (max_iter : nat).
Context (m1 m2 : language_model).
Implicit Types (i : inputs) (w : world) (p : prompt) (t : task) (c : tool_call) (r : crew_run).

Notation invoke := (invoke sql_integer).
Notation execute_with m := (execute sql_integer agent_of m outside).
Notation run_task_with m := (run_task sql_integer agent_of m outside max_iter).
Notation crew_kickoff_with m := (crew_kickoff sql_integer agent_of m outside max_iter).

(** The agents named by the configuration: only that of the storage
    task has the database tool. *)
Hypothesis database_owner : ∀ t, DatabaseTool ∈ tools (agent_of t) → t = database_storage_task.

(** The two models decide alike, except at the storage task. *)
Hypothesis models_agree : ∀ p, doing p ≠ database_storage_task →
  decide m1 p = decide m2 p ∧ conclude m1 p = conclude m2 p.

Lemma invoke_reply o c w1 w2 :
  tool_of c ≠ DatabaseTool → (invoke o c w1).2 = (invoke o c w2).2.
Proof. by destruct c. Qed.

Lemma output_of_cons (done : list (task * text)) u out t :
  output_of ((u, out) :: done) t = if bool_decide (u = t) then Some out else output_of done t.
Proof.
  unfold output_of. simpl. case_decide; case_bool_decide; try done.
  by destruct (list_find _ done) as [[? [? ?]]|].
Qed.

Lemma output_of_visible done t :
  t ≠ database_storage_task → output_of (visible done) t = output_of done t.
Proof.
  intros Ht. induction done as [|[u out] done IH]; [done|]. unfold visible in *.
  rewrite filter_cons. simpl. case_decide as Hu.
  - rewrite !output_of_cons. by rewrite IH.
  - rewrite output_of_cons, IH.
    case_bool_decide; congruence.
Qed.

(** The agent of a task other than the storage task starts from the same
    prompt in both runs. *)
Lemma brief_same_view i r1 r2 t :
  same_view r1 r2 → brief i (outputs r1) t = brief i (outputs r2) t.
Proof.
  intros (_ & Ho & _). unfold brief. f_equal. apply omap_Forall2, Forall_Forall2_diag, Forall_forall.
  intros u Hu. assert (u ≠ database_storage_task) as Hne.
  { intros ->. by apply (storage_is_a_leaf t). }
  by rewrite <-(output_of_visible (outputs r1) u Hne), <-(output_of_visible (outputs r2) u Hne), Ho.
Qed.

(** At a task other than the storage task the agent makes the same
    calls, reads the same replies and gives the same answer, whatever the
    database holds. *)
Lemma execute_agree fuel p w1 w2 :
  doing p ≠ database_storage_task →
  (execute_with m1 fuel p w1).1.2 = (execute_with m2 fuel p w2).1.2 ∧
  (execute_with m1 fuel p w1).2 = (execute_with m2 fuel p w2).2.
Proof.
  revert p w1 w2. induction fuel as [|fuel IH]; intros p w1 w2 Hp; simpl.
  { by destruct (models_agree p Hp) as [_ ->]. }
  destruct (models_agree p Hp) as [<- _]. destruct (decide m1 p) as [c|output]; [|done].
  case_bool_decide as Hc; [|by apply IH].
  assert (tool_of c ≠ DatabaseTool) as Hdb.
  { intros E. rewrite E in Hc. by apply database_owner in Hc. }
  pose proof (invoke_reply (outside (doing p) (length (scratchpad p))) c w1 w2 Hdb) as Hr.
  destruct (invoke _ c w1) as [w1' rep1], (invoke _ c w2) as [w2' rep2]. simpl in Hr.
  subst rep2. by apply IH.
Qed.

Lemma run_task_unfold m i r t :
  run_task_with m i r t =
    let e := execute_with m max_iter (brief i (outputs r) t) (after r) in
    CrewRun (write_output t e.2 e.1.1) (outputs r ++ [(t, e.2)])
            (log r ++ map (fun seen => (t, seen.1, seen.2)) (scratchpad e.1.2)).
Proof. unfold run_task. by destruct (execute_with m _ _ _) as [[w p] output]. Qed.

Lemma visible_snoc {A} (l : list (task * A)) t a :
  visible (l ++ [(t, a)]) =
    visible l ++ if bool_decide (t = database_storage_task) then [] else [(t, a)].
Proof.
  unfold visible. rewrite filter_app, filter_cons, filter_nil. simpl.
  by case_decide; case_bool_decide.
Qed.

Lemma visible_log_app t (l : list (task * tool_call * observation)) pad :
  visible (map (fun e => (e.1.1, (e.1.2, e.2)))
             (l ++ map (fun seen : tool_call * observation => (t, seen.1, seen.2)) pad)) =
    visible (map (fun e => (e.1.1, (e.1.2, e.2))) l) ++
    if bool_decide (t = database_storage_task) then [] else map (pair t) pad.
Proof.
  unfold visible. rewrite map_app, filter_app. f_equal.
  induction pad as [|[c seen] pad IH]; simpl; [by case_bool_decide|].
  rewrite filter_cons, IH. simpl. by case_decide; case_bool_decide.
Qed.

(** One task keeps the two runs alike. *)
Lemma run_task_same_view i r1 r2 t :
  same_view r1 r2 → same_view (run_task_with m1 i r1 t) (run_task_with m2 i r2 t).
Proof.
  intros Hv. pose proof Hv as (Hf & Ho & Hl). rewrite !run_task_unfold. simpl.
  unfold same_view. simpl. rewrite !visible_snoc, !visible_log_app, Ho, Hl.
  assert (∀ m e w, files (write_output t e (execute_with m max_iter (brief i (outputs r1) t) w).1.1) =
                   files (write_output t e w)) as Hfiles.
  { intros m e w. unfold write_output. destruct (output_file t); simpl; by rewrite execute_files. }
  rewrite <-(brief_same_view i r1 r2 t Hv), !Hfiles.
  case_bool_decide as Ht.
  - subst t. by split_and!.
  - destruct (execute_agree max_iter (brief i (outputs r1) t) (after r1) (after r2) Ht) as [-> ->].
    split_and!; [|done..]. unfold write_output. destruct (output_file t); simpl; by rewrite Hf.
Qed.

(** Property C17: what the report is made from.  Take two runs of the
    crew whose language models decide alike except at the storage task,
    from worlds that hold the same files but any two databases, in a
    crew where only the agent of the storage task has the database
    tool.  Then every other task starts from the same prompt, makes the
    same calls, reads the same replies and gives the same answer in both
    runs, and the two runs write the same files: the report and the
    application strategy depend neither on what the database holds nor
    on what the storage task does, since no task has the storage task in
    its context and no tool but the database tool reads the database. *)
Theorem report_ignores_database i w1 w2 :
  files w1 = files w2 →
  let r1 := crew_kickoff_with m1 i w1 in
  let r2 := crew_kickoff_with m2 i w2 in
  (∀ t, t ≠ database_storage_task → output_of (outputs r1) t = output_of (outputs r2) t) ∧
  files (after r1) = files (after r2) ∧
  same_view r1 r2.
Proof.
  intros Hf r1 r2. assert (same_view r1 r2) as Hv.
  { unfold r1, r2, crew_kickoff. generalize tasks. intros ts.
    assert (same_view (CrewRun w1 [] []) (CrewRun w2 [] [])) as Hinit by done.
    revert Hinit. generalize (CrewRun w1 [] []) (CrewRun w2 [] []).
    induction ts as [|t ts IH]; intros a b Hab; simpl; [done|].
    by apply IH, run_task_same_view. }
  split_and!; [|apply Hv|done].
  intros t Ht. destruct Hv as (_ & Ho & _).
  by rewrite <-(output_of_visible (outputs r1) t Ht), <-(output_of_visible (outputs r2) t Ht), Ho.
Qed.
End Independence.

(** ** The run the names of the tasks describe *)

Section Scripted.
Context `{Codec (list job), Codec profile, Codec filters, Codec update_data, Codec (list row)}.
Context (sql_integer : text → option Z).
Context (outside : task → nat → surroundings) (max_iter : nat).
Implicit Types (i : inputs) (w : world) (p : prompt) (t : task) (c : tool_call) (r : crew_run).

Notation invoke := (invoke sql_integer).
Notation execute := (execute sql_integer configured scripted outside).
Notation run_task := (run_task sql_integer configured scripted outside max_iter).
Notation crew_kickoff := (crew_kickoff sql_integer configured scripted outside max_iter).

(** An agent of the scripted model: one call, then the answer. *)
Lemma execute_once fuel t i handed c w :
  decide scripted (Prompt t i handed []) = Action c → tool_of c ∈ tools (configured t) →
  execute (S (S fuel)) (Prompt t i handed []) w =
    let e := invoke (outside t 0) c w in
    (e.1, Prompt t i handed [(c, ToolOutput e.2)], told (ToolOutput e.2)).
Proof.
  intros Hd Hc. cbn [Crew.execute]. rewrite Hd. cbn [doing scratchpad length].
  rewrite bool_decide_eq_true_2 by done. destruct (invoke _ c w) as [w' rep]. by destruct t.
Qed.

Lemma run_task_once i r t c :
  2 ≤ max_iter →
  decide scripted (brief i (outputs r) t) = Action c → tool_of c ∈ tools (configured t) →
  run_task i r t =
    let e := invoke (outside t 0) c (after r) in
    CrewRun (write_output t (told (ToolOutput e.2)) e.1)
            (outputs r ++ [(t, told (ToolOutput e.2))])
            (log r ++ [(t, c, ToolOutput e.2)]).
Proof.
  intros Hm Hd Hc. rewrite run_task_unfold. destruct max_iter as [|[|fuel]]; [lia..|].
  unfold brief in *. by rewrite (execute_once fuel _ _ _ c).
Qed.

(** An agent that answers at once. *)
Lemma run_task_answer i r t output :
  1 ≤ max_iter → decide scripted (brief i (outputs r) t) = FinalAnswer output →
  run_task i r t = CrewRun (write_output t output (after r)) (outputs r ++ [(t, output)]) (log r).
Proof.
  intros Hm Hd. rewrite run_task_unfold. destruct max_iter as [|fuel]; [lia|].
  cbn [Crew.execute]. rewrite Hd. simpl. by rewrite app_nil_r.
Qed.

(** What each task is handed, once the tasks before it are done. *)
Lemma handed_on s1 s2 s3 s4 :
  omap (output_of [(job_search_task, s1)]) (context job_evaluation_task) = [s1] ∧
  omap (output_of [(job_search_task, s1); (job_evaluation_task, s2)])
       (context database_storage_task) = [s2] ∧
  omap (output_of [(job_search_task, s1); (job_evaluation_task, s2);
                   (database_storage_task, s3)])
       (context report_generation_task) = [s2] ∧
  omap (output_of [(job_search_task, s1); (job_evaluation_task, s2);
                   (database_storage_task, s3); (report_generation_task, s4)])
       (context application_coordination_task) = [s4].
Proof. done. Qed.

(** The agent of every task but the last has the tool its name says. *)
Lemma configured_owns t c :
  tool_of c = match t with
              | job_search_task => JobSearchTool
              | job_evaluation_task => JobEvaluationTool
              | database_storage_task => DatabaseTool
              | report_generation_task => ReportGenerationTool
              | application_coordination_task => DatabaseTool
              end →
  t ≠ application_coordination_task → tool_of c ∈ tools (configured t).
Proof. intros -> Ht. destruct t; simpl; try done; by left. Qed.

(** The three tools on what the search of the run found: none fails. *)
Lemma scripted_tools i w :
  let p := keys (user_profile i) in
  let searched := job_search_tool (provider_then (outside job_search_task 0))
                    (search_query i) (Some (job_sites i)) 20 in
  usable p → header_error p = None →
  ∃ evaluated report d',
    job_evaluation_tool (clock_then (outside job_evaluation_task 0)) (results searched) p =
      Reply evaluated ∧
    database_tool (time_then (outside database_storage_task 0)) (Store evaluated) (database w) =
      (d', Reply (Stored (length (results searched)))) ∧
    report_generation_tool (time_then (outside report_generation_task 0)) evaluated p =
      Reply report.
Proof.
  intros p searched Hp Hh.
  destruct (search_results_flow (provider_then (outside job_search_task 0))
              (clock_then (outside job_evaluation_task 0))
              (time_then (outside database_storage_task 0))
              (search_query i) (Some (job_sites i)) 20 p (database w) Hp)
    as (evaluated & d' & He & _ & Hd & _ & _ & _).
  destruct (search_results_flow (provider_then (outside job_search_task 0))
              (clock_then (outside job_evaluation_task 0))
              (time_then (outside report_generation_task 0))
              (search_query i) (Some (job_sites i)) 20 p (database w) Hp)
    as (evaluated' & _ & He' & _ & _ & _ & Hr & _).
  fold searched in He, He', Hd. rewrite He in He'. injection He' as <-.
  destruct (Hr Hh) as [report Hrep]. by exists evaluated, report, d'.
Qed.

(** One stage of the scripted run, evaluated up to the call of its tool. *)
Ltac stage :=
  cbn [Crew.invoke fst snd told write_output output_file app after outputs log database paused
       files brief given doing from_context].

(** Property C18: the run of the scripted crew is the tools applied to
    each other's output.  With the agents assigned as their names say, at
    least two rounds for each, a profile without [null] where the scorer
    and the report header read it, and a JSON library that reads back
    what it wrote: the search agent returns the postings found as text;
    the evaluator returns them scored and sorted; the database manager
    stores every one of them, from whatever database the run started
    with; the report agent answers with the report of the evaluated
    postings, which is written to [job_search_report.md]; and the
    coordinator's answer is written to [application_strategy.md].  The
    run makes four calls of tools, none of which fails, and pauses as
    long as the search tool did. *)
Theorem scripted_run i w :
  2 ≤ max_iter →
  let p := keys (user_profile i) in
  let searched := job_search_tool (provider_then (outside job_search_task 0))
                    (search_query i) (Some (job_sites i)) 20 in
  usable p → header_error p = None → roundtrips (results searched) → roundtrips p →
  ∃ evaluated report d',
    job_evaluation_tool (clock_then (outside job_evaluation_task 0)) (results searched) p =
      Reply evaluated ∧
    database_tool (time_then (outside database_storage_task 0)) (Store evaluated) (database w) =
      (d', Reply (Stored (length (results searched)))) ∧
    report_generation_tool (time_then (outside report_generation_task 0)) evaluated p =
      Reply report ∧
    (roundtrips evaluated →
     let r := crew_kickoff i w in
     outputs r =
       [ (job_search_task, dumps (results searched));
         (job_evaluation_task, dumps evaluated);
         (database_storage_task, stored_message (length (results searched)));
         (report_generation_task, report);
         (application_coordination_task, report) ] ∧
     after r = World d' (paused w + slept searched)
                 ((txt "application_strategy.md", report) ::
                  (txt "job_search_report.md", report) :: files w) ∧
     length (log r) = 4 ∧ Forall (fun e => ∃ s, e.2 = ToolOutput (Reply s)) (log r)).
Proof.
  intros Hm p searched Hp Hh Hfound Hprofile.
  destruct (scripted_tools i w Hp Hh) as (evaluated & report & d' & He & Hd & Hrep).
  fold p searched in He, Hd, Hrep. exists evaluated, report, d'.
  split_and!; [done..|]. intros Hev r.
  assert (wire_action sql_integer (txt "store") (Some (dumps evaluated)) = Ok (Store evaluated))
    as Hstore by (unfold wire_action; simpl; by rewrite Hev).
  subst r. unfold crew_kickoff, tasks. simpl foldl.
  rewrite (run_task_once i (CrewRun w [] []) job_search_task _ Hm eq_refl)
    by (by apply configured_owns).
  stage. fold searched.
  rewrite (run_task_once i _ job_evaluation_task _ Hm eq_refl) by (by apply configured_owns).
  stage. fold p. rewrite (proj1 (handed_on _ [] [] [])). cbn [head default].
  rewrite (job_evaluation_tool_json_decoded _ _ _ (results searched) p Hfound Hprofile), He.
  cbn [reply_map].
  rewrite (run_task_once i _ database_storage_task _ Hm eq_refl) by (by apply configured_owns).
  stage. rewrite (proj1 (proj2 (handed_on _ _ [] []))). cbn [head default].
  rewrite (database_tool_json_decoded _ _ _ _ _ _ Hstore), Hd.
  cbn [fst snd reply_map show_answer].
  rewrite (run_task_once i _ report_generation_task _ Hm eq_refl) by (by apply configured_owns).
  stage. fold p. rewrite (proj1 (proj2 (proj2 (handed_on _ _ _ [])))). cbn [head default].
  rewrite (report_generation_tool_json_decoded _ _ _ evaluated p Hev Hprofile), Hrep.
  rewrite (run_task_answer i _ application_coordination_task report) by (done || lia).
  cbn [fst snd told write_output output_file app after outputs log database paused files].
  split_and!; [done..|]. repeat constructor; by eexists.
Qed.
End Scripted.

(** ** The theorems at concrete inputs *)

#[local] Existing Instances jobs_codec profile_codec filters_codec update_codec rows_codec.

(** A run for the example profile, with one site and a provider that is
    down. *)
Definition ex_inputs : inputs :=
  Inputs (ProfileDict ex_profile []) [txt "indeed.com"] (txt "AI").

Definition ex_outside : task → nat → surroundings :=
  fun _ _ => Surroundings down ex_clock ex_now.

(** A model whose database manager does nothing. *)
Definition idle_manager : language_model :=
  {| decide p :=
       if bool_decide (doing p = database_storage_task) then FinalAnswer []
       else decide scripted p;
     conclude p :=
       if bool_decide (doing p = database_storage_task) then []
       else conclude scripted p |}.

Lemma crew_kickoff_database_witness :
  db_ok (database (after (crew_kickoff ex_sql_integer configured scripted ex_outside 2
                            ex_inputs (World None 0 [])))) ∧
  (∀ r t, DatabaseTool ∉ tools (configured t) →
          database (after (run_task ex_sql_integer configured scripted ex_outside 2 ex_inputs r t)) =
          database (after r)) ∧
  ((∀ t, configured t = configured t) →
   ∃ r, r = foldl (run_task ex_sql_integer configured scripted ex_outside 2 ex_inputs)
              (CrewRun (World None 0 []) [] []) [job_search_task; job_evaluation_task] ∧
        database (after r) = database (World None 0 []) ∧
        database (after (crew_kickoff ex_sql_integer configured scripted ex_outside 2
                           ex_inputs (World None 0 []))) =
          database (after (run_task ex_sql_integer configured scripted ex_outside 2 ex_inputs r
                             database_storage_task))).
Proof.
  apply (crew_kickoff_database ex_sql_integer configured scripted ex_outside 2 ex_inputs
           (World None 0 [])).
  done.
Defined.

Lemma report_ignores_database_witness :
  let r1 := crew_kickoff ex_sql_integer configured scripted ex_outside 2 ex_inputs
              (World None 0 []) in
  let r2 := crew_kickoff ex_sql_integer configured idle_manager ex_outside 2 ex_inputs
              (World (Some (Table [] 7)) 3 []) in
  (∀ t, t ≠ database_storage_task → output_of (outputs r1) t = output_of (outputs r2) t) ∧
  files (after r1) = files (after r2) ∧
  same_view r1 r2.
Proof.
  apply (report_ignores_database ex_sql_integer configured ex_outside 2 scripted idle_manager).
  - intros t. by rewrite configured_database_tool.
  - intros p Hp. simpl. by rewrite !bool_decide_eq_false_2.
  - done.
Defined.

Lemma scripted_run_witness :
  ∃ evaluated report d',
    job_evaluation_tool ex_clock
      (results (job_search_tool down (txt "AI") (Some [txt "indeed.com"]) 20)) ex_profile =
      Reply evaluated ∧
    database_tool ex_now (Store evaluated) None =
      (d', Reply (Stored (length (results (job_search_tool down (txt "AI")
                                             (Some [txt "indeed.com"]) 20))))) ∧
    report_generation_tool ex_now evaluated ex_profile = Reply report ∧
    (roundtrips evaluated →
     let r := crew_kickoff ex_sql_integer configured scripted ex_outside 2 ex_inputs
                (World None 0 []) in
     outputs r =
       [ (job_search_task,
          dumps (results (job_search_tool down (txt "AI") (Some [txt "indeed.com"]) 20)));
         (job_evaluation_task, dumps evaluated);
         (database_storage_task,
          stored_message (length (results (job_search_tool down (txt "AI")
                                             (Some [txt "indeed.com"]) 20))));
         (report_generation_task, report);
         (application_coordination_task, report) ] ∧
     after r = World d' (0 + slept (job_search_tool down (txt "AI") (Some [txt "indeed.com"]) 20))
                 ((txt "application_strategy.md", report) ::
                  (txt "job_search_report.md", report) :: []) ∧
     length (log r) = 4 ∧ Forall (fun e => ∃ s, e.2 = ToolOutput (Reply s)) (log r)).
Proof.
  apply (scripted_run ex_sql_integer ex_outside 2 ex_inputs (World None 0 [])).
  - lia.
  - repeat split; done.
  - done.
  - vm_compute. reflexivity.
  - vm_compute. reflexivity.
Defined.

(** The run of the example, computed: five postings of the mock search
    are stored with ids 1 to 5, the run makes four calls, and the same
    text is written to both files. *)
Example scripted_run_computed :
  let r := crew_kickoff ex_sql_integer configured scripted ex_outside 2 ex_inputs
             (World None 0 []) in
  map fst (outputs r) = tasks ∧
  map id (rows_of (database (after r))) = [1; 2; 3; 4; 5]%Z ∧
  output_of (outputs r) database_storage_task =
    Some (txt "Stored 5 job opportunities in database") ∧
  map (fun e => tool_of e.1.2) (log r) =
    [JobSearchTool; JobEvaluationTool; DatabaseTool; ReportGenerationTool] ∧
  map fst (files (after r)) = [txt "application_strategy.md"; txt "job_search_report.md"] ∧
  paused (after r) = 0.
Proof. vm_compute. repeat split. Qed.
