(* ===== verification/Cli.v ===== *)
(** * Cli: the command line

    [src/job_seeker/main.py]: the functions [run], [search_custom],
    [update_profile], [view_results], [train], [replay], [test] and [help],
    of which five read [sys.argv] themselves, and the dispatch at the end
    of the file.  What a function does is kept as the calls it makes to the
    crew, the notices it prints on its branches, and the way it ends
    ([ran]).  The crew is a parameter (a call returns or raises), and so
    are the profile file, the JSON decoder, of which only the first
    character of a JSON text is assumed ([Decoder]), and the file system:
    which files exist and the lines of a file that is read. *)

From Stdlib Require Import Ascii NArith ZArith QArith Lia.
From stdpp Require Import base list strings.
From S2P Require Import Prelude Text Json Data Search Report Pipeline.

(** ** The JSON decoder *)

(** The characters a JSON text may start with, after white space. *)
Definition json_start (s : text) : bool :=
  match drop_while (fun c => bool_decide (c ∈ [" "; "009"; "010"; "013"]%char)) s with
  | c :: _ => bool_decide (c ∈ ["{"; "["; "034"; "-"; "t"; "f"; "n"; "N"; "I"]%char) || is_digit c
  | [] => false
  end.

(** [json.loads]: the decoder is not part of the program.  It is [None]
    on [JSONDecodeError], which it raises on a text that does not start
    like a JSON value. *)
Class Decoder : Type := {
  json_loads : text → option json;
  json_loads_start s v : json_loads s = Some v → json_start s = true;
}.

(** ** [int] of a string *)

(** Digits with single underscores between them. *)
Fixpoint numeral_ok (after_digit : bool) (s : text) : bool :=
  match s with
  | [] => after_digit
  | c :: s' =>
      if is_digit c then numeral_ok true s'
      else if bool_decide (c = "_"%char) then after_digit && numeral_ok false s'
      else false
  end.

(** The white space [int] skips: that of C, without the separators 28 to
    31 that [str.strip] removes. *)
Definition int_space (c : ascii) : bool := in_range 9 13 c || bool_decide (c = " "%char).

Definition int_strip (s : text) : text :=
  reverse (drop_while int_space (reverse (drop_while int_space s))).

(** [int(s)]: white space around, a sign, a numeral; [ValueError]
    otherwise. *)
Definition int_of_text (s : text) : result Z :=
  let '(negative, numeral) :=
    match int_strip s with
    | "-"%char :: numeral => (true, numeral)
    | "+"%char :: numeral => (false, numeral)
    | numeral => (false, numeral)
    end in
  if numeral_ok false numeral then
    let n := Z.of_N (int_of_digits (filter (fun c => c ≠ "_"%char) numeral)) in
    Ok (if negative then (- n)%Z else n)
  else Raise ValueError.

(** ** What a function does *)

(** The calls to the crew. *)
Inductive call : Type :=
  | CrewKickoff (i : inputs)
  | CrewTrain (n_iterations : Z) (filename : text) (i : inputs)
  | CrewReplay (task_id : text)
  | CrewTest (n_iterations : Z) (eval_llm : text) (i : inputs).

(** The messages that tell a branch; banners and summaries are left out. *)
Inductive notice : Type :=
  | NoProfile
  | InvalidSites
  | NeedParameters
  | InvalidJSON
  | ErrorInCustomSearch (e : exn)
  | NeedTaskId
  | ProfileFileMissing
  | ProfileInstructions
  | FileFound (name : text)
  | FileMissing (name : text)
  | PreviewLine (line : text)
  | MoreLines (n : nat)
  | ReadError (e : exn)
  | HelpText
  | UnknownCommand (command : text).

(** How a function ends: it returns, an exception leaves it, or it raises
    [Exception(f"{message}: {e}")]. *)
Inductive outcome : Type :=
  | Returned
  | Uncaught (e : exn)
  | Wrapped (message : text) (e : exn).

Record ran : Type := Ran {
  calls : list call;
  notices : list notice;
  ended : outcome;
}.

(** ** Files *)

(** A file name: steps from the directory of [main.py], or a name in the
    working directory. *)
Inductive path : Type :=
  | FromPackage (steps : list text)
  | InWorkingDir (name : text).

(** [os.path.join(os.path.dirname(__file__), '..', 'knowledge',
    'resume_template.json')] *)
Definition update_profile_path : list text :=
  map txt [".."; "knowledge"; "resume_template.json"]%string.

(** The files [view_results] looks for. *)
Definition files_to_check : list text :=
  map txt ["job_search_report.md"; "application_strategy.md"; "job_opportunities.db"]%string.

(** The first 20 lines, without the white space at their ends, and the
    number of the lines left. *)
Definition preview (lines : list text) : list notice :=
  map (fun line => PreviewLine (rstrip line)) (take 20 lines) ++
  if (20 <? length lines)%nat then [MoreLines (length lines - 20)] else [].

(** Where steps lead from a directory: [..] is the parent. *)
Definition resolve (dir : list text) (steps : list text) : list text :=
  foldl (fun at_ step => if bool_decide (step = txt "..") then removelast at_ else at_ ++ [step])
        dir steps.

(** ** The functions *)

Section Main.
Context `{Decoder} (crew : call → result ()) (file : file_outcome).
Context (exists_ : path → bool) (read_lines : path → result (list text)).
Implicit Types (argv : list text) (p : profile) (d : profile_dict).

Definition update_profile : ran :=
  if exists_ (FromPackage update_profile_path) then Ran [] [ProfileInstructions] Returned
  else Ran [] [ProfileFileMissing] Returned.

Definition view_results : ran :=
  let report := InWorkingDir (txt "job_search_report.md") in
  Ran []
    (map (fun name => if exists_ (InWorkingDir name) then FileFound name else FileMissing name)
         files_to_check ++
     if exists_ report then
       match read_lines report with
       | Ok lines => preview lines
       | Raise e => [ReadError e]
       end
     else [])
    Returned.

Definition help : ran := Ran [] [HelpText] Returned.

(** [sys.argv[n]] *)
Definition arg (argv : list text) (n : nat) : text := default [] (argv !! n).

(** The profile summary [run] prints: the expected salary with
    thousands separators and the first five skills. *)
Definition summary (p : profile) : result () :=
  _ ← show_salary (expected_salary p);
  _ ← need TypeError (get (skills p) []);
  Ok ().

(** [run_job_search(user_profile, job_sites)]: the call made and what came
    of it. *)
Definition kickoff (d : profile_dict) (job_sites : option (list text))
    : list call * result () :=
  match run_job_search file (Some d) job_sites with
  | Ok None => ([], Ok ())
  | Ok (Some i) => ([CrewKickoff i], crew (CrewKickoff i))
  | Raise e => ([], Raise e)
  end.

(** The sites [run] takes from [sys.argv[1]]. *)
Definition custom_sites (argv : list text)
    : result (list notice * option (list text)) :=
  if (1 <? length argv)%nat then
    match json_loads (arg argv 1) with
    | None => Ok ([InvalidSites], None)
    | Some job_sites => sites ← strings_of job_sites; Ok ([], Some sites)
    end
  else Ok ([], None).

(** What a function that reads the profile before its [try] does with it:
    a profile file that cannot be read ends the function. *)
Definition with_profile (body : profile_dict → ran) : ran :=
  match load_user_profile file with
  | Raise e => Ran [] [] (Uncaught e)
  | Ok user_profile =>
      if is_empty user_profile then Ran [] [NoProfile] Returned else body user_profile
  end.

Definition run (argv : list text) : ran :=
  with_profile (fun user_profile =>
    match summary (keys user_profile) with
    | Raise e => Ran [] [] (Uncaught e)
    | Ok _ =>
        match custom_sites argv with
        | Raise e => Ran [] [] (Uncaught e)
        | Ok (told, job_sites) =>
            let '(called, r) := kickoff user_profile job_sites in
            match r with
            | Ok _ => Ran called told Returned
            | Raise e => Ran called told (Wrapped (txt "Job search failed") e)
            end
        end
    end).

(** [user_profile['custom_search'] = ...] *)
Definition set_custom_search (d : profile_dict) : profile_dict :=
  if bool_decide (txt "custom_search" ∈ others d) then d
  else ProfileDict (keys d) (others d ++ [txt "custom_search"]).

(** The body of [search_custom] between the profile and the search: the
    profile and the sites it goes on with. *)
Definition custom_search (custom_params : json) (d : profile_dict)
    : result (profile_dict * option (list text)) :=
  match custom_params with
  | JObj members =>
      let d' :=
        if is_Some_dec (obj_get (txt "search_query") members) then set_custom_search d
        else d in
      match obj_get (txt "job_sites") members with
      | Some job_sites =>
          if json_truthy job_sites
          then sites ← strings_of job_sites; Ok (d', Some sites)
          else Ok (d', None)
      | None => Ok (d', None)
      end
  | JArr items =>
      if existsb (fun item => match item with
                              | JStr s => bool_decide (s = txt "search_query")
                              | _ => false
                              end) items
      then Raise TypeError else Raise AttributeError
  | JStr s => if contains (txt "search_query") s then Raise TypeError else Raise AttributeError
  | _ => Raise TypeError
  end.

Definition search_custom (argv : list text) : ran :=
  if (length argv <? 2)%nat then Ran [] [NeedParameters] Returned
  else
    match json_loads (arg argv 1) with
    | None => Ran [] [InvalidJSON] Returned
    | Some custom_params =>
        match load_user_profile file with
        | Raise e => Ran [] [ErrorInCustomSearch e] Returned
        | Ok user_profile =>
            if is_empty user_profile then Ran [] [NoProfile] Returned
            else
              match custom_search custom_params user_profile with
              | Raise e => Ran [] [ErrorInCustomSearch e] Returned
              | Ok (user_profile, job_sites) =>
                  let '(called, r) := kickoff user_profile job_sites in
                  match r with
                  | Ok _ => Ran called [] Returned
                  | Raise e => Ran called [ErrorInCustomSearch e] Returned
                  end
              end
        end
    end.

(** The inputs of [train] and [test]: fixed sites, and the current role
    as the query. *)
Definition fixed_inputs (d : profile_dict) (sites : list string) : inputs :=
  Inputs d (map txt sites) (show (current_role (keys d)) "Software Engineer").

Definition train (argv : list text) : ran :=
  with_profile (fun user_profile =>
    let i := fixed_inputs user_profile ["indeed.com"; "linkedin.com/jobs"; "glassdoor.com"] in
    let failed := Wrapped (txt "An error occurred while training the crew") in
    match (if (1 <? length argv)%nat then int_of_text (arg argv 1) else Ok 3%Z) with
    | Raise e => Ran [] [] (failed e)
    | Ok n_iterations =>
        let filename :=
          if (2 <? length argv)%nat then arg argv 2 else txt "job_search_training.json" in
        let c := CrewTrain n_iterations filename i in
        match crew c with
        | Ok _ => Ran [c] [] Returned
        | Raise e => Ran [c] [] (failed e)
        end
    end).

Definition replay (argv : list text) : ran :=
  if (length argv <? 2)%nat then Ran [] [NeedTaskId] Returned
  else
    let c := CrewReplay (arg argv 1) in
    match crew c with
    | Ok _ => Ran [c] [] Returned
    | Raise e => Ran [c] [] (Wrapped (txt "An error occurred while replaying the crew") e)
    end.

Definition test (argv : list text) : ran :=
  with_profile (fun user_profile =>
    let i := fixed_inputs user_profile ["indeed.com"; "linkedin.com/jobs"] in
    let failed := Wrapped (txt "An error occurred while testing the crew") in
    match (if (1 <? length argv)%nat then int_of_text (arg argv 1) else Ok 2%Z) with
    | Raise e => Ran [] [] (failed e)
    | Ok n_iterations =>
        let eval_llm := if (2 <? length argv)%nat then arg argv 2 else txt "gpt-4" in
        let c := CrewTest n_iterations eval_llm i in
        match crew c with
        | Ok _ => Ran [c] [] Returned
        | Raise e => Ran [c] [] (failed e)
        end
    end).

(** [if __name__ == "__main__"]: the dispatch on [sys.argv[1]]. *)
Definition main (argv : list text) : ran :=
  if (length argv <? 2)%nat then run argv
  else
    let command := arg argv 1 in
    if bool_decide (command = txt "search_custom") then search_custom argv
    else if bool_decide (command = txt "update_profile") then update_profile
    else if bool_decide (command = txt "view_results") then view_results
    else if bool_decide (command = txt "train") then train argv
    else if bool_decide (command = txt "replay") then replay argv
    else if bool_decide (command = txt "test") then test argv
    else if bool_decide (command = txt "help") then help
    else Ran [] [UnknownCommand command] Returned.
End Main.

(** ** The command as its own argument *)

Section Dispatch.
Context `{Decoder} (crew : call → result ()) (file : file_outcome).
Context (exists_ : path → bool) (read_lines : path → result (list text)).
Implicit Types (argv rest : list text) (prog command : text).

Lemma arg_1 prog command rest : arg (prog :: command :: rest) 1 = command.
Proof. done. Qed.

(** The name of a command is no JSON text. *)
Lemma json_loads_search_custom : json_loads (txt "search_custom") = None.
Proof.
  destruct (json_loads (txt "search_custom")) as [v|] eqn:Hv; [|done].
  by apply json_loads_start in Hv.
Qed.

Lemma search_custom_command prog rest :
  search_custom crew file (prog :: txt "search_custom" :: rest) = Ran [] [InvalidJSON] Returned.
Proof.
  unfold search_custom. rewrite arg_1. cbn [length Nat.ltb Nat.leb].
  by rewrite json_loads_search_custom.
Qed.

Lemma train_command prog rest :
  train crew file (prog :: txt "train" :: rest) =
  with_profile file (fun _ =>
    Ran [] [] (Wrapped (txt "An error occurred while training the crew") ValueError)).
Proof. done. Qed.

Lemma test_command prog rest :
  test crew file (prog :: txt "test" :: rest) =
  with_profile file (fun _ =>
    Ran [] [] (Wrapped (txt "An error occurred while testing the crew") ValueError)).
Proof. done. Qed.

Lemma with_profile_Ok d body :
  load_user_profile file = Ok d → is_empty d = false → with_profile file body = body d.
Proof. unfold with_profile. by intros -> ->. Qed.

Lemma replay_command prog command rest :
  replay crew (prog :: command :: rest) = replay crew [prog; command].
Proof. done. Qed.

Lemma main_command prog command rest :
  main crew file exists_ read_lines (prog :: command :: rest) = main crew file exists_ read_lines [prog; command].
Proof.
  unfold main. rewrite !arg_1. cbn [length Nat.ltb Nat.leb].
  by repeat case_bool_decide; subst.
Qed.

(** Property C25: the dispatch at the end of [main.py] leaves the name of
    the command in [sys.argv[1]], where the functions look for their first
    argument.  So what follows the command on the command line is never
    used: [search_custom] always reports invalid JSON, [train] and [test]
    always fail on [int] of their own name before they reach the crew, and
    [replay] replays the task called "replay". *)
Theorem main_ignores_arguments prog command rest :
  main crew file exists_ read_lines (prog :: command :: rest) = main crew file exists_ read_lines [prog; command] ∧
  main crew file exists_ read_lines (prog :: txt "search_custom" :: rest) = Ran [] [InvalidJSON] Returned ∧
  (∀ d, load_user_profile file = Ok d → is_empty d = false →
   main crew file exists_ read_lines (prog :: txt "train" :: rest) =
     Ran [] [] (Wrapped (txt "An error occurred while training the crew") ValueError) ∧
   main crew file exists_ read_lines (prog :: txt "test" :: rest) =
     Ran [] [] (Wrapped (txt "An error occurred while testing the crew") ValueError)) ∧
  calls (main crew file exists_ read_lines (prog :: txt "replay" :: rest)) = [CrewReplay (txt "replay")].
Proof.
  split_and!; [apply main_command | apply search_custom_command | |].
  - intros d Hd He. pose proof (train_command prog rest) as Ht.
    pose proof (test_command prog rest) as Hs.
    rewrite (with_profile_Ok d) in Ht, Hs by done. done.
  - unfold main, replay. rewrite !arg_1. simpl. by destruct (crew _).
Qed.
End Dispatch.

(** ** The functions entered directly *)

Section Entries.
Context `{Decoder} (crew : call → result ()) (file : file_outcome).
Implicit Types (argv : list text) (d : profile_dict) (c : call).

Lemma kickoff_calls d job_sites c :
  c ∈ (kickoff crew file d job_sites).1 →
  ∃ i, c = CrewKickoff i ∧ user_profile i = d ∧ search_query i = query_of (keys d).
Proof.
  unfold kickoff, run_job_search. simpl. destruct (is_empty d); simpl.
  - by intros ?%elem_of_nil.
  - intros ->%list_elem_of_singleton. eauto.
Qed.

Lemma set_custom_search_keys d : keys (set_custom_search d) = keys d.
Proof. unfold set_custom_search. by case_bool_decide. Qed.

(** The custom parameters change the sites and add a key that nothing
    reads; the keys of the profile stay. *)
Lemma custom_search_keys custom_params d d' job_sites :
  custom_search custom_params d = Ok (d', job_sites) → keys d' = keys d.
Proof.
  unfold custom_search. intros Hc.
  destruct custom_params as [| | | |items|members]; try done;
    [by destruct (contains _ _) | by destruct (existsb _ _) |].
  assert (∀ e : profile_dict, e = d ∨ e = set_custom_search d → keys e = keys d) as Hk
    by (intros e [->| ->]; [done | apply set_custom_search_keys]).
  destruct (is_Some_dec _), (obj_get (txt "job_sites") members) as [v|];
    try destruct (json_truthy v); try destruct (strings_of v); simplify_eq/=;
    apply Hk; auto.
Qed.

(** Property C31: [search_custom] never raises, and a search it starts has
    the query of the profile (current role and first skill): the
    [search_query] of the custom parameters is stored in the profile under
    a key that nothing reads, so it changes no search. *)
Theorem search_custom_query_unused argv :
  ended (search_custom crew file argv) = Returned ∧
  ∀ c, c ∈ calls (search_custom crew file argv) →
    ∃ i d, c = CrewKickoff i ∧ load_user_profile file = Ok d ∧
           keys (user_profile i) = keys d ∧ search_query i = query_of (keys d).
Proof.
  unfold search_custom. destruct (_ <? _)%nat; [by split; [|intros c ?%elem_of_nil]|].
  destruct (json_loads _) as [custom_params|]; [|by split; [|intros c ?%elem_of_nil]].
  destruct (load_user_profile file) as [d|e]; [|by split; [|intros c ?%elem_of_nil]].
  destruct (is_empty _); [by split; [|intros c ?%elem_of_nil]|].
  destruct (custom_search _ _) as [[d' job_sites]|e] eqn:Hc;
    [|by split; [|intros c ?%elem_of_nil]].
  apply custom_search_keys in Hc. pose proof (kickoff_calls d' job_sites) as Hk.
  destruct (kickoff crew file d' job_sites) as [called [|e]]; simpl in *;
    (split; [done|]); intros c (i & -> & Hi & Hq)%Hk; exists i, d; by rewrite Hi, Hq, Hc.
Qed.

(** Property C33: [run] prints the expected salary with thousands
    separators and joins the skills before it starts the search, outside
    its [try]: with a profile that has no expected salary, a [null] one,
    or [null] skills, it ends in an exception and no search is made. *)
Theorem run_summary_raises argv d :
  load_user_profile file = Ok d → is_empty d = false →
  let p := keys d in
  (expected_salary p = Absent → run crew file argv = Ran [] [] (Uncaught ValueError)) ∧
  (expected_salary p = Null → run crew file argv = Ran [] [] (Uncaught TypeError)) ∧
  (∀ z, expected_salary p = Val z → skills p = Null →
        run crew file argv = Ran [] [] (Uncaught TypeError)).
Proof.
  intros Hd He p. unfold run, summary. rewrite (with_profile_Ok file d) by done. fold p.
  split_and!; [intros -> | intros -> | intros z -> ->]; done.
Qed.
End Entries.

(** ** Concrete runs *)

Definition quoted (s : text) : text := dquote ++ s ++ dquote.

(** Custom parameters: an object with the one key [search_query]. *)
Definition ex_params : text :=
  txt "{" ++ quoted (txt "search_query") ++ txt ": " ++ quoted (txt "AI Engineer") ++ txt "}".

(** A decoder that knows this one text. *)
Definition ex_decoder : Decoder.
Proof.
  refine {| json_loads s :=
              if bool_decide (s = ex_params)
              then Some (JObj [(txt "search_query", JStr (txt "AI Engineer"))])
              else None |}.
  intros s v. case_bool_decide; [by subst | done].
Defined.

(** A crew whose calls return. *)
Definition ex_crew : call → result () := fun _ => Ok ().

Definition ex_dict : profile_dict :=
  ProfileDict (Profile (Val (txt "Ann")) (Val (txt "Engineer")) (Val 5%Z) (Val [txt "python"])
                 (Val [txt "Remote"]) (Val 150000%Z) Absent) [].

(** The same profile without its expected salary. *)
Definition ex_dict_no_salary : profile_dict :=
  ProfileDict (Profile (Val (txt "Ann")) (Val (txt "Engineer")) (Val 5%Z) (Val [txt "python"])
                 (Val [txt "Remote"]) Absent Absent) [].

(** Entered directly with custom parameters, [search_custom] starts the
    search for the role and skill of the profile, not for "AI Engineer". *)
Example search_custom_example :
  @search_custom ex_decoder ex_crew (Decoded ex_dict) [txt "search_custom"; ex_params] =
  Ran [CrewKickoff (Inputs (ProfileDict (keys ex_dict) [txt "custom_search"]) crew_sites
                      (txt "Engineer python"))] [] Returned.
Proof. vm_compute. reflexivity. Qed.

(** Through the dispatch the same command line reports invalid JSON. *)
Example main_example :
  @main ex_decoder ex_crew (Decoded ex_dict) (fun _ => false) (fun _ => Ok [])
    [txt "main.py"; txt "search_custom"; ex_params] =
  Ran [] [InvalidJSON] Returned.
Proof. vm_compute. reflexivity. Qed.

Lemma run_summary_raises_witness :
  (expected_salary (keys ex_dict_no_salary) = Absent →
   @run ex_decoder ex_crew (Decoded ex_dict_no_salary) [txt "main.py"] =
     Ran [] [] (Uncaught ValueError)) ∧
  (expected_salary (keys ex_dict_no_salary) = Null →
   @run ex_decoder ex_crew (Decoded ex_dict_no_salary) [txt "main.py"] =
     Ran [] [] (Uncaught TypeError)) ∧
  (∀ z, expected_salary (keys ex_dict_no_salary) = Val z →
        skills (keys ex_dict_no_salary) = Null →
        @run ex_decoder ex_crew (Decoded ex_dict_no_salary) [txt "main.py"] =
          Ran [] [] (Uncaught TypeError)).
Proof.
  apply (@run_summary_raises ex_decoder ex_crew (Decoded ex_dict_no_salary) [txt "main.py"]
           ex_dict_no_salary); reflexivity.
Defined.

(** A profile file that cannot be read ends [run], [train] and [test];
    [search_custom] reports it and returns. *)
Example unreadable_profile :
  @run ex_decoder ex_crew (OtherError OSError) [txt "main.py"] = Ran [] [] (Uncaught OSError) ∧
  train ex_crew (OtherError OSError) [txt "main.py"] = Ran [] [] (Uncaught OSError) ∧
  @search_custom ex_decoder ex_crew (OtherError OSError) [txt "search_custom"; ex_params] =
    Ran [] [ErrorInCustomSearch OSError] Returned.
Proof. vm_compute. repeat split. Qed.

(** ** The commands that look at files *)

Section Files.
Context (exists_ : path → bool) (read_lines : path → result (list text)).
Implicit Types (lines : list text) (dir : list text).

Lemma length_removelast {A} (l : list A) : length (removelast l) = pred (length l).
Proof.
  rewrite removelast_firstn_len, length_take. lia.
Qed.

Lemma resolve_update_profile_path dir :
  resolve dir update_profile_path =
  removelast dir ++ [txt "knowledge"; txt "resume_template.json"].
Proof. unfold resolve. simpl. by rewrite <-app_assoc. Qed.

Lemma resolve_profile_path dir :
  resolve dir profile_path =
  removelast (removelast dir) ++ [txt "knowledge"; txt "resume_template.json"].
Proof. unfold resolve. simpl. by rewrite <-app_assoc. Qed.

Lemma preview_length lines : length (preview lines) ≤ 21.
Proof.
  unfold preview. rewrite length_app, length_map, length_take.
  destruct (20 <? length lines)%nat; cbn [length]; lia.
Qed.

(** Property C32: the commands that look at files.  [view_results] tells for
    each of its three files whether it is there, in the order of the
    list, which holds the output file of every task; of a report that can
    be read it shows the first 20 lines, without the white space at their
    ends, and then the number of the lines left, if any.
    [update_profile] looks for the profile one directory above the
    package, which is not where [load_user_profile] reads it: two
    directories above. *)
Theorem file_commands_spec :
  (∀ t name, output_file t = Some name → name ∈ files_to_check) ∧
  (∃ listing,
     length listing = 3 ∧
     (∀ (k : nat) name, files_to_check !! k = Some name →
        listing !! k = Some (if exists_ (InWorkingDir name)
                             then FileFound name else FileMissing name)) ∧
     ∀ lines,
       exists_ (InWorkingDir (txt "job_search_report.md")) = true →
       read_lines (InWorkingDir (txt "job_search_report.md")) = Ok lines →
       notices (view_results exists_ read_lines) =
         listing ++ map (fun line => PreviewLine (rstrip line)) (take 20 lines) ++
         (if (20 <? length lines)%nat then [MoreLines (length lines - 20)] else []) ∧
       length (notices (view_results exists_ read_lines)) ≤ 24) ∧
  (∀ dir, 2 ≤ length dir →
     resolve dir update_profile_path ≠ resolve dir profile_path).
Proof.
  split_and!.
  - intros [] name [= <-]; unfold files_to_check; simpl; rewrite !elem_of_cons; auto.
  - eexists. split_and!; [| |intros lines He Hr; unfold view_results; rewrite He, Hr; split;
      [reflexivity|]].
    + done.
    + intros [|[|[|k]]] name [= <-]; done.
    + cbn [notices]. rewrite length_app, length_map. pose proof (preview_length lines).
      cbn [length files_to_check map]. lia.
  - intros dir Hd. rewrite resolve_update_profile_path, resolve_profile_path.
    intros E%app_inv_tail%(f_equal length). rewrite !length_removelast in E. lia.
Qed.
End Files.
